(* ===== verification/_CoqProject ===== *)
-Q . S2P
Prelude.v
Console.v
RingBuf.v
Mmap.v
BootMem.v
Multiboot.v
Fdt.v
Bitmap.v
BootRam.v
Pages.v
Slab.v
Ipc.v
Process.v
Userspace.v
Net.v
SlotAsm.v
RiscvAsm.v
X86Asm.v
Context.v
RiscvContext.v
RiscvTrap.v
Gdt.v
ArmAsm.v
ArmContext.v
ArmTrap.v
ArmBoot.v
X86Entry.v
PageTable.v
Paging.v
ArmPaging.v
PagingSpec.v
Elf.v
ElfSpec.v
RamFs.v
RamFsPaths.v
RamFsSpec.v
Fs.v
AbiStack.v
Kernel.v
Scheduler.v
Drivers.v
Pic.v
Syscall.v
ShellLine.v
ShellLineSpec.v
Shell.v
Interrupts.v
Boot.v
Arch.v
RiscvArch.v
SchedulerSpec.v
TaskLife.v
Faults.v
Invariants.v
SystemInv.v
ShellSpec.v
PipeCalls.v
RiscvHandler.v
ArmHandler.v
Devices.v
DevicesSpec.v
Machine.v
SyscallSpec.v
InitShell.v
