(* ===== verification/Prelude.v ===== *)
(** * Ferrugem: a verification library of the kernel

    Ferrugem is a small operating system kernel in Rust for x86_64, RISC-V and AArch64 (src/kernel/).
    This library translates the kernel into Rocq definitions, function by function, and proves what
    makes its parts correct, alone and together.  It covers the x86_64 and RISC-V kernels from the memory map the
    firmware leaves to the commands of the shell, the AArch64 port as far as it goes, and the programming of the
    devices.

    ** How the program is put together

    At boot a memory map is parsed and the frame allocator is set up on its largest region; pages feed
    the heap, the page tables and the stacks of tasks.  The scheduler owns the tasks: it creates them
    from kernel functions, flat programs or ELF files, switches between them, delivers signals, and
    lets them wait on the terminal, on pipes, on children and on the clock.  System calls and interrupts
    enter through assembly stubs; the handlers act on the scheduler, the pipe pool, the RAM file
    system and the drivers.  A shell runs as a kernel task.

    ** The files

    - This file: panics ([outcome]), machine integers with their wrap-around, lists and bytes, the
      tactics and hints the other files share.
    - Boot memory: Mmap (memory/mmap.rs), BootMem, Multiboot (boards/qemu_pc/multiboot.rs), Fdt
      (boards/qemu_virt_riscv64/fdt.rs), Bitmap (memory/bitmap.rs), BootRam (the two together), Pages
      (memory/mod.rs, memory/bump.rs), Slab (memory/slab.rs, memory/heap.rs).
    - Data of the kernel: RingBuf (drivers/ring_buf.rs), Ipc (ipc/mod.rs), Process (process/mod.rs),
      Userspace (userspace/mod.rs), Net (net/), RamFs with RamFsPaths and RamFsSpec (vfs/),
      Fs (fs/mod.rs), Console (boards/qemu_pc/console.rs).
    - Address spaces: PageTable (the theory of radix tables), Paging (arch/x86_64/paging.rs in Module X86,
      arch/riscv64/paging.rs in Module Sv39), PagingSpec, Elf and ElfSpec (elf/mod.rs).
    - Assembly: X86Asm, RiscvAsm and ArmAsm (three small machines), SlotAsm (saving registers to the words of
      a frame and loading them, for any machine), Context (arch/x86_64/context.rs), RiscvContext
      (arch/riscv64/context.rs, Module Rv), ArmContext (arch/aarch64/context.rs, Module Arm), X86Entry (the stubs of
      arch/x86_64/idt.rs), RiscvTrap (the stub of arch/riscv64/trap.rs), ArmTrap (the vectors of
      arch/aarch64/exceptions.rs), ArmBoot (arch/aarch64/boot.rs, on a machine of its own with exception levels).
    - Tables the processor reads: Gdt (arch/x86_64/gdt.rs and [setup_syscall] of arch/x86_64/mod.rs), ArmPaging
      (arch/aarch64/paging.rs and the constants of the AArch64 boards).
    - Devices: Drivers (the parts of drivers/ that touch the kernel's state), Pic (boards/qemu_pc/pic.rs), Devices
      (the programs of the serial lines, timers, keyboard controller, pins and interrupt controllers, over any
      device) and DevicesSpec (the devices, and what the programs make of them).
    - The kernel's state and code: Kernel (the statics as a record, the monad [KM], [ArchOps]),
      AbiStack and Scheduler (scheduler/mod.rs), Syscall (syscall/mod.rs),
      ShellLine and Shell (shell/), Interrupts (the handlers of idt.rs), RiscvHandler (the handler
      of trap.rs and boards/qemu_virt_riscv64/plic.rs), ArmHandler (the handlers of
      exceptions.rs and of the AArch64 interrupt controllers), Boot (init/mod.rs), Arch and RiscvArch (arch/mod.rs).
    - Userspace: InitShell (src/userspace/init/src/main.rs, Module Init).
    - Proofs about the kernel: SchedulerSpec, TaskLife, Faults, Invariants, SystemInv, ShellLineSpec,
      ShellSpec, PipeCalls, SyscallSpec, and Machine, where the parts meet.

    ** How the code is modelled

    Code that can panic returns an [outcome]; an index, a slice or an unwrap that fails is [Panic].
    Statics and [&mut] parameters are state passed along; from Scheduler.v on that state is the record [kernel] and
    the code is written in the monad [KM].  Integers are Z with their width: [uadd], [umul] and
    [wrap] wrap as a release build does.  Physical memory is a function from addresses to bytes; a word is
    read and written byte by byte.  Assembly is a list of instructions run by a machine.
    A call that gives up the processor in the middle (a read that waits, a wait for a child, a sleep)
    ends with [Again c], and [continue_call c] is the rest of it when its task runs next, so
    the calls of different tasks interleave in the model as they do on the processor.
    Registers of devices, the clock, addresses the linker chooses and the contents of the ELF file of the
    userspace init are arguments.  The userspace init is a program over what the standard library asks of the
    system, the class [Os] (InitShell.v).

    ** Interfaces

    [PageOps] and [PageLaws] (Pages.v): what the page allocator offers, and that pages handed out are
    aligned, not null and disjoint.  The heap, the page tables and the loader are proved against it, and Pages.v
    discharges it for the allocator of the kernel.  [PtFormat] and [PtFormatOk] (PageTable.v, PagingSpec.v): the
    entries of a page table, for x86_64 and for Sv39.  [VmOps] (Paging.v) with its laws (PagingSpec.v): the
    operations on address spaces; the ELF loader and the page-fault handler are proved for both.
    [ArchOps] (Kernel.v): the stacks, the registers and the address translation of an architecture; Arch.v and
    RiscvArch.v are its instances, and everything from Scheduler.v on is written for any of them.
    [Device] (Devices.v): what can be read from and written to; the drivers' programs are written over it, and
    DevicesSpec.v gives the devices as instances, and an instance that counts the accesses of any device.
    [FileSystem] (RamFs.v): the trait of vfs/mod.rs, with the RAM file system as its instance.

    ** What is proved

    - Machine.v: in every state a booted kernel reaches, under any sequence of system calls, interrupts,
      faults, traps, switches and shell input, the invariant of the kernel holds (types and bounds of all tables,
      unique process ids, well-formed pipes, files, rings and screen), and every open descriptor can be used
      without a panic.  The lemmas behind it, one per operation, are in Invariants, SystemInv, ShellSpec and
      RiscvHandler.
    - Memory: what the parsers read is what the firmware describes; free frames are RAM beyond the kernel
      image; allocations of pages and of heap blocks never overlap; statistics are exact.
    - Address spaces: mapping changes one translation in one space; a loaded ELF file shows exactly its
      image; a page fault maps one zero page.
    - Assembly: a switch saves and restores a task; the stacks of new tasks start where they should;
      interrupts, traps and system calls preserve what they promise.
    - Processor tables and devices: the selectors find the segments they should; the AArch64 map is the identity with
      device memory where the board has devices; after the boot of a PC the interrupt controllers, the
      serial line, the keyboard and the timer are set up as the drivers rely on; the boot of AArch64 reaches [_start]
      from every exception level, with zeroed data.
    - The userspace init: redirections and [cat] agree, a session ends with its input.
    - Tasks: [schedule] is round robin and fair; exit, wait, fork and execve have their effect on every branch.
    - Files, pipes, rings, the screen and the line editor are refined to or equal to reference definitions
      (streams of bytes, queues, a terminal, a list of lines); written data is what is read back; permissions hold.
    - Errors: the theorems named after a defect state what the code does where it differs from what it means to do
      (a shared static, a lost reference, a register that is not restored).

    ** Bounds and fuel

    Sizes are those of the code: 64 inodes of 4096 bytes, 64 tasks, 16 descriptors, 8 pipes, 32 regions.  Loops whose
    number of rounds is not structural have fuel, and theorems show it to be enough: the scan
    of [alloc_frames] (one round per frame and one more), the table of the multiboot loader (one round per 24 bytes
    and one more), and the device tree (one round per token, with the fuel also for names; the code itself does not bound
    this walk, so the theorem is about trees).  Runs of the machine create fewer than 2^64
    processes.  Busy waits on devices have a bound on the reads: the driver's own for the keyboard controller (a theorem counts
    its accesses for any device), an argument for the serial lines.  The boot of AArch64 is a number of instructions that exists.
    Steps are whole calls up to a switch of tasks, and a key of the shell with
    the command it completes is one step: on one processor the kernel runs these with interrupts off, except the shell
    and the demo tasks, whose interleaving inside a command is not modelled.

    ** Not modelled

    The boot assembly of x86_64 and RISC-V (boot.s); the instructions that load control registers and descriptor
    tables and flush the TLB: what they load is modelled, and a translation is what a walk of the tables gives; the calls of
    the parts in order on RISC-V and AArch64 ([early_init]); the UTF-8 replacement of names for display;
    build.rs; boards/virtualbox, a copy of qemu_pc.  On a PC an interrupt that arrives while the
    drivers are being set up is not modelled.  Compiled Rust code that a stub calls is a
    function on the machine that keeps what the calling convention says. *)
From Stdlib Require Import ZArith Lia.
From Stdlib Require Import Ascii String.
From stdpp Require Import base option list numbers.

Declare Scope kernel_scope.
Delimit Scope kernel_scope with kernel.
Local Open Scope Z_scope.

(** ** Rust panics

    An array index out of range, a slice of the wrong length or an [unwrap] of
    [None] stops the kernel ([main.rs] halts in its panic handler).  A piece of
    code that can do that returns an [outcome]. *)
Inductive outcome (A : Type) : Type :=
| Done (a : A)
| Panic.
Arguments Done {A} a.
Arguments Panic {A}.

#[export] Instance outcome_ret : MRet outcome := fun A a => Done a.
#[export] Instance outcome_bind : MBind outcome :=
  fun A B f m => match m with Done a => f a | Panic => Panic end.
#[export] Instance outcome_fmap : FMap outcome :=
  fun A B f m => match m with Done a => Done (f a) | Panic => Panic end.

(** The value of an outcome that is not a panic, for use in witnesses. *)
Definition is_done {A} (m : outcome A) : bool :=
  match m with Done _ => true | Panic => false end.

Definition unwrap {A} (o : option A) : outcome A :=
  match o with Some a => Done a | None => Panic end.

(** [l[i]] as a value and as a place; both panic out of range. *)
Definition get {A} (l : list A) (i : nat) : outcome A := unwrap (l !! i).
Definition set {A} (l : list A) (i : nat) (x : A) : outcome (list A) :=
  if decide (i < length l)%nat then Done (<[i := x]> l) else Panic.

(** [&l[a..b]], and [l[a..b].copy_from_slice(src)]. *)
Definition slice {A} (l : list A) (a b : nat) : outcome (list A) :=
  if decide (a <= b /\ b <= length l)%nat then Done (take (b - a) (drop a l)) else Panic.
Definition blit {A} (l : list A) (a b : nat) (src : list A) : outcome (list A) :=
  if decide ((a <= b /\ b <= length l) /\ length src = b - a)%nat
  then Done (take a l ++ src ++ drop b l) else Panic.

(** [for x in xs { s = f(s, x) }] *)
Fixpoint foldM {S X} (f : S -> X -> outcome S) (s : S) (xs : list X) : outcome S :=
  match xs with
  | [] => Done s
  | x :: xs => s' ← f s x; foldM f s' xs
  end.

(** ** Machine integers

    Values of [u8 .. u64]/[usize] are integers in [0, 2^w).  The kernel is built
    with [cargo build --release] (Makefile), whose profile leaves overflow checks
    off: the plain operators wrap.  All targets are 64-bit. *)
Definition wrap (w z : Z) : Z := z mod 2 ^ w.
Definition usize_max : Z := 2 ^ 64 - 1.
Definition uadd (a b : Z) : Z := wrap 64 (a + b).
Definition usub (a b : Z) : Z := wrap 64 (a - b).
Definition umul (a b : Z) : Z := wrap 64 (a * b).
Definition checked_add (a b : Z) : option Z :=
  if a + b <=? usize_max then Some (a + b) else None.
Definition checked_mul (a b : Z) : option Z :=
  if a * b <=? usize_max then Some (a * b) else None.
Definition checked_sub (a b : Z) : option Z :=
  if b <=? a then Some (a - b) else None.
Definition saturating_add (a b : Z) : Z := Z.min usize_max (a + b).
Definition saturating_sub (a b : Z) : Z := Z.max 0 (a - b).

(** Reading a 64-bit pattern as [i64]/[isize], and back. *)
Definition to_signed (w z : Z) : Z := if z <? 2 ^ (w - 1) then z else z - 2 ^ w.
Definition as_i64 (z : Z) : Z := to_signed 64 (wrap 64 z).
Definition as_u64 (z : Z) : Z := wrap 64 z.

(** [x & !0xFFF] *)
Definition align_down (z : Z) : Z := Z.land z (Z.lnot 0xFFF).

(** ** Bytes and byte order *)
Abbreviation bytes := (list Z).

Definition to_be16 (v : Z) : bytes := [Z.shiftr v 8 mod 256; v mod 256].
Definition from_be16 (a b : Z) : Z := a * 256 + b.
Definition from_be32 (a b c d : Z) : Z := ((a * 256 + b) * 256 + c) * 256 + d.

Fixpoint to_le (n : nat) (v : Z) : bytes :=
  match n with O => [] | S n => v mod 256 :: to_le n (v / 256) end.
Fixpoint from_le (l : bytes) : Z :=
  match l with [] => 0 | b :: l => b + 256 * from_le l end.

(** The bytes of a string literal. *)
Fixpoint str (s : string) : bytes :=
  match s with
  | EmptyString => []
  | String c s => Z.of_N (N_of_ascii c) :: str s
  end.
Arguments str _%_string_scope.
Export StringSyntax.

(** ** Physical memory

    The kernel runs identity-mapped: a physical address is a kernel pointer.
    Memory is a byte at each address; 64-bit accesses are little-endian. *)
Definition mem := Z -> Z.

Definition write_bytes (m : mem) (base : Z) (v n : Z) : mem :=
  fun a => if (base <=? a) && (a <? base + n) then v else m a.
Definition copy_bytes (m : mem) (dst : Z) (src : Z -> Z) (n : Z) : mem :=
  fun a => if (dst <=? a) && (a <? dst + n) then src (a - dst) else m a.
Definition load64 (m : mem) (a : Z) : Z :=
  from_le ((fun i => m (a + Z.of_nat i)) <$> seq 0 8).
Definition store64 (m : mem) (a v : Z) : mem :=
  fun x => if (a <=? x) && (x <? a + 8) then Z.shiftr v (8 * (x - a)) mod 256 else m x.

(** ** Blocks of memory: a base address and a length *)
Definition disjoint (x y : Z * Z) : Prop := x.1 + x.2 <= y.1 \/ y.1 + y.2 <= x.1.
(** Pairwise disjoint blocks. *)
Fixpoint sep (l : list (Z * Z)) : Prop :=
  match l with [] => True | x :: l => Forall (disjoint x) l /\ sep l end.
Definition in_block (x : Z * Z) (a : Z) : Prop := x.1 <= a < x.1 + x.2.

(** ** Automation *)

(** Invert equations between outcomes and options. *)
Ltac done_inv := simplify_eq.

(** Reduce the monad's operations in the goal. *)
Ltac mred := cbn [mbind outcome_bind mret outcome_ret fmap outcome_fmap unwrap].
Ltac mred_in H := cbn [mbind outcome_bind mret outcome_ret fmap outcome_fmap unwrap] in H.

(** Case analysis on the boolean tests of Z arithmetic, as propositions. *)
Ltac ztest :=
  repeat match goal with
  | |- context [?a <? ?b] => destruct (Z.ltb_spec a b)
  | |- context [?a <=? ?b] => destruct (Z.leb_spec a b)
  | |- context [?a =? ?b] => destruct (Z.eqb_spec a b)
  | H : context [?a <? ?b] |- _ => destruct (Z.ltb_spec a b)
  | H : context [?a <=? ?b] |- _ => destruct (Z.leb_spec a b)
  | H : context [?a =? ?b] |- _ => destruct (Z.eqb_spec a b)
  end.

Create HintDb kernel.

(** ** Lemmas on outcomes, arrays and slices *)

Lemma bind_Done {A B} (m : outcome A) (f : A -> outcome B) b :
  m ≫= f = Done b <-> exists a, m = Done a /\ f a = Done b.
Proof. destruct m; split; cbn; naive_solver. Qed.

Lemma get_Some {A} (l : list A) i x : l !! i = Some x -> get l i = Done x.
Proof. unfold get. by intros ->. Qed.

Lemma get_Done {A} (l : list A) i x : get l i = Done x <-> l !! i = Some x.
Proof. unfold get, unwrap. destruct (l !! i); naive_solver. Qed.

Lemma get_lt {A} (l : list A) i : (i < length l)%nat -> exists x, get l i = Done x /\ l !! i = Some x.
Proof.
  intros [x Hx]%lookup_lt_is_Some. exists x. split; [by apply get_Some | done].
Qed.

Lemma set_lt {A} (l : list A) i x : (i < length l)%nat -> set l i x = Done (<[i := x]> l).
Proof. intros. unfold set. by rewrite decide_True. Qed.

Lemma set_Done {A} (l l' : list A) i x :
  set l i x = Done l' <-> (i < length l)%nat /\ l' = <[i := x]> l.
Proof. unfold set. case_decide; naive_solver. Qed.

Lemma slice_ok {A} (l : list A) a b :
  (a <= b <= length l)%nat -> slice l a b = Done (take (b - a) (drop a l)).
Proof. intros. unfold slice. rewrite decide_True; [done | lia]. Qed.

Lemma slice_0 {A} (l : list A) n : (n <= length l)%nat -> slice l 0 n = Done (take n l).
Proof. intros. rewrite slice_ok by lia. by rewrite Nat.sub_0_r, drop_0. Qed.

Lemma blit_ok {A} (l : list A) a b src :
  (a <= b <= length l)%nat -> length src = (b - a)%nat ->
  blit l a b src = Done (take a l ++ src ++ drop b l).
Proof. intros. unfold blit. rewrite decide_True; [done | lia]. Qed.

Lemma blit_length {A} (l l' : list A) a b src : blit l a b src = Done l' -> length l' = length l.
Proof.
  unfold blit. case_decide; intros; done_inv.
  rewrite !length_app, length_take, length_drop. lia.
Qed.

(** An invariant of a loop: when every iteration keeps [P] (indexed by the
    number of iterations done) and does not panic, the loop ends in [P]. *)
Lemma foldM_ind {S X} (P : nat -> S -> Prop) (f : S -> X -> outcome S) (xs : list X) :
  forall (k : nat) (s : S),
  P k s ->
  (forall i x s, xs !! i = Some x -> P (k + i)%nat s -> exists s', f s x = Done s' /\ P (k + Datatypes.S i)%nat s') ->
  exists s', foldM f s xs = Done s' /\ P (k + length xs)%nat s'.
Proof.
  induction xs as [|x xs IH]; intros k s HP Hf; cbn [foldM length].
  - exists s. by rewrite Nat.add_0_r.
  - destruct (Hf O x s) as (s' & Hs' & HP'); [done | by rewrite Nat.add_0_r |].
    rewrite Hs'; mred.
    destruct (IH (k + 1)%nat s') as (s'' & Hs'' & HP'').
    + exact HP'.
    + intros i y t Hi Ht. destruct (Hf (Datatypes.S i) y t) as (t' & ? & ?); [done | |].
      * by replace (k + Datatypes.S i)%nat with (k + 1 + i)%nat by lia.
      * exists t'. split; [done|]. by replace (k + 1 + Datatypes.S i)%nat with (k + Datatypes.S (Datatypes.S i))%nat by lia.
    + exists s''. split; [done|]. by replace (k + Datatypes.S (length xs))%nat with (k + 1 + length xs)%nat by lia.
Qed.

Lemma foldM_app {S X} (f : S -> X -> outcome S) s xs ys :
  foldM f s (xs ++ ys) = foldM f s xs ≫= fun s' => foldM f s' ys.
Proof.
  revert s. induction xs as [|x xs IH]; intros s; cbn [foldM app]; [done|].
  destruct (f s x) eqn:E; mred; [apply IH | done].
Qed.

(** ** Total correctness

    [runs m Q]: [m] does not panic and its result satisfies [Q]. *)
Definition runs {A} (m : outcome A) (Q : A -> Prop) : Prop :=
  match m with Done a => Q a | Panic => False end.

Lemma runs_Done {A} (m : outcome A) Q : runs m Q <-> exists a, m = Done a /\ Q a.
Proof. destruct m; cbn; naive_solver. Qed.
Lemma runs_mono {A} (m : outcome A) (Q R : A -> Prop) : runs m Q -> (forall a, Q a -> R a) -> runs m R.
Proof. destruct m; cbn; auto. Qed.
Lemma runs_eq {A} (m : outcome A) (Q : A -> Prop) a : m = Done a -> runs m Q -> Q a.
Proof. by intros ->. Qed.
Lemma runs_bind {A B} (m : outcome A) (f : A -> outcome B) Q :
  runs m (fun a => runs (f a) Q) -> runs (m ≫= f) Q.
Proof. by destruct m. Qed.
Lemma runs_get {A} (l : list A) i (Q : A -> Prop) :
  (i < length l)%nat -> (forall x, l !! i = Some x -> Q x) -> runs (get l i) Q.
Proof. intros Hi HQ. destruct (get_lt l i Hi) as (x & -> & Hx). by apply HQ. Qed.
Lemma runs_set {A} (l : list A) i x (Q : list A -> Prop) :
  (i < length l)%nat -> Q (<[i := x]> l) -> runs (set l i x) Q.
Proof. intros. by rewrite set_lt. Qed.
Lemma runs_slice {A} (l : list A) a b (Q : list A -> Prop) :
  (a <= b <= length l)%nat -> Q (take (b - a) (drop a l)) -> runs (slice l a b) Q.
Proof. intros. by rewrite slice_ok. Qed.
Lemma runs_blit {A} (l : list A) a b src (Q : list A -> Prop) :
  (a <= b <= length l)%nat -> length src = (b - a)%nat -> Q (take a l ++ src ++ drop b l) -> runs (blit l a b src) Q.
Proof. intros. by rewrite blit_ok. Qed.
Lemma runs_foldM {S X} (P : nat -> S -> Prop) (f : S -> X -> outcome S) xs s (Q : S -> Prop) :
  P O s -> (forall i x s, xs !! i = Some x -> P i s -> runs (f s x) (P (Datatypes.S i))) ->
  (forall s, P (length xs) s -> Q s) -> runs (foldM f s xs) Q.
Proof.
  intros H0 Hstep HQ. destruct (foldM_ind P f xs O s H0) as (s' & -> & Hs').
  - intros i x t Hi Ht. specialize (Hstep i x t Hi Ht). by apply runs_Done in Hstep.
  - by apply HQ.
Qed.

(** Step through straight-line code; side conditions on lengths are left. *)
Ltac rstep :=
  lazymatch goal with
  | |- runs (mbind _ _) _ => apply runs_bind
  | |- runs (Done _) _ => cbn [runs]
  | |- runs (get _ _) _ => apply runs_get; [|intros ? ?]
  | |- runs (set _ _ _) _ => apply runs_set
  | |- runs (slice _ _ _) _ => apply runs_slice
  | |- runs (blit _ _ _ _) _ => apply runs_blit
  end.

(** ** Lemmas on machine integers *)

Lemma wrap_range w z : 0 <= w -> 0 <= wrap w z < 2 ^ w.
Proof. intros. apply Z.mod_pos_bound. by apply Z.pow_pos_nonneg. Qed.

Lemma wrap_small w z : 0 <= z < 2 ^ w -> wrap w z = z.
Proof. apply Z.mod_small. Qed.

Lemma align_down_eq z : align_down z = 4096 * (z / 4096).
Proof.
  unfold align_down. rewrite <- Z.ldiff_land.
  change 0xFFF with (Z.ones 12). rewrite Z.ldiff_ones_r by lia.
  rewrite Z.shiftr_div_pow2, Z.shiftl_mul_pow2 by lia.
  change (2 ^ 12) with 4096. lia.
Qed.

Lemma align_down_bounds z : align_down z <= z < align_down z + 4096.
Proof. rewrite align_down_eq. pose proof (Z.mod_pos_bound z 4096). pose proof (Z.div_mod z 4096). lia. Qed.

(** A bit test with a one-bit mask, as the code writes it, reads the bit. *)
Lemma land_bit_zero x b : 0 <= b -> (Z.land x (Z.shiftl 1 b) =? 0) = negb (Z.testbit x b).
Proof.
  intros Hb. destruct (Z.testbit x b) eqn:E; cbn.
  - apply Z.eqb_neq. intros H0.
    assert (Z.testbit (Z.land x (Z.shiftl 1 b)) b = false) as Ht by (rewrite H0; apply Z.bits_0).
    rewrite Z.land_spec, E, Z.shiftl_spec, Z.sub_diag in Ht by lia. done.
  - apply Z.eqb_eq. apply Z.bits_inj'. intros n Hn.
    rewrite Z.land_spec, Z.shiftl_spec, Z.bits_0 by lia.
    destruct (Z.eq_dec n b) as [-> | Hne]; [by rewrite E|].
    destruct (Z.testbit 1 (n - b)) eqn:E1; [|by rewrite andb_false_r].
    exfalso. destruct (Z.lt_total (n - b) 0) as [|[|]]; [by rewrite Z.testbit_neg_r in E1 by lia | lia |].
    rewrite Z.bits_above_log2 in E1; [done | lia | cbn; lia].
Qed.

Lemma testbit_shiftl_1 b n : 0 <= b -> 0 <= n -> Z.testbit (Z.shiftl 1 b) n = (n =? b).
Proof.
  intros. rewrite Z.shiftl_1_l. destruct (Z.eqb_spec n b) as [->|]; [by apply Z.pow2_bits_true|].
  apply Z.pow2_bits_false. done.
Qed.

(** Bitwise operations stay inside the width of their operands. *)
Lemma lor_low n t f : 0 <= n -> t mod 2 ^ n = 0 -> 0 <= f < 2 ^ n -> Z.lor t f = t + f.
Proof.
  intros Hn Ht Hf. assert (Z.land t f = 0) as Hl.
  { apply Z.bits_inj'. intros k Hk. rewrite Z.land_spec, Z.bits_0. destruct (Z.lt_ge_cases k n).
    - replace (Z.testbit t k) with false; [done|]. rewrite <- (Z.mod_pow2_bits_low t n k) by done. by rewrite Ht, Z.bits_0.
    - replace f with (f mod 2 ^ n) by (by apply Z.mod_small). rewrite Z.mod_pow2_bits_high by lia. by rewrite andb_false_r. }
  rewrite <- Z.lxor_lor by done. by rewrite <- Z.add_nocarry_lxor.
Qed.
Lemma lor_range k a b : 0 <= k -> 0 <= a < 2 ^ k -> 0 <= b < 2 ^ k -> 0 <= Z.lor a b < 2 ^ k.
Proof.
  intros Hk [Ha Ha'] [Hb Hb']. assert (0 <= Z.lor a b) as H0 by (apply Z.lor_nonneg; lia).
  apply Z.bounded_iff_bits_nonneg'; [done..|]. intros l Hl. rewrite Z.lor_spec.
  rewrite (proj1 (Z.bounded_iff_bits_nonneg k a Hk Ha) Ha' l Hl).
  by rewrite (proj1 (Z.bounded_iff_bits_nonneg k b Hk Hb) Hb' l Hl).
Qed.

Lemma land_range_l k a b : 0 <= k -> 0 <= a < 2 ^ k -> 0 <= Z.land a b < 2 ^ k.
Proof.
  intros Hk [Ha Ha']. assert (0 <= Z.land a b) as H0 by (apply Z.land_nonneg; lia).
  apply Z.bounded_iff_bits_nonneg'; [done..|]. intros l Hl. rewrite Z.land_spec.
  by rewrite (proj1 (Z.bounded_iff_bits_nonneg k a Hk Ha) Ha' l Hl).
Qed.

Lemma shiftl_1_range k b : 0 <= b < k -> 0 <= Z.shiftl 1 b < 2 ^ k.
Proof.
  intros. rewrite Z.shiftl_1_l. split; [apply Z.pow_nonneg; lia | apply Z.pow_lt_mono_r; lia].
Qed.

(** ** Lemmas on byte order *)

Definition byte_ok (b : Z) : Prop := 0 <= b < 256.

Lemma to_le_length n v : length (to_le n v) = n.
Proof. revert v. induction n; intros; cbn; auto. Qed.

Lemma from_le_to_le n v : from_le (to_le n v) = v mod 2 ^ (8 * Z.of_nat n).
Proof.
  revert v. induction n as [|n IH]; intros v.
  - by rewrite Z.mod_1_r.
  - cbn [to_le from_le]. rewrite IH.
    replace (8 * Z.of_nat (Datatypes.S n)) with (8 + 8 * Z.of_nat n) by lia.
    rewrite Z.pow_add_r by lia. change (2 ^ 8) with 256.
    rewrite Z.rem_mul_r; [lia | lia | apply Z.pow_pos_nonneg; lia].
Qed.

Lemma from_be16_to_be16 v : 0 <= v < 65536 ->
  from_be16 (Z.shiftr v 8 mod 256) (v mod 256) = v.
Proof.
  intros. unfold from_be16. rewrite Z.shiftr_div_pow2 by lia. change (2 ^ 8) with 256.
  rewrite (Z.mod_small (v / 256)) by (split; [apply Z.div_pos; lia | apply Z.div_lt_upper_bound; lia]).
  pose proof (Z.div_mod v 256). lia.
Qed.

Lemma to_be16_from_be16 a b : byte_ok a -> byte_ok b -> to_be16 (from_be16 a b) = [a; b].
Proof.
  unfold byte_ok, to_be16, from_be16. intros. rewrite Z.shiftr_div_pow2 by lia. change (2 ^ 8) with 256.
  rewrite Z.div_add_l, (Z.div_small b) by lia. rewrite Z.add_0_r, Z.mod_small by lia.
  rewrite Z.add_comm, Z.mod_add, Z.mod_small by lia. done.
Qed.

(** ** Lemmas on blocks *)

Lemma disjoint_sym x y : disjoint x y -> disjoint y x.
Proof. unfold disjoint. tauto. Qed.

Lemma sep_perm l l' : l ≡ₚ l' -> sep l -> sep l'.
Proof.
  induction 1 as [|x l l' Hp IH|x y l|l l' l'' _ IH1 _ IH2]; cbn.
  - done.
  - intros [Hx Hl]. split; [by rewrite <- Hp | by apply IH].
  - intros [Hy [Hx Hl]]. inversion_clear Hy. split; [constructor; [by apply disjoint_sym | done] | done].
  - auto.
Qed.

Lemma sep_app l l' : sep (l ++ l') <-> sep l /\ sep l' /\ Forall (fun x => Forall (disjoint x) l') l.
Proof.
  induction l as [|x l IH]; cbn.
  - split; [intros; split_and!; [done | done | constructor] | tauto].
  - rewrite IH. pose proof (Forall_app (disjoint x) l l').
    pose proof (Forall_cons_iff (fun x => Forall (disjoint x) l') x l). tauto.
Qed.

Lemma disjoint_by_point x y : 0 < x.2 -> 0 < y.2 ->
  (forall a, in_block x a -> ~ in_block y a) -> disjoint x y.
Proof.
  unfold disjoint, in_block. intros Hx Hy H.
  destruct (Z.le_gt_cases (x.1 + x.2) y.1); [by left|].
  destruct (Z.le_gt_cases (y.1 + y.2) x.1); [by right|].
  exfalso. apply (H (Z.max x.1 y.1)); lia.
Qed.

(** ** Lemmas on memory *)

Lemma load64_ext m m' a : (forall x, a <= x < a + 8 -> m x = m' x) -> load64 m a = load64 m' a.
Proof.
  intros H. unfold load64. cbn [seq fmap list_fmap from_le].
  by rewrite !H by lia.
Qed.

Lemma load64_store64_ne m a b v : b + 8 <= a \/ a + 8 <= b -> load64 (store64 m a v) b = load64 m b.
Proof. intros. apply load64_ext. intros x Hx. unfold store64. ztest; try done; lia. Qed.

Lemma load64_store64_wrap m a v : load64 (store64 m a v) a = wrap 64 v.
Proof.
  transitivity (from_le (to_le 8 v)).
  - unfold load64, store64. cbn [seq fmap list_fmap from_le to_le].
    repeat match goal with |- context [(a <=? ?x) && (?x <? a + 8)] =>
      replace ((a <=? x) && (x <? a + 8)) with true by (symmetry; apply andb_true_intro; ztest; lia) end.
    cbn [Z.of_nat Pos.of_succ_nat Pos.succ].
    repeat match goal with |- context [a + ?k - a] => replace (a + k - a) with k by lia end.
    rewrite !Z.shiftr_div_pow2 by lia. rewrite !Z.div_div by lia. by rewrite Z.div_1_r.
  - by rewrite from_le_to_le.
Qed.

Lemma load64_store64_eq m a v : 0 <= v < 2 ^ 64 -> load64 (store64 m a v) a = v.
Proof. intros Hv. rewrite load64_store64_wrap. by apply wrap_small. Qed.

Lemma load64_write_bytes_zero m base n a :
  base <= a -> a + 8 <= base + n -> load64 (write_bytes m base 0 n) a = 0.
Proof.
  intros. transitivity (load64 (fun _ => 0) a); [|done].
  apply load64_ext. intros x Hx. unfold write_bytes.
  replace ((base <=? x) && (x <? base + n)) with true; [done|].
  symmetry. apply andb_true_intro. ztest; lia.
Qed.

Lemma load64_write_bytes_ne m base v n a :
  a + 8 <= base \/ base + n <= a -> load64 (write_bytes m base v n) a = load64 m a.
Proof.
  intros. apply load64_ext. intros x Hx. unfold write_bytes.
  destruct (Z.leb_spec base x), (Z.ltb_spec x (base + n)); cbn; try done; lia.
Qed.

#[export] Hint Resolve wrap_range get_Some set_lt : kernel.
Create Rewrite HintDb kernel_len.
#[export] Hint Rewrite @length_insert @length_app @length_take @length_drop @length_replicate : kernel_len.
