(* ===== verification/Console.v ===== *)
(** The VGA text console (src/kernel/src/boards/qemu_pc/console.rs): the 80 by 25
    screen, the cursor, scrolling, and the hexadecimal printer of arch/x86_64/idt.rs.

    The video memory is a list of cells; a write outside of it is a [Panic].
    Everything printed is mirrored to the serial line. *)
From Stdlib Require Import ZArith Lia.
From stdpp Require Import base option list numbers.
From S2P Require Import Prelude.
Local Open Scope nat_scope.

Definition WIDTH : nat := 80.
Definition HEIGHT : nat := 25.
Definition ATTR : Z := 0x0700%Z.
Definition blank : Z := Z.lor ATTR 32.

(** The cells, COL and ROW, and the cursor registers of the CRTC. *)
Record screen := mk_screen { cells : list Z; COL : nat; ROW : nat; cursor : Z }.
Definition screen_off : screen := mk_screen (replicate (WIDTH * HEIGHT) 0%Z) 0 0 0%Z.

(** Two port writes of a byte each: the position modulo 2^16. *)
Definition update_cursor (pos : nat) (s : screen) : screen :=
  let p := wrap 16 (Z.of_nat pos) in
  mk_screen (cells s) (COL s) (ROW s) (p mod 256 + 256 * (Z.shiftr p 8 mod 256))%Z.

Definition clear (s : screen) : outcome screen :=
  c ← foldM (fun c i => set c i blank) (cells s) (seq 0 (WIDTH * HEIGHT));
  Done (update_cursor 0 (mk_screen c 0 0 (cursor s))).

(** The cell at [(row, col)] moves to the row above. *)
Definition scroll_cell (row : nat) (c : list Z) (col : nat) : outcome (list Z) :=
  src ← get c (row * WIDTH + col);
  set c ((row - 1) * WIDTH + col) src.
Definition scroll_row (c : list Z) (row : nat) : outcome (list Z) := foldM (scroll_cell row) c (seq 0 WIDTH).
Definition scroll (c : list Z) : outcome (list Z) :=
  c ← foldM scroll_row c (seq 1 (HEIGHT - 1));
  foldM (fun c col => set c ((HEIGHT - 1) * WIDTH + col) blank) c (seq 0 WIDTH).

Definition newline (s : screen) : outcome screen :=
  let row := ROW s + 1 in
  if HEIGHT <=? row then c ← scroll (cells s); Done (mk_screen c 0 (HEIGHT - 1) (cursor s))
  else Done (mk_screen (cells s) 0 row (cursor s)).

Definition backspace (s : screen) : outcome screen :=
  let '(col, row) :=
    if 0 <? COL s then (COL s - 1, ROW s)
    else if 0 <? ROW s then (WIDTH - 1, ROW s - 1) else (COL s, ROW s) in
  c ← set (cells s) (row * WIDTH + col) blank;
  Done (mk_screen c col row (cursor s)).

(** [print_byte]: the bytes for the serial line, and the screen. *)
Definition mirrored (b : Z) : bytes := (if (b =? 10)%Z then [13%Z] else []) ++ [b].
Definition print_match (b : Z) (s : screen) : outcome screen :=
  if (b =? 10)%Z then newline s
  else if (b =? 13)%Z then Done (mk_screen (cells s) 0 (ROW s) (cursor s))
  else if (b =? 8)%Z then backspace s
  else
    c ← set (cells s) (ROW s * WIDTH + COL s) (Z.lor ATTR b);
    let s := mk_screen c (COL s + 1) (ROW s) (cursor s) in
    if WIDTH <=? COL s then newline s else Done s.
Definition print_byte (b : Z) (s : screen) : outcome screen :=
  s ← print_match b s;
  Done (update_cursor (ROW s * WIDTH + COL s) s).
Definition print_str (l : bytes) (s : screen) : outcome screen := foldM (fun s b => print_byte b s) s l.

(** arch/x86_64/idt.rs, [print_hex]: the 16 digits. *)
Definition hex_digits : bytes := str "0123456789abcdef".
Definition hex_step (v : Z) (buf : bytes) (i : nat) : outcome bytes :=
  d ← get hex_digits (Z.to_nat (Z.land (Z.shiftr v (Z.of_nat i * 4)) 0xf));
  set buf (15 - i) d.
Definition print_hex (v : Z) : outcome bytes := foldM (hex_step v) (replicate 16 0%Z) (seq 0 16).

(** ** Properties *)

Record screen_ok (s : screen) : Prop := {
  so_cells : length (cells s) = WIDTH * HEIGHT;
  so_col : COL s < WIDTH;
  so_row : ROW s < HEIGHT
}.
(** The cursor shows where the next character goes. *)
Definition cursor_ok (s : screen) : Prop := cursor s = Z.of_nat (ROW s * WIDTH + COL s).

Lemma scroll_row_runs (old c : list Z) row : 1 <= row < HEIGHT -> length c = WIDTH * HEIGHT ->
  (forall i, c !! i = if decide (i < (row - 1) * WIDTH) then old !! (i + WIDTH) else old !! i) ->
  runs (scroll_row c row) (fun c' => length c' = WIDTH * HEIGHT /\
    forall i, c' !! i = if decide (i < row * WIDTH) then old !! (i + WIDTH) else old !! i).
Proof.
  intros Hr Hl Hc. unfold scroll_row.
  apply (runs_foldM (fun j c => length c = WIDTH * HEIGHT /\
    forall i, c !! i = if decide (i < (row - 1) * WIDTH + j) then old !! (i + WIDTH) else old !! i)).
  - by rewrite Nat.add_0_r.
  - clear c Hl Hc. intros j x c [-> Hj]%lookup_seq [Hl Hc]. cbn [Nat.add]. unfold scroll_cell.
    unfold WIDTH, HEIGHT in *. rstep. rstep; [lia|]. rstep; [lia|].
    match goal with H : c !! (row * 80 + j) = Some _ |- _ => rename H into Hx end.
    rewrite length_insert. split; [done|]. intros i. destruct (decide (i = (row - 1) * 80 + j)) as [->|Hi].
    + rewrite list_lookup_insert_eq by lia. rewrite decide_True by lia. rewrite Hc, decide_False in Hx by lia.
      rewrite <- Hx. f_equal. lia.
    + rewrite list_lookup_insert_ne by lia. rewrite Hc. do 2 case_decide; done || lia.
  - rewrite length_seq. intros c' [Hl' Hc']. split; [done|]. intros i. rewrite Hc'.
    unfold WIDTH in *. do 2 case_decide; done || lia.
Qed.

(** Every row moves up by one, and the last one is blank. *)
Lemma scroll_exact (c : list Z) : length c = WIDTH * HEIGHT -> scroll c = Done (drop WIDTH c ++ replicate WIDTH blank).
Proof.
  intros Hl. enough (runs (scroll c) (fun c' => c' = drop WIDTH c ++ replicate WIDTH blank)) as H.
  { apply runs_Done in H as (? & -> & ->). done. }
  unfold scroll. apply runs_bind.
  apply (runs_foldM (fun j c' => length c' = WIDTH * HEIGHT /\
    forall i, c' !! i = if decide (i < j * WIDTH) then c !! (i + WIDTH) else c !! i)).
  - split; [done|]. intros i. rewrite decide_False by lia. done.
  - intros j x c' [-> Hj]%lookup_seq [Hl' Hc']. apply scroll_row_runs; [lia | done |]. cbn [Nat.add].
    intros i. rewrite Hc'. by replace (S j - 1) with j by lia.
  - rewrite length_seq. intros c1 [Hl1 Hc1].
    apply (runs_foldM (fun j c' => length c' = WIDTH * HEIGHT /\
      forall i, c' !! i = if decide ((HEIGHT - 1) * WIDTH <= i < (HEIGHT - 1) * WIDTH + j) then Some blank else c1 !! i)).
    + split; [done|]. intros i. rewrite decide_False by lia. done.
    + intros j x c' [-> Hj]%lookup_seq [Hl' Hc']. cbn [Nat.add]. unfold WIDTH, HEIGHT in *. rstep; [lia|].
      rewrite length_insert. split; [done|]. intros i. destruct (decide (i = (25 - 1) * 80 + j)) as [->|Hi].
      * rewrite list_lookup_insert_eq by lia. rewrite decide_True by lia. done.
      * rewrite list_lookup_insert_ne by lia. rewrite Hc'. do 2 case_decide; done || lia.
    + rewrite length_seq. intros c2 [Hl2 Hc2]. apply list_eq. intros i. rewrite Hc2, Hc1.
      unfold WIDTH, HEIGHT in *. destruct (decide (i < 1920)).
      * rewrite decide_False, decide_True by lia. rewrite lookup_app_l by (rewrite length_drop; lia).
        rewrite lookup_drop. f_equal. lia.
      * rewrite lookup_app_r by (rewrite length_drop; lia). rewrite length_drop.
        destruct (decide (i < 2000)).
        -- rewrite decide_True by lia. rewrite lookup_replicate_2 by lia. done.
        -- rewrite decide_False, decide_False by lia. rewrite lookup_ge_None_2 by lia.
           rewrite lookup_ge_None_2; [done|]. rewrite length_replicate. lia.
Qed.

(** ** The reference screen *)

Definition ref_newline (s : screen) : screen :=
  if decide (ROW s = HEIGHT - 1) then mk_screen (drop WIDTH (cells s) ++ replicate WIDTH blank) 0 (ROW s) (cursor s)
  else mk_screen (cells s) 0 (S (ROW s)) (cursor s).
Definition here (s : screen) : nat := ROW s * WIDTH + COL s.
(** The position before the current one, the first one staying. *)
Definition ref_back (s : screen) : screen :=
  let p := pred (here s) in mk_screen (<[p := blank]> (cells s)) (p mod WIDTH) (p / WIDTH) (cursor s).
Definition ref_put (b : Z) (s : screen) : screen :=
  let s' := mk_screen (<[here s := Z.lor ATTR b]> (cells s)) (S (COL s)) (ROW s) (cursor s) in
  if decide (COL s = WIDTH - 1) then ref_newline s' else s'.
Definition ref_print (b : Z) (s : screen) : screen :=
  let s := if decide (b = 10%Z) then ref_newline s else if decide (b = 13%Z) then mk_screen (cells s) 0 (ROW s) (cursor s)
    else if decide (b = 8%Z) then ref_back s else ref_put b s in
  mk_screen (cells s) (COL s) (ROW s) (Z.of_nat (here s)).

Lemma ref_newline_ok s : length (cells s) = WIDTH * HEIGHT -> ROW s < HEIGHT -> screen_ok (ref_newline s).
Proof.
  intros Hl Hr. unfold ref_newline. unfold WIDTH, HEIGHT in *. case_decide; constructor; cbn [cells COL ROW]; unfold WIDTH, HEIGHT; try lia.
  rewrite length_app, length_drop, length_replicate. lia.
Qed.
Lemma newline_exact s : length (cells s) = WIDTH * HEIGHT -> ROW s < HEIGHT -> newline s = Done (ref_newline s).
Proof.
  intros Hl Hr. unfold newline, ref_newline. destruct (HEIGHT <=? ROW s + 1) eqn:E.
  - apply Nat.leb_le in E. rewrite scroll_exact by done. cbn [mbind outcome_bind]. rewrite decide_True by lia. do 2 f_equal. lia.
  - apply Nat.leb_gt in E. rewrite decide_False by lia. do 2 f_equal. lia.
Qed.

Lemma update_cursor_ok s : screen_ok s -> update_cursor (here s) s = mk_screen (cells s) (COL s) (ROW s) (Z.of_nat (here s)).
Proof.
  intros [_ Hc Hr]. unfold update_cursor. f_equal.
  assert (0 <= Z.of_nat (here s) < 2000)%Z as Hb by (unfold here, WIDTH, HEIGHT in *; lia).
  rewrite wrap_small by lia. rewrite Z.shiftr_div_pow2 by lia. change (2 ^ 8)%Z with 256%Z.
  rewrite (Z.mod_small (_ / 256)) by (split; [apply Z.div_pos; lia | apply Z.div_lt_upper_bound; lia]).
  pose proof (Z.div_mod (Z.of_nat (here s)) 256). lia.
Qed.

Lemma backspace_exact s : screen_ok s -> backspace s = Done (ref_back s) /\ screen_ok (ref_back s).
Proof.
  intros [Hl Hc Hr]. unfold backspace, ref_back.
  set (cr := if 0 <? COL s then _ else _).
  assert (cr = (pred (here s) mod WIDTH, pred (here s) / WIDTH)) as ->.
  { unfold cr, here, WIDTH, HEIGHT in *. destruct (0 <? COL s) eqn:E1; [|destruct (0 <? ROW s) eqn:E2].
    - apply Nat.ltb_lt in E1. f_equal; [apply (Nat.mod_unique _ _ (ROW s)) | apply (Nat.div_unique _ _ _ (COL s - 1))]; lia.
    - apply Nat.ltb_ge in E1. apply Nat.ltb_lt in E2.
      f_equal; [apply (Nat.mod_unique _ _ (ROW s - 1)) | apply (Nat.div_unique _ _ _ 79)]; lia.
    - apply Nat.ltb_ge in E1, E2. replace (ROW s) with 0 by lia. replace (COL s) with 0 by lia. done. }
  pose proof (Nat.div_mod_eq (pred (here s)) WIDTH) as Hd.
  replace (pred (here s) / WIDTH * WIDTH + pred (here s) mod WIDTH) with (pred (here s)) by lia.
  assert (pred (here s) < 2000) as Hp by (unfold here, WIDTH, HEIGHT in *; lia).
  unfold WIDTH, HEIGHT in *. rewrite set_lt by lia. split; [done|]. constructor; cbn [cells COL ROW].
  - by rewrite length_insert.
  - apply Nat.mod_upper_bound. done.
  - apply Nat.Div0.div_lt_upper_bound. unfold WIDTH, HEIGHT. lia.
Qed.

(** Printing is the reference screen. *)
Lemma print_byte_exact (b : Z) (s : screen) : screen_ok s ->
  print_byte b s = Done (ref_print b s) /\ screen_ok (ref_print b s) /\ cursor_ok (ref_print b s).
Proof.
  intros Hs. pose proof Hs as [Hl Hc Hr].
  assert (forall s', screen_ok s' -> Done (update_cursor (here s') s') = Done (mk_screen (cells s') (COL s') (ROW s') (Z.of_nat (here s')))) as Hu.
  { intros s' H. by rewrite update_cursor_ok. }
  enough (exists s', print_match b s = Done s' /\ screen_ok s' /\
     ref_print b s = mk_screen (cells s') (COL s') (ROW s') (Z.of_nat (here s'))) as (s' & E & [Hl' Hc' Hr'] & ->).
  { unfold print_byte. rewrite E. cbn [mbind outcome_bind]. split; [by apply (Hu s')|]. done. }
  unfold ref_print, print_match. destruct (Z.eqb_spec b 10) as [->|]; [|destruct (Z.eqb_spec b 13) as [->|]; [|destruct (Z.eqb_spec b 8) as [->|]]].
  - exists (ref_newline s). rewrite newline_exact by done. split; [done|]. split; [by apply ref_newline_ok | done].
  - exists (mk_screen (cells s) 0 (ROW s) (cursor s)). split; [done|]. split; [|done]. constructor; cbn [cells COL ROW]; unfold WIDTH; done || lia.
  - exists (ref_back s). destruct (backspace_exact s Hs). done.
  - exists (ref_put b s). rewrite !decide_False by done. rewrite set_lt by (unfold WIDTH, HEIGHT in *; lia). cbn [mbind outcome_bind].
    unfold ref_put. fold (here s). rewrite Nat.add_1_r. cbn [COL]. destruct (WIDTH <=? S (COL s)) eqn:E.
    + apply Nat.leb_le in E. rewrite decide_True by lia.
      rewrite newline_exact by (cbn [cells ROW]; rewrite ?length_insert; done).
      split; [done|]. split; [|done]. apply ref_newline_ok; cbn [cells ROW]; rewrite ?length_insert; done.
    + apply Nat.leb_gt in E. rewrite decide_False by lia. split; [done|]. split; [|done].
      constructor; cbn [cells COL ROW]; rewrite ?length_insert; done.
Qed.

(** C18: Printing a byte never writes outside the video memory: it is exactly the reference screen
    (a cell at the cursor, the wrap at the end of a row, the scroll at the last row, backspace
    over row ends), the position stays on the screen, and the hardware cursor shows it. *)
Theorem console_print_exact (b : Z) (s : screen) : screen_ok s ->
  print_byte b s = Done (ref_print b s) /\ screen_ok (ref_print b s) /\ cursor_ok (ref_print b s).
Proof. apply print_byte_exact. Qed.

Lemma clear_ok s : length (cells s) = WIDTH * HEIGHT -> exists s', clear s = Done s' /\ screen_ok s' /\ cursor_ok s' /\ cells s' = replicate (WIDTH * HEIGHT) blank.
Proof.
  intros Hl. unfold clear.
  enough (runs (foldM (fun c i => set c i blank) (cells s) (seq 0 (WIDTH * HEIGHT))) (fun c => c = replicate (WIDTH * HEIGHT) blank)) as H.
  { apply runs_Done in H as (c & -> & ->). cbn [mbind outcome_bind]. eexists. split; [done|].
    split; [constructor; cbn [cells COL ROW update_cursor]; rewrite ?length_replicate; unfold WIDTH, HEIGHT; lia|]. done. }
  apply (runs_foldM (fun j c => length c = WIDTH * HEIGHT /\ forall i, i < j -> c !! i = Some blank)).
  - split; [done | lia].
  - intros j x c [-> Hj]%lookup_seq [Hc Hb]. cbn [Nat.add]. rstep; [lia|]. rewrite length_insert. split; [done|].
    intros i Hi. destruct (decide (i = j)) as [->|].
    + apply list_lookup_insert_eq. lia.
    + rewrite list_lookup_insert_ne by lia. apply Hb. lia.
  - rewrite length_seq. intros c [Hc Hb]. apply list_eq. intros i. destruct (decide (i < WIDTH * HEIGHT)).
    + rewrite Hb by done. by rewrite lookup_replicate_2.
    + rewrite !lookup_ge_None_2; rewrite ?length_replicate; lia || done.
Qed.

(** A full screen: the last cell wraps and scrolls. *)
Definition demo_screen : screen := mk_screen (replicate (WIDTH * HEIGHT) blank) 79 24 1999%Z.
Lemma console_print_exact_witness : screen_ok demo_screen /\
  exists s', print_byte 65 demo_screen = Done s' /\ COL s' = 0 /\ ROW s' = 24 /\ cells s' !! 1919 = Some 0x741%Z.
Proof.
  assert (screen_ok demo_screen) as Hs by (split; cbn [demo_screen cells COL ROW]; [apply length_replicate | unfold WIDTH; lia | unfold HEIGHT; lia]).
  split; [done|]. exists (ref_print 65 demo_screen).
  split; [exact (proj1 (console_print_exact 65 demo_screen Hs))|]. split; [reflexivity|]. split; [reflexivity|]. vm_compute. reflexivity.
Defined.

(** The digits of [print_hex], most significant first. *)
Lemma print_hex_digits (v : Z) : (0 <= v)%Z -> exists buf, print_hex v = Done buf /\ length buf = 16 /\
  forall i, i < 16 -> buf !! (15 - i) = hex_digits !! Z.to_nat (v / 16 ^ Z.of_nat i mod 16).
Proof.
  intros Hv. unfold print_hex.
  enough (runs (foldM (hex_step v) (replicate 16 0%Z) (seq 0 16)) (fun buf => length buf = 16 /\
    forall i, i < 16 -> buf !! (15 - i) = hex_digits !! Z.to_nat (v / 16 ^ Z.of_nat i mod 16))) as H.
  { apply runs_Done in H as (buf & -> & H). eauto. }
  apply (runs_foldM (fun j buf => length buf = 16 /\ forall i, i < j -> buf !! (15 - i) = hex_digits !! Z.to_nat (v / 16 ^ Z.of_nat i mod 16))).
  - split; [done | lia].
  - intros j x buf [-> Hj]%lookup_seq [Hl Hb]. cbn [Nat.add]. unfold hex_step.
    assert (Z.land (Z.shiftr v (Z.of_nat j * 4)) 0xf = v / 16 ^ Z.of_nat j mod 16)%Z as ->.
    { change 0xf%Z with (Z.ones 4). rewrite Z.land_ones, Z.shiftr_div_pow2 by lia. rewrite (Z.mul_comm _ 4), Z.pow_mul_r by lia. done. }
    pose proof (Z.mod_pos_bound (v / 16 ^ Z.of_nat j) 16 ltac:(lia)) as Hm.
    rstep. rstep; [change (length hex_digits) with 16; lia|]. rstep; [lia|]. rewrite length_insert. split; [done|].
    intros i Hi. destruct (decide (i = j)) as [->|].
    + rewrite list_lookup_insert_eq by lia. done.
    + rewrite list_lookup_insert_ne by lia. apply Hb. lia.
  - rewrite length_seq. done.
Qed.
