(* ===== verification/RingBuf.v ===== *)
(** The fixed-size circular byte buffer of the input drivers
    (src/kernel/src/drivers/ring_buf.rs), and the theory of circular buffers it
    shares with the pipes of ipc/mod.rs.

    [rb_contents] is the abstraction: the bytes from the read index up to the
    write index.  The buffer of [N] bytes is a first-in first-out queue of
    capacity [N - 1]. *)
From Stdlib Require Import ZArith Lia.
From stdpp Require Import base option list numbers.
From S2P Require Import Prelude.

(** ** The buffer *)

(** [RingBuf<N>]; the const parameter is the length of the array. *)
Record ringbuf := mk_ringbuf { rb_buf : bytes; rb_head : nat; rb_tail : nat }.

Definition rb_new (N : nat) : ringbuf := mk_ringbuf (replicate N 0%Z) 0 0.

Definition rb_push (N : nat) (rb : ringbuf) (b : Z) : outcome (bool * ringbuf) :=
  let next := (rb_head rb + 1) mod N in
  if next =? rb_tail rb then Done (false, rb)
  else
    buf ← set (rb_buf rb) (rb_head rb) b;
    Done (true, mk_ringbuf buf next (rb_tail rb)).

Definition rb_pop (N : nat) (rb : ringbuf) : outcome (option Z * ringbuf) :=
  if rb_head rb =? rb_tail rb then Done (None, rb)
  else
    b ← get (rb_buf rb) (rb_tail rb);
    Done (Some b, mk_ringbuf (rb_buf rb) (rb_head rb) ((rb_tail rb + 1) mod N)).

Definition rb_is_empty (rb : ringbuf) : bool := rb_head rb =? rb_tail rb.

(** ** Circular indices *)

(** Number of bytes held, and the bytes, of a circular array with write index
    [head] and read index [tail]. *)
Definition ring_len (N head tail : nat) : nat := (head + N - tail) mod N.
Definition ring_contents (buf : bytes) (head tail : nat) : bytes :=
  (fun i => buf !!! ((tail + i) mod length buf)) <$> seq 0 (ring_len (length buf) head tail).

Definition ring_wf (N : nat) (buf : bytes) (head tail : nat) : Prop :=
  length buf = N /\ head < N /\ tail < N.

Lemma mod_wrap x N : x < 2 * N -> x mod N = if decide (x < N) then x else x - N.
Proof.
  intros. case_decide; [by apply Nat.mod_small|].
  replace x with (x - N + 1 * N) at 1 by lia.
  rewrite Nat.Div0.mod_add. apply Nat.mod_small. lia.
Qed.

(** Eliminate the innermost [mod] first, splitting on whether it wraps. *)
Ltac ring_arith :=
  unfold ring_len in *;
  repeat match goal with
  | |- context [?x mod ?N] =>
      lazymatch x with context [_ mod _] => fail | _ => rewrite (mod_wrap x N) by lia; case_decide end
  | H : context [?x mod ?N] |- _ =>
      lazymatch x with context [_ mod _] => fail | _ => rewrite (mod_wrap x N) in H by lia; case_decide end
  end; try lia.

Section ring.
Context (N : nat).

Lemma ring_len_lt head tail : head < N -> tail < N -> ring_len N head tail < N.
Proof. intros. apply Nat.mod_upper_bound. lia. Qed.

Lemma ring_len_full head tail : head < N -> tail < N ->
  (head + 1) mod N = tail <-> ring_len N head tail = N - 1.
Proof. intros. ring_arith. Qed.

Lemma ring_len_0 head tail : head < N -> tail < N -> head = tail <-> ring_len N head tail = 0.
Proof. intros. ring_arith. Qed.

Lemma ring_contents_length buf head tail :
  length (ring_contents buf head tail) = ring_len (length buf) head tail.
Proof. unfold ring_contents. by rewrite length_fmap, length_seq. Qed.

(** Storing a byte at the write index appends it. *)
Lemma ring_contents_push buf head tail b :
  ring_wf N buf head tail -> (head + 1) mod N <> tail ->
  ring_contents (<[head := b]> buf) ((head + 1) mod N) tail = ring_contents buf head tail ++ [b].
Proof.
  intros (Hl & Hh & Ht) Hf. unfold ring_contents. rewrite length_insert, Hl.
  assert (ring_len N ((head + 1) mod N) tail = ring_len N head tail + 1) as ->
    by (ring_arith).
  rewrite seq_app, fmap_app. f_equal.
  - apply list_fmap_ext. intros i x Hi. apply lookup_seq in Hi as [-> Hi].
    rewrite list_lookup_total_insert_ne; [done|]. cbn. ring_arith.
  - cbn [seq fmap list_fmap]. f_equal.
    replace ((tail + (0 + ring_len N head tail)) mod N) with head by (ring_arith).
    apply list_lookup_total_insert_eq. lia.
Qed.

(** The byte at the read index is the first one; advancing the index drops it. *)
Lemma ring_contents_pop buf head tail :
  ring_wf N buf head tail -> head <> tail ->
  ring_contents buf head tail = (buf !!! tail) :: ring_contents buf head ((tail + 1) mod N).
Proof.
  intros (Hl & Hh & Ht) Hne. unfold ring_contents. rewrite Hl.
  assert (ring_len N head tail = S (ring_len N head ((tail + 1) mod N))) as -> by ring_arith.
  cbn [seq fmap list_fmap]. f_equal.
  - f_equal. ring_arith.
  - rewrite <- fmap_S_seq, <- list_fmap_compose. apply list_fmap_ext.
    intros i x Hi. apply lookup_seq in Hi as [-> Hi]. cbn. f_equal. ring_arith.
Qed.
End ring.

(** ** The queue interface

    What the drivers and the readers of the terminal rely on: a well-formed
    buffer is a bounded queue, and no operation on it panics. *)
Class Fifo (Q : Type) (cap : nat) (wf : Q -> Prop) (contents : Q -> bytes)
    (push : Q -> Z -> outcome (bool * Q)) (pop : Q -> outcome (option Z * Q)) : Prop := {
  fifo_push_ok q b : wf q -> length (contents q) < cap ->
    exists q', push q b = Done (true, q') /\ wf q' /\ contents q' = contents q ++ [b];
  fifo_push_full q b : wf q -> length (contents q) = cap -> push q b = Done (false, q);
  fifo_pop_empty q : wf q -> contents q = [] -> pop q = Done (None, q);
  fifo_pop_ok q b l : wf q -> contents q = b :: l ->
    exists q', pop q = Done (Some b, q') /\ wf q' /\ contents q' = l;
  fifo_bound q : wf q -> length (contents q) <= cap
}.

Definition rb_wf (N : nat) (rb : ringbuf) : Prop := ring_wf N (rb_buf rb) (rb_head rb) (rb_tail rb).
Definition rb_contents (rb : ringbuf) : bytes := ring_contents (rb_buf rb) (rb_head rb) (rb_tail rb).

Lemma rb_contents_length N rb : rb_wf N rb ->
  length (rb_contents rb) = ring_len N (rb_head rb) (rb_tail rb).
Proof. intros (Hl & _). unfold rb_contents. by rewrite ring_contents_length, Hl. Qed.

Lemma rb_new_wf N : 0 < N -> rb_wf N (rb_new N) /\ rb_contents (rb_new N) = [].
Proof.
  intros. split.
  - repeat split; cbn; try lia. apply length_replicate.
  - unfold rb_contents, ring_contents. cbn. rewrite length_replicate.
    replace (ring_len N 0 0) with 0; [done|]. symmetry. apply ring_len_0; lia.
Qed.

#[export] Instance ringbuf_fifo N :
  Fifo ringbuf (N - 1) (rb_wf N) rb_contents (rb_push N) (rb_pop N).
Proof.
  split.
  - intros rb b Hwf Hlen. rewrite (rb_contents_length N rb Hwf) in Hlen.
    pose proof Hwf as (Hl & Hh & Ht). unfold rb_push.
    destruct (Nat.eqb_spec ((rb_head rb + 1) mod N) (rb_tail rb)) as [E|E].
    { apply ring_len_full in E; lia. }
    rewrite set_lt by lia. mred. eexists. split; [done|]. split.
    + split; cbn; [by rewrite length_insert|]. split; [apply Nat.mod_upper_bound; lia | done].
    + by apply ring_contents_push with (N := N).
  - intros rb b Hwf Hlen. rewrite (rb_contents_length N rb Hwf) in Hlen.
    destruct Hwf as (Hl & Hh & Ht). unfold rb_push.
    apply ring_len_full in Hlen; [|done..]. by rewrite Hlen, Nat.eqb_refl.
  - intros rb Hwf Hc. pose proof (rb_contents_length N rb Hwf) as Hlen.
    rewrite Hc in Hlen. destruct Hwf as (Hl & Hh & Ht). unfold rb_pop.
    symmetry in Hlen. apply ring_len_0 in Hlen; [|done..]. by rewrite Hlen, Nat.eqb_refl.
  - intros rb b l Hwf Hc. pose proof Hwf as (Hl & Hh & Ht). unfold rb_pop.
    destruct (Nat.eqb_spec (rb_head rb) (rb_tail rb)) as [E|E].
    { apply (ring_len_0 N) in E; [|done..]. rewrite <- (rb_contents_length N rb Hwf), Hc in E. done. }
    unfold rb_contents in Hc. rewrite (ring_contents_pop N) in Hc by done. injection Hc as Hb Hc.
    rewrite (get_Some _ _ b) by (rewrite <- Hb; apply list_lookup_lookup_total_lt; lia).
    mred. eexists. split; [done|]. split; [|done].
    repeat split; cbn; [done..|]. apply Nat.mod_upper_bound. lia.
  - intros rb Hwf. rewrite (rb_contents_length N rb Hwf). destruct Hwf as (Hl & Hh & Ht).
    pose proof (ring_len_lt N _ _ Hh Ht). lia.
Qed.

(** ** Refinement of any sequence of operations *)
Inductive rb_op := OpPush (b : Z) | OpPop.
Inductive rb_out := OutPush (ok : bool) | OutPop (b : option Z).

(** A bounded queue of capacity [cap], as a list. *)
Definition queue_step (cap : nat) (q : bytes) (op : rb_op) : rb_out * bytes :=
  match op with
  | OpPush b => if length q <? cap then (OutPush true, q ++ [b]) else (OutPush false, q)
  | OpPop => match q with [] => (OutPop None, []) | b :: q => (OutPop (Some b), q) end
  end.
Fixpoint queue_run (cap : nat) (q : bytes) (ops : list rb_op) : list rb_out * bytes :=
  match ops with
  | [] => ([], q)
  | op :: ops =>
      let '(o, q) := queue_step cap q op in
      let '(os, q) := queue_run cap q ops in (o :: os, q)
  end.

Section run.
Context {Q : Type} {cap : nat} {wf : Q -> Prop} {contents : Q -> bytes}.
Context {push : Q -> Z -> outcome (bool * Q)} {pop : Q -> outcome (option Z * Q)}.

Definition fifo_step (q : Q) (op : rb_op) : outcome (rb_out * Q) :=
  match op with
  | OpPush b => '(ok, q) ← push q b; Done (OutPush ok, q)
  | OpPop => '(b, q) ← pop q; Done (OutPop b, q)
  end.
Fixpoint fifo_run (q : Q) (ops : list rb_op) : outcome (list rb_out * Q) :=
  match ops with
  | [] => Done ([], q)
  | op :: ops =>
      '(o, q) ← fifo_step q op;
      '(os, q) ← fifo_run q ops; Done (o :: os, q)
  end.

Context {F : Fifo Q cap wf contents push pop}.

Lemma fifo_step_refines q op : wf q -> exists q',
  fifo_step q op = Done (fst (queue_step cap (contents q) op), q') /\ wf q' /\
  contents q' = snd (queue_step cap (contents q) op).
Proof.
  intros Hwf. destruct op as [b|]; cbn [fifo_step queue_step].
  - pose proof (fifo_bound q Hwf). destruct (Nat.ltb_spec (length (contents q)) cap).
    + destruct (fifo_push_ok q b Hwf) as (q' & -> & ? & ?); [done|]. by exists q'.
    + rewrite (fifo_push_full q b Hwf) by lia. by exists q.
  - destruct (contents q) as [|b l] eqn:E.
    + rewrite (fifo_pop_empty q Hwf E). by exists q.
    + destruct (fifo_pop_ok q b l Hwf E) as (q' & -> & ? & ?). by exists q'.
Qed.

Lemma fifo_run_refines ops : forall q, wf q -> exists q',
  fifo_run q ops = Done (fst (queue_run cap (contents q) ops), q') /\ wf q' /\
  contents q' = snd (queue_run cap (contents q) ops).
Proof.
  induction ops as [|op ops IH]; intros q Hwf; cbn [fifo_run queue_run]; [by exists q|].
  destruct (fifo_step_refines q op Hwf) as (q1 & -> & Hwf1 & Hc1). mred.
  destruct (queue_step cap (contents q) op) as [o l]. cbn in Hc1. subst l.
  destruct (IH q1 Hwf1) as (q2 & -> & Hwf2 & Hc2). mred.
  destruct (queue_run cap (contents q1) ops). by exists q2.
Qed.
End run.

Definition rb_run (N : nat) := fifo_run (push := rb_push N) (pop := rb_pop N).

(** C31: Starting from an empty [RingBuf<N>], any sequence of [push] and [pop]
    calls returns exactly what a first-in first-out queue of capacity [N - 1]
    returns (in particular [push] answers [false] exactly when [N - 1] bytes are
    held, and no byte is lost, duplicated or reordered), and never panics. *)
Theorem ringbuf_refines_queue (N : nat) (ops : list rb_op) : 0 < N ->
  exists rb', rb_run N (rb_new N) ops = Done (fst (queue_run (N - 1) [] ops), rb') /\
    rb_contents rb' = snd (queue_run (N - 1) [] ops).
Proof.
  intros HN. destruct (rb_new_wf N HN) as [Hwf Hc].
  destruct (fifo_run_refines (F := ringbuf_fifo N) ops (rb_new N) Hwf) as (q' & Hr & _ & Hq).
  rewrite Hc in Hr, Hq. by exists q'.
Qed.

Lemma ringbuf_refines_queue_witness : 0 < 3 /\
  exists rb', rb_run 3 (rb_new 3) [OpPush 7; OpPush 8; OpPush 9; OpPop; OpPush 10; OpPop]%Z
    = Done (fst (queue_run 2 [] [OpPush 7; OpPush 8; OpPush 9; OpPop; OpPush 10; OpPop]%Z), rb') /\
    rb_contents rb' = [10%Z].
Proof. split; [lia|]. apply (ringbuf_refines_queue 3). lia. Defined.
