(* ===== verification/Mmap.v ===== *)
(** The architecture-neutral physical memory map (src/kernel/src/memory/mmap.rs):
    a table of at most 32 regions filled by the boot code, and the choice of the
    region the frame allocator manages. *)
From Stdlib Require Import ZArith Lia.
From stdpp Require Import base option list numbers.
From S2P Require Import Prelude.
Local Open Scope Z_scope.

Definition MAX_REGIONS : nat := 32.

Inductive RegionKind := Usable | Reserved.
#[export] Instance RegionKind_eq_dec : EqDecision RegionKind.
Proof. solve_decision. Defined.

Record MemoryRegion := mk_region { r_base : Z; r_size : Z; r_kind : RegionKind }.
Definition region_zero : MemoryRegion := mk_region 0 0 Reserved.
Definition region_end (r : MemoryRegion) : Z := saturating_add (r_base r) (r_size r).

Record MemoryMap := mk_mmap { regions : list MemoryRegion; region_count : nat }.
Definition mmap_empty : MemoryMap := mk_mmap (replicate MAX_REGIONS region_zero) 0.

Definition mmap_add (m : MemoryMap) (base size : Z) (kind : RegionKind) : outcome MemoryMap :=
  if (0 <? size) && (region_count m <? MAX_REGIONS)%nat then
    rs ← set (regions m) (region_count m) (mk_region base size kind);
    Done (mk_mmap rs (region_count m + 1)%nat)
  else Done m.

Definition mmap_iter (m : MemoryMap) : list MemoryRegion := take (region_count m) (regions m).

(** One iteration of the loop of [largest_usable]. *)
Definition largest_step (min_base : Z) (best : option MemoryRegion) (r : MemoryRegion) : option MemoryRegion :=
  if decide (r_kind r = Usable) then
    let base := if r_base r <? min_base then min_base else r_base r in
    if region_end r <=? base then best
    else
      let size := region_end r - base in
      let trimmed := mk_region base size Usable in
      match best with
      | None => Some trimmed
      | Some b => if r_size b <? size then Some trimmed else best
      end
  else best.
Definition largest_usable (m : MemoryMap) (min_base : Z) : option MemoryRegion :=
  foldl (largest_step min_base) None (mmap_iter m).

(** ** Properties *)

Definition region_ok (r : MemoryRegion) : Prop := 0 <= r_base r < 2 ^ 64 /\ 0 <= r_size r < 2 ^ 64.
Definition mmap_wf (m : MemoryMap) : Prop :=
  length (regions m) = MAX_REGIONS /\ (region_count m <= MAX_REGIONS)%nat /\
  Forall (fun r => region_ok r /\ 0 < r_size r) (mmap_iter m).

(** The part of a usable region at or above [min_base], when there is one. *)
Definition candidate (min_base : Z) (r : MemoryRegion) : option MemoryRegion :=
  let base := Z.max min_base (r_base r) in
  if decide (r_kind r = Usable /\ base < region_end r)
  then Some (mk_region base (region_end r - base) Usable) else None.

Definition pick (best : option MemoryRegion) (c : MemoryRegion) : option MemoryRegion :=
  match best with
  | None => Some c
  | Some b => if r_size b <? r_size c then Some c else Some b
  end.

Lemma largest_step_candidate min_base best r :
  largest_step min_base best r =
  match candidate min_base r with Some c => pick best c | None => best end.
Proof.
  unfold largest_step, candidate. destruct (decide (r_kind r = Usable)) as [Hk|Hk].
  - replace (if r_base r <? min_base then min_base else r_base r) with (Z.max min_base (r_base r))
      by (destruct (Z.ltb_spec (r_base r) min_base); lia).
    destruct (Z.leb_spec (region_end r) (Z.max min_base (r_base r))).
    + rewrite decide_False by lia. done.
    + rewrite decide_True by (split; [done|lia]). by destruct best.
  - rewrite decide_False by tauto. done.
Qed.

Lemma largest_usable_pick m min_base :
  largest_usable m min_base = foldl pick None (omap (candidate min_base) (mmap_iter m)).
Proof.
  unfold largest_usable. generalize (@None MemoryRegion) as best.
  induction (mmap_iter m) as [|r l IH]; intros best; [done|].
  cbn [foldl omap list_omap]. rewrite IH, largest_step_candidate. by destruct (candidate min_base r).
Qed.

Lemma fold_pick l : forall best r, foldl pick best l = Some r ->
  (best = Some r \/ r ∈ l) /\ (forall b, best = Some b -> r_size b <= r_size r) /\
  (forall c, c ∈ l -> r_size c <= r_size r).
Proof.
  induction l as [|c l IH]; intros best r H; cbn in H.
  - subst. split; [by left|]. split; [intros; done_inv; lia | intros c Hc; by apply elem_of_nil in Hc].
  - destruct (IH _ _ H) as (Hin & Hb & Hl). split; [|split].
    + destruct Hin as [Hin|]; [|right; by right].
      destruct best as [b|]; cbn in Hin; [destruct (r_size b <? r_size c)|]; done_inv;
        first [right; left | by left].
    + intros b ->. cbn in Hb. destruct (Z.ltb_spec (r_size b) (r_size c)); pose proof (Hb _ eq_refl); lia.
    + intros d [->|Hd]%elem_of_cons; [|by apply Hl].
      destruct best as [b|]; cbn in Hb; [destruct (Z.ltb_spec (r_size b) (r_size c))|];
        pose proof (Hb _ eq_refl); lia.
Qed.

Lemma fold_pick_Some l b : exists r, foldl pick (Some b) l = Some r.
Proof.
  revert b. induction l as [|c l IH]; intros b; cbn; [by exists b|].
  destruct (r_size b <? r_size c); apply IH.
Qed.

Lemma largest_usable_pick_max (m : MemoryMap) (min_base : Z) :
  match largest_usable m min_base with
  | Some r =>
      (exists x, x ∈ mmap_iter m /\ candidate min_base x = Some r) /\
      (forall x c, x ∈ mmap_iter m -> candidate min_base x = Some c -> r_size c <= r_size r)
  | None => forall x, x ∈ mmap_iter m -> candidate min_base x = None
  end.
Proof.
  rewrite largest_usable_pick.
  destruct (foldl pick None _) as [r|] eqn:E.
  - destruct (fold_pick _ _ _ E) as ([?|Hin] & _ & Hmax); [done|].
    split; [by apply list_elem_of_omap in Hin|].
    intros x c Hx Hc. apply Hmax. apply list_elem_of_omap. by exists x.
  - intros x Hx. destruct (candidate min_base x) as [c|] eqn:Hc; [|done].
    assert (c ∈ omap (candidate min_base) (mmap_iter m)) as Hin by (apply list_elem_of_omap; by exists x).
    destruct (omap (candidate min_base) (mmap_iter m)) as [|d l]; [by apply elem_of_nil in Hin|].
    cbn in E. destruct (fold_pick_Some l d) as [r Hr]. congruence.
Qed.

(** The region chosen lies above [min_base] and inside a region of the map. *)
Lemma candidate_bounds min_base x r : region_ok x -> 0 <= min_base -> candidate min_base x = Some r ->
  min_base <= r_base r /\ r_base x <= r_base r /\ 0 < r_size r /\
  r_base r + r_size r <= r_base x + r_size x /\ r_base r + r_size r < 2 ^ 64.
Proof.
  unfold candidate, region_ok, region_end, saturating_add, usize_max.
  intros [? ?] ? Hc. case_decide; done_inv. cbn. lia.
Qed.

Lemma mmap_empty_wf : mmap_wf mmap_empty.
Proof. repeat split; cbn; auto with arith. Qed.

Lemma mmap_add_wf m base size kind : mmap_wf m ->
  0 <= base < 2 ^ 64 -> 0 <= size < 2 ^ 64 ->
  exists m', mmap_add m base size kind = Done m' /\ mmap_wf m' /\
    mmap_iter m' = mmap_iter m ++
      (if (0 <? size) && (region_count m <? MAX_REGIONS)%nat then [mk_region base size kind] else []).
Proof.
  intros (Hl & Hc & Hf) Hb Hs. unfold mmap_add.
  destruct (Z.ltb_spec 0 size); cbn [andb]; [|exists m; rewrite app_nil_r; by repeat split].
  destruct (Nat.ltb_spec (region_count m) MAX_REGIONS); [|exists m; rewrite app_nil_r; by repeat split].
  rewrite set_lt by lia. mred. eexists. split; [done|].
  assert (mmap_iter (mk_mmap (<[region_count m := mk_region base size kind]> (regions m)) (region_count m + 1))
    = mmap_iter m ++ [mk_region base size kind]) as E.
  { unfold mmap_iter. cbn. rewrite Nat.add_1_r.
    rewrite take_S_r with (x := mk_region base size kind) by (apply list_lookup_insert_eq; lia).
    by rewrite take_insert_ge. }
  split; [|done]. unfold mmap_wf. rewrite E. cbn. rewrite length_insert.
  split; [done|]. split; [lia|]. apply Forall_app_2; [done|].
  constructor; [|done]. unfold region_ok. cbn. lia.
Qed.

(** [largest_usable] returns the part at or above [min_base] of a usable
    region of the map, no usable region has a larger part there, and it returns
    nothing only when no usable region reaches above [min_base]. *)
Theorem largest_usable_spec (m : MemoryMap) (min_base : Z) :
  match largest_usable m min_base with
  | Some r =>
      (exists x, x ∈ mmap_iter m /\ candidate min_base x = Some r) /\
      (forall x c, x ∈ mmap_iter m -> candidate min_base x = Some c -> r_size c <= r_size r)
  | None => forall x, x ∈ mmap_iter m -> candidate min_base x = None
  end.
Proof. apply largest_usable_pick_max. Qed.
