(* ===== verification/BootMem.v ===== *)
(** Memory as the boot code reads it: runs of bytes left by the firmware, and the memory map
    built from them.  Shared by the parsers of Multiboot.v and Fdt.v. *)
From Stdlib Require Import ZArith Lia.
From stdpp Require Import base option list numbers.
From S2P Require Import Prelude Mmap.
Local Open Scope Z_scope.

(** [n] bytes from [a] on. *)
Definition read_mem (m : mem) (a : Z) (n : nat) : bytes := (fun i => m (a + Z.of_nat i)) <$> seq 0 n.
(** The bytes [l] are in memory from [a] on. *)
Definition holds (m : mem) (a : Z) (l : bytes) : Prop := forall i b, l !! i = Some b -> m (a + Z.of_nat i) = b.
Definition mem_ok (m : mem) : Prop := forall a, byte_ok (m a).

Lemma holds_app m a l l' : holds m a (l ++ l') <-> holds m a l /\ holds m (a + Z.of_nat (length l)) l'.
Proof.
  unfold holds. split.
  - intros H. split; intros i b Hi.
    + apply H. by apply lookup_app_l_Some.
    + rewrite <- (H (length l + i)%nat b); [f_equal; lia|]. rewrite lookup_app_r by lia. rewrite <- Hi. f_equal. lia.
  - intros [H1 H2] i b [Hi|[Hle Hi]]%lookup_app_Some; [by apply H1|]. rewrite <- (H2 _ _ Hi). f_equal. lia.
Qed.
Lemma holds_cons m a b l : holds m a (b :: l) <-> m a = b /\ holds m (a + 1) l.
Proof.
  change (b :: l) with ([b] ++ l). rewrite holds_app. cbn [length]. change (Z.of_nat 1) with 1.
  split; intros [H1 H2]; (split; [|done]).
  - rewrite <- (H1 0%nat b eq_refl). f_equal. lia.
  - intros [|i] c Hc; [|by destruct i]. injection Hc as <-. rewrite <- H1. f_equal. lia.
Qed.
Lemma read_mem_holds m a l : holds m a l -> read_mem m a (length l) = l.
Proof.
  intros H. apply list_eq. intros i. unfold read_mem. rewrite list_lookup_fmap.
  destruct (decide (i < length l)%nat) as [Hi|Hi].
  - rewrite lookup_seq_lt by done. destruct (lookup_lt_is_Some_2 l i Hi) as [b Hb]. cbn. rewrite Hb. f_equal. by apply H.
  - rewrite lookup_seq_ge by lia. symmetry. by apply lookup_ge_None_2; lia.
Qed.
Lemma read_holds m a l : read_mem m a (length l) = l -> holds m a l.
Proof.
  intros H i b Hi. rewrite <- H in Hi. unfold read_mem in Hi. rewrite list_lookup_fmap in Hi.
  destruct (seq 0 (length l) !! i) as [j|] eqn:E; [|done]. apply lookup_seq in E as [-> _]. cbn in Hi. by injection Hi as <-.
Qed.
Lemma bytes_mem_ok (l : bytes) (f : Z -> nat) : forallb (fun b => (0 <=? b) && (b <? 256)) l = true -> mem_ok (fun x => default 0 (l !! f x)).
Proof.
  intros H x. generalize (f x) as i. induction l as [|c l IH]; intros i; cbn in *; [by split|].
  apply andb_prop in H as [Hc Hl]. destruct i as [|i]; cbn; [unfold byte_ok; lia | by apply IH].
Qed.
Lemma read_le m a n v : 0 <= v < 2 ^ (8 * Z.of_nat n) -> holds m a (to_le n v) -> from_le (read_mem m a n) = v.
Proof.
  intros Hv H%read_mem_holds. rewrite to_le_length in H. rewrite H, from_le_to_le. by apply Z.mod_small.
Qed.
Lemma from_le_bound l : Forall byte_ok l -> 0 <= from_le l < 2 ^ (8 * Z.of_nat (length l)).
Proof.
  induction 1 as [|b l Hb _ IH]; cbn [from_le length]; [lia|]. unfold byte_ok in Hb.
  replace (8 * Z.of_nat (S (length l))) with (8 + 8 * Z.of_nat (length l)) by lia. rewrite Z.pow_add_r by lia. change (2 ^ 8) with 256. lia.
Qed.
Lemma read_mem_bound m a n : mem_ok m -> 0 <= from_le (read_mem m a n) < 2 ^ (8 * Z.of_nat n).
Proof.
  intros H. assert (length (read_mem m a n) = n) as Hl by (unfold read_mem; by rewrite length_fmap, length_seq).
  pose proof (from_le_bound (read_mem m a n)) as Hb. rewrite Hl in Hb. apply Hb. apply Forall_fmap, Forall_true. intros i. apply H.
Qed.
Lemma load64_read m a : load64 m a = from_le (read_mem m a 8).
Proof. done. Qed.

(** Reads inside [lo, hi) see nothing else. *)
Definition same_between (lo hi : Z) (m m' : mem) : Prop := forall a, lo <= a < hi -> m' a = m a.
Lemma read_mem_same lo hi m m' a n : same_between lo hi m m' -> lo <= a -> a + Z.of_nat n <= hi -> read_mem m' a n = read_mem m a n.
Proof.
  intros H Ha Hn. unfold read_mem. apply list_fmap_ext. intros i j Hj. apply lookup_seq in Hj as [-> Hj]. apply H. lia.
Qed.


(** ** Filling a map: the regions that are not empty, in order, as many as there is room for *)

Definition nonempty (r : MemoryRegion) : Prop := 0 < r_size r.
#[export] Instance nonempty_dec r : Decision (nonempty r).
Proof. unfold nonempty. apply _. Defined.
Definition first_regions (rs : list MemoryRegion) : list MemoryRegion := take MAX_REGIONS (filter nonempty rs).
(** [map'] is [map] with the regions [rs] added. *)
Definition adds (map map' : MemoryMap) (rs : list MemoryRegion) : Prop :=
  mmap_wf map' /\ forall rest, take MAX_REGIONS (mmap_iter map' ++ rest) = take MAX_REGIONS (mmap_iter map ++ filter nonempty rs ++ rest).

Lemma adds_nil map : mmap_wf map -> adds map map [].
Proof. by split. Qed.
Lemma filter_nonempty_app rs rs' : filter nonempty (rs ++ rs') = filter nonempty rs ++ filter nonempty rs'.
Proof. induction rs as [|r rs IH]; [done|]. cbn [app]. rewrite !filter_cons, IH. by case_decide. Qed.
Lemma adds_trans map1 map2 map3 rs rs' : adds map1 map2 rs -> adds map2 map3 rs' -> adds map1 map3 (rs ++ rs').
Proof. intros [_ H1] [Hwf H2]. split; [exact Hwf|]. intros rest. by rewrite H2, H1, filter_nonempty_app, <- !app_assoc. Qed.
Lemma iter_bound map : mmap_wf map -> (length (mmap_iter map) <= MAX_REGIONS)%nat.
Proof. intros (? & ? & _). unfold mmap_iter. rewrite length_take. lia. Qed.
Lemma adds_first map rs : adds mmap_empty map rs -> mmap_iter map = first_regions rs.
Proof. intros [Hwf H]. specialize (H []). rewrite !app_nil_r in H. rewrite take_ge in H by (by apply iter_bound). exact H. Qed.
Lemma add_region map base size kind : mmap_wf map -> 0 <= base < 2 ^ 64 -> 0 <= size < 2 ^ 64 ->
  exists map', mmap_add map base size kind = Done map' /\ adds map map' [mk_region base size kind].
Proof.
  intros Hwf Hb Hs. destruct (mmap_add_wf map base size kind Hwf Hb Hs) as (map' & E & Hwf' & Hi).
  exists map'. split; [exact E|]. split; [exact Hwf'|]. intros rs. rewrite Hi, filter_cons, filter_nil.
  destruct (Z.ltb_spec 0 size) as [H0|H0]; cbn [andb].
  - rewrite decide_True by exact H0. destruct (Nat.ltb_spec (region_count map) MAX_REGIONS) as [Hc|Hc]; [by rewrite <- app_assoc|].
    rewrite app_nil_r. destruct Hwf as (Hlen & Hcnt & _).
    assert (length (mmap_iter map) = MAX_REGIONS) as Hn by (unfold mmap_iter; rewrite length_take; lia).
    by rewrite !take_app_le, !take_ge by lia.
  - rewrite decide_False by (unfold nonempty; cbn; lia). by rewrite app_nil_r.
Qed.
