(* ===== verification/Multiboot.v ===== *)
(** The memory map a multiboot loader leaves (src/kernel/src/boards/qemu_pc/multiboot.rs):
    the e820 entries, or the size of upper memory, as a [MemoryMap].

    The words [multiboot_magic] and [multiboot_info] that the boot code saved are arguments, and
    so is memory, a byte at each address.  The loop over the entries has fuel: one round for
    every 24 bytes of the table, the size of its shortest entry, and one more. *)
From Stdlib Require Import ZArith Lia.
From stdpp Require Import base option list numbers.
From S2P Require Import Prelude Mmap BootMem.
Local Open Scope Z_scope.

Definition MB_MAGIC : Z := 0x2BADB002.
Definition FLAG_MEM : Z := 1.
Definition FLAG_MMAP : Z := Z.shiftl 1 6.

Definition read_u32 (m : mem) (a : Z) : Z := from_le (read_mem m a 4).
Definition read_u64 (m : mem) (a : Z) : Z := load64 m a.

Definition fallback (map : MemoryMap) : outcome MemoryMap := mmap_add map 0x100000 (127 * 1024 * 1024) Usable.

(** The loop of [parse_mmap_entries]; [None]: out of fuel. *)
Fixpoint entries_loop (fuel : nat) (m : mem) (map : MemoryMap) (ptr end_ : Z) : outcome (option MemoryMap) :=
  match fuel with
  | O => Done None
  | S fuel =>
      if negb (uadd ptr 4 <=? end_) then Done (Some map) else
      let entry_size := read_u32 m ptr in
      if (entry_size <? 20) || (end_ <? uadd (uadd ptr 4) entry_size) then Done (Some map) else
      let base := read_u64 m (uadd ptr 4) in
      let len := read_u64 m (uadd ptr 12) in
      let kind_raw := read_u32 m (uadd ptr 20) in
      let kind := if kind_raw =? 1 then Usable else Reserved in
      map ← mmap_add map base len kind;
      entries_loop fuel m map (uadd ptr (uadd 4 entry_size)) end_
  end.
Definition parse_mmap_entries (m : mem) (map : MemoryMap) (mmap_addr mmap_len : Z) : outcome (option MemoryMap) :=
  entries_loop (S (Z.to_nat (mmap_len / 24))) m map mmap_addr (uadd mmap_addr mmap_len).

Definition parse_memory_map (m : mem) (multiboot_magic multiboot_info : Z) : outcome (option MemoryMap) :=
  let map := mmap_empty in
  if negb (multiboot_magic =? MB_MAGIC) then map ← fallback map; Done (Some map) else
  let base := multiboot_info in
  let flags := read_u32 m base in
  if negb (Z.land flags FLAG_MMAP =? 0) then
    let mmap_len := read_u32 m (uadd base 44) in
    let mmap_addr := read_u32 m (uadd base 48) in
    parse_mmap_entries m map mmap_addr mmap_len
  else if negb (Z.land flags FLAG_MEM =? 0) then
    let mem_upper_kb := read_u32 m (uadd base 8) in
    map ← mmap_add map 0x100000 (umul mem_upper_kb 1024) Usable; Done (Some map)
  else map ← fallback map; Done (Some map).

(** ** What the parser does *)

(** An entry of the table: its fields, and what a longer entry has behind them. *)
Record e820 := mk_e820 { e_base : Z; e_len : Z; e_kind : Z; e_extra : bytes }.
Definition e820_ok (e : e820) : Prop := 0 <= e_base e < 2 ^ 64 /\ 0 <= e_len e < 2 ^ 64 /\ 0 <= e_kind e < 2 ^ 32.
Definition entry_bytes (e : e820) : bytes :=
  to_le 4 (20 + Z.of_nat (length (e_extra e))) ++ to_le 8 (e_base e) ++ to_le 8 (e_len e) ++ to_le 4 (e_kind e) ++ e_extra e.
Definition e820_region (e : e820) : MemoryRegion := mk_region (e_base e) (e_len e) (if e_kind e =? 1 then Usable else Reserved).
Definition e820_regions (es : list e820) : list MemoryRegion := first_regions (e820_region <$> es).

Lemma entry_bytes_length e : Z.of_nat (length (entry_bytes e)) = 24 + Z.of_nat (length (e_extra e)).
Proof. unfold entry_bytes. rewrite !length_app, !to_le_length. lia. Qed.

(** One entry. *)
Lemma entry_read m a e : e820_ok e -> 20 + Z.of_nat (length (e_extra e)) < 2 ^ 32 -> 0 <= a -> a + 24 < 2 ^ 64 -> holds m a (entry_bytes e) ->
  read_u32 m a = 20 + Z.of_nat (length (e_extra e)) /\ read_u64 m (uadd a 4) = e_base e /\
  read_u64 m (uadd a 12) = e_len e /\ read_u32 m (uadd a 20) = e_kind e.
Proof.
  intros (Hb & Hl & Hk) Hx Ha Ha'. unfold entry_bytes. rewrite !holds_app, !to_le_length. intros (H1 & H2 & H3 & H4 & _).
  unfold uadd. rewrite !(wrap_small 64) by lia. unfold read_u32, read_u64. rewrite !load64_read.
  split; [apply read_le; [lia | done]|]. split; [by apply read_le|].
  split; [apply read_le; [done|]; by replace (a + 12) with (a + Z.of_nat 4 + Z.of_nat 8) by lia|].
  apply read_le; [done|]. by replace (a + 20) with (a + Z.of_nat 4 + Z.of_nat 8 + Z.of_nat 8) by lia.
Qed.

Lemma uadd_next ptr sz : 0 <= ptr -> 0 <= sz -> ptr + 4 + sz < 2 ^ 64 -> uadd ptr (uadd 4 sz) = ptr + 4 + sz.
Proof. intros. unfold uadd. rewrite (wrap_small 64 (4 + sz)) by lia. rewrite wrap_small by lia. lia. Qed.
Lemma entries_loop_exact es : forall fuel m map ptr, mmap_wf map -> 0 <= ptr -> Forall e820_ok es ->
  let len := Z.of_nat (length (concat (entry_bytes <$> es))) in
  len < 2 ^ 32 -> ptr + len < 2 ^ 33 -> (Z.to_nat (len / 24) < fuel)%nat -> holds m ptr (concat (entry_bytes <$> es)) ->
  exists map', entries_loop fuel m map ptr (ptr + len) = Done (Some map') /\ adds map map' (e820_region <$> es).
Proof.
  induction es as [|e es IH]; intros fuel m map ptr Hwf Hp Hok len Hlen Hptr Hfuel Hm; destruct fuel as [|fuel]; try lia; cbn [entries_loop].
  - exists map. unfold uadd. rewrite wrap_small by (cbn in len; lia). replace (ptr + 4 <=? ptr + len) with false by (symmetry; apply Z.leb_gt; cbn in len; lia).
    split; [done|]. by apply adds_nil.
  - cbn [fmap list_fmap concat] in *. inversion Hok as [|? ? He Hes]; subst. apply holds_app in Hm as [Hm1 Hm2].
    set (xl := Z.of_nat (length (e_extra e))). set (rl := Z.of_nat (length (concat (entry_bytes <$> es)))).
    assert (len = 24 + xl + rl) as Hle by (unfold len, xl, rl; rewrite length_app; pose proof (entry_bytes_length e); lia).
    destruct (entry_read m ptr e He) as (E1 & E2 & E3 & E4); [lia.. | done |].
    rewrite E1, E2, E3, E4. fold xl. rewrite uadd_next by lia. unfold uadd. rewrite !(wrap_small 64) by lia.
    replace (ptr + 4 <=? ptr + len) with true by (symmetry; apply Z.leb_le; lia). cbn [negb].
    replace (20 + xl <? 20) with false by (symmetry; apply Z.ltb_ge; lia).
    replace (ptr + len <? ptr + 4 + (20 + xl)) with false by (symmetry; apply Z.ltb_ge; lia). cbn [orb].
    destruct He as (Hb & Hl & Hk). destruct (add_region map (e_base e) (e_len e) (if e_kind e =? 1 then Usable else Reserved) Hwf Hb Hl) as (map1 & -> & Ha). mred.
    pose proof (entry_bytes_length e) as Heb. fold xl in Heb. replace (ptr + 4 + (20 + xl)) with (ptr + Z.of_nat (length (entry_bytes e))) by lia.
    destruct (IH fuel m map1 (ptr + Z.of_nat (length (entry_bytes e)))) as (map' & E & Ha'); [apply Ha | lia | done | fold rl; lia | fold rl; lia | | done |].
    { fold rl. assert (len / 24 >= rl / 24 + 1) by (rewrite Hle; replace (24 + xl + rl) with (xl + rl + 1 * 24) by lia; rewrite Z.div_add by lia; pose proof (Z.div_le_mono rl (xl + rl) 24); lia).
      pose proof (Z.div_pos rl 24). lia. }
    exists map'. fold rl in E. replace (ptr + Z.of_nat (length (entry_bytes e)) + rl) with (ptr + len) in E by lia. split; [exact E|].
    exact (adds_trans _ _ _ [e820_region e] _ Ha Ha').
Qed.

(** Whatever the table holds: the loop ends within its fuel, does not panic, and reads only the table. *)
Lemma entries_loop_total fuel : forall m map ptr end_, mem_ok m -> mmap_wf map -> 0 <= ptr <= end_ -> end_ < 2 ^ 34 ->
  (Z.to_nat ((end_ - ptr) / 24) < fuel)%nat ->
  exists map', entries_loop fuel m map ptr end_ = Done (Some map') /\ mmap_wf map' /\
    forall m', same_between ptr end_ m m' -> entries_loop fuel m' map ptr end_ = Done (Some map').
Proof.
  induction fuel as [|fuel IH]; intros m map ptr end_ Hm Hwf Hp He Hf; [lia|]. cbn [entries_loop].
  assert (forall a b, 0 <= a -> 0 <= b -> a + b < 2 ^ 64 -> uadd a b = a + b) as Hu by (intros; apply wrap_small; lia).
  rewrite !(Hu ptr 4) by lia. destruct (Z.leb_spec (ptr + 4) end_) as [H4|H4]; cbn [negb]; [|by exists map].
  set (sz := read_u32 m ptr). assert (0 <= sz < 2 ^ 32) as Hsz by (apply (read_mem_bound m ptr 4 Hm)).
  assert (forall m', same_between ptr end_ m m' -> read_u32 m' ptr = sz) as Hsame.
  { intros m' H. unfold sz, read_u32. by rewrite (read_mem_same ptr end_ m m' ptr 4) by (done || lia). }
  rewrite uadd_next, (Hu (ptr + 4) sz), !(Hu ptr 12), !(Hu ptr 20) by lia.
  destruct (Z.ltb_spec sz 20) as [H20|H20]; cbn [orb].
  { exists map. split; [done|]. split; [done|]. intros m' H. rewrite (Hsame m' H). by rewrite (proj2 (Z.ltb_lt _ _) H20). }
  destruct (Z.ltb_spec end_ (ptr + 4 + sz)) as [Hend|Hend].
  { exists map. split; [done|]. split; [done|]. intros m' H. rewrite (Hsame m' H), (Hu (ptr + 4) sz) by lia.
    rewrite (proj2 (Z.ltb_ge _ _) H20), (proj2 (Z.ltb_lt _ _) Hend). done. }
  destruct (mmap_add_wf map (read_u64 m (ptr + 4)) (read_u64 m (ptr + 12)) (if read_u32 m (ptr + 20) =? 1 then Usable else Reserved) Hwf) as (map1 & E & Hwf1 & _);
    [apply (read_mem_bound m _ 8 Hm)..|].
  rewrite E. mred. destruct (IH m map1 (ptr + 4 + sz) end_ Hm Hwf1) as (map' & E' & Hwf' & Hs'); [lia | lia | |].
  { assert ((end_ - ptr) / 24 >= (end_ - (ptr + 4 + sz)) / 24 + 1) by (pose proof (Z.div_le_mono ((end_ - (ptr + 4 + sz)) + 1 * 24) (end_ - ptr) 24); rewrite Z.div_add in * by lia; lia).
    pose proof (Z.div_pos (end_ - (ptr + 4 + sz)) 24). lia. }
  exists map'. split; [exact E'|]. split; [exact Hwf'|]. intros m' H.
  assert (forall a n, ptr <= a -> a + Z.of_nat n <= end_ -> read_mem m' a n = read_mem m a n) as Hr by (intros; by apply (read_mem_same ptr end_)).
  rewrite (Hsame m' H), uadd_next, (Hu (ptr + 4) sz) by lia. rewrite (proj2 (Z.ltb_ge _ _) H20), (proj2 (Z.ltb_ge _ _) Hend).
  cbn [orb]. unfold read_u64, read_u32 in *. rewrite !load64_read, !Hr by lia. rewrite !load64_read in E. rewrite E. mred.
  apply Hs'. intros a Ha. apply H. lia.
Qed.

Lemma one_region base size : 0 <= base < 2 ^ 64 -> 0 < size < 2 ^ 64 ->
  exists map, mmap_add mmap_empty base size Usable = Done map /\ mmap_wf map /\ mmap_iter map = [mk_region base size Usable].
Proof.
  intros Hb Hs. destruct (mmap_add_wf mmap_empty base size Usable mmap_empty_wf) as (map & E & Hwf & Hi); [done | lia|].
  exists map. split; [exact E|]. split; [exact Hwf|]. rewrite Hi. by rewrite (proj2 (Z.ltb_lt _ _)) by lia.
Qed.
Lemma flag_bit flags b : 0 <= b -> (Z.land flags (Z.shiftl 1 b) =? 0) = negb (Z.testbit flags b).
Proof. apply land_bit_zero. Qed.

(** The case of a table, and the bound on what its fields can say. *)
Lemma multiboot_parsed m info es : mem_ok m -> 0 <= info < 2 ^ 32 -> Z.testbit (read_u32 m info) 6 = true -> Forall e820_ok es ->
  read_u32 m (info + 44) = Z.of_nat (length (concat (entry_bytes <$> es))) ->
  holds m (read_u32 m (info + 48)) (concat (entry_bytes <$> es)) ->
  exists map, parse_memory_map m MB_MAGIC info = Done (Some map) /\ mmap_wf map /\ mmap_iter map = e820_regions es.
Proof.
  intros Hm Hi H6 Hes Hlen Hh. assert (forall a, 0 <= read_u32 m a < 2 ^ 32) as H32 by (intros a; apply (read_mem_bound m a 4 Hm)).
  unfold parse_memory_map. unfold uadd at 1 2 3. rewrite !(wrap_small 64 (info + _)) by lia.
  unfold FLAG_MMAP. rewrite flag_bit, negb_involutive, H6 by lia. change (negb (MB_MAGIC =? MB_MAGIC)) with false. cbv iota.
  destruct (entries_loop_exact es (S (Z.to_nat (read_u32 m (info + 44) / 24))) m mmap_empty (read_u32 m (info + 48)) mmap_empty_wf) as (map & E & Ha);
    [apply H32 | done | rewrite <- Hlen; pose proof (H32 (info + 44)); pose proof (H32 (info + 48)); lia.. | rewrite <- Hlen; lia | done |].
  exists map. unfold parse_mmap_entries, uadd. rewrite (wrap_small 64) by (pose proof (H32 (info + 44)); pose proof (H32 (info + 48)); lia).
  rewrite <- Hlen in E. split; [exact E|]. split; [apply Ha | by apply adds_first].
Qed.

(** C33: whatever a loader leaves in memory, parsing it ends, does not panic and gives a well-formed
    map; and a map of e820 entries, of any entry sizes, is parsed to exactly its regions that are
    not empty, in order, the first 32 of them; without one, upper memory or the default is the only region. *)
Theorem multiboot_map_exact (m : mem) (magic info : Z) : mem_ok m -> 0 <= info < 2 ^ 32 ->
  let flags := read_u32 m info in
  exists map, parse_memory_map m magic info = Done (Some map) /\ mmap_wf map /\
    (magic <> MB_MAGIC \/ Z.testbit flags 6 = false /\ Z.testbit flags 0 = false ->
      mmap_iter map = [mk_region 0x100000 (127 * 1024 * 1024) Usable]) /\
    (magic = MB_MAGIC -> Z.testbit flags 6 = false -> Z.testbit flags 0 = true -> 0 < read_u32 m (info + 8) ->
      mmap_iter map = [mk_region 0x100000 (read_u32 m (info + 8) * 1024) Usable]) /\
    (magic = MB_MAGIC -> Z.testbit flags 6 = true -> forall es, Forall e820_ok es ->
      read_u32 m (info + 44) = Z.of_nat (length (concat (entry_bytes <$> es))) ->
      holds m (read_u32 m (info + 48)) (concat (entry_bytes <$> es)) -> mmap_iter map = e820_regions es).
Proof.
  intros Hm Hi flags. assert (forall a, 0 <= read_u32 m a < 2 ^ 32) as H32 by (intros a; apply (read_mem_bound m a 4 Hm)).
  unfold parse_memory_map. fold flags. unfold uadd at 1 2 3. rewrite !(wrap_small 64 (info + _)) by lia.
  unfold FLAG_MMAP, FLAG_MEM. change 1 with (Z.shiftl 1 0) at 2. rewrite !flag_bit, !negb_involutive by lia.
  destruct (one_region 0x100000 (127 * 1024 * 1024)) as (mf & Ef & Hwf & Hif); [lia.. |].
  destruct (Z.eqb_spec magic MB_MAGIC) as [Hmg|Hmg]; cbn [negb].
  2: { unfold fallback. rewrite Ef. mred. exists mf. split_and!; [done | done | done | by intros ? | by intros ?]. }
  destruct (Z.testbit flags 6) eqn:E6.
  - destruct (entries_loop_total (S (Z.to_nat (read_u32 m (info + 44) / 24))) m mmap_empty (read_u32 m (info + 48))
      (read_u32 m (info + 48) + read_u32 m (info + 44)) Hm mmap_empty_wf) as (map & E & Hw & _);
      [pose proof (H32 (info + 44)); pose proof (H32 (info + 48)); lia.. | by rewrite Z.add_simpl_l; lia |].
    assert (parse_mmap_entries m mmap_empty (read_u32 m (info + 48)) (read_u32 m (info + 44)) = Done (Some map)) as Ep.
    { unfold parse_mmap_entries, uadd. rewrite (wrap_small 64) by (pose proof (H32 (info + 44)); pose proof (H32 (info + 48)); lia). exact E. }
    exists map. split; [exact Ep|]. split; [exact Hw|]. split; [by intros [?|[? ?]]|]. split; [done|]. intros _ _ es Hes Hlen Hh.
    destruct (multiboot_parsed m info es Hm Hi E6 Hes Hlen Hh) as (map' & E' & _ & Hit). unfold parse_memory_map in E'. fold flags in E'.
    unfold FLAG_MMAP in E'. rewrite flag_bit, negb_involutive, E6 in E' by lia. change (negb (MB_MAGIC =? MB_MAGIC)) with false in E'. cbv iota in E'.
    unfold uadd in E' at 1 2. rewrite !(wrap_small 64 (info + _)) in E' by lia. rewrite Ep in E'. by injection E' as <-.
  - destruct (Z.testbit flags 0) eqn:E0.
    + assert (umul (read_u32 m (info + 8)) 1024 = read_u32 m (info + 8) * 1024) as -> by (apply wrap_small; pose proof (H32 (info + 8)); lia).
      destruct (mmap_add_wf mmap_empty 0x100000 (read_u32 m (info + 8) * 1024) Usable mmap_empty_wf) as (map & E & Hw & Hit); [lia | pose proof (H32 (info + 8)); lia |].
      rewrite E. mred. exists map. split; [done|]. split; [done|]. split; [by intros [?|[_ ?]]|]. split; [|done].
      intros _ _ _ H0. rewrite Hit. by rewrite (proj2 (Z.ltb_lt _ _)) by lia.
    + unfold fallback. rewrite Ef. mred. exists mf. by split_and!.
Qed.

(** A loader that leaves the table of a machine with 128 MiB. *)
Definition demo_e820 : list e820 :=
  [mk_e820 0 0x9FC00 1 []; mk_e820 0x9FC00 0x400 2 [0; 0; 0; 0]; mk_e820 0x100000 0 1 []; mk_e820 0x100000 0x7EE0000 1 []].
Definition demo_table : bytes := concat (entry_bytes <$> demo_e820).
Definition demo_info : bytes := to_le 4 64 ++ replicate 40 0 ++ to_le 4 (Z.of_nat (length demo_table)) ++ to_le 4 0x9100.
Definition demo_boot_mem : mem := fun a =>
  if (0x9000 <=? a) && (a <? 0x9100) then default 0 (demo_info !! Z.to_nat (a - 0x9000)) else default 0 (demo_table !! Z.to_nat (a - 0x9100)).
Lemma demo_boot_mem_ok : mem_ok demo_boot_mem.
Proof.
  intros a. unfold demo_boot_mem. destruct (_ && _); [apply (bytes_mem_ok demo_info (fun a => Z.to_nat (a - 0x9000))) | apply (bytes_mem_ok demo_table (fun a => Z.to_nat (a - 0x9100)))];
    vm_compute; reflexivity.
Qed.
Lemma demo_e820_ok : Forall e820_ok demo_e820.
Proof. repeat (constructor; [repeat split; vm_compute; first [reflexivity | discriminate]|]). constructor. Qed.
Lemma demo_e820_held : holds demo_boot_mem (read_u32 demo_boot_mem (0x9000 + 48)) (concat (entry_bytes <$> demo_e820)).
Proof. apply read_holds. vm_compute. reflexivity. Qed.
Lemma multiboot_map_exact_witness : exists map, parse_memory_map demo_boot_mem MB_MAGIC 0x9000 = Done (Some map) /\
  mmap_iter map = [mk_region 0 0x9FC00 Usable; mk_region 0x9FC00 0x400 Reserved; mk_region 0x100000 0x7EE0000 Usable].
Proof.
  destruct (multiboot_map_exact demo_boot_mem MB_MAGIC 0x9000 demo_boot_mem_ok ltac:(lia)) as (map & E & _ & _ & _ & H).
  exists map. split; [exact E|]. rewrite (H eq_refl ltac:(by vm_compute) demo_e820 demo_e820_ok); [by vm_compute | by vm_compute | exact demo_e820_held].
Defined.
