(* ===== verification/Fdt.v ===== *)
(** The device tree of the RISC-V board (src/kernel/src/boards/qemu_virt_riscv64/fdt.rs): the
    parser that walks the structure block for the memory nodes under the root.

    [riscv_fdt_ptr], which the boot code saved, is an argument, and so is memory.  The walk and the
    search for the end of a string have fuel: the code does not bound them, so on memory
    that is no device tree they need not end. *)
From Stdlib Require Import ZArith Lia.
From stdpp Require Import base option list numbers.
From S2P Require Import Prelude Mmap BootMem.
Local Open Scope Z_scope.

Definition FDT_MAGIC : Z := 0xd00dfeed.
Definition FDT_BEGIN_NODE : Z := 1.
Definition FDT_END_NODE : Z := 2.
Definition FDT_PROP : Z := 3.
Definition FDT_NOP : Z := 4.

Definition be32_at (m : mem) (p : Z) : Z := from_be32 (m p) (m (p + 1)) (m (p + 2)) (m (p + 3)).
Definition be64_at (m : mem) (p : Z) : Z := be32_at m p * 2 ^ 32 + be32_at m (p + 4).

(** [while *p.add(len) != 0 { len += 1 }] *)
Fixpoint cstr_len (fuel : nat) (m : mem) (p : Z) : option nat :=
  match fuel with
  | O => None
  | S fuel => if m p =? 0 then Some 0%nat else S <$> cstr_len fuel m (p + 1)
  end.
Definition cstr_bytes (fuel : nat) (m : mem) (p : Z) : option bytes := n ← cstr_len fuel m p; Some (read_mem m p n).

Definition fallback (map : MemoryMap) : outcome MemoryMap := mmap_add map 0x80000000 (128 * 1024 * 1024) Usable.

Definition read_cells (m : mem) (p cells : Z) : Z :=
  if cells =? 1 then be32_at m p else if cells =? 2 then be64_at m p else be32_at m p.
Definition parse_reg (m : mem) (map : MemoryMap) (data len addr_cells size_cells : Z) : outcome MemoryMap :=
  let entry_bytes := umul (wrap 32 (addr_cells + size_cells)) 4 in
  if entry_bytes =? 0 then Done map else
  let n := len / entry_bytes in
  foldM (fun map i =>
    let off := umul (Z.of_nat i) entry_bytes in
    let base := read_cells m (data + off) addr_cells in
    let size := read_cells m (data + uadd off (umul addr_cells 4)) size_cells in
    mmap_add map base size Usable) map (seq 0 (Z.to_nat n)).

(** The variables of the walk. *)
Record walk := mk_walk { w_cur : Z; w_depth : nat; w_addr_cells : Z; w_size_cells : Z; w_in_memory : bool; w_map : MemoryMap }.
Inductive walked := Next (w : walk) | Break (map : MemoryMap) | NoFuel.

Definition is_memory (name : bytes) : bool :=
  bool_decide (name = str "memory") || bool_decide (take 7 name = str "memory@").
Definition round4 (n : Z) : Z := Z.land (n + 3) (Z.lnot 3).

(** One token; [n] is the fuel for strings. *)
Definition walk_step (n : nat) (m : mem) (strings : Z) (w : walk) : outcome walked :=
  let '(mk_walk cur depth ac sc inm map) := w in
  let token := be32_at m cur in
  let cur := cur + 4 in
  if token =? FDT_BEGIN_NODE then
    match cstr_bytes n m cur with
    | None => Done NoFuel
    | Some name =>
        let cur := cur + round4 (Z.of_nat (length name) + 1) in
        Done (Next (mk_walk cur (S depth) ac sc ((depth =? 1)%nat && is_memory name) map))
    end
  else if token =? FDT_END_NODE then Done (Next (mk_walk cur (depth - 1) ac sc false map))
  else if token =? FDT_PROP then
    let prop_len := be32_at m cur in
    let name_off := be32_at m (cur + 4) in
    let data := cur + 8 in
    let cur := data + round4 prop_len in
    match cstr_bytes n m (strings + name_off) with
    | None => Done NoFuel
    | Some pname =>
        let '(ac, sc) :=
          if (depth =? 1)%nat then
            if bool_decide (pname = str "#address-cells") && (prop_len =? 4) then (be32_at m data, sc)
            else if bool_decide (pname = str "#size-cells") && (prop_len =? 4) then (ac, be32_at m data)
            else (ac, sc)
          else (ac, sc) in
        map ← (if inm && bool_decide (pname = str "reg") then parse_reg m map data prop_len ac sc else Done map);
        Done (Next (mk_walk cur depth ac sc inm map))
    end
  else if token =? FDT_NOP then Done (Next (mk_walk cur depth ac sc inm map))
  else Done (Break map).

(** The loop; [None]: out of fuel. *)
Fixpoint walk_loop (fuel n : nat) (m : mem) (strings : Z) (w : walk) : outcome (option MemoryMap) :=
  match fuel with
  | O => Done None
  | S fuel =>
      r ← walk_step n m strings w;
      match r with
      | Next w => walk_loop fuel n m strings w
      | Break map => Done (Some map)
      | NoFuel => Done None
      end
  end.
Definition parse_memory_map (fuel : nat) (m : mem) (riscv_fdt_ptr : Z) : outcome (option MemoryMap) :=
  let fdt_base := riscv_fdt_ptr in
  if (fdt_base =? 0) || negb (be32_at m fdt_base =? FDT_MAGIC) then map ← fallback mmap_empty; Done (Some map) else
  let off_struct := be32_at m (fdt_base + 8) in
  let off_str := be32_at m (fdt_base + 12) in
  r ← walk_loop fuel fuel m (fdt_base + off_str) (mk_walk (fdt_base + off_struct) 0 2 2 false mmap_empty);
  match r with
  | None => Done None
  | Some map => if (region_count map =? 0)%nat then map ← fallback map; Done (Some map) else Done (Some map)
  end.

(** ** Device trees and their flattened form *)

Inductive dt_node := DtNode (name : bytes) (props : list (Z * bytes)) (children : list dt_node).
Definition dt_name (x : dt_node) : bytes := let '(DtNode name _ _) := x in name.
Definition dt_props (x : dt_node) : list (Z * bytes) := let '(DtNode _ props _) := x in props.
Definition dt_children (x : dt_node) : list dt_node := let '(DtNode _ _ ch) := x in ch.

Definition to_be32 (v : Z) : bytes := [v / 2 ^ 24 mod 256; v / 2 ^ 16 mod 256; v / 2 ^ 8 mod 256; v mod 256].
Definition pad4 (l : bytes) : bytes := l ++ replicate (Z.to_nat (round4 (Z.of_nat (length l))) - length l) 0.
(** A property: the offset of its name in the strings block, and its value. *)
Definition flat_prop (p : Z * bytes) : bytes := to_be32 FDT_PROP ++ to_be32 (Z.of_nat (length p.2)) ++ to_be32 p.1 ++ pad4 p.2.
Fixpoint flat_node (x : dt_node) : bytes :=
  match x with
  | DtNode name props ch =>
      to_be32 FDT_BEGIN_NODE ++ pad4 (name ++ [0]) ++ concat (flat_prop <$> props) ++ concat (map flat_node ch) ++ to_be32 FDT_END_NODE
  end.

(** ** The memory a tree describes *)

Section tree.
(** The strings block: the name at an offset. *)
Variable strs : Z -> bytes.
Definition be_value (l : bytes) : Z := foldl (fun v b => v * 256 + b) 0 l.
(** The cells the properties of the root give. *)
Definition cells_step (c : Z * Z) (p : Z * bytes) : Z * Z :=
  if bool_decide (strs p.1 = str "#address-cells") && (length p.2 =? 4)%nat then (be_value p.2, c.2)
  else if bool_decide (strs p.1 = str "#size-cells") && (length p.2 =? 4)%nat then (c.1, be_value p.2)
  else c.
Definition dt_cells (props : list (Z * bytes)) : Z * Z := foldl cells_step (2, 2) props.
(** The (base, size) pairs of a [reg] value. *)
Definition reg_regions (ac sc : nat) (d : bytes) : list MemoryRegion :=
  (fun i => let e := drop (i * ((ac + sc) * 4)) d in
     mk_region (be_value (take (ac * 4) e)) (be_value (take (sc * 4) (drop (ac * 4) e))) Usable) <$> seq 0 (length d / ((ac + sc) * 4)).
Definition prop_regions (ac sc : nat) (p : Z * bytes) : list MemoryRegion :=
  if bool_decide (strs p.1 = str "reg") then reg_regions ac sc p.2 else [].
Definition node_regions (ac sc : nat) (x : dt_node) : list MemoryRegion :=
  if is_memory (dt_name x) then concat (prop_regions ac sc <$> dt_props x) else [].
Definition tree_regions (ac sc : nat) (root : dt_node) : list MemoryRegion := concat (node_regions ac sc <$> dt_children root).
End tree.

(** ** Reading the pieces *)

Lemma be32_holds m p l : length l = 4%nat -> holds m p l -> be32_at m p = be_value l.
Proof.
  intros Hl. destruct l as [|a [|b [|c [|d [|? ?]]]]]; try discriminate. intros H.
  rewrite !holds_cons in H. destruct H as (H1 & H2 & H3 & H4 & _). unfold be32_at, from_be32, be_value. cbn [foldl].
  replace (p + 1 + 1) with (p + 2) in * by lia. replace (p + 2 + 1) with (p + 3) in * by lia. rewrite H1, H2, H3, H4. lia.
Qed.
Lemma be_value_app l l' : be_value (l ++ l') = be_value l * 2 ^ (8 * Z.of_nat (length l')) + be_value l'.
Proof.
  unfold be_value. rewrite foldl_app. generalize (foldl (fun v b => v * 256 + b) 0 l) as a.
  enough (forall a, foldl (fun v b => v * 256 + b) a l' = a * 2 ^ (8 * Z.of_nat (length l')) + foldl (fun v b => v * 256 + b) 0 l') as H by exact H.
  induction l' as [|b l' IH]; intros a; cbn [foldl length]; [lia|]. rewrite IH, (IH (0 * 256 + b)).
  replace (8 * Z.of_nat (S (length l'))) with (8 + 8 * Z.of_nat (length l')) by lia. rewrite Z.pow_add_r by lia. change (2 ^ 8) with 256. lia.
Qed.
Lemma be64_holds m p l : length l = 8%nat -> holds m p l -> be64_at m p = be_value l.
Proof.
  intros Hl H. rewrite <- (take_drop 4 l) in H. apply holds_app in H as [H1 H2]. assert (length (take 4 l) = 4%nat) as E4 by (rewrite length_take; lia).
  assert (length (drop 4 l) = 4%nat) as E4' by (rewrite length_drop; lia). rewrite E4 in H2. change (Z.of_nat 4) with 4 in H2.
  unfold be64_at. rewrite (be32_holds _ _ _ E4 H1), (be32_holds _ _ _ E4' H2).
  transitivity (be_value (take 4 l ++ drop 4 l)); [by rewrite be_value_app, E4' | by rewrite take_drop].
Qed.
Lemma be32_to m p v : 0 <= v < 2 ^ 32 -> holds m p (to_be32 v) -> be32_at m p = v.
Proof.
  intros Hv H. rewrite (be32_holds _ _ (to_be32 v) eq_refl H). unfold be_value, to_be32. cbn [foldl].
  pose proof (Z.div_mod v 256). pose proof (Z.div_mod (v / 256) 256). pose proof (Z.div_mod (v / 256 / 256) 256).
  change (2 ^ 24) with (256 * 256 * 256). change (2 ^ 16) with (256 * 256). change (2 ^ 8) with 256. rewrite <- !Z.div_div by lia.
  rewrite (Z.mod_small (v / 256 / 256 / 256)); [lia|]. rewrite !Z.div_div by lia. split; [apply Z.div_pos; lia | apply Z.div_lt_upper_bound; lia].
Qed.

Lemma round4_bounds k : 0 <= k -> k <= round4 k < k + 4.
Proof.
  intros Hk. assert (round4 k = (k + 3) / 4 * 4) as ->.
  { unfold round4. rewrite <- Z.ldiff_land. change 3 with (Z.ones 2) at 2. by rewrite Z.ldiff_ones_r, Z.shiftr_div_pow2, Z.shiftl_mul_pow2 by lia. }
  pose proof (Z.div_mod (k + 3) 4). pose proof (Z.mod_pos_bound (k + 3) 4). lia.
Qed.
Lemma pad4_length l : Z.of_nat (length (pad4 l)) = round4 (Z.of_nat (length l)).
Proof. unfold pad4. rewrite length_app, length_replicate. pose proof (round4_bounds (Z.of_nat (length l))). lia. Qed.

Definition no_nul (l : bytes) : Prop := Forall (fun c => c <> 0) l.
Lemma cstr_holds n m : forall p l, no_nul l -> (length l < n)%nat -> holds m p (l ++ [0]) -> cstr_bytes n m p = Some l.
Proof.
  intros p l Hl Hn H. unfold cstr_bytes. assert (cstr_len n m p = Some (length l)) as ->.
  - revert p n Hn H. induction Hl as [|c l Hc _ IH]; intros p n Hn H; (destruct n as [|n]; cbn [length] in Hn; [lia|]); cbn [cstr_len app] in *; apply holds_cons in H as [-> H].
    + done.
    + rewrite (proj2 (Z.eqb_neq _ _) Hc). by rewrite (IH (p + 1)) by (done || lia).
  - cbn. apply holds_app in H as [H _]. by rewrite (read_mem_holds _ _ _ H).
Qed.

Definition cells_ok (c : nat) : Prop := c = 1%nat \/ c = 2%nat.
Lemma read_cells_holds m p c l : cells_ok c -> length l = (c * 4)%nat -> holds m p l -> read_cells m p (Z.of_nat c) = be_value l.
Proof. intros [->| ->] Hl H; unfold read_cells; cbn; [by apply be32_holds | by apply be64_holds]. Qed.
Lemma holds_sub m p l i k : (i + k <= length l)%nat -> holds m p l -> holds m (p + Z.of_nat i) (take k (drop i l)) /\ length (take k (drop i l)) = k.
Proof.
  intros Hi H. split; [|rewrite length_take, length_drop; lia]. rewrite <- (take_drop i l) in H. apply holds_app in H as [_ H].
  rewrite length_take, Nat.min_l in H by lia. rewrite <- (take_drop k (drop i l)) in H. by apply holds_app in H as [H _].
Qed.
Lemma be_value_bound l : Forall byte_ok l -> 0 <= be_value l < 2 ^ (8 * Z.of_nat (length l)).
Proof.
  induction l as [|b l IH] using rev_ind; [done|]. intros [Hl Hb]%Forall_app. rewrite be_value_app, length_app.
  apply Forall_inv in Hb as Hb0. unfold byte_ok in Hb0. specialize (IH Hl). cbn [length]. change (be_value [b]) with b.
  replace (8 * Z.of_nat (length l + 1)) with (8 * Z.of_nat (length l) + 8) by lia. rewrite Z.pow_add_r by lia. change (2 ^ (8 * Z.of_nat 1)) with 256. change (2 ^ 8) with 256. lia.
Qed.
Lemma cells_value m p c l : mem_ok m -> cells_ok c -> length l = (c * 4)%nat -> holds m p l -> 0 <= be_value l < 2 ^ 64.
Proof.
  intros Hm Hc Hl H. assert (Forall byte_ok l) as Hb.
  { apply Forall_lookup. intros i b Hi. rewrite <- (H i b Hi). apply Hm. }
  pose proof (be_value_bound l Hb) as B. rewrite Hl in B. destruct Hc as [->| ->]; cbn in B; lia.
Qed.

(** ** A [reg] value *)

Lemma parse_reg_adds m map data d ac sc : mem_ok m -> mmap_wf map -> cells_ok ac -> cells_ok sc ->
  Z.of_nat (length d) < 2 ^ 32 -> holds m data d ->
  exists map', parse_reg m map data (Z.of_nat (length d)) (Z.of_nat ac) (Z.of_nat sc) = Done map' /\ adds map map' (reg_regions ac sc d).
Proof.
  intros Hm Hwf Ha Hs Hd Hh. assert ((1 <= ac <= 2)%nat /\ (1 <= sc <= 2)%nat) as [Ba Bs] by (destruct Ha, Hs; lia).
  unfold parse_reg, reg_regions. set (eb := ((ac + sc) * 4)%nat). assert (eb = (ac + sc) * 4)%nat as Eb by done.
  assert (umul (wrap 32 (Z.of_nat ac + Z.of_nat sc)) 4 = Z.of_nat eb) as ->.
  { unfold umul. rewrite (wrap_small 32) by lia. rewrite wrap_small by lia. lia. }
  rewrite (proj2 (Z.eqb_neq (Z.of_nat eb) 0)) by lia.
  replace (Z.to_nat (Z.of_nat (length d) / Z.of_nat eb)) with (length d / eb)%nat by (rewrite <- Nat2Z.inj_div; lia).
  set (f := fun i : nat => _).
  match goal with |- context [foldM ?g map] => set (body := g) end.
  destruct (foldM_ind (fun k map' => adds map map' (f <$> seq 0 k)) body (seq 0 (length d / eb)) 0 map) as (map' & E & H).
  - by apply adds_nil.
  - intros i x map1 [-> Hi]%lookup_seq [Hwf1 H1]. cbn [plus] in *.
    assert ((S i) * eb <= length d)%nat as Hlt by (transitivity (length d / eb * eb)%nat; [apply Nat.mul_le_mono_r; lia | rewrite Nat.mul_comm; apply Nat.Div0.mul_div_le]).
    destruct (holds_sub m data d (i * eb) (ac * 4) ltac:(lia) Hh) as [Hb Lb].
    destruct (holds_sub m data d (i * eb + ac * 4) (sc * 4) ltac:(lia) Hh) as [Hz Lz].
    unfold body. assert (umul (Z.of_nat i) (Z.of_nat eb) = Z.of_nat (i * eb)) as -> by (unfold umul; rewrite wrap_small by lia; lia).
    assert (umul (Z.of_nat ac) 4 = Z.of_nat (ac * 4)) as -> by (unfold umul; rewrite wrap_small by lia; lia).
    assert (uadd (Z.of_nat (i * eb)) (Z.of_nat (ac * 4)) = Z.of_nat (i * eb + ac * 4)) as -> by (unfold uadd; rewrite wrap_small by lia; lia).
    rewrite (read_cells_holds _ _ _ _ Ha Lb Hb), (read_cells_holds _ _ _ _ Hs Lz Hz).
    destruct (add_region map1 _ _ Usable Hwf1 (cells_value _ _ _ _ Hm Ha Lb Hb) (cells_value _ _ _ _ Hm Hs Lz Hz)) as (map2 & E & H2).
    exists map2. split; [exact E|]. rewrite seq_S, fmap_app. eapply adds_trans; [by split|]. cbn [fmap list_fmap plus]. unfold f at 1. cbv zeta. by rewrite drop_drop.
  - rewrite length_seq in H. exists map'. split; [exact E | exact H].
Qed.

(** ** A token at a time *)

Section walk.
Variables (m : mem) (strings : Z) (strs : Z -> bytes) (n : nat).
Hypothesis Hm : mem_ok m.

Definition prop_ok (p : Z * bytes) : Prop :=
  0 <= p.1 < 2 ^ 32 /\ Z.of_nat (length p.2) < 2 ^ 32 /\ no_nul (strs p.1) /\ (length (strs p.1) < n)%nat /\ holds m (strings + p.1) (strs p.1 ++ [0]).
Fixpoint node_ok (x : dt_node) : Prop :=
  match x with
  | DtNode name props ch => no_nul name /\ (length name < n)%nat /\ Forall prop_ok props /\ fold_right (fun c P => node_ok c /\ P) True ch
  end.

Lemma step_begin p name depth ac sc inm map : no_nul name -> (length name < n)%nat -> holds m p (to_be32 FDT_BEGIN_NODE ++ pad4 (name ++ [0])) ->
  walk_step n m strings (mk_walk p depth ac sc inm map) =
    Done (Next (mk_walk (p + 4 + Z.of_nat (length (pad4 (name ++ [0])))) (S depth) ac sc ((depth =? 1)%nat && is_memory name) map)).
Proof.
  intros Hn Hl [H1 H2]%holds_app. unfold walk_step. rewrite (be32_to _ _ FDT_BEGIN_NODE) by done. change (FDT_BEGIN_NODE =? FDT_BEGIN_NODE) with true. cbv iota.
  unfold pad4 in H2. apply holds_app in H2 as [H2 _]. change (Z.of_nat (length (to_be32 FDT_BEGIN_NODE))) with 4 in H2.
  rewrite (cstr_holds n m (p + 4) name Hn Hl H2). rewrite pad4_length, length_app. cbn [length]. do 4 f_equal. f_equal. lia.
Qed.
Lemma step_end p depth ac sc inm map : holds m p (to_be32 FDT_END_NODE) ->
  walk_step n m strings (mk_walk p (S depth) ac sc inm map) = Done (Next (mk_walk (p + 4) depth ac sc false map)).
Proof. intros H. unfold walk_step. rewrite (be32_to _ _ FDT_END_NODE) by done. cbn. by rewrite Nat.sub_0_r. Qed.
Lemma step_prop p q depth ac sc inm map a z : prop_ok q -> mmap_wf map ->
  (inm = true -> depth <> 1%nat /\ ac = Z.of_nat a /\ sc = Z.of_nat z /\ cells_ok a /\ cells_ok z) -> holds m p (flat_prop q) ->
  exists map', walk_step n m strings (mk_walk p depth ac sc inm map) =
      Done (Next (let c := if (depth =? 1)%nat then cells_step strs (ac, sc) q else (ac, sc) in
        mk_walk (p + Z.of_nat (length (flat_prop q))) depth c.1 c.2 inm map')) /\
    adds map map' (if inm then prop_regions strs a z q else []) /\ (inm = false -> map' = map).
Proof.
  destruct q as [off d]. intros (Ho & Hd & Hs & Hn & Hstr) Hwf Hdep. unfold flat_prop. cbn [fst snd] in *.
  rewrite !holds_app. change (Z.of_nat (length (to_be32 _))) with 4. intros (H1 & H2 & H3 & H4).
  replace (p + 4 + 4 + 4) with (p + 4 + 8) in H4 by lia. unfold pad4 in H4. apply holds_app in H4 as [H4 _].
  unfold walk_step. rewrite (be32_to _ _ FDT_PROP) by done. cbn [Z.eqb FDT_PROP FDT_BEGIN_NODE FDT_END_NODE Pos.eqb].
  rewrite (be32_to m (p + 4) (Z.of_nat (length d))) by (done || lia). rewrite (be32_to m (p + 4 + 4) off) by done.
  rewrite (cstr_holds n m _ (strs off)) by done.
  assert (p + 4 + 8 + round4 (Z.of_nat (length d)) = p + Z.of_nat (length (to_be32 FDT_PROP ++ to_be32 (Z.of_nat (length d)) ++ to_be32 off ++ pad4 d))) as <-.
  { rewrite !length_app. pose proof (pad4_length d). change (length (to_be32 _)) with 4%nat. lia. }
  assert ((Z.of_nat (length d) =? 4) = (length d =? 4)%nat) as -> by (destruct (Nat.eqb_spec (length d) 4) as [->|]; [done | apply Z.eqb_neq; lia]).
  destruct (Nat.eqb_spec depth 1) as [->|Hd1].
  - destruct inm; [by destruct (Hdep eq_refl) as [? _]|]. cbn [andb]. exists map. split; [|split; [by apply adds_nil | done]].
    unfold cells_step. cbn [fst snd].
    destruct (Nat.eqb_spec (length d) 4) as [E|]; [rewrite (be32_holds _ _ d E H4)|];
      destruct (bool_decide (strs off = str "#address-cells")), (bool_decide (strs off = str "#size-cells")); done.
  - unfold prop_regions. cbn [fst snd]. destruct inm; cbn [andb]; [|exists map; split; [done | split; [by apply adds_nil | done]]].
    destruct (bool_decide (strs off = str "reg")); [|exists map; split; [done | split; [by apply adds_nil | done]]].
    destruct (Hdep eq_refl) as (_ & -> & -> & Hac & Hsc). destruct (parse_reg_adds m map (p + 4 + 8) d a z Hm Hwf Hac Hsc Hd H4) as (map' & -> & Ha). exists map'. by split.
Qed.

(** ** Runs of tokens *)

(** From [w] the walk comes to [w'] in [k] tokens. *)
Definition reaches (k : nat) (w w' : walk) : Prop := forall f, walk_loop (k + f) n m strings w = walk_loop f n m strings w'.
Lemma reaches_0 w : reaches 0 w w.
Proof. done. Qed.
Lemma reaches_trans k k' w1 w2 w3 : reaches k w1 w2 -> reaches k' w2 w3 -> reaches (k + k') w1 w3.
Proof. intros H1 H2 f. by rewrite <- Nat.add_assoc, H1, H2. Qed.
Lemma reaches_step w w' : walk_step n m strings w = Done (Next w') -> reaches 1 w w'.
Proof. intros H f. cbn [Nat.add walk_loop]. rewrite H. by mred. Qed.

Lemma props_root props : forall p ac sc map, Forall prop_ok props -> mmap_wf map -> holds m p (concat (flat_prop <$> props)) ->
  let c := foldl (cells_step strs) (ac, sc) props in
  reaches (length props) (mk_walk p 1 ac sc false map) (mk_walk (p + Z.of_nat (length (concat (flat_prop <$> props)))) 1 c.1 c.2 false map).
Proof.
  induction props as [|q props IH]; intros p ac sc map Hok Hwf Hh; cbn [fmap list_fmap concat length foldl] in *.
  - rewrite Z.add_0_r. apply reaches_0.
  - inversion Hok as [|? ? Hq Hqs]; subst. apply holds_app in Hh as [H1 H2].
    destruct (step_prop p q 1 ac sc false map 0 0 Hq Hwf ltac:(done) H1) as (map' & E & _ & Em). rewrite (Em eq_refl) in E. cbn [Nat.eqb] in E. cbv zeta in E.
    apply (reaches_trans 1 _ _ _ _ (reaches_step _ _ E)). rewrite length_app, Nat2Z.inj_add, Z.add_assoc.
    destruct (cells_step strs (ac, sc) q) as [ac' sc']. by apply IH.
Qed.
Lemma props_node props : forall p depth a z inm map, Forall prop_ok props -> mmap_wf map -> depth <> 1%nat -> cells_ok a -> cells_ok z ->
  holds m p (concat (flat_prop <$> props)) ->
  exists map', reaches (length props) (mk_walk p depth (Z.of_nat a) (Z.of_nat z) inm map)
      (mk_walk (p + Z.of_nat (length (concat (flat_prop <$> props)))) depth (Z.of_nat a) (Z.of_nat z) inm map') /\
    adds map map' (if inm then concat (prop_regions strs a z <$> props) else []).
Proof.
  induction props as [|q props IH]; intros p depth a z inm map Hok Hwf Hd Ha Hz Hh; cbn [fmap list_fmap concat length] in *.
  - exists map. rewrite Z.add_0_r. split; [apply reaches_0 | destruct inm; by apply adds_nil].
  - inversion Hok as [|? ? Hq Hqs]; subst. apply holds_app in Hh as [H1 H2].
    destruct (step_prop p q depth (Z.of_nat a) (Z.of_nat z) inm map a z Hq Hwf ltac:(done) H1) as (map1 & E & Ha1 & _).
    rewrite (proj2 (Nat.eqb_neq _ _) Hd) in E. cbv zeta in E. cbn [fst snd] in E.
    destruct (IH (p + Z.of_nat (length (flat_prop q))) depth a z inm map1 Hqs ltac:(apply Ha1) Hd Ha Hz H2) as (map2 & R & Ha2).
    exists map2. split.
    + apply (reaches_trans 1 _ _ _ _ (reaches_step _ _ E)). by rewrite length_app, Nat2Z.inj_add, Z.add_assoc.
    + destruct inm; [by eapply adds_trans | exact (adds_trans _ _ _ [] [] Ha1 Ha2)].
Qed.

(** ** Nodes *)

Fixpoint tokens (x : dt_node) : nat :=
  match x with DtNode _ props ch => (1 + length props + fold_right (fun c k => tokens c + k) 0 ch + 1)%nat end.
(** Induction with the hypothesis for every child. *)
Lemma dt_node_nested (P : dt_node -> Prop) : (forall name props ch, Forall P ch -> P (DtNode name props ch)) -> forall x, P x.
Proof.
  intros H. fix IH 1. intros [name props ch]. apply H. induction ch as [|c ch IHch]; [constructor | constructor; [apply IH | exact IHch]].
Qed.

(** What a node at depth [d] adds. *)
Definition adds_at (d a z : nat) (x : dt_node) : list MemoryRegion := if (d =? 1)%nat then node_regions strs a z x else [].
Definition walks_node (x : dt_node) : Prop := forall p d a z inm map, node_ok x -> mmap_wf map -> (1 <= d)%nat -> cells_ok a -> cells_ok z -> holds m p (flat_node x) ->
  exists map', reaches (tokens x) (mk_walk p d (Z.of_nat a) (Z.of_nat z) inm map)
      (mk_walk (p + Z.of_nat (length (flat_node x))) d (Z.of_nat a) (Z.of_nat z) false map') /\ adds map map' (adds_at d a z x).
Lemma children_walk ch : Forall walks_node ch -> forall p d a z inm map, fold_right (fun c P => node_ok c /\ P) True ch -> mmap_wf map -> (1 <= d)%nat ->
  cells_ok a -> cells_ok z -> holds m p (concat (flat_node <$> ch)) ->
  exists map' inm', reaches (fold_right (fun c k => tokens c + k)%nat 0%nat ch) (mk_walk p d (Z.of_nat a) (Z.of_nat z) inm map)
      (mk_walk (p + Z.of_nat (length (concat (flat_node <$> ch)))) d (Z.of_nat a) (Z.of_nat z) inm' map') /\
    adds map map' (concat (adds_at d a z <$> ch)).
Proof.
  induction 1 as [|c ch Hc _ IH]; intros p d a z inm map Hok Hwf Hd Ha Hz Hh; cbn [fmap list_fmap concat fold_right] in *.
  - exists map, inm. rewrite Z.add_0_r. split; [apply reaches_0 | by apply adds_nil].
  - destruct Hok as [Hok1 Hok2]. apply holds_app in Hh as [H1 H2].
    destruct (Hc p d a z inm map Hok1 Hwf Hd Ha Hz H1) as (map1 & R1 & A1).
    destruct (IH _ d a z false map1 Hok2 ltac:(apply A1) Hd Ha Hz H2) as (map2 & inm2 & R2 & A2).
    exists map2, inm2. split; [|by eapply adds_trans]. rewrite length_app, Nat2Z.inj_add, Z.add_assoc. by eapply reaches_trans.
Qed.
Lemma deep_adds ch d a z : (1 <= d)%nat -> concat (adds_at (S d) a z <$> ch) = [].
Proof.
  intros Hd. induction ch as [|c ch IH]; [done|]. rewrite fmap_cons. cbn [concat]. rewrite IH. unfold adds_at.
  by rewrite (proj2 (Nat.eqb_neq (S d) 1)) by lia.
Qed.
Lemma node_walk x : walks_node x.
Proof.
  induction x as [name props ch IH] using dt_node_nested. intros p d a z inm map (Hn & Hl & Hp & Hch) Hwf Hd Ha Hz Hh.
  cbn [flat_node] in Hh. rewrite app_assoc, !holds_app in Hh. destruct Hh as ([H0 H1] & H2 & H3 & H4).
  assert (holds m p (to_be32 FDT_BEGIN_NODE ++ pad4 (name ++ [0]))) as Hb by (apply holds_app; by split).
  pose proof (step_begin p name d (Z.of_nat a) (Z.of_nat z) inm map Hn Hl Hb) as E0.
  rewrite length_app, Nat2Z.inj_add in H2. change (Z.of_nat (length (to_be32 _))) with 4 in *. rewrite Z.add_assoc in H2.
  destruct (props_node props _ (S d) a z ((d =? 1)%nat && is_memory name) map Hp Hwf ltac:(lia) Ha Hz H2) as (map1 & R1 & A1).
  rewrite length_app, Nat2Z.inj_add, Z.add_assoc in H3. change (Z.of_nat (length (to_be32 _))) with 4 in H3.
  destruct (children_walk ch IH _ (S d) a z ((d =? 1)%nat && is_memory name) map1 Hch ltac:(apply A1) ltac:(lia) Ha Hz H3) as (map2 & inm2 & R2 & A2).
  change (flat_node <$> ch) with (List.map flat_node ch) in *.
  rewrite length_app, Nat2Z.inj_add, Z.add_assoc in H4. change (Z.of_nat (length (to_be32 FDT_BEGIN_NODE))) with 4 in H4.
  pose proof (step_end _ d (Z.of_nat a) (Z.of_nat z) inm2 map2 H4) as E3.
  exists map2. split.
  - cbn [tokens]. replace (1 + length props + fold_right (fun c k => tokens c + k) 0 ch + 1)%nat
      with (1 + (length props + (fold_right (fun c k => tokens c + k) 0 ch + 1)))%nat by lia.
    eapply reaches_trans; [apply reaches_step, E0|]. eapply reaches_trans; [exact R1|]. eapply reaches_trans; [exact R2|].
    replace (p + Z.of_nat (length (flat_node (DtNode name props ch)))) with
      (p + 4 + Z.of_nat (length (pad4 (name ++ [0]))) + Z.of_nat (length (concat (flat_prop <$> props))) + Z.of_nat (length (concat (List.map flat_node ch))) + 4); [by apply reaches_step|].
    cbn [flat_node]. rewrite !length_app. change (length (to_be32 _)) with 4%nat. lia.
  - assert (concat (adds_at (S d) a z <$> ch) = []) as E by (by apply deep_adds).
    rewrite E in A2. pose proof (adds_trans _ _ _ _ _ A1 A2) as A. rewrite app_nil_r in A. unfold adds_at, node_regions. cbn [dt_name dt_props].
    destruct (d =? 1)%nat; cbn [andb] in A; [exact A | exact A].
Qed.

(** The root, and the end of the block. *)
Lemma root_walk root p a z : node_ok root -> dt_cells strs (dt_props root) = (Z.of_nat a, Z.of_nat z) -> cells_ok a -> cells_ok z ->
  holds m p (flat_node root ++ to_be32 9) ->
  exists map, (forall f, walk_loop (tokens root + S f) n m strings (mk_walk p 0 2 2 false mmap_empty) = Done (Some map)) /\
    adds mmap_empty map (tree_regions strs a z root).
Proof.
  destruct root as [name props ch]. cbn [dt_props]. intros (Hn & Hl & Hp & Hch) Hc Ha Hz [Hh H9]%holds_app.
  cbn [flat_node] in Hh. rewrite app_assoc, !holds_app in Hh. destruct Hh as ([H0 H1] & H2 & H3 & H4).
  assert (holds m p (to_be32 FDT_BEGIN_NODE ++ pad4 (name ++ [0]))) as Hb by (apply holds_app; by split).
  pose proof (step_begin p name 0 2 2 false mmap_empty Hn Hl Hb) as E0.
  rewrite length_app, Nat2Z.inj_add in H2. change (Z.of_nat (length (to_be32 _))) with 4 in *. rewrite Z.add_assoc in H2.
  pose proof (props_root props _ 2 2 mmap_empty Hp mmap_empty_wf H2) as R1. cbv zeta in R1. unfold dt_cells in Hc. rewrite Hc in R1. cbn [fst snd] in R1.
  rewrite length_app, Nat2Z.inj_add, Z.add_assoc in H3. change (Z.of_nat (length (to_be32 _))) with 4 in H3.
  assert (Forall walks_node ch) as Hall by (apply Forall_true; apply node_walk).
  destruct (children_walk ch Hall _ 1 a z false mmap_empty Hch mmap_empty_wf ltac:(lia) Ha Hz H3) as (map & inm & R2 & A2).
  change (flat_node <$> ch) with (List.map flat_node ch) in *.
  rewrite length_app, Nat2Z.inj_add, Z.add_assoc in H4. change (Z.of_nat (length (to_be32 FDT_BEGIN_NODE))) with 4 in H4.
  pose proof (step_end _ 0 (Z.of_nat a) (Z.of_nat z) inm map H4) as E3.
  exists map. split; [|exact A2]. intros f. cbn [tokens].
  replace (1 + length props + fold_right (fun c k => tokens c + k) 0 ch + 1 + S f)%nat
    with (1 + (length props + (fold_right (fun c k => tokens c + k) 0 ch + (1 + S f))))%nat by lia.
  rewrite (reaches_step _ _ E0). cbn [Nat.eqb andb] in *. rewrite R1, R2, (reaches_step _ _ E3).
  cbn [walk_loop]. unfold walk_step. rewrite (be32_to _ _ 9); [by mred | done |].
  match goal with |- holds m ?q _ => match type of H9 with holds m ?q' _ => replace q with q'; [exact H9|] end end.
  cbn [flat_node]. rewrite !length_app. change (length (to_be32 _)) with 4%nat. lia.
Qed.
End walk.

(** C34: the memory map of the RISC-V board is the one the device tree describes: for every tree in
    memory in flattened form, whose root gives one or two cells for addresses and sizes, the
    parser ends, with fuel for each token and string, and finds exactly the regions in the [reg] properties of
    the memory nodes under the root, in order, those that are not empty, the first 32; or the default, when there are none. *)
Theorem fdt_map_exact (m : mem) (ptr off_struct off_str : Z) (root : dt_node) (strs : Z -> bytes) (a z fuel : nat) :
  mem_ok m -> ptr <> 0 -> 0 <= off_struct < 2 ^ 32 -> 0 <= off_str < 2 ^ 32 ->
  holds m ptr (to_be32 FDT_MAGIC) -> holds m (ptr + 8) (to_be32 off_struct ++ to_be32 off_str) ->
  holds m (ptr + off_struct) (flat_node root ++ to_be32 9) -> node_ok m (ptr + off_str) strs fuel root ->
  dt_cells strs (dt_props root) = (Z.of_nat a, Z.of_nat z) -> cells_ok a -> cells_ok z -> (tokens root < fuel)%nat ->
  exists map, parse_memory_map fuel m ptr = Done (Some map) /\ mmap_wf map /\
    mmap_iter map = match first_regions (tree_regions strs a z root) with
      | [] => [mk_region 0x80000000 (128 * 1024 * 1024) Usable]
      | rs => rs
      end.
Proof.
  intros Hm Hp Ho1 Ho2 Hmg [Hs1 Hs2]%holds_app Hh Hok Hc Ha Hz Hf. change (Z.of_nat (length (to_be32 _))) with 4 in Hs2.
  replace (ptr + 8 + 4) with (ptr + 12) in Hs2 by lia.
  unfold parse_memory_map. rewrite (be32_to m ptr FDT_MAGIC) by done. rewrite (be32_to m (ptr + 8) off_struct), (be32_to m (ptr + 12) off_str) by done.
  rewrite (proj2 (Z.eqb_neq ptr 0)) by done. change (negb (FDT_MAGIC =? FDT_MAGIC)) with false. cbn [orb].
  destruct (root_walk m (ptr + off_str) strs fuel Hm root (ptr + off_struct) a z Hok Hc Ha Hz Hh) as (map & E & A).
  specialize (E (fuel - tokens root - 1)%nat). replace (tokens root + S (fuel - tokens root - 1))%nat with fuel in E by lia. rewrite E. mred.
  rewrite <- (adds_first _ _ A). destruct A as [Hwf _].
  assert (length (mmap_iter map) = region_count map) as Hl by (destruct Hwf as (? & ? & _); unfold mmap_iter; rewrite length_take; lia).
  destruct (Nat.eqb_spec (region_count map) 0) as [H0|H0].
  - destruct (add_region map 0x80000000 (128 * 1024 * 1024) Usable Hwf) as (map' & E' & [Hwf' A']); [lia..|]. unfold fallback. rewrite E'. mred.
    exists map'. split; [done|]. split; [done|]. rewrite H0 in Hl. apply nil_length_inv in Hl. specialize (A' []). rewrite Hl, !app_nil_r in *.
    rewrite take_ge in A' by (by apply iter_bound). exact A'.
  - exists map. split; [done|]. split; [done|]. by destruct (mmap_iter map).
Qed.

(** The tree of a board with two memory nodes, and one that is not under the root. *)
Definition demo_names : bytes := str "#address-cells" ++ [0] ++ str "#size-cells" ++ [0] ++ str "reg" ++ [0].
Definition demo_strs (off : Z) : bytes :=
  if off =? 0 then str "#address-cells" else if off =? 15 then str "#size-cells" else str "reg".
Definition demo_tree : dt_node :=
  DtNode [] [(0, to_be32 2); (15, to_be32 1)]
    [DtNode (str "cpus") [] [DtNode (str "memory@9") [(27, replicate 12 1)] []];
     DtNode (str "memory@80000000") [(27, to_be32 0 ++ to_be32 0x80000000 ++ to_be32 0x1000000 ++ to_be32 1 ++ to_be32 0 ++ to_be32 0x2000000)] []].
Definition demo_struct : bytes := flat_node demo_tree ++ to_be32 9.
Definition demo_blob : bytes :=
  to_be32 FDT_MAGIC ++ to_be32 0 ++ to_be32 16 ++ to_be32 (16 + Z.of_nat (length demo_struct)) ++ demo_struct ++ demo_names.
Definition demo_dt_mem : mem := fun x => default 0 (demo_blob !! Z.to_nat (x - 0x1000)).
Lemma demo_tree_ok : node_ok demo_dt_mem (0x1000 + (16 + Z.of_nat (length demo_struct))) demo_strs 100 demo_tree.
Proof.
  unfold demo_tree. cbn [node_ok fold_right]. unfold prop_ok, no_nul. cbn [fst snd].
  repeat match goal with
  | |- _ /\ _ => split
  | |- Forall _ _ => constructor
  | |- holds _ _ _ => apply read_holds; vm_compute; reflexivity
  | |- True => exact I
  | |- (_ < _)%nat => apply Nat.ltb_lt; vm_compute; reflexivity
  | |- _ => discriminate || (vm_compute; reflexivity)
  end.
Qed.
Lemma fdt_map_exact_witness : exists map, parse_memory_map 100 demo_dt_mem 0x1000 = Done (Some map) /\ mmap_wf map /\
  mmap_iter map = [mk_region 0x80000000 0x1000000 Usable; mk_region 0x100000000 0x2000000 Usable].
Proof.
  destruct (fdt_map_exact demo_dt_mem 0x1000 16 (16 + Z.of_nat (length demo_struct)) demo_tree demo_strs 2 1 100) as (map & E & Hwf & Hi).
  - apply bytes_mem_ok. vm_compute. reflexivity.
  - discriminate.
  - split; [discriminate | vm_compute; reflexivity].
  - split; [vm_compute; discriminate | vm_compute; reflexivity].
  - apply read_holds. vm_compute. reflexivity.
  - apply read_holds. vm_compute. reflexivity.
  - apply read_holds. vm_compute. reflexivity.
  - exact demo_tree_ok.
  - vm_compute. reflexivity.
  - by right.
  - by left.
  - vm_compute. lia.
  - exists map. split; [exact E|]. split; [exact Hwf|]. rewrite Hi. vm_compute. reflexivity.
Defined.
