(* ===== verification/Bitmap.v ===== *)
(** The bitmap physical-memory manager (src/kernel/src/memory/bitmap.rs): one
    bit per 4 KiB frame, 0 = free, 1 = used.

    [used] and [free_run] are the abstract view: a set of frames, and the runs of
    free ones.  The scan of [alloc_frames] is a loop with fuel; [total_frames + 1]
    iterations are enough, since each one advances the frame index. *)
From Stdlib Require Import ZArith Lia.
From stdpp Require Import base option list numbers.
From S2P Require Import Prelude Mmap.
Local Open Scope Z_scope.

(** ** State and operations *)

Definition MAX_FRAMES : Z := Z.shiftl 1 20.
Definition u64_max : Z := 2 ^ 64 - 1.

Record bitmap := mk_bitmap {
  bm_words : list Z;   (* BITMAP *)
  bm_base  : Z;        (* MEM_BASE *)
  bm_total : Z;        (* TOTAL_FRAMES *)
  bm_free  : Z         (* FREE_FRAMES *)
}.

(** The statics as the loader zeroes them. *)
Definition bitmap_bss : bitmap := mk_bitmap (replicate (Z.to_nat (MAX_FRAMES / 64)) 0) 0 0 0.

Definition mark_used (bm : bitmap) (frame : Z) : outcome bitmap :=
  let w := Z.to_nat (frame / 64) in
  let b := frame mod 64 in
  word ← get (bm_words bm) w;
  if Z.land word (Z.shiftl 1 b) =? 0 then
    ws ← set (bm_words bm) w (Z.lor word (Z.shiftl 1 b));
    Done (mk_bitmap ws (bm_base bm) (bm_total bm) (saturating_sub (bm_free bm) 1))
  else Done bm.

(** The [while f < total] loop of [alloc_frames]: the start of the run found. *)
Fixpoint alloc_loop (fuel : nat) (bm : bitmap) (n f run_start run_len : Z) : outcome (option Z) :=
  match fuel with
  | O => Panic
  | Datatypes.S fuel =>
      if f <? bm_total bm then
        let word := f / 64 in
        w ← get (bm_words bm) (Z.to_nat word);
        if w =? u64_max then
          let run_start := (word + 1) * 64 in
          alloc_loop fuel bm n run_start run_start 0
        else if Z.land w (Z.shiftl 1 (f mod 64)) =? 0 then
          let run_start := if run_len =? 0 then f else run_start in
          let run_len := run_len + 1 in
          if run_len =? n then Done (Some run_start)
          else alloc_loop fuel bm n (f + 1) run_start run_len
        else alloc_loop fuel bm n (f + 1) run_start 0
      else Done None
  end.

Definition alloc_frames (bm : bitmap) (n : Z) : outcome (option Z * bitmap) :=
  if n =? 0 then Done (Some 0, bm)
  else
    r ← alloc_loop (Datatypes.S (Z.to_nat (bm_total bm))) bm n 0 0 0;
    match r with
    | Some run_start =>
        bm' ← foldM (fun bm i => mark_used bm (run_start + i)) bm (seqZ 0 n);
        Done (Some run_start, bm')
    | None => Done (None, bm)
    end.

Definition alloc_frame (bm : bitmap) : outcome (option Z * bitmap) := alloc_frames bm 1.

Definition free_step (first : Z) (bm : bitmap) (i : Z) : outcome bitmap :=
  let f := uadd first i in
  if f <? bm_total bm then
    let w := Z.to_nat (f / 64) in
    let b := f mod 64 in
    word ← get (bm_words bm) w;
    if Z.land word (Z.shiftl 1 b) =? 0 then Done bm
    else
      ws ← set (bm_words bm) w (Z.land word (Z.lnot (Z.shiftl 1 b)));
      Done (mk_bitmap ws (bm_base bm) (bm_total bm) (uadd (bm_free bm) 1))
  else Done bm.
Definition free_frames (bm : bitmap) (first n : Z) : outcome bitmap :=
  foldM (free_step first) bm (seqZ 0 n).
Definition free_frame (bm : bitmap) (frame : Z) : outcome bitmap := free_frames bm frame 1.

Definition frame_to_addr (bm : bitmap) (frame : Z) : Z := uadd (bm_base bm) (umul frame 4096).
Definition addr_to_frame (bm : bitmap) (addr : Z) : Z := usub addr (bm_base bm) / 4096.
Definition free_count (bm : bitmap) : Z := bm_free bm.
Definition total_count (bm : bitmap) : Z := bm_total bm.
Definition mem_base (bm : bitmap) : Z := bm_base bm.

(** The target the kernel is compiled for; on aarch64 the RAM window comes from
    the board. *)
Inductive target := X86_64 | Riscv64 | Aarch64 (ram_base ram_fallback_size : Z).

Definition min_base (t : target) : Z :=
  match t with X86_64 => 0x100000 | Riscv64 => 0x80000000 | Aarch64 ram_base _ => ram_base end.

Definition init_fallback (t : target) (bm : bitmap) : bitmap :=
  let '(base, total) := match t with
    | X86_64 => (0x100000, (127 * 1024 * 1024) / 4096)
    | Riscv64 => (0x80000000, (128 * 1024 * 1024) / 4096)
    | Aarch64 ram_base size => (ram_base, size / 4096)
    end in
  mk_bitmap (bm_words bm) base total total.

(** [kend] is the address of the linker symbol [_kernel_end]. *)
Definition init_from_mmap (t : target) (kend : Z) (bm : bitmap) (mmap : MemoryMap) : outcome bitmap :=
  match largest_usable mmap (min_base t) with
  | None => Done (init_fallback t bm)
  | Some region =>
      let frames := Z.min (r_size region / 4096) MAX_FRAMES in
      let bm := mk_bitmap (bm_words bm) (r_base region) frames frames in
      if r_base region <? kend then
        let used_frames := ((kend - r_base region) + 4095) / 4096 in
        let used_frames := Z.min used_frames frames in
        foldM mark_used bm (seqZ 0 used_frames)
      else Done bm
  end.

(** ** The abstract view *)

Definition used_in (ws : list Z) (f : Z) : bool := Z.testbit (ws !!! Z.to_nat (f / 64)) (f mod 64).
Definition used (bm : bitmap) (f : Z) : bool := used_in (bm_words bm) f.

Definition count_free (ws : list Z) (total : Z) : Z :=
  Z.of_nat (length (List.filter (fun f => negb (used_in ws f)) (seqZ 0 total))).

Definition words_ok (ws : list Z) : Prop :=
  length ws = Z.to_nat (MAX_FRAMES / 64) /\ Forall (fun w => 0 <= w < 2 ^ 64) ws.

(** The invariant of the allocator's statics once initialised. *)
Definition bitmap_wf (bm : bitmap) : Prop :=
  words_ok (bm_words bm) /\ 0 <= bm_total bm <= MAX_FRAMES /\
  bm_free bm = count_free (bm_words bm) (bm_total bm).

(** [n] free frames from [s] on, inside the managed range. *)
Definition free_run (bm : bitmap) (s n : Z) : Prop :=
  0 <= s /\ s + n <= bm_total bm /\ forall f, s <= f < s + n -> used bm f = false.

(** ** Lemmas on the bit array *)

Lemma max_frames_words : MAX_FRAMES / 64 = 16384.
Proof. reflexivity. Qed.

Lemma word_index f : 0 <= f < MAX_FRAMES -> (Z.to_nat (f / 64) < Z.to_nat (MAX_FRAMES / 64))%nat.
Proof.
  intros Hf. rewrite max_frames_words. change MAX_FRAMES with 1048576 in Hf.
  pose proof (Z.div_mod f 64). pose proof (Z.mod_pos_bound f 64). lia.
Qed.

Lemma word_get ws f : words_ok ws -> 0 <= f < MAX_FRAMES ->
  ws !! Z.to_nat (f / 64) = Some (ws !!! Z.to_nat (f / 64)) /\ 0 <= ws !!! Z.to_nat (f / 64) < 2 ^ 64.
Proof.
  intros [Hl Hf] Hr. pose proof (word_index f Hr).
  assert (ws !! Z.to_nat (f / 64) = Some (ws !!! Z.to_nat (f / 64))) as E
    by (apply list_lookup_lookup_total_lt; lia).
  split; [done|]. by eapply Forall_lookup_1 in E; [|exact Hf].
Qed.

Lemma bit_index f : 0 <= f mod 64 < 64.
Proof. apply Z.mod_pos_bound. lia. Qed.

Lemma same_frame f g : f / 64 = g / 64 -> (g mod 64 =? f mod 64) = (g =? f).
Proof.
  intros. pose proof (Z.div_mod f 64). pose proof (Z.div_mod g 64). ztest; try done; lia.
Qed.

(** Replacing the word of frame [f] by one that differs from it at most in the bit
    of [f] changes the abstract view at [f] only. *)
Lemma used_in_update ws f w g : words_ok ws -> 0 <= f < MAX_FRAMES -> 0 <= g ->
  (forall b, 0 <= b < 64 -> b <> f mod 64 -> Z.testbit w b = Z.testbit (ws !!! Z.to_nat (f / 64)) b) ->
  used_in (<[Z.to_nat (f / 64) := w]> ws) g =
    if g =? f then Z.testbit w (f mod 64) else used_in ws g.
Proof.
  intros Hws Hf Hg Hw. pose proof (word_index f Hf) as Hi. destruct Hws as [Hl _]. unfold used_in.
  destruct (Z.eq_dec (g / 64) (f / 64)) as [E|E].
  - rewrite E. rewrite list_lookup_total_insert_eq by lia.
    rewrite <- (same_frame f g) by done. destruct (Z.eqb_spec (g mod 64) (f mod 64)) as [->|Hne]; [done|].
    apply Hw; [apply bit_index | done].
  - assert (0 <= g / 64 /\ 0 <= f / 64) by (split; apply Z.div_pos; lia).
    rewrite list_lookup_total_insert_ne by lia.
    destruct (Z.eqb_spec g f) as [->|]; [done|]. done.
Qed.

(** Setting and clearing the bit of a frame. *)
Definition set_bit (ws : list Z) (f : Z) : list Z :=
  <[Z.to_nat (f / 64) := Z.lor (ws !!! Z.to_nat (f / 64)) (Z.shiftl 1 (f mod 64))]> ws.
Definition clear_bit (ws : list Z) (f : Z) : list Z :=
  <[Z.to_nat (f / 64) := Z.land (ws !!! Z.to_nat (f / 64)) (Z.lnot (Z.shiftl 1 (f mod 64)))]> ws.

Lemma words_ok_insert ws i w : words_ok ws -> 0 <= w < 2 ^ 64 -> words_ok (<[i := w]> ws).
Proof. intros [Hl Hf] Hw. split; [by rewrite length_insert | by apply Forall_insert]. Qed.

Lemma set_bit_ok ws f : words_ok ws -> 0 <= f < MAX_FRAMES -> words_ok (set_bit ws f).
Proof.
  intros Hws Hf. apply words_ok_insert; [done|]. apply lor_range; [lia | by apply word_get |].
  apply shiftl_1_range, bit_index.
Qed.

Lemma clear_bit_ok ws f : words_ok ws -> 0 <= f < MAX_FRAMES -> words_ok (clear_bit ws f).
Proof. intros Hws Hf. apply words_ok_insert; [done|]. apply land_range_l; [lia | by apply word_get]. Qed.

Lemma used_set_bit ws f g : words_ok ws -> 0 <= f < MAX_FRAMES -> 0 <= g ->
  used_in (set_bit ws f) g = (g =? f) || used_in ws g.
Proof.
  intros Hws Hf Hg. pose proof (bit_index f). unfold set_bit. rewrite used_in_update; [|done..|].
  - destruct (g =? f); [|done]. rewrite Z.lor_spec, testbit_shiftl_1, Z.eqb_refl by lia. by rewrite orb_true_r.
  - intros b Hb Hne. rewrite Z.lor_spec, testbit_shiftl_1 by lia.
    apply Z.eqb_neq in Hne. by rewrite Hne, orb_false_r.
Qed.

Lemma used_clear_bit ws f g : words_ok ws -> 0 <= f < MAX_FRAMES -> 0 <= g ->
  used_in (clear_bit ws f) g = negb (g =? f) && used_in ws g.
Proof.
  intros Hws Hf Hg. pose proof (bit_index f). unfold clear_bit. rewrite used_in_update; [|done..|].
  - destruct (g =? f); [|done].
    rewrite Z.land_spec, Z.lnot_spec, testbit_shiftl_1, Z.eqb_refl by lia. by rewrite andb_false_r.
  - intros b Hb Hne. rewrite Z.land_spec, Z.lnot_spec, testbit_shiftl_1 by lia.
    apply Z.eqb_neq in Hne. by rewrite Hne, andb_true_r.
Qed.

(** Two bit arrays with the same abstract view are equal. *)
Lemma words_ext ws ws' : words_ok ws -> words_ok ws' ->
  (forall f, 0 <= f < MAX_FRAMES -> used_in ws f = used_in ws' f) -> ws = ws'.
Proof.
  intros [Hl Hf] [Hl' Hf'] H. apply list_eq_same_length with (n := Z.to_nat (MAX_FRAMES / 64)); [done..|].
  intros i x y Hi Hx Hy.
  pose proof (Forall_lookup_1 _ _ _ _ Hf Hx) as Hxr. pose proof (Forall_lookup_1 _ _ _ _ Hf' Hy) as Hyr.
  cbn in Hxr, Hyr. apply Z.bits_inj'. intros n Hn.
  destruct (Z.lt_ge_cases n 64) as [Hlt|Hge].
  - specialize (H (64 * Z.of_nat i + n)). rewrite max_frames_words in Hi.
    change MAX_FRAMES with 1048576 in H. unfold used_in in H.
    replace ((64 * Z.of_nat i + n) / 64) with (Z.of_nat i) in H
      by (apply Z.div_unique with (r := n); lia).
    replace ((64 * Z.of_nat i + n) mod 64) with n in H
      by (apply Z.mod_unique with (q := Z.of_nat i); lia).
    rewrite Nat2Z.id in H. rewrite (list_lookup_total_correct _ _ _ Hx), (list_lookup_total_correct _ _ _ Hy) in H.
    apply H. lia.
  - rewrite (proj1 (Z.bounded_iff_bits_nonneg 64 x ltac:(lia) (proj1 Hxr)) (proj2 Hxr) n Hge).
    by rewrite (proj1 (Z.bounded_iff_bits_nonneg 64 y ltac:(lia) (proj1 Hyr)) (proj2 Hyr) n Hge).
Qed.

(** ** Counting free frames *)

Lemma filter_ext_in {A} (p q : A -> bool) l : (forall x, x ∈ l -> p x = q x) -> List.filter p l = List.filter q l.
Proof.
  induction l as [|x l IH]; intros H; cbn; [done|].
  rewrite (H x), IH; [done | intros; apply H; by right | left].
Qed.

(** Flipping one frame from free to used lowers the count by one. *)
Lemma count_free_flip ws ws' f total : 0 <= f < total -> used_in ws f = false ->
  (forall g, 0 <= g -> used_in ws' g = (g =? f) || used_in ws g) ->
  count_free ws' total = count_free ws total - 1.
Proof.
  intros Hf Hfree Hws'. unfold count_free.
  replace total with (f + (1 + (total - f - 1))) by lia.
  rewrite seqZ_app, seqZ_app by lia.
  rewrite (seqZ_cons (0 + f) 1), (seqZ_nil _ (Z.pred 1)) by lia.
  rewrite !List.filter_app, !length_app.
  rewrite (filter_ext_in (fun g => negb (used_in ws' g)) (fun g => negb (used_in ws g)) (seqZ 0 f)).
  2: { intros g Hg%elem_of_seqZ. rewrite Hws' by lia. replace (g =? f) with false by (symmetry; apply Z.eqb_neq; lia). done. }
  rewrite (filter_ext_in (fun g => negb (used_in ws' g)) (fun g => negb (used_in ws g)) (seqZ (0 + f + 1) _)).
  2: { intros g Hg%elem_of_seqZ. rewrite Hws' by lia. replace (g =? f) with false by (symmetry; apply Z.eqb_neq; lia). done. }
  cbn [List.filter]. rewrite Z.add_0_l, Hfree, (Hws' f), Z.eqb_refl by lia. cbn. lia.
Qed.

Lemma count_free_nonneg ws total : 0 <= count_free ws total.
Proof. unfold count_free. lia. Qed.

Lemma count_free_le ws total : 0 <= total -> count_free ws total <= total.
Proof.
  intros. unfold count_free. pose proof (List.filter_length_le (fun f => negb (used_in ws f)) (seqZ 0 total)) as Hle.
  rewrite length_seqZ in Hle. lia.
Qed.

(** ** One frame *)

Definition with_words (bm : bitmap) (ws : list Z) (free : Z) : bitmap := mk_bitmap ws (bm_base bm) (bm_total bm) free.

Lemma mark_used_spec bm f : bitmap_wf bm -> 0 <= f < bm_total bm ->
  exists bm', mark_used bm f = Done bm' /\ bitmap_wf bm' /\
    bm_base bm' = bm_base bm /\ bm_total bm' = bm_total bm /\
    (forall g, 0 <= g -> used bm' g = (g =? f) || used bm g) /\
    bm_free bm' = bm_free bm - (if used bm f then 0 else 1).
Proof.
  intros Hwf Hf. pose proof Hwf as (Hws & Ht & Hfree). assert (0 <= f < MAX_FRAMES) as Hr by lia.
  destruct (word_get _ _ Hws Hr) as [Hget _]. pose proof (word_index f Hr) as Hi.
  unfold mark_used. rewrite (get_Some _ _ _ Hget). mred.
  rewrite land_bit_zero by apply bit_index. fold (used_in (bm_words bm) f). fold (used bm f).
  destruct (used bm f) eqn:Hu; cbn [negb].
  - exists bm. split; [done|]. split; [exact Hwf|]. split; [done|]. split; [done|]. split; [|lia].
    intros g Hg. destruct (Z.eqb_spec g f) as [->|]; [done|done].
  - rewrite set_lt by (destruct Hws; lia). mred. fold (set_bit (bm_words bm) f).
    eexists. split; [done|].
    assert (forall g, 0 <= g -> used_in (set_bit (bm_words bm) f) g = (g =? f) || used_in (bm_words bm) g) as Hset
      by (intros; by apply used_set_bit).
    pose proof (count_free_flip _ _ f (bm_total bm) ltac:(lia) Hu Hset) as Hc.
    pose proof (count_free_nonneg (set_bit (bm_words bm) f) (bm_total bm)).
    unfold saturating_sub. split; [|cbn; split; [done|]; split; [done|]; split; [done|lia]].
    split; [by apply set_bit_ok|]. cbn. split; lia.
Qed.

Lemma clear_used_spec bm first i : bitmap_wf bm -> 0 <= first -> 0 <= i -> first + i < bm_total bm ->
  exists bm', free_step first bm i = Done bm' /\ bitmap_wf bm' /\
    bm_base bm' = bm_base bm /\ bm_total bm' = bm_total bm /\
    (forall g, 0 <= g -> used bm' g = negb (g =? first + i) && used bm g) /\
    bm_free bm' = bm_free bm + (if used bm (first + i) then 1 else 0).
Proof.
  intros Hwf Hfi Hi Hf. pose proof Hwf as (Hws & Ht & Hfree). assert (0 <= first + i < MAX_FRAMES) as Hr by lia.
  destruct (word_get _ _ Hws Hr) as [Hget _]. pose proof (word_index _ Hr) as Hidx.
  unfold free_step, uadd. change MAX_FRAMES with 1048576 in Ht.
  rewrite wrap_small by lia. rewrite (proj2 (Z.ltb_lt _ _) Hf). rewrite (get_Some _ _ _ Hget). mred.
  rewrite land_bit_zero by apply bit_index. fold (used_in (bm_words bm) (first + i)). fold (used bm (first + i)).
  destruct (used bm (first + i)) eqn:Hu; cbn [negb].
  - rewrite set_lt by (destruct Hws; lia). mred. fold (clear_bit (bm_words bm) (first + i)).
    eexists. split; [done|].
    assert (forall g, 0 <= g -> used_in (clear_bit (bm_words bm) (first + i)) g
      = negb (g =? first + i) && used_in (bm_words bm) g) as Hclr by (intros; by apply used_clear_bit).
    assert (count_free (bm_words bm) (bm_total bm) = count_free (clear_bit (bm_words bm) (first + i)) (bm_total bm) - 1) as Hc.
    { apply count_free_flip with (f := first + i); [lia | by rewrite Hclr, Z.eqb_refl by lia |].
      intros g Hg. rewrite Hclr by lia. destruct (Z.eqb_spec g (first + i)) as [->|]; [done|done]. }
    pose proof (count_free_le (clear_bit (bm_words bm) (first + i)) (bm_total bm) ltac:(lia)).
    pose proof (count_free_nonneg (bm_words bm) (bm_total bm)).
    unfold uadd. rewrite wrap_small by lia.
    split; [|cbn; split; [done|]; split; [done|]; split; [done|lia]].
    split; [by apply clear_bit_ok|]. cbn. split; [change MAX_FRAMES with 1048576|]; lia.
  - exists bm. split; [done|]. split; [exact Hwf|]. split; [done|]. split; [done|]. split; [|lia].
    intros g Hg. destruct (Z.eqb_spec g (first + i)) as [->|]; [by rewrite Hu|done].
Qed.

(** ** Ranges of frames *)

Definition in_range (s n g : Z) : bool := (s <=? g) && (g <? s + n).

Lemma in_range_spec s n g : in_range s n g = true <-> s <= g < s + n.
Proof. unfold in_range. rewrite andb_true_iff, Z.leb_le, Z.ltb_lt. lia. Qed.

Lemma in_range_S s k g : in_range s (Z.of_nat (Datatypes.S k)) g = (g =? s + Z.of_nat k) || in_range s (Z.of_nat k) g.
Proof. unfold in_range. ztest; cbn; try done; lia. Qed.

Lemma mark_range_spec bm s n : bitmap_wf bm -> 0 <= n -> 0 <= s -> s + n <= bm_total bm ->
  (forall g, s <= g < s + n -> used bm g = false) ->
  exists bm', foldM (fun bm i => mark_used bm (s + i)) bm (seqZ 0 n) = Done bm' /\ bitmap_wf bm' /\
    bm_base bm' = bm_base bm /\ bm_total bm' = bm_total bm /\
    (forall g, 0 <= g -> used bm' g = in_range s n g || used bm g) /\ bm_free bm' = bm_free bm - n.
Proof.
  intros Hwf Hn Hs Htot Hfree.
  destruct (foldM_ind (fun k b => bitmap_wf b /\ bm_base b = bm_base bm /\ bm_total b = bm_total bm /\
    (forall g, 0 <= g -> used b g = in_range s (Z.of_nat k) g || used bm g) /\
    bm_free b = bm_free bm - Z.of_nat k) (fun b i => mark_used b (s + i)) (seqZ 0 n) O bm)
    as (bm' & Hf & Hp).
  - split; [done|]. split; [done|]. split; [done|]. split; [|lia].
    intros g Hg. unfold in_range. ztest; cbn; try done; lia.
  - intros i x b [-> Hi]%lookup_seqZ (Hb & Hbase & Ht & Hu & Hfr). cbn [Nat.add] in *.
    destruct (mark_used_spec b (s + (0 + Z.of_nat i)) Hb) as (b' & -> & Hb' & Hbase' & Ht' & Hu' & Hfr'); [lia|].
    exists b'. split; [done|]. split; [done|]. split; [congruence|]. split; [congruence|]. split.
    + intros g Hg. rewrite Hu', Hu, in_range_S by lia. rewrite Z.add_0_l. by rewrite orb_assoc.
    + rewrite Hfr', Hfr, Hu, Hfree by lia.
      replace (in_range s (Z.of_nat i) (s + (0 + Z.of_nat i))) with false by (unfold in_range; ztest; done || lia).
      cbn [orb]. lia.
  - exists bm'. rewrite length_seqZ in Hp. cbn [Nat.add] in Hp. rewrite Z2Nat.id in Hp by lia. tauto.
Qed.

(** Freeing a range clears exactly its frames, whatever their state was. *)
Lemma free_range_spec bm s n : bitmap_wf bm -> 0 <= n -> 0 <= s -> s + n <= bm_total bm ->
  exists bm', free_frames bm s n = Done bm' /\ bitmap_wf bm' /\
    bm_base bm' = bm_base bm /\ bm_total bm' = bm_total bm /\
    (forall g, 0 <= g -> used bm' g = negb (in_range s n g) && used bm g).
Proof.
  intros Hwf Hn Hs Htot.
  destruct (foldM_ind (fun k b => bitmap_wf b /\ bm_base b = bm_base bm /\ bm_total b = bm_total bm /\
    (forall g, 0 <= g -> used b g = negb (in_range s (Z.of_nat k) g) && used bm g))
    (free_step s) (seqZ 0 n) O bm) as (bm' & Hf & Hp).
  - split; [done|]. split; [done|]. split; [done|].
    intros g Hg. unfold in_range. ztest; cbn; try done; lia.
  - intros i x b [-> Hi]%lookup_seqZ (Hb & Hbase & Ht & Hu). cbn [Nat.add] in *.
    destruct (clear_used_spec b s (0 + Z.of_nat i) Hb) as (b' & -> & Hb' & Hbase' & Ht' & Hu' & _); [lia..|].
    exists b'. split; [done|]. split; [done|]. split; [congruence|]. split; [congruence|].
    intros g Hg. rewrite Hu', Hu, in_range_S by lia. rewrite Z.add_0_l. by rewrite negb_orb, andb_assoc.
  - exists bm'. rewrite length_seqZ in Hp. cbn [Nat.add] in Hp. rewrite Z2Nat.id in Hp by lia. tauto.
Qed.

(** ** The scan *)

Lemma full_word ws f : words_ok ws -> 0 <= f < MAX_FRAMES -> ws !!! Z.to_nat (f / 64) = u64_max ->
  forall g, f / 64 * 64 <= g < (f / 64 + 1) * 64 -> used_in ws g = true.
Proof.
  intros Hws Hf Hw g Hg. unfold used_in.
  assert (g / 64 = f / 64) as -> by (symmetry; apply Z.div_unique with (r := g - f / 64 * 64); lia).
  rewrite Hw. change u64_max with (Z.ones 64). apply Z.ones_spec_low, bit_index.
Qed.

Lemma alloc_loop_spec bm n : bitmap_wf bm -> 0 < n ->
  forall fuel f run_start run_len,
  0 <= f -> 0 <= run_len < n -> run_len <= f -> (0 < run_len -> run_start = f - run_len) ->
  (forall g, f - run_len <= g < f -> used bm g = false) ->
  (forall s, free_run bm s n -> f - run_len <= s) ->
  (Z.to_nat (bm_total bm - f) < fuel)%nat ->
  exists r, alloc_loop fuel bm n f run_start run_len = Done r /\
    match r with
    | Some s => free_run bm s n /\ (forall s', free_run bm s' n -> s <= s')
    | None => forall s, ~ free_run bm s n
    end.
Proof.
  intros (Hws & Ht & _) Hn. induction fuel as [|fuel IH]; intros f rs rl Hf Hrl Hle Hrs Hrun Hmin Hfuel; [lia|].
  cbn [alloc_loop]. destruct (Z.ltb_spec f (bm_total bm)) as [Hlt|Hge].
  2: { exists None. split; [done|]. intros s Hs. pose proof (Hmin s Hs). destruct Hs as (? & ? & _). lia. }
  assert (0 <= f < MAX_FRAMES) as Hr by lia. destruct (word_get _ _ Hws Hr) as [Hget _].
  rewrite (get_Some _ _ _ Hget). mred.
  destruct (Z.eqb_spec (bm_words bm !!! Z.to_nat (f / 64)) u64_max) as [Hfull|_].
  - pose proof (Z.div_mod f 64). pose proof (bit_index f).
    apply IH; try lia. intros s Hs. pose proof (Hmin s Hs). destruct Hs as (Hs0 & Hs1 & Hs2).
    destruct (Z.lt_ge_cases s ((f / 64 + 1) * 64)) as [Hsm|]; [|lia]. exfalso.
    pose proof (full_word _ _ Hws Hr Hfull (Z.max s f) ltac:(lia)) as Hu.
    pose proof (Hs2 (Z.max s f) ltac:(lia)) as Hu'. unfold used in Hu'. congruence.
  - rewrite land_bit_zero by apply bit_index. fold (used_in (bm_words bm) f). fold (used bm f).
    destruct (used bm f) eqn:Hu; cbn [negb].
    + apply IH; try lia. intros s Hs. pose proof (Hmin s Hs). destruct Hs as (Hs0 & Hs1 & Hs2).
      destruct (Z.lt_ge_cases s (f + 1)) as [Hsm|]; [|lia]. exfalso.
      rewrite Hs2 in Hu by lia. done.
    + assert ((if rl =? 0 then f else rs) = f - rl) as -> by (destruct (Z.eqb_spec rl 0); lia).
      assert (forall g, f - rl <= g < f + 1 -> used bm g = false) as Hrun'.
      { intros g Hg. destruct (Z.eq_dec g f) as [->|]; [done|]. apply Hrun. lia. }
      destruct (Z.eqb_spec (rl + 1) n) as [Hdone|Hmore].
      * exists (Some (f - rl)). split; [done|]. split; [|done].
        split; [lia|]. split; [lia|]. intros g Hg. apply Hrun'. lia.
      * apply IH; try lia.
        -- intros g Hg. apply Hrun'. lia.
        -- intros s Hs. pose proof (Hmin s Hs). lia.
Qed.

(** ** Theorems *)

(** What [alloc_frames n] promises of its result [r] and the state [bm'] after it. *)
Definition first_fit (bm : bitmap) (n : Z) (r : option Z) (bm' : bitmap) : Prop :=
  bitmap_wf bm' /\ bm_base bm' = bm_base bm /\ bm_total bm' = bm_total bm /\
  match r with
  | Some s => free_run bm s n /\ (forall s', free_run bm s' n -> s <= s') /\
      (forall f, 0 <= f -> used bm' f = in_range s n f || used bm f) /\
      bm_free bm' = bm_free bm - n
  | None => bm' = bm /\ (forall s, ~ free_run bm s n)
  end.

Lemma alloc_frames_ok (bm : bitmap) (n : Z) : bitmap_wf bm -> 0 < n ->
  exists r bm', alloc_frames bm n = Done (r, bm') /\ first_fit bm n r bm'.
Proof.
  intros Hwf Hn. unfold alloc_frames. replace (n =? 0) with false by (symmetry; apply Z.eqb_neq; lia).
  destruct (alloc_loop_spec bm n Hwf Hn (Datatypes.S (Z.to_nat (bm_total bm))) 0 0 0)
    as ([s|] & -> & Hr); try lia; mred.
  - intros s (? & _). lia.
  - destruct Hr as [Hrun Hmin]. pose proof Hrun as (? & ? & ?).
    destruct (mark_range_spec bm s n Hwf) as (bm' & -> & Hwf' & Hb & Ht & Hu & Hfree); [lia..|done|].
    mred. exists (Some s), bm'. unfold first_fit; tauto.
  - exists None, bm. unfold first_fit; tauto.
Qed.

(** C30: [alloc_frames n] is first fit and exact: when some run of [n] free
    contiguous frames exists it returns the lowest one, marks its frames (all
    free before) and no others as used and lowers the free count by [n];
    otherwise it returns [None] and changes nothing.  It never panics and its
    scan ends. *)
Theorem alloc_frames_first_fit (bm : bitmap) (n : Z) : bitmap_wf bm -> 0 < n ->
  exists r bm', alloc_frames bm n = Done (r, bm') /\ first_fit bm n r bm'.
Proof. apply alloc_frames_ok. Qed.

(** Freeing what [alloc_frames] returned restores the allocator's state
    exactly, and freeing the same frames a second time changes nothing. *)
Theorem free_frames_alloc_frames (bm bm' : bitmap) (s n : Z) : bitmap_wf bm -> 0 < n ->
  alloc_frames bm n = Done (Some s, bm') ->
  free_frames bm' s n = Done bm /\ free_frames bm s n = Done bm.
Proof.
  intros Hwf Hn Ha. destruct (alloc_frames_ok bm n Hwf Hn) as (r & b & Ha' & Hwf' & Hb & Ht & Hr).
  rewrite Ha in Ha'. done_inv. destruct Hr as ((Hs0 & Hs1 & Hs2) & _ & Hu & Hfree).
  assert (forall b0, bitmap_wf b0 -> bm_base b0 = bm_base bm -> bm_total b0 = bm_total bm ->
    (forall g, 0 <= g -> used b0 g = in_range s n g || used bm g) \/ (forall g, used b0 g = used bm g) ->
    free_frames b0 s n = Done bm) as Hgen.
  { intros b0 Hb0 Hbb Hbt Hbu.
    destruct (free_range_spec b0 s n Hb0) as (b1 & -> & Hb1 & Hbb1 & Hbt1 & Hbu1); [lia..|]. f_equal.
    assert (bm_words b1 = bm_words bm) as Hw.
    { apply words_ext; [apply Hb1 | apply Hwf |]. intros f Hf. fold (used b1 f) (used bm f).
      rewrite Hbu1 by lia. destruct (in_range s n f) eqn:Ei; cbn.
      - apply in_range_spec in Ei. symmetry. by apply Hs2.
      - destruct Hbu as [H|H]; rewrite H by lia; [by rewrite Ei | done]. }
    destruct Hb1 as (_ & _ & Hf1). destruct Hwf as (_ & _ & Hf0).
    destruct b1, bm; cbn in *. congruence. }
  split; apply Hgen; auto.
Qed.

Lemma bitmap_bss_words_ok : words_ok (bm_words bitmap_bss).
Proof.
  split; cbn; [by rewrite length_replicate|]. apply Forall_replicate. lia.
Qed.

Lemma used_bss f : 0 <= f < MAX_FRAMES -> used bitmap_bss f = false.
Proof.
  intros Hf. unfold used, used_in. cbn [bm_words bitmap_bss].
  rewrite lookup_total_replicate_2 by (by apply word_index). apply Z.bits_0.
Qed.

Lemma count_free_zero ws total : 0 <= total -> (forall f, 0 <= f < total -> used_in ws f = false) ->
  count_free ws total = total.
Proof.
  intros Ht H. unfold count_free.
  rewrite (filter_ext_in _ (fun _ => true)).
  - rewrite List.filter_true, length_seqZ. lia.
  - intros f Hf%elem_of_seqZ. by rewrite H.
Qed.

(** Boot: the statics are zero, so all frames of the region start free. *)
Lemma bss_region_wf base total : 0 <= total <= MAX_FRAMES ->
  bitmap_wf (mk_bitmap (bm_words bitmap_bss) base total total).
Proof.
  intros Ht. split; [apply bitmap_bss_words_ok|]. cbn [bm_total bm_free bm_words]. split; [done|].
  symmetry. apply count_free_zero; [lia|]. intros f Hf. apply (used_bss f). lia.
Qed.

Lemma image_frames base kend f : 0 <= f -> base < kend ->
  (f <? (kend - base + 4095) / 4096) = (base + f * 4096 <? kend).
Proof.
  intros Hf Hk. pose proof (Z.div_mod (kend - base + 4095) 4096).
  pose proof (Z.mod_pos_bound (kend - base + 4095) 4096).
  destruct (Z.ltb_spec f ((kend - base + 4095) / 4096)), (Z.ltb_spec (base + f * 4096) kend); try done; lia.
Qed.

(** Initialising the allocator at boot marks exactly the frames that overlap the
    kernel image. *)
Lemma init_from_mmap_spec (t : target) (kend : Z) (m : MemoryMap) (r : MemoryRegion) :
  mmap_wf m -> 0 <= min_base t -> largest_usable m (min_base t) = Some r ->
  exists bm, init_from_mmap t kend bitmap_bss m = Done bm /\ bitmap_wf bm /\
    bm_base bm = r_base r /\ bm_total bm = Z.min (r_size r / 4096) MAX_FRAMES /\
    (forall f, 0 <= f < bm_total bm -> used bm f = (r_base r + f * 4096 <? kend)).
Proof.
  intros (_ & _ & Hm) Hmin Hl. unfold init_from_mmap. rewrite Hl.
  assert (0 < r_size r) as Hsz.
  { pose proof (largest_usable_pick_max m (min_base t)) as Hsp. rewrite Hl in Hsp.
    destruct Hsp as [(x & Hx & Hc) _].
    destruct (proj1 (List.Forall_forall _ _) Hm x (proj1 (list_elem_of_In _ _) Hx)) as [Hok _].
    by destruct (candidate_bounds _ _ _ Hok Hmin Hc) as (_ & _ & ? & _). }
  set (total := Z.min (r_size r / 4096) MAX_FRAMES).
  assert (0 <= total <= MAX_FRAMES) as Ht.
  { change MAX_FRAMES with 1048576 in *. pose proof (Z.div_pos (r_size r) 4096). lia. }
  pose proof (bss_region_wf (r_base r) total Ht) as Hwf.
  destruct (Z.ltb_spec (r_base r) kend) as [Hk|Hk].
  - pose proof (Z.div_pos (kend - r_base r + 4095) 4096).
    set (n := Z.min ((kend - r_base r + 4095) / 4096) total).
    destruct (mark_range_spec _ 0 n Hwf) as (bm & Hbm & Hwf' & Hb & Htot & Hu & _); cbn [bm_total]; [lia..| |].
    + intros g Hg. apply (used_bss g). lia.
    + exists bm. split; [done|]. split; [done|]. split; [done|]. split; [done|].
      intros f Hf. rewrite Htot in Hf. cbn [bm_total] in Hf. rewrite Hu by lia.
      unfold used at 1. cbn [bm_words]. fold (used bitmap_bss f). rewrite used_bss, orb_false_r by lia.
      rewrite <- image_frames by lia. unfold in_range, n. ztest; cbn; try done; lia.
  - eexists. split; [done|]. split; [done|]. cbn [bm_base bm_total]. split; [done|]. split; [done|].
    intros f Hf. transitivity (used bitmap_bss f); [done|]. cbn [bm_total] in Hf. rewrite used_bss by lia. symmetry. apply Z.ltb_ge. lia.
Qed.

(** *** Witnesses *)

(** A 1 MiB region at 1 MiB, with a kernel image of two frames and a bit. *)
Definition demo_map : MemoryMap :=
  mk_mmap (mk_region 0x100000 0x100000 Usable :: replicate 31 region_zero) 1.
Definition demo_bitmap : bitmap :=
  match init_from_mmap X86_64 0x102010 bitmap_bss demo_map with Done bm => bm | Panic => bitmap_bss end.

Lemma demo_map_wf : mmap_wf demo_map.
Proof.
  split; [done|]. split; [cbn; unfold MAX_REGIONS; lia|].
  constructor; [unfold region_ok; cbn; lia | constructor].
Qed.

Lemma demo_bitmap_wf : bitmap_wf demo_bitmap.
Proof.
  destruct (init_from_mmap_spec X86_64 0x102010 demo_map (mk_region 0x100000 0x100000 Usable))
    as (bm & Hbm & Hwf & _); [apply demo_map_wf | cbn; lia | by vm_compute |].
  unfold demo_bitmap. by rewrite Hbm.
Qed.

Lemma alloc_frames_first_fit_witness :
  exists r bm', alloc_frames demo_bitmap 9 = Done (r, bm') /\ first_fit demo_bitmap 9 r bm'.
Proof. apply (alloc_frames_first_fit demo_bitmap 9); [apply demo_bitmap_wf | lia]. Defined.

Lemma free_frames_alloc_frames_witness : exists bm',
  free_frames bm' 3 5 = Done demo_bitmap /\ free_frames demo_bitmap 3 5 = Done demo_bitmap.
Proof.
  set (bm' := match alloc_frames demo_bitmap 5 with Done (_, b) => b | Panic => demo_bitmap end).
  exists bm'. apply (free_frames_alloc_frames demo_bitmap bm' 3 5);
    [apply demo_bitmap_wf | lia | by vm_compute].
Defined.
