(* ===== verification/BootRam.v ===== *)
(** From the firmware's memory map to the frame allocator: what the parsers (Multiboot.v, Fdt.v)
    report and what the allocator (Bitmap.v) manages after [memory::init]. *)
From Stdlib Require Import ZArith Lia.
From stdpp Require Import base option list numbers.
From S2P Require Import Prelude Mmap BootMem Multiboot Bitmap.
Local Open Scope Z_scope.

(** The frame at address [a] lies in the region. *)
Definition frame_in (a : Z) (r : MemoryRegion) : Prop := r_base r <= a /\ a + 4096 <= r_base r + r_size r.

Lemma first_regions_sub rs r : r ∈ first_regions rs -> r ∈ rs.
Proof. intros H. apply elem_of_take in H as (i & H & _). apply list_elem_of_lookup_2, list_elem_of_filter in H. tauto. Qed.
(** A free frame after [init_from_mmap] is in a usable region of the map, beyond the kernel image. *)
Lemma init_frames t kend map r : mmap_wf map -> 0 <= min_base t -> largest_usable map (min_base t) = Some r ->
  exists bm, init_from_mmap t kend bitmap_bss map = Done bm /\ bitmap_wf bm /\
    forall f, 0 <= f < bm_total bm -> used bm f = false ->
      exists x, x ∈ mmap_iter map /\ r_kind x = Usable /\ frame_in (frame_to_addr bm f) x /\ kend <= frame_to_addr bm f /\ min_base t <= frame_to_addr bm f.
Proof.
  intros Hwf Hmin Hl. destruct (init_from_mmap_spec t kend map r Hwf Hmin Hl) as (bm & E & Hb & Ebase & Etot & Hu).
  exists bm. split; [exact E|]. split; [exact Hb|]. intros f Hf Hfree.
  pose proof (largest_usable_pick_max map (min_base t)) as Hsp. rewrite Hl in Hsp. destruct Hsp as [(x & Hx & Hc) _].
  destruct Hwf as (_ & _ & Hall). apply list_elem_of_lookup_1 in Hx as Hx'. destruct Hx' as [i Hi].
  destruct (Forall_lookup_1 _ _ _ _ Hall Hi) as [Hok _]. destruct (candidate_bounds _ _ _ Hok Hmin Hc) as (H1 & H2 & H3 & H4 & H5).
  assert (r_kind x = Usable) as Hk by (unfold candidate in Hc; case_decide; [tauto | done]).
  rewrite (Hu f Hf) in Hfree. apply Z.ltb_ge in Hfree. rewrite Etot in Hf.
  assert (f * 4096 + 4096 <= r_size r) as Hfs by (pose proof (Z.div_mod (r_size r) 4096); pose proof (Z.mod_pos_bound (r_size r) 4096); lia).
  unfold frame_to_addr. rewrite Ebase. unfold uadd, umul. rewrite (wrap_small 64 (f * 4096)) by lia. rewrite wrap_small by lia.
  exists x. unfold frame_in. split_and!; try done; lia.
Qed.

(** C28: on a PC whose loader passes a table of e820 entries, the first 32 of which that are not empty include usable memory above 1 MiB:
    the allocator starts well formed, and every frame it holds free lies wholly in an entry
    of type 1 of that table, above 1 MiB and beyond the end of the kernel image. *)
Theorem boot_frames_are_ram (m : mem) (info kend : Z) (es : list e820) (r : MemoryRegion) : mem_ok m -> 0 <= info < 2 ^ 32 ->
  Z.testbit (read_u32 m info) 6 = true -> Forall e820_ok es ->
  read_u32 m (info + 44) = Z.of_nat (length (concat (entry_bytes <$> es))) ->
  holds m (read_u32 m (info + 48)) (concat (entry_bytes <$> es)) ->
  r ∈ e820_regions es -> r_kind r = Usable -> 0x100000 < r_base r + r_size r < 2 ^ 64 ->
  exists map bm, parse_memory_map m MB_MAGIC info = Done (Some map) /\
    init_from_mmap X86_64 kend bitmap_bss map = Done bm /\ bitmap_wf bm /\
    forall f, 0 <= f < bm_total bm -> used bm f = false ->
      let a := frame_to_addr bm f in
      exists e, e ∈ es /\ e_kind e = 1 /\ e_base e <= a /\ a + 4096 <= e_base e + e_len e /\ 0x100000 <= a /\ kend <= a.
Proof.
  intros Hm Hi Hf Hes Hlen Hh Hr Hk He.
  destruct (multiboot_parsed m info es Hm Hi Hf Hes Hlen Hh) as (map & E & Hwf & Hit).
  destruct (largest_usable map (min_base X86_64)) as [b|] eqn:El.
  2: { pose proof (largest_usable_pick_max map (min_base X86_64)) as Hsp. rewrite El in Hsp. specialize (Hsp r). rewrite Hit in Hsp.
    specialize (Hsp Hr). unfold candidate in Hsp. rewrite decide_True in Hsp; [done|]. split; [done|]. cbn [min_base].
    assert (nonempty r /\ region_ok r) as [Hne Hok].
    { rewrite <- Hit in Hr. apply list_elem_of_lookup_1 in Hr as [i Hr]. destruct Hwf as (_ & _ & Hall). by destruct (Forall_lookup_1 _ _ _ _ Hall Hr). }
    unfold nonempty, region_ok, region_end, saturating_add, usize_max in *. lia. }
  destruct (init_frames X86_64 kend map b Hwf ltac:(done) El) as (bm & Eb & Hb & Hfr). exists map, bm.
  split; [exact E|]. split; [exact Eb|]. split; [exact Hb|]. intros f Hf0 Hu a.
  destruct (Hfr f Hf0 Hu) as (x & Hx & Hxk & [Hx1 Hx2] & Hke & Hmin). rewrite Hit in Hx. apply first_regions_sub in Hx.
  apply list_elem_of_fmap in Hx as (e & -> & Hee). exists e. cbn in Hxk. destruct (Z.eqb_spec (e_kind e) 1); [|done].
  unfold e820_region in *. cbn [r_base r_size] in *. done.
Qed.

Lemma boot_frames_are_ram_witness : exists map bm, parse_memory_map demo_boot_mem MB_MAGIC 0x9000 = Done (Some map) /\
  init_from_mmap X86_64 0x180000 bitmap_bss map = Done bm /\ bitmap_wf bm /\
  forall f, 0 <= f < bm_total bm -> used bm f = false ->
    let a := frame_to_addr bm f in
    exists e, e ∈ demo_e820 /\ e_kind e = 1 /\ e_base e <= a /\ a + 4096 <= e_base e + e_len e /\ 0x100000 <= a /\ 0x180000 <= a.
Proof.
  apply (boot_frames_are_ram demo_boot_mem 0x9000 0x180000 demo_e820 (mk_region 0x100000 0x7EE0000 Usable));
    [exact demo_boot_mem_ok | lia | by vm_compute | exact demo_e820_ok | by vm_compute | exact demo_e820_held | | done | cbn; lia].
  apply list_elem_of_lookup_2 with 2%nat. by vm_compute.
Defined.
