(* ===== verification/Pages.v ===== *)
(** The page allocator the rest of the kernel calls (src/kernel/src/memory/mod.rs)
    and the early bump allocator behind it (src/kernel/src/memory/bump.rs).

    [PageOps] is the interface its clients are written against, [PageLaws] what it
    promises them: pages are aligned, non-null, and never handed out while they
    are owned. *)
From Stdlib Require Import ZArith Lia.
From stdpp Require Import base option list numbers.
From S2P Require Import Prelude Mmap Bitmap.
Local Open Scope Z_scope.

(** ** The bump allocator *)

Record bump := mk_bump { bp_start : Z; bp_end : Z; bp_current : Z }.
Definition bump_new (start end_ : Z) : bump := mk_bump start end_ start.
Definition bump_reset (b : bump) : bump := mk_bump (bp_start b) (bp_end b) (bp_start b).
Definition bump_alloc (b : bump) (size : Z) : option Z * bump :=
  let aligned := align_down (uadd (bp_current b) 4095) in
  match checked_add aligned size with
  | None => (None, b)
  | Some next =>
      if bp_end b <? next then (None, b)
      else (Some aligned, mk_bump (bp_start b) (bp_end b) next)
  end.
Definition bump_used (b : bump) : Z := usub (bp_current b) (bp_start b).

(** ** The page allocator *)

Record pages := mk_pages { pg_bm : bitmap; pg_ready : bool; pg_bump : bump }.

(** The statics before [memory::init]. *)
Definition pages_bss : pages := mk_pages bitmap_bss false (bump_new 0x00100000 0x08000000).

Definition alloc_pages_impl (pg : pages) (n : Z) : outcome (option Z * pages) :=
  if pg_ready pg then
    '(r, bm) ← alloc_frames (pg_bm pg) n;
    match r with
    | None => Done (None, mk_pages bm (pg_ready pg) (pg_bump pg))
    | Some frame => Done (Some (frame_to_addr bm frame), mk_pages bm (pg_ready pg) (pg_bump pg))
    end
  else
    let '(r, b) := bump_alloc (pg_bump pg) (umul n 4096) in
    Done (r, mk_pages (pg_bm pg) (pg_ready pg) b).

Definition free_pages_impl (pg : pages) (addr n : Z) : outcome pages :=
  if pg_ready pg then
    let first := addr_to_frame (pg_bm pg) addr in
    bm ← free_frames (pg_bm pg) first n;
    Done (mk_pages bm (pg_ready pg) (pg_bump pg))
  else Done pg.

(** Steps 1-3 of [memory::init]: the map is parsed by the board, [kend] is the
    address of [_kernel_end]. *)
Definition pages_init (t : target) (kend : Z) (mmap : MemoryMap) (pg : pages) : outcome pages :=
  bm ← init_from_mmap t kend (pg_bm pg) mmap;
  let kend := align_down (uadd kend 4095) in
  let limit := uadd (mem_base bm) (umul (total_count bm) 4096) in
  Done (mk_pages bm true (bump_new kend limit)).

(** ** The interface *)

Class PageOps (A : Type) := {
  alloc_pages : A -> Z -> outcome (option Z * A);
  free_pages : A -> Z -> Z -> outcome A
}.
#[export] Instance pages_ops : PageOps pages :=
  { alloc_pages := alloc_pages_impl; free_pages := free_pages_impl }.

(** Address [x] is in the [n] pages from [p] on. *)
Definition in_pages (p n x : Z) : Prop := p <= x < p + 4096 * n.

Class PageLaws (A : Type) (ops : PageOps A) := {
  pa_inv : A -> Prop;
  pa_owned : A -> Z -> Prop;
  pa_alloc a n : pa_inv a -> 0 < n < 2 ^ 52 ->
    exists r a', alloc_pages a n = Done (r, a') /\ pa_inv a' /\
    match r with
    | Some p =>
        p mod 4096 = 0 /\ 0 < p /\ p + 4096 * n <= 2 ^ 64 /\
        (forall x, in_pages p n x -> ~ pa_owned a x) /\
        (forall x, in_pages p n x \/ pa_owned a x -> pa_owned a' x)
    | None => a' = a
    end;
  pa_free a p n : pa_inv a -> p mod 4096 = 0 -> 0 <= n -> (forall x, in_pages p n x -> pa_owned a x) ->
    exists a', free_pages a p n = Done a' /\ pa_inv a' /\
      (forall x, pa_owned a' x -> pa_owned a x) /\
      (forall x, pa_owned a x -> ~ in_pages p n x -> pa_owned a' x)
}.

(** ** The bump allocator keeps the promise *)

Definition bump_wf (b : bump) : Prop :=
  0 < bp_current b /\ bp_current b <= bp_end b /\ bp_end b + 4096 <= 2 ^ 64.

Lemma bump_alloc_spec b size : bump_wf b -> 0 < size ->
  match bump_alloc b size with
  | (Some p, b') =>
      bump_wf b' /\ p mod 4096 = 0 /\ bp_current b <= p < bp_current b + 4096 /\
      bp_current b' = p + size /\ bp_current b' <= bp_end b /\ bp_end b' = bp_end b
  | (None, b') => b' = b
  end.
Proof.
  intros (H0 & H1 & H2) Hs. unfold bump_alloc, checked_add, uadd.
  rewrite wrap_small by lia. pose proof (align_down_bounds (bp_current b + 4095)).
  destruct (Z.leb_spec (align_down (bp_current b + 4095) + size) usize_max); [|done].
  destruct (Z.ltb_spec (bp_end b) (align_down (bp_current b + 4095) + size)); [done|].
  unfold bump_wf. cbn. split; [lia|]. split; [|lia].
  rewrite align_down_eq, Z.mul_comm. apply Z.mod_mul. lia.
Qed.

(** ** The bitmap allocator keeps the promise *)

Definition bm_page_wf (bm : bitmap) : Prop :=
  bitmap_wf bm /\ 0 < bm_base bm /\ bm_base bm mod 4096 = 0 /\ bm_base bm + bm_total bm * 4096 <= 2 ^ 64.

Definition bm_owned (bm : bitmap) (x : Z) : Prop :=
  bm_base bm <= x < bm_base bm + bm_total bm * 4096 /\ used bm ((x - bm_base bm) / 4096) = true.

Lemma frame_of_addr base s n x : 0 <= s -> base + s * 4096 <= x < base + s * 4096 + 4096 * n ->
  s <= (x - base) / 4096 < s + n.
Proof.
  intros. pose proof (Z.div_mod (x - base) 4096). pose proof (Z.mod_pos_bound (x - base) 4096). lia.
Qed.

Lemma frame_to_addr_eq bm f : bm_page_wf bm -> 0 <= f < bm_total bm ->
  frame_to_addr bm f = bm_base bm + f * 4096.
Proof.
  intros ((_ & Ht & _) & Hb & _ & Hend) Hf. unfold frame_to_addr, uadd, umul.
  change MAX_FRAMES with 1048576 in Ht. rewrite (wrap_small 64 (f * 4096)) by lia.
  apply wrap_small. lia.
Qed.

Lemma addr_to_frame_eq bm f : bm_page_wf bm -> 0 <= f < bm_total bm ->
  addr_to_frame bm (bm_base bm + f * 4096) = f.
Proof.
  intros ((_ & Ht & _) & Hb & _ & Hend) Hf. unfold addr_to_frame, usub.
  rewrite wrap_small by (change MAX_FRAMES with 1048576 in Ht; lia).
  replace (bm_base bm + f * 4096 - bm_base bm) with (f * 4096) by lia. apply Z.div_mul. lia.
Qed.

Lemma bm_owned_range bm bm' s n x : 0 <= s -> s + n <= bm_total bm ->
  bm_base bm' = bm_base bm -> bm_total bm' = bm_total bm ->
  (forall f, 0 <= f -> used bm' f = in_range s n f || used bm f) ->
  bm_owned bm' x <-> in_pages (bm_base bm + s * 4096) n x \/ bm_owned bm x.
Proof.
  intros Hs Hn Hb Ht Hu. unfold bm_owned, in_pages. rewrite Hb, Ht.
  set (f := (x - bm_base bm) / 4096).
  assert (bm_base bm <= x < bm_base bm + bm_total bm * 4096 -> 0 <= f /\
    (in_range s n f = true <-> bm_base bm + s * 4096 <= x < bm_base bm + s * 4096 + 4096 * n)) as Hf.
  { intros Hx. pose proof (Z.div_mod (x - bm_base bm) 4096).
    pose proof (Z.mod_pos_bound (x - bm_base bm) 4096). rewrite in_range_spec. unfold f in *. lia. }
  split.
  - intros [Hx Hux]. destruct (Hf Hx) as [Hf0 Hfr]. rewrite Hu in Hux by done.
    apply orb_true_iff in Hux as [Hi|Hi]; [left; by apply Hfr | by right].
  - intros [Hx|[Hx Hux]]; (split; [lia|]); destruct (Hf ltac:(lia)) as [Hf0 Hfr]; rewrite Hu by done;
      apply orb_true_iff; [left; by apply Hfr | by right].
Qed.

Lemma bm_alloc_page bm n : bm_page_wf bm -> 0 < n ->
  exists r bm', alloc_frames bm n = Done (r, bm') /\ bm_page_wf bm' /\
  match r with
  | Some s =>
      let p := frame_to_addr bm' s in
      p mod 4096 = 0 /\ 0 < p /\ p + 4096 * n <= 2 ^ 64 /\
      (forall x, in_pages p n x -> ~ bm_owned bm x) /\
      (forall x, bm_owned bm' x <-> in_pages p n x \/ bm_owned bm x)
  | None => bm' = bm
  end.
Proof.
  intros Hpw Hn. pose proof Hpw as (Hwf & Hb0 & Hal & Hend).
  destruct (alloc_frames_ok bm n Hwf Hn) as (r & bm' & Ha & Hwf' & Hb & Ht & Hr).
  assert (bm_page_wf bm') as Hpw' by (split; [done|]; rewrite Hb, Ht; done).
  exists r, bm'. split; [done|]. split; [done|]. destruct r as [s|]; [|apply Hr].
  destruct Hr as ((Hs0 & Hs1 & Hs2) & _ & Hu & _). cbn zeta.
  rewrite (frame_to_addr_eq bm' s Hpw') by lia. rewrite Hb.
  split; [rewrite Z.mod_add by lia; done|]. split; [lia|]. split; [lia|]. split.
  - intros x Hx [Hxr Hxu]. rewrite Hs2 in Hxu; [done|]. apply frame_of_addr; [lia | exact Hx].
  - intros x. apply bm_owned_range; auto.
Qed.

Lemma bm_free_page bm p n : bm_page_wf bm -> p mod 4096 = 0 -> 0 <= n ->
  (forall x, in_pages p n x -> bm_owned bm x) ->
  exists bm', free_frames bm (addr_to_frame bm p) n = Done bm' /\ bm_page_wf bm' /\
    (forall x, bm_owned bm' x -> bm_owned bm x) /\
    (forall x, bm_owned bm x -> ~ in_pages p n x -> bm_owned bm' x).
Proof.
  intros Hpw Hal Hn Hown. destruct (Z.eq_dec n 0) as [->|Hn0].
  { exists bm. unfold free_frames. by rewrite seqZ_nil by lia. }
  pose proof Hpw as (Hwf & Hb0 & Hbal & Hend).
  destruct (Hown p) as [Hp0 _]; [unfold in_pages; lia|].
  destruct (Hown (p + 4096 * n - 1)) as [Hp1 _]; [unfold in_pages; lia|].
  assert (exists s, p = bm_base bm + s * 4096 /\ 0 <= s /\ s + n <= bm_total bm) as (s & -> & Hs0 & Hs1).
  { exists ((p - bm_base bm) / 4096). pose proof (Z.div_mod (p - bm_base bm) 4096).
    assert ((p - bm_base bm) mod 4096 = 0) as Hm by (rewrite Zminus_mod, Hal, Hbal; done).
    lia. }
  rewrite addr_to_frame_eq by (done || lia).
  destruct (free_range_spec bm s n Hwf Hn Hs0 Hs1) as (bm' & Hf & Hwf' & Hb & Ht & Hu).
  exists bm'. split; [done|]. split; [split; [done|]; rewrite Hb, Ht; done|].
  unfold bm_owned. rewrite Hb, Ht. split.
  - intros x [Hx Hux]. split; [done|].
    rewrite Hu in Hux by (apply Z.div_pos; lia). by apply andb_true_iff in Hux as [_ Hux].
  - intros x [Hx Hux] Hout. split; [done|]. rewrite Hu by (apply Z.div_pos; lia).
    apply andb_true_iff. split; [|done]. apply negb_true_iff, not_true_is_false.
    intros Hi. apply in_range_spec in Hi. apply Hout. unfold in_pages.
    pose proof (Z.div_mod (x - bm_base bm) 4096). pose proof (Z.mod_pos_bound (x - bm_base bm) 4096). lia.
Qed.

(** ** Both behind the flag [BITMAP_READY] *)

Definition pages_inv (pg : pages) : Prop :=
  if pg_ready pg then bm_page_wf (pg_bm pg) else bump_wf (pg_bump pg).
(** Before the bitmap is ready nothing below the bump pointer is free. *)
Definition pages_owned (pg : pages) (x : Z) : Prop :=
  if pg_ready pg then bm_owned (pg_bm pg) x else x < bp_current (pg_bump pg).

(** [alloc_pages n] never panics and, before and after the switch from the bump
    allocator to the bitmap, either fails and changes nothing or returns a
    non-null page-aligned address of [n] pages that do not wrap around the
    address space, none of whose bytes was handed out (or reserved) before, and
    all of which are owned afterwards. *)
Lemma alloc_pages_fresh (pg : pages) (n : Z) : pages_inv pg -> 0 < n < 2 ^ 52 ->
  exists r pg', alloc_pages_impl pg n = Done (r, pg') /\ pages_inv pg' /\
  match r with
  | Some p =>
      p mod 4096 = 0 /\ 0 < p /\ p + 4096 * n <= 2 ^ 64 /\
      (forall x, in_pages p n x -> ~ pages_owned pg x) /\
      (forall x, in_pages p n x \/ pages_owned pg x -> pages_owned pg' x)
  | None => pg' = pg
  end.
Proof.
  unfold pages_inv, pages_owned, alloc_pages_impl. destruct pg as [bm ready b]; cbn.
  intros Hinv Hn. destruct ready.
  - destruct (bm_alloc_page bm n Hinv ltac:(lia)) as ([s|] & bm' & -> & Hinv' & Hr); mred.
    + eexists _, _. split; [done|]. cbn. split; [done|].
      destruct Hr as (? & ? & ? & ? & Ho). do 4 (split; [done|]). intros y Hy. by apply Ho.
    + subst. by eexists _, _.
  - pose proof (bump_alloc_spec b (umul n 4096) Hinv) as Hs. unfold umul in *.
    rewrite wrap_small in * by lia. specialize (Hs ltac:(lia)). destruct (bump_alloc b (n * 4096)) as [[p|] b'].
    + destruct Hs as (Hwf & Hal & Hp & Hc & He & He'). destruct Hinv as (? & ? & ?).
      eexists _, _. split; [done|]. cbn. split; [done|]. split; [done|]. split; [lia|]. split; [lia|].
      unfold in_pages. split; intros; lia.
    + subst b'. by eexists _, _.
Qed.

(** Freeing pages that are owned keeps the allocator's invariant, never
    panics, and gives up at most those pages: every other byte stays owned. *)
Lemma free_pages_exact (pg : pages) (p n : Z) : pages_inv pg -> p mod 4096 = 0 -> 0 <= n ->
  (forall x, in_pages p n x -> pages_owned pg x) ->
  exists pg', free_pages_impl pg p n = Done pg' /\ pages_inv pg' /\
    (forall x, pages_owned pg' x -> pages_owned pg x) /\
    (forall x, pages_owned pg x -> ~ in_pages p n x -> pages_owned pg' x).
Proof.
  unfold pages_inv, pages_owned, free_pages_impl. destruct pg as [bm ready b]; cbn.
  intros Hinv Hal Hn Hown. destruct ready; [|by eexists].
  destruct (bm_free_page bm p n Hinv Hal Hn Hown) as (bm' & -> & Hinv' & ? & ?). mred.
  by eexists.
Qed.

#[export] Instance pages_laws : PageLaws pages pages_ops := {|
  pa_inv := pages_inv;
  pa_owned := pages_owned;
  pa_alloc := alloc_pages_fresh;
  pa_free := free_pages_exact
|}.

(** ** Histories of calls *)

(** The states reachable from [a0] by allocations and by frees of what is still
    allocated, with the list of live allocations (address, number of pages). *)
Inductive page_reach {A} {ops : PageOps A} (a0 : A) : A -> list (Z * Z) -> Prop :=
| reach_start : page_reach a0 a0 []
| reach_alloc a live n p a' : page_reach a0 a live -> 0 < n < 2 ^ 52 ->
    alloc_pages a n = Done (Some p, a') -> page_reach a0 a' ((p, n) :: live)
| reach_oom a live n a' : page_reach a0 a live -> 0 < n < 2 ^ 52 ->
    alloc_pages a n = Done (None, a') -> page_reach a0 a' live
| reach_free a l1 p n l2 a' : page_reach a0 a (l1 ++ (p, n) :: l2) ->
    free_pages a p n = Done a' -> page_reach a0 a' (l1 ++ l2).

(** The bytes of an allocation. *)
Definition page_block (x : Z * Z) : Z * Z := (x.1, 4096 * x.2).

Section history.
Context {A : Type} {ops : PageOps A} {laws : PageLaws A ops}.

Definition live_ok (a : A) (live : list (Z * Z)) : Prop :=
  sep (page_block <$> live) /\
  Forall (fun x => x.1 mod 4096 = 0 /\ 0 < x.1 /\ 0 < x.2 /\ forall y, in_pages x.1 x.2 y -> pa_owned a y) live.

Lemma live_ok_alloc a live n p a' : pa_inv a -> live_ok a live -> 0 < n < 2 ^ 52 ->
  alloc_pages a n = Done (Some p, a') -> pa_inv a' /\ live_ok a' ((p, n) :: live).
Proof.
  intros Ha [Hsep Hlive] Hn Heq.
  destruct (pa_alloc a n Ha Hn) as (r & b & Heq' & Hb & Hr). rewrite Heq in Heq'. done_inv.
  destruct Hr as (Hal & Hpos & _ & Hfresh & Hown). split; [done|]. split.
  - cbn. split; [|done]. apply Forall_fmap. eapply Forall_impl; [|exact Hlive]. intros [q m] (_ & _ & Hm & Hq).
    apply disjoint_by_point; cbn in *; [lia..|]. intros x Hx Hx'. apply (Hfresh x); [exact Hx | apply Hq, Hx'].
  - constructor; cbn.
    + split; [done|]. split; [done|]. split; [lia|]. intros y Hy. apply Hown. by left.
    + eapply Forall_impl; [|exact Hlive]. intros [q m] (? & ? & ? & Hq). repeat split; try done.
      intros y Hy. apply Hown. right. by apply Hq.
Qed.

Lemma live_ok_free a l1 p n l2 a' : pa_inv a -> live_ok a (l1 ++ (p, n) :: l2) ->
  free_pages a p n = Done a' -> pa_inv a' /\ live_ok a' (l1 ++ l2).
Proof.
  intros Ha [Hsep Hlive] Heq.
  assert (l1 ++ (p, n) :: l2 ≡ₚ (p, n) :: l1 ++ l2) as Hperm by (symmetry; apply Permutation_middle).
  rewrite Hperm in Hlive. apply (sep_perm _ (page_block <$> ((p, n) :: l1 ++ l2))) in Hsep;
    [|by apply fmap_Permutation].
  cbn in Hsep. destruct Hsep as [Hp Hsep].
  inversion Hlive as [|? ? (Hal & _ & Hn & Hown) Hrest]; subst. cbn in *.
  destruct (pa_free a p n Ha Hal ltac:(lia) Hown) as (b & Heq' & Hb & _ & Hkeep). rewrite Heq in Heq'. done_inv.
  split; [done|]. split; [done|]. rewrite Forall_fmap in Hp.
  pose proof (Forall_and Hp Hrest) as Hboth.
  eapply Forall_impl; [|exact Hboth]. intros [q m] [Hd (? & ? & ? & Hq)]. repeat split; try done.
  intros y Hy. apply Hkeep; [by apply Hq|]. unfold disjoint, in_pages in *. cbn in *. lia.
Qed.

Lemma page_reach_ok a0 a live : pa_inv a0 -> page_reach a0 a live -> pa_inv a /\ live_ok a live.
Proof.
  intros H0. induction 1 as [|a live n p a' _ [Ha Hl] Hn Heq|a live n a' _ [Ha Hl] Hn Heq|a l1 p n l2 a' _ [Ha Hl] Heq].
  - split; [done|]. split; [done | constructor].
  - by eapply live_ok_alloc.
  - destruct (pa_alloc a n Ha Hn) as (r & b & Heq' & Hb & Hr). rewrite Heq in Heq'. done_inv. done.
  - by eapply live_ok_free.
Qed.
End history.

(** C29: Whatever sequence of [alloc_pages] calls and of [free_pages] calls on live
    allocations the kernel makes, before or after the switch from the bump
    allocator to the bitmap: live allocations are page-aligned, non-null and
    pairwise disjoint, and no later [alloc_pages], nor a [free_pages] of a live
    allocation, can panic. *)
Theorem page_allocations_disjoint (pg0 pg : pages) (live : list (Z * Z)) :
  pages_inv pg0 -> page_reach pg0 pg live ->
  sep (page_block <$> live) /\
  (forall p n, (p, n) ∈ live -> p mod 4096 = 0 /\ 0 < p /\ exists pg', free_pages pg p n = Done pg') /\
  (forall n, 0 < n < 2 ^ 52 -> exists r, alloc_pages pg n = Done r).
Proof.
  intros H0 Hr. destruct (page_reach_ok (laws := pages_laws) pg0 pg live H0 Hr) as [Hinv [Hsep Hlive]].
  split; [done|]. split.
  - intros p n Hin%list_elem_of_In. destruct (proj1 (List.Forall_forall _ _) Hlive _ Hin) as (Hal & Hp & Hn & Hown).
    cbn in *. split; [done|]. split; [done|].
    destruct (pa_free (PageLaws := pages_laws) pg p n Hinv Hal ltac:(lia) Hown) as (b & Hb & _). by exists b.
  - intros n Hn. destruct (pa_alloc (PageLaws := pages_laws) pg n Hinv Hn) as (r & b & Hb & _). by exists (r, b).
Qed.

(** A boot with the demo map, one allocation of two pages, one of three. *)
Definition demo_pages : pages :=
  match pages_init X86_64 0x102010 demo_map pages_bss with Done pg => pg | Panic => pages_bss end.
Definition demo_alloc (pg : pages) (n : Z) : pages :=
  match alloc_pages_impl pg n with Done (_, pg) => pg | Panic => pg end.

Lemma demo_pages_inv : pages_inv demo_pages.
Proof.
  assert (demo_pages = mk_pages demo_bitmap true (bump_new 0x103000 0x200000)) as -> by (vm_compute; reflexivity).
  split; [apply demo_bitmap_wf|]. vm_compute. repeat split; discriminate.
Qed.

Lemma page_allocations_disjoint_witness :
  sep (page_block <$> [(0x105000, 3); (0x103000, 2)]) /\
  (forall p n, (p, n) ∈ [(0x105000, 3); (0x103000, 2)] -> p mod 4096 = 0 /\ 0 < p /\
     exists pg', free_pages (demo_alloc (demo_alloc demo_pages 2) 3) p n = Done pg') /\
  (forall n, 0 < n < 2 ^ 52 -> exists r, alloc_pages (demo_alloc (demo_alloc demo_pages 2) 3) n = Done r).
Proof.
  apply (page_allocations_disjoint demo_pages); [apply demo_pages_inv|].
  eapply reach_alloc; [eapply reach_alloc; [apply reach_start | lia | vm_compute; reflexivity] | lia |].
  vm_compute. reflexivity.
Defined.
