(* ===== verification/Slab.v ===== *)
(** The kernel heap: the slab allocator (src/kernel/src/memory/slab.rs) and the
    global allocator on top of it (src/kernel/src/memory/heap.rs).

    The free lists live in physical memory: a free block holds the address of
    the next one in its first eight bytes.  The operations are written against
    the page interface [PageOps]; the theorems use its promise [PageLaws]. *)
From Stdlib Require Import ZArith Lia.
From stdpp Require Import base option list numbers.
From S2P Require Import Prelude Mmap Bitmap Pages.
Local Open Scope Z_scope.

(** ** State and operations *)

Definition CLASSES : list Z := [8; 16; 32; 64; 128; 256; 512; 1024; 2048].
Definition SLAB_PAGES : Z := 1.
Definition SLAB_SIZE : Z := SLAB_PAGES * 4096.

Record Cache := mk_cache { c_head : Z; c_block_size : Z }.
Definition cache_empty : Cache := mk_cache 0 0.

(** Memory, the page allocator, [CACHES] and the counters of heap.rs. *)
Record heap (A : Type) := mk_heap {
  h_mem : mem;
  h_pages : A;
  h_caches : list Cache;
  h_used : Z;     (* HEAP_USED *)
  h_allocs : Z    (* HEAP_ALLOCS *)
}.
Arguments mk_heap {A}. Arguments h_mem {A}. Arguments h_pages {A}.
Arguments h_caches {A}. Arguments h_used {A}. Arguments h_allocs {A}.

Section ops.
Context {A : Type} {ops : PageOps A}.

Definition with_slab (h : heap A) (m : mem) (p : A) (cs : list Cache) : heap A :=
  mk_heap m p cs (h_used h) (h_allocs h).

Definition slab_init (h : heap A) : outcome (heap A) :=
  cs ← foldM (fun cs '(i, sz) => c ← get cs i; set cs i (mk_cache (c_head c) sz))
         (h_caches h) (imap pair CLASSES);
  Done (with_slab h (h_mem h) (h_pages h) cs).

Definition class_index (size : Z) : option nat := fst <$> list_find (fun s => size <= s) CLASSES.

(** The loop of [grow]: link the [n] blocks of the new slab, the last one to the
    old head. *)
Definition link_block (slab block_size n head : Z) (m : mem) (i : Z) : mem :=
  let block := slab + i * block_size in
  let next := if i + 1 <? n then slab + (i + 1) * block_size else head in
  store64 m block next.

Definition grow (h : heap A) (idx : nat) : outcome (bool * heap A) :=
  c ← get (h_caches h) idx;
  '(r, p) ← alloc_pages (h_pages h) SLAB_PAGES;
  match r with
  | None => Done (false, with_slab h (h_mem h) p (h_caches h))
  | Some slab =>
      if c_block_size c =? 0 then Panic (* division by zero *)
      else
        let n := SLAB_SIZE / c_block_size c in
        let m := foldl (link_block slab (c_block_size c) n (c_head c)) (h_mem h) (seqZ 0 n) in
        cs ← set (h_caches h) idx (mk_cache slab (c_block_size c));
        Done (true, with_slab h m p cs)
  end.

Definition usize_bytes : Z := 8.

Definition slab_alloc (h : heap A) (size : Z) : outcome (Z * heap A) :=
  let size := Z.max size usize_bytes in
  match class_index size with
  | None =>
      let npages := uadd size 4095 / 4096 in
      '(r, p) ← alloc_pages (h_pages h) npages;
      Done (default 0 r, with_slab h (h_mem h) p (h_caches h))
  | Some idx =>
      c ← get (h_caches h) idx;
      '(ok, h) ← (if c_head c =? 0 then grow h idx else Done (true, h));
      if ok : bool then
        c ← get (h_caches h) idx;
        let block := c_head c in
        cs ← set (h_caches h) idx (mk_cache (load64 (h_mem h) block) (c_block_size c));
        Done (block, with_slab h (h_mem h) (h_pages h) cs)
      else Done (0, h)
  end.

Definition slab_dealloc (h : heap A) (ptr size : Z) : outcome (heap A) :=
  if ptr =? 0 then Done h
  else
    let size := Z.max size usize_bytes in
    match class_index size with
    | None =>
        let npages := uadd size 4095 / 4096 in
        p ← free_pages (h_pages h) ptr npages;
        Done (with_slab h (h_mem h) p (h_caches h))
    | Some idx =>
        c ← get (h_caches h) idx;
        let m := store64 (h_mem h) ptr (c_head c) in
        cs ← set (h_caches h) idx (mk_cache ptr (c_block_size c));
        Done (with_slab h m (h_pages h) cs)
    end.

(** [GlobalAlloc for KernelHeap]; a [Layout] is its size and alignment. *)
Definition heap_alloc (h : heap A) (lsize lalign : Z) : outcome (Z * heap A) :=
  let size := Z.max lsize lalign in
  '(ptr, h) ← slab_alloc h size;
  if ptr =? 0 then Done (ptr, h)
  else Done (ptr, mk_heap (h_mem h) (h_pages h) (h_caches h) (uadd (h_used h) size) (uadd (h_allocs h) 1)).

Definition heap_dealloc (h : heap A) (ptr lsize lalign : Z) : outcome (heap A) :=
  let size := Z.max lsize lalign in
  slab_dealloc (mk_heap (h_mem h) (h_pages h) (h_caches h)
    (saturating_sub (h_used h) size) (saturating_sub (h_allocs h) 1)) ptr size.
End ops.

(** [heap_stats], on the kernel's page allocator. *)
Definition HEAP_SIZE : Z := 0.
Record HeapStats := mk_stats { st_used : Z; st_free : Z; st_total : Z; st_allocs : Z }.
Definition free_bytes (h : heap pages) : Z := umul (free_count (pg_bm (h_pages h))) 4096.
Definition heap_stats (h : heap pages) : HeapStats :=
  mk_stats (h_used h) (free_bytes h) HEAP_SIZE (h_allocs h).

(** [memory::init], up to the architecture's paging. *)
Definition memory_init (t : target) (kend : Z) (mmap : MemoryMap) (h : heap pages) : outcome (heap pages) :=
  p ← pages_init t kend mmap (h_pages h);
  slab_init (with_slab h (h_mem h) p (h_caches h)).

(** ** The free lists *)

(** [chain m a l]: following the links of memory from [a] visits exactly [l]. *)
Inductive chain (m : mem) : Z -> list Z -> Prop :=
| chain_nil : chain m 0 []
| chain_cons a l : a <> 0 -> chain m (load64 m a) l -> chain m a (a :: l).

(** Block size of class [i]. *)
Definition cls (i : nat) : Z := CLASSES !!! i.

(** The free blocks of all classes, [F i] being the free list of class [i]. *)
Definition free_blocks (F : nat -> list Z) : list (Z * Z) :=
  concat ((fun i => (fun a => (a, cls i)) <$> F i) <$> seq 0 9).

Lemma chain_ext m m' a l : chain m a l -> (forall b, b ∈ l -> load64 m' b = load64 m b) -> chain m' a l.
Proof.
  induction 1 as [|a l Ha Hc IH]; intros H; constructor; [done|].
  rewrite (H a) by left. apply IH. intros b Hb. apply H. by right.
Qed.

Lemma cls_bounds i : (i < 9)%nat -> 8 <= cls i <= 2048 /\ 4096 mod cls i = 0.
Proof.
  intros Hi. do 9 (destruct i as [|i]; [cbn; split; [lia | reflexivity]|]). lia.
Qed.

Lemma class_index_spec size : 0 <= size ->
  match class_index size with
  | Some i => (i < 9)%nat /\ size <= cls i
  | None => 2048 < size
  end.
Proof.
  intros Hs. unfold class_index. destruct (list_find _ CLASSES) as [[i s]|] eqn:E; cbn.
  - apply list_find_Some in E as (Hi & Hle & _). split; [by apply lookup_lt_Some in Hi|].
    unfold cls. by rewrite (list_lookup_total_correct _ _ _ Hi).
  - apply list_find_None in E. do 8 (inversion E as [|? ? _ E']; subst; clear E; rename E' into E).
    inversion E; subst. lia.
Qed.

(** Blocks of [concat] move to the front, whatever class they come from. *)
Lemma concat_update {X} (f g : nat -> list X) (xs : list X) (idx : nat) (l : list nat) :
  NoDup l -> idx ∈ l -> (forall i, i <> idx -> f i = g i) -> f idx = xs ++ g idx ->
  concat (f <$> l) ≡ₚ xs ++ concat (g <$> l).
Proof.
  intros Hnd Hin Hne Heq. induction Hnd as [|i l Hi Hnd IH]; [by apply elem_of_nil in Hin|].
  cbn. destruct (decide (i = idx)) as [->|Hd].
  - rewrite Heq. assert (f <$> l = g <$> l) as ->.
    { apply list_fmap_ext. intros j y Hy. apply Hne. intros ->. apply Hi. apply list_elem_of_lookup. eauto. }
    by rewrite app_assoc.
  - apply elem_of_cons in Hin as [->|Hin]; [done|]. rewrite IH by done. rewrite (Hne i Hd).
    rewrite !app_assoc. by rewrite (Permutation_app_comm (g i) xs).
Qed.

Definition upd (F : nat -> list Z) (idx : nat) (l : list Z) : nat -> list Z :=
  fun i => if decide (i = idx) then l else F i.

Lemma free_blocks_upd F idx xs l : (idx < 9)%nat ->
  F idx = l -> free_blocks (upd F idx (xs ++ l)) ≡ₚ ((fun a => (a, cls idx)) <$> xs) ++ free_blocks F.
Proof.
  intros Hi Hl. unfold free_blocks. apply concat_update with (idx := idx).
  - apply NoDup_seq.
  - apply elem_of_seq. lia.
  - intros i Hne. unfold upd. by rewrite decide_False.
  - unfold upd. rewrite decide_True by done. by rewrite fmap_app, Hl.
Qed.

Lemma free_blocks_elem F i a : (i < 9)%nat -> a ∈ F i -> (a, cls i) ∈ free_blocks F.
Proof.
  intros Hi Ha. unfold free_blocks. apply list_elem_of_In, in_concat.
  exists ((fun a => (a, cls i)) <$> F i). split; apply list_elem_of_In, list_elem_of_fmap.
  - exists i. split; [done|]. apply elem_of_seq. lia.
  - by exists a.
Qed.

(** Popping the head of a class's free list. *)
Lemma free_blocks_pop F idx a l : (idx < 9)%nat -> F idx = a :: l ->
  free_blocks F ≡ₚ (a, cls idx) :: free_blocks (upd F idx l).
Proof.
  intros Hi HF. unfold free_blocks. apply (concat_update _ _ [(a, cls idx)]) with (idx := idx).
  - apply NoDup_seq.
  - apply elem_of_seq. lia.
  - intros i Hne. unfold upd. by rewrite decide_False.
  - unfold upd. rewrite decide_True by done. by rewrite HF.
Qed.

(** ** Linking a new slab *)

Definition slab_link (slab bs n head i : Z) : Z := if i + 1 <? n then slab + (i + 1) * bs else head.

Lemma foldl_link slab bs n head (xs : list Z) : 8 <= bs -> NoDup xs ->
  forall m,
  (forall a, (forall i, i ∈ xs -> a + 8 <= slab + i * bs \/ slab + i * bs + 8 <= a) ->
     load64 (foldl (link_block slab bs n head) m xs) a = load64 m a) /\
  (forall i, i ∈ xs -> 0 <= slab_link slab bs n head i < 2 ^ 64 ->
     load64 (foldl (link_block slab bs n head) m xs) (slab + i * bs) = slab_link slab bs n head i).
Proof.
  intros Hbs. induction 1 as [|x xs Hx Hnd IH]; intros m; cbn [foldl].
  - split; [done|]. intros i Hi. by apply elem_of_nil in Hi.
  - destruct (IH (link_block slab bs n head m x)) as [IH1 IH2]. split.
    + intros a Ha. rewrite IH1 by (intros; apply Ha; by right). apply load64_store64_ne.
      destruct (Ha x ltac:(by left)); lia.
    + intros i [->|Hi]%elem_of_cons Hv; [|by apply IH2].
      rewrite IH1.
      * by apply load64_store64_eq.
      * intros j Hj. assert (j <> x) by (intros ->; done). nia.
Qed.

Lemma foldl_link_outside slab bs n head (xs : list Z) a :
  (forall i, i ∈ xs -> a < slab + i * bs \/ slab + i * bs + 8 <= a) ->
  forall m, foldl (link_block slab bs n head) m xs a = m a.
Proof.
  induction xs as [|x xs IH]; intros Ha m; cbn [foldl]; [done|].
  rewrite IH by (intros; apply Ha; by right). unfold link_block, store64.
  destruct (Ha x ltac:(by left)); ztest; try done; lia.
Qed.

Lemma chain_slab m slab bs n head l (d : nat) : 0 < slab -> 0 < bs ->
  (forall i, 0 <= i < n -> load64 m (slab + i * bs) = slab_link slab bs n head i) ->
  chain m head l -> Z.of_nat d <= n ->
  chain m (if (d =? 0)%nat then head else slab + (n - Z.of_nat d) * bs)
    (((fun j => slab + j * bs) <$> seqZ (n - Z.of_nat d) (Z.of_nat d)) ++ l).
Proof.
  intros Hs Hb Hl Hc. induction d as [|d IH]; intros Hd; [done|].
  rewrite seqZ_cons by lia. cbn [Nat.eqb fmap list_fmap app].
  replace (Z.succ (n - Z.of_nat (S d))) with (n - Z.of_nat d) by lia.
  replace (Z.pred (Z.of_nat (S d))) with (Z.of_nat d) by lia.
  constructor; [nia|]. rewrite Hl by lia. unfold slab_link.
  specialize (IH ltac:(lia)). destruct d as [|d].
  - cbn [Nat.eqb] in IH. ztest; [lia | exact IH].
  - cbn [Nat.eqb] in IH. ztest; [|lia]. by replace (n - Z.of_nat (S (S d)) + 1) with (n - Z.of_nat (S d)) by lia.
Qed.

(** The blocks a slab is cut into. *)
Definition slab_blocks (slab bs n : Z) : list (Z * Z) := (fun j => (slab + j * bs, bs)) <$> seqZ 0 n.

Lemma slab_blocks_elem slab bs n x : x ∈ slab_blocks slab bs n ->
  exists j, 0 <= j < n /\ x = (slab + j * bs, bs).
Proof. intros (j & -> & Hj%elem_of_seqZ)%list_elem_of_fmap. exists j. split; [lia | done]. Qed.

Lemma slab_blocks_sep slab bs : 0 < bs -> forall (d : nat) k,
  sep ((fun j => (slab + j * bs, bs)) <$> seqZ k (Z.of_nat d)).
Proof.
  intros Hb. induction d as [|d IH]; intros k; [done|].
  rewrite seqZ_cons by lia. replace (Z.pred (Z.of_nat (S d))) with (Z.of_nat d) by lia.
  cbn [fmap list_fmap sep]. split; [|apply IH]. apply List.Forall_forall. intros x Hx%list_elem_of_In.
  apply list_elem_of_fmap in Hx as (j & -> & Hj%elem_of_seqZ). unfold disjoint. cbn. left. nia.
Qed.

(** ** The invariant *)

Section laws.
Context {A : Type} {ops : PageOps A} {laws : PageLaws A ops}.
Implicit Types (h : heap A) (F : nat -> list Z) (live : list (Z * Z)).

(** A block is non-null, does not wrap, lies in pages the heap got from the page
    allocator, and is aligned to its size (to a page, when it is larger). *)
Definition block_ok (p : A) (b : Z * Z) : Prop :=
  0 < b.1 /\ 8 <= b.2 /\ b.1 + b.2 <= 2 ^ 64 /\
  (if b.2 <=? 2048 then b.1 mod b.2 = 0 else b.1 mod 4096 = 0) /\
  forall x, in_block b x -> pa_owned p x.

(** Cache [i] has its block size and heads the chain of the free list [F i]. *)
Definition cache_ok (m : mem) (cs : list Cache) F (i : nat) : Prop :=
  exists c, cs !! i = Some c /\ c_block_size c = cls i /\ chain m (c_head c) (F i).

(** [F] are the free lists, [live] the blocks handed out. *)
Record slab_inv h F live : Prop := {
  si_pages : pa_inv (h_pages h);
  si_caches : forall i, (i < 9)%nat -> cache_ok (h_mem h) (h_caches h) F i;
  si_sep : sep (free_blocks F ++ live);
  si_ok : Forall (block_ok (h_pages h)) (free_blocks F ++ live)
}.

Lemma block_ok_mono p p' b : (forall x, pa_owned p x -> pa_owned p' x) -> block_ok p b -> block_ok p' b.
Proof. intros Hm (? & ? & ? & ? & Ho). repeat split; auto. Qed.

(** The invariant only depends on the two lists of blocks up to order, and on
    the first words of the free blocks. *)
Lemma slab_inv_intro h' F' live' :
  pa_inv (h_pages h') ->
  (forall i, (i < 9)%nat -> cache_ok (h_mem h') (h_caches h') F' i) ->
  forall l, free_blocks F' ++ live' ≡ₚ l -> sep l -> Forall (block_ok (h_pages h')) l ->
  slab_inv h' F' live'.
Proof.
  intros Hp Hc l Hl Hs Ho. split; [done | done | |].
  - by eapply sep_perm; [symmetry; exact Hl|].
  - by rewrite Hl.
Qed.

(** Writing outside the first words of a class's free blocks keeps its list. *)
Lemma cache_ok_write m m' cs F i : (i < 9)%nat -> cache_ok m cs F i ->
  (forall b, b ∈ free_blocks F -> forall x, in_block b x -> m' x = m x) -> cache_ok m' cs F i.
Proof.
  intros Hi (c & Hc & Hb & Hch) Hm. exists c. split; [done|]. split; [done|].
  eapply chain_ext; [exact Hch|]. intros b Hin. apply load64_ext. intros x Hx.
  apply (Hm (b, cls i)); [by apply free_blocks_elem|].
  destruct (cls_bounds i Hi). unfold in_block. cbn. lia.
Qed.

(** Client code may write anything into a live block. *)
Lemma slab_inv_client h F live b m' : slab_inv h F live -> b ∈ live ->
  (forall x, ~ in_block b x -> m' x = h_mem h x) ->
  slab_inv (with_slab h m' (h_pages h) (h_caches h)) F live.
Proof.
  intros [Hp Hc Hs Ho] Hb Hm. split; cbn; [done | | done | done].
  intros i Hi. eapply cache_ok_write; [done | by apply Hc |].
  intros f Hf x Hx. apply Hm. intros Hx'.
  apply sep_app in Hs as (_ & _ & Hs). apply list_elem_of_In in Hf, Hb.
  pose proof (proj1 (List.Forall_forall _ _) (proj1 (List.Forall_forall _ _) Hs f Hf) b Hb) as Hd.
  unfold disjoint, in_block in *. lia.
Qed.

(** New blocks in pages nobody owned are apart from every block of the heap. *)
Lemma fresh_blocks p p' n s (new old : list (Z * Z)) : 0 < n ->
  (forall x, in_pages s n x -> ~ pa_owned p x) ->
  Forall (fun b => 0 < b.2 /\ s <= b.1 /\ b.1 + b.2 <= s + 4096 * n) new ->
  Forall (block_ok p) old -> sep new -> sep old ->
  (forall x, in_pages s n x \/ pa_owned p x -> pa_owned p' x) ->
  sep (new ++ old) /\ Forall (block_ok p') old.
Proof.
  intros Hn Hfresh Hnew Hold Hsn Hso Hmono. split.
  - apply sep_app. split; [done|]. split; [done|].
    eapply Forall_impl; [|exact Hnew]. intros b (Hb0 & Hb1 & Hb2).
    eapply Forall_impl; [|exact Hold]. intros b' (_ & Hb' & _ & _ & Ho).
    apply disjoint_by_point; [lia..|]. intros x Hx Hx'. apply (Hfresh x); [|by apply Ho].
    unfold in_block, in_pages in *. lia.
  - eapply Forall_impl; [|exact Hold]. intros b. apply block_ok_mono. auto.
Qed.

Lemma upd_eq F i l : upd F i l i = l.
Proof. unfold upd. by rewrite decide_True. Qed.
Lemma upd_ne F i j l : j <> i -> upd F i l j = F j.
Proof. intros. unfold upd. by rewrite decide_False. Qed.

(** Replacing class [idx]'s cache. *)
Lemma cache_ok_set m' cs F idx c l i : (i < 9)%nat -> (idx < length cs)%nat ->
  (forall j, (j < 9)%nat -> j <> idx -> cache_ok m' cs F j) ->
  c_block_size c = cls idx -> chain m' (c_head c) l ->
  cache_ok m' (<[idx := c]> cs) (upd F idx l) i.
Proof.
  intros Hi Hidx Hne Hb Hch. destruct (decide (i = idx)) as [->|Hd].
  - exists c. rewrite upd_eq, list_lookup_insert_eq by lia. done.
  - destruct (Hne i Hi Hd) as (c' & ? & ? & ?). exists c'.
    rewrite upd_ne, list_lookup_insert_ne by done. done.
Qed.

Lemma caches_length h F live : slab_inv h F live -> forall i, (i < 9)%nat -> (i < length (h_caches h))%nat.
Proof. intros Hinv i Hi. destruct (si_caches _ _ _ Hinv i Hi) as (c & Hc & _). by apply lookup_lt_Some in Hc. Qed.

(** The blocks of a slab at [s] are well-formed. *)
Lemma slab_blocks_ok p' s i : (i < 9)%nat -> s mod 4096 = 0 -> 0 < s -> s + 4096 <= 2 ^ 64 ->
  (forall x, in_pages s 1 x -> pa_owned p' x) ->
  Forall (block_ok p') (slab_blocks s (cls i) (4096 / cls i)) /\
  Forall (fun b => 0 < b.2 /\ s <= b.1 /\ b.1 + b.2 <= s + 4096 * 1) (slab_blocks s (cls i) (4096 / cls i)).
Proof.
  intros Hi Hal Hs Hend Hown. destruct (cls_bounds i Hi) as [Hb Hdiv].
  assert (4096 = cls i * (4096 / cls i)) as Hn by (pose proof (Z.div_mod 4096 (cls i)); lia).
  assert (forall j, 0 <= j < 4096 / cls i -> 0 <= j * cls i /\ j * cls i + cls i <= 4096) as Hj by nia.
  split; apply List.Forall_forall; intros b Hin%list_elem_of_In;
    apply slab_blocks_elem in Hin as (j & Hr & ->); cbn; specialize (Hj j Hr); [|lia].
  split; [cbn; lia|]. split; [cbn; lia|]. split; [cbn; lia|]. split.
  - cbn. ztest; [|lia]. rewrite Z.mod_add by lia.
    apply Z.mod_divide; [lia|]. apply Z.mod_divide in Hal; [|lia].
    etransitivity; [apply Z.mod_divide; [lia | exact Hdiv] | exact Hal].
  - intros x Hx. apply Hown. unfold in_block, in_pages in *. cbn in Hx. lia.
Qed.

Lemma grow_spec h F live idx : slab_inv h F live -> (idx < 9)%nat -> F idx = [] ->
  exists ok h', grow h idx = Done (ok, h') /\
    (forall b x, b ∈ live -> in_block b x -> h_mem h' x = h_mem h x) /\
    if ok : bool then exists F', F' idx <> [] /\ slab_inv h' F' live else slab_inv h' F live.
Proof.
  intros Hinv Hidx HF. pose proof Hinv as [Hp Hc Hs Ho].
  destruct (Hc idx Hidx) as (c & Hci & Hbs & Hch).
  unfold grow. rewrite (get_Some _ _ _ Hci); mred.
  destruct (pa_alloc (h_pages h) SLAB_PAGES Hp ltac:(done)) as (r & p' & -> & Hp' & Hr); mred.
  destruct (cls_bounds idx Hidx) as [Hb Hdiv].
  destruct r as [s|]; [|subst p'; eexists _, _; split; [done|]; split; [done | by split]].
  destruct Hr as (Hal & Hpos & Hend & Hfresh & Hown). unfold SLAB_PAGES in *.
  rewrite Hbs. destruct (Z.eqb_spec (cls idx) 0) as [|_]; [lia|].
  change SLAB_SIZE with 4096. set (n := 4096 / cls idx).
  assert (4096 = cls idx * n) as Hn by (unfold n; pose proof (Z.div_mod 4096 (cls idx)); lia).
  rewrite (set_lt _ _ _ (caches_length _ _ _ Hinv idx Hidx)); mred.
  set (m' := foldl _ _ _).
  destruct (slab_blocks_ok p' s idx Hidx Hal Hpos ltac:(lia)) as [Hnew Hin].
  { intros x Hx. apply Hown. by left. }
  fold n in Hnew, Hin.
  destruct (fresh_blocks (h_pages h) p' 1 s (slab_blocks s (cls idx) n) (free_blocks F ++ live)) as [Hsep' Hok'];
    try done.
  { pose proof (slab_blocks_sep s (cls idx) ltac:(lia) (Z.to_nat n) 0) as Hss. rewrite Z2Nat.id in Hss by nia. exact Hss. }
  assert (forall x, (exists b, b ∈ free_blocks F ++ live /\ in_block b x) -> m' x = h_mem h x) as Hkeep.
  { intros x (b & Hb' & Hx). apply foldl_link_outside. intros j Hj%elem_of_seqZ.
    assert (~ in_pages s 1 x) as Hnp.
    { intros Hx'. apply (Hfresh x Hx'). apply list_elem_of_In in Hb'.
      apply (proj1 (List.Forall_forall _ _) Ho b Hb'). done. }
    unfold in_pages in Hnp. nia. }
  eexists _, _. split; [done|]. split.
  - intros b x Hb' Hx. apply Hkeep. exists b. split; [apply elem_of_app; by right | done].
  - exists (upd F idx (((fun j => s + j * cls idx) <$> seqZ 0 n) ++ F idx)). split.
    + rewrite upd_eq, seqZ_cons by nia. done.
    + apply slab_inv_intro with (l := slab_blocks s (cls idx) n ++ free_blocks F ++ live);
        cbn [h_pages h_mem h_caches with_slab]; [done | | | done |].
      * intros i Hi. apply cache_ok_set; [done | by eapply caches_length | | done |].
        -- intros j Hj _. eapply cache_ok_write; [done | by apply Hc |]. intros b Hb' x Hx. apply Hkeep.
           exists b. split; [apply elem_of_app; by left | done].
        -- cbn. pose proof (foldl_link s (cls idx) n (c_head c) (seqZ 0 n) ltac:(lia) (NoDup_seqZ _ _) (h_mem h)) as [_ Hl].
           pose proof (chain_slab m' s (cls idx) n (c_head c) (F idx) (Z.to_nat n)) as Hcs.
           rewrite Z2Nat.id in Hcs by nia. destruct (Nat.eqb_spec (Z.to_nat n) 0); [nia|].
           rewrite Z.sub_diag, Z.mul_0_l, Z.add_0_r in Hcs. apply Hcs; [done | lia | | | lia].
           ++ intros i' Hi'. apply Hl; [by apply elem_of_seqZ|]. unfold slab_link. ztest; [nia|].
              rewrite HF in Hch. inversion Hch; subst. lia.
           ++ rewrite HF in Hch |- *. inversion Hch. constructor.
      * rewrite free_blocks_upd by done. rewrite <- list_fmap_compose. by rewrite <- app_assoc.
      * apply Forall_app. by split.
Qed.

(** The room [slab_alloc size] really hands out. *)
Definition granted (size : Z) : Z :=
  match class_index (Z.max size usize_bytes) with
  | Some i => cls i
  | None => 4096 * ((Z.max size usize_bytes + 4095) / 4096)
  end.

(** A [Layout]'s size is at most [isize::MAX]. *)
Definition size_ok (size : Z) : Prop := 0 <= size < 2 ^ 63.

Lemma npages_eq size : size_ok size -> 2048 < Z.max size usize_bytes ->
  uadd (Z.max size usize_bytes) 4095 / 4096 = (Z.max size usize_bytes + 4095) / 4096 /\
  0 < (Z.max size usize_bytes + 4095) / 4096 < 2 ^ 52 /\
  size <= 4096 * ((Z.max size usize_bytes + 4095) / 4096).
Proof.
  unfold size_ok, usize_bytes. intros Hs Hl. unfold uadd. rewrite wrap_small by lia.
  pose proof (Z.div_mod (Z.max size 8 + 4095) 4096). pose proof (Z.mod_pos_bound (Z.max size 8 + 4095) 4096).
  lia.
Qed.

Lemma granted_enough size : size_ok size -> size <= granted size.
Proof.
  intros Hs. unfold granted. pose proof (class_index_spec (Z.max size usize_bytes)) as Hc.
  destruct (class_index _) as [i|]; [unfold usize_bytes in *; lia|].
  destruct (npages_eq size Hs) as (_ & _ & ?); [apply Hc; unfold usize_bytes; lia | done].
Qed.

Lemma slab_pop h F live idx : slab_inv h F live -> (idx < 9)%nat -> F idx <> [] ->
  exists c, h_caches h !! idx = Some c /\ c_block_size c = cls idx /\ c_head c <> 0 /\
    exists F', slab_inv (with_slab h (h_mem h) (h_pages h)
      (<[idx := mk_cache (load64 (h_mem h) (c_head c)) (c_block_size c)]> (h_caches h)))
      F' ((c_head c, cls idx) :: live).
Proof.
  intros Hinv Hidx HF. pose proof Hinv as [Hp Hc Hs Ho].
  destruct (Hc idx Hidx) as (c & Hci & Hbs & Hch).
  destruct (F idx) as [|a l] eqn:E; [done|]. inversion Hch as [|? ? Ha Hch']; subst a.
  exists c. split; [done|]. split; [done|]. split; [done|].
  exists (upd F idx l).
  pose proof (free_blocks_pop F idx _ _ Hidx E) as Hperm.
  apply slab_inv_intro with (l := free_blocks F ++ live); cbn [h_pages h_mem h_caches with_slab]; [done | | | done | done].
  - intros i Hi. apply cache_ok_set; [done | by eapply caches_length | | done | done].
    intros j Hj _. by apply Hc.
  - rewrite Hperm. by rewrite <- Permutation_middle.
Qed.

Lemma slab_alloc_spec h F live size : slab_inv h F live -> size_ok size ->
  exists ptr h', slab_alloc h size = Done (ptr, h') /\
    (forall b x, b ∈ live -> in_block b x -> h_mem h' x = h_mem h x) /\
    exists F', slab_inv h' F' (if ptr =? 0 then live else (ptr, granted size) :: live).
Proof.
  intros Hinv Hs. unfold slab_alloc, granted.
  pose proof (class_index_spec (Z.max size usize_bytes)) as Hcl.
  destruct (class_index _) as [idx|].
  - destruct Hcl as [Hidx _]; [unfold usize_bytes; lia|].
    destruct (si_caches _ _ _ Hinv idx Hidx) as (c & Hci & Hbs & Hch).
    rewrite (get_Some _ _ _ Hci); mred.
    assert (exists ok h1, (if c_head c =? 0 then grow h idx else Done (true, h)) = Done (ok, h1) /\
      (forall b x, b ∈ live -> in_block b x -> h_mem h1 x = h_mem h x) /\
      if ok : bool then exists F', F' idx <> [] /\ slab_inv h1 F' live else slab_inv h1 F live)
      as (ok & h1 & -> & Hm & H1).
    { destruct (Z.eqb_spec (c_head c) 0) as [H0|H0].
      - apply grow_spec; [done..|]. rewrite H0 in Hch. inversion Hch; done.
      - exists true, h. split; [done|]. split; [done|]. exists F. split; [|done].
        intros HF. rewrite HF in Hch. inversion Hch. congruence. }
    mred. destruct ok; [|exists 0, h1; split; [done|]; split; [done|]; by exists F].
    destruct H1 as (F1 & HF1 & H1). destruct (slab_pop h1 F1 live idx H1 Hidx HF1) as (c1 & Hc1 & Hb1 & Hh1 & F2 & H2).
    rewrite (get_Some _ _ _ Hc1); mred. rewrite (set_lt _ _ _ (caches_length _ _ _ H1 idx Hidx)); mred.
    eexists _, _. split; [done|]. split; [done|]. exists F2.
    destruct (Z.eqb_spec (c_head c1) 0); done.
  - destruct (npages_eq size Hs) as (-> & Hn & Hle); [apply Hcl; unfold usize_bytes; lia|].
    destruct Hinv as [Hp Hc Hsep Hok].
    destruct (pa_alloc (h_pages h) _ Hp Hn) as (r & p' & -> & Hp' & Hr); mred.
    eexists _, _. split; [done|]. split; [done|]. exists F. set (n := (_ + 4095) / 4096) in *.
    destruct r as [s|]; [|subst p'; by split]. destruct Hr as (Hal & Hpos & Hend & Hfresh & Hown).
    cbn [from_option id]. destruct (Z.eqb_spec s 0); [lia|].
    destruct (fresh_blocks (h_pages h) p' n s [(s, 4096 * n)] (free_blocks F ++ live)) as [Hsep' Hok']; try done; [lia | |].
    { repeat constructor; cbn; lia. }
    apply slab_inv_intro with (l := (s, 4096 * n) :: free_blocks F ++ live); cbn [h_pages h_mem h_caches with_slab];
      [done | done | symmetry; apply Permutation_middle | done |].
    constructor; [|done]. split; [cbn; lia|]. split; [cbn; lia|]. split; [cbn; lia|]. cbn [fst snd]. split.
    + ztest; lia.
    + intros x Hx. apply Hown. left. exact Hx.
Qed.

Lemma slab_dealloc_spec h F l1 l2 ptr size :
  slab_inv h F (l1 ++ (ptr, granted size) :: l2) -> size_ok size ->
  exists h' F', slab_dealloc h ptr size = Done h' /\ slab_inv h' F' (l1 ++ l2) /\
    (forall b x, b ∈ l1 ++ l2 -> in_block b x -> h_mem h' x = h_mem h x).
Proof.
  intros Hinv Hs. pose proof Hinv as [Hp Hc Hsep Hok].
  assert (free_blocks F ++ l1 ++ (ptr, granted size) :: l2 ≡ₚ (ptr, granted size) :: free_blocks F ++ l1 ++ l2) as Hperm.
  { rewrite <- (Permutation_middle l1), <- Permutation_middle. done. }
  rewrite Hperm in Hok. apply (sep_perm _ _ Hperm) in Hsep. inversion Hok as [|? ? Hb Hok']; subst.
  cbn in Hsep. destruct Hsep as [Hd Hsep']. pose proof (proj1 (List.Forall_forall _ _) Hd) as Hd'.
  destruct Hb as (Hpos & Hsz & Hend & Hal & Hown). cbn [fst snd] in *.
  unfold slab_dealloc. destruct (Z.eqb_spec ptr 0) as [|_]; [lia|]. unfold granted in *.
  pose proof (class_index_spec (Z.max size usize_bytes)) as Hcl.
  destruct (class_index _) as [idx|].
  - destruct Hcl as [Hidx _]; [unfold usize_bytes; lia|]. destruct (cls_bounds idx Hidx) as [Hcb _].
    destruct (Hc idx Hidx) as (c & Hci & Hbs & Hch).
    rewrite (get_Some _ _ _ Hci); mred. rewrite (set_lt _ _ _ (caches_length _ _ _ Hinv idx Hidx)); mred.
    assert (forall b, b ∈ free_blocks F ++ l1 ++ l2 -> forall x, in_block b x -> store64 (h_mem h) ptr (c_head c) x = h_mem h x) as Hm.
    { intros b Hb x Hx. specialize (Hd' b (proj1 (list_elem_of_In _ _) Hb)). unfold disjoint, in_block, store64 in *. cbn in Hd'.
      ztest; try done; lia. }
    eexists _, (upd F idx ([ptr] ++ F idx)). split; [done|]. split.
    + apply slab_inv_intro with (l := (ptr, cls idx) :: free_blocks F ++ l1 ++ l2);
        cbn [h_pages h_mem h_caches with_slab]; [done | | | done | done].
      * intros i Hi. apply cache_ok_set; [done | by eapply caches_length | | done |].
        -- intros j Hj _. eapply cache_ok_write; [done | by apply Hc |]. intros b Hb. apply Hm. apply elem_of_app. by left.
        -- assert (0 <= c_head c < 2 ^ 64) as Hhd.
           { inversion Hch as [|a l Ha Hcl' Heq]; subst; [lia|].
             assert ((c_head c, cls idx) ∈ free_blocks F) as Hin%list_elem_of_In.
             { apply free_blocks_elem; [done|]. rewrite <- H. by left. }
             apply Forall_app in Hok' as [Hokf _].
             destruct (proj1 (List.Forall_forall _ _) Hokf _ Hin) as (? & ? & ? & _). cbn in *. lia. }
           cbn. constructor; [lia|]. rewrite load64_store64_eq by done.
           eapply chain_ext; [exact Hch|]. intros b Hb. apply load64_ext. intros x Hx.
           apply (Hm (b, cls idx)); [apply elem_of_app; left; by apply free_blocks_elem|].
           unfold in_block. cbn. lia.
      * rewrite free_blocks_upd by done. done.
    + intros b x Hb Hx. apply (Hm b); [apply elem_of_app; by right | done].
  - destruct (npages_eq size Hs) as (-> & Hn & Hle); [apply Hcl; unfold usize_bytes; lia|].
    set (n := (_ + 4095) / 4096) in *.
    destruct (pa_free (h_pages h) ptr n Hp) as (p' & -> & Hp' & _ & Hkeep); [ | lia | |]; mred.
    { revert Hal. ztest; [lia | done]. }
    { intros x Hx. apply Hown. exact Hx. }
    eexists _, F. split; [done|]. split; [|done]. split; cbn [h_pages h_mem h_caches with_slab]; [done | done | done |].
    apply List.Forall_forall. intros b Hb. destruct (proj1 (List.Forall_forall _ _) Hok' b Hb) as (? & ? & ? & ? & Ho).
    repeat split; try done. intros x Hx. apply Hkeep; [by apply Ho|].
    specialize (Hd' b Hb). unfold disjoint, in_block, in_pages in *. cbn in Hd'. lia.
Qed.
End laws.

(** ** Histories of the global allocator *)

(** A live allocation: its address and its layout. *)
Record alloc_rec := mk_alloc { al_ptr : Z; al_size : Z; al_align : Z }.
Definition al_req (x : alloc_rec) : Z := Z.max (al_size x) (al_align x).
(** The block behind it, and the bytes its owner may use. *)
Definition al_block (x : alloc_rec) : Z * Z := (al_ptr x, granted (al_req x)).
Definition al_bytes (x : alloc_rec) : Z * Z := (al_ptr x, al_size x).

(** Rust's conditions on a [Layout]. *)
Definition layout_ok (size align : Z) : Prop :=
  0 < size /\ (exists k, 0 <= k /\ align = 2 ^ k) /\ Z.max size align < 2 ^ 63.

(** Allocations, deallocations of live blocks with their layout, and writes of
    the owners into their own bytes, in any order. *)
Inductive heap_reach {A} {ops : PageOps A} (h0 : heap A) : heap A -> list alloc_rec -> Prop :=
| hr_start : heap_reach h0 h0 []
| hr_alloc h live size align ptr h' : heap_reach h0 h live -> layout_ok size align ->
    heap_alloc h size align = Done (ptr, h') ->
    heap_reach h0 h' (if ptr =? 0 then live else mk_alloc ptr size align :: live)
| hr_dealloc h l1 x l2 h' : heap_reach h0 h (l1 ++ x :: l2) ->
    heap_dealloc h (al_ptr x) (al_size x) (al_align x) = Done h' -> heap_reach h0 h' (l1 ++ l2)
| hr_write h live x m' : heap_reach h0 h live -> x ∈ live ->
    (forall a, ~ in_block (al_bytes x) a -> m' a = h_mem h a) ->
    heap_reach h0 (mk_heap m' (h_pages h) (h_caches h) (h_used h) (h_allocs h)) live.

(** The bytes disjoint blocks cover fit in the room they lie in. *)
Lemma sep_sum (n : nat) : forall l lo hi, (length l <= n)%nat -> lo <= hi -> sep l ->
  Forall (fun b => lo <= b.1 /\ 0 <= b.2 /\ b.1 + b.2 <= hi) l ->
  foldr (fun b s => b.2 + s) 0 l <= hi - lo.
Proof.
  induction n as [|n IH]; intros l lo hi Hl Hlh Hs Hb.
  { destruct l; cbn in *; lia. }
  destruct l as [|[a s] l]; cbn [foldr]; [lia|]. cbn in Hl, Hs. destruct Hs as [Hd Hs].
  inversion Hb as [|? ? (H1 & H2 & H3) Hb']; subst. cbn in H1, H2, H3.
  assert (exists L R, l ≡ₚ L ++ R /\ Forall (fun b => b.1 + b.2 <= a) L /\ Forall (fun b => a + s <= b.1) R) as (L & R & Hp & HL & HR).
  { clear -Hd. induction Hd as [|b l Hb Hd (L & R & Hp & HL & HR)]; [by exists [], []|].
    destruct Hb as [Hb|Hb]; cbn in Hb.
    - exists L, (b :: R). rewrite Hp. split; [apply Permutation_middle | split; [done | by constructor]].
    - exists (b :: L), R. rewrite Hp. split; [done | split; [by constructor | done]]. }
  rewrite Hp in Hb'. apply (sep_perm _ _ Hp) in Hs. apply sep_app in Hs as (HsL & HsR & _).
  apply Forall_app in Hb' as [HbL HbR]. apply Permutation_length in Hp as Hlen. rewrite length_app in Hlen.
  assert (foldr (fun b s => b.2 + s) 0 l = foldr (fun b s => b.2 + s) 0 L + foldr (fun b s => b.2 + s) 0 R) as ->.
  { transitivity (foldr (fun b s => b.2 + s) 0 (L ++ R)).
    - clear -Hp. induction Hp; cbn; lia.
    - clear. induction L; cbn; lia. }
  pose proof (IH L lo a ltac:(lia) ltac:(lia) HsL) as IHL.
  pose proof (IH R (a + s) hi ltac:(lia) ltac:(lia) HsR) as IHR.
  assert (foldr (fun b s => b.2 + s) 0 L <= a - lo) by (apply IHL; pose proof (Forall_and HL HbL) as H';
    eapply Forall_impl; [|exact H']; intros ? [? ?]; cbn in *; lia).
  assert (foldr (fun b s => b.2 + s) 0 R <= hi - (a + s)) by (apply IHR; pose proof (Forall_and HR HbR) as H';
    eapply Forall_impl; [|exact H']; intros ? [? ?]; cbn in *; lia).
  cbn. lia.
Qed.

Definition sum_req (live : list alloc_rec) : Z := foldr (fun x s => al_req x + s) 0 live.

Section heap_laws.
Context {A : Type} {ops : PageOps A} {laws : PageLaws A ops}.
Implicit Types (h : heap A) (live : list alloc_rec).
(** Blocks that are in use from the start and stay so: the kernel's image. *)
Variable pin : list (Z * Z).

Definition alloc_ok (x : alloc_rec) : Prop := layout_ok (al_size x) (al_align x).

Definition heap_ok h live : Prop :=
  (exists F, slab_inv h F ((al_block <$> live) ++ pin)) /\ Forall alloc_ok live /\
  h_used h = sum_req live /\ h_allocs h = Z.of_nat (length live).

Lemma alloc_ok_req x : alloc_ok x -> size_ok (al_req x) /\ 0 < al_req x <= granted (al_req x).
Proof.
  intros (Hs & _ & Hm). assert (size_ok (al_req x)) as Hok by (unfold size_ok, al_req in *; lia).
  pose proof (granted_enough _ Hok). unfold al_req in *. split; [done | lia].
Qed.

(** The counters cannot overflow: live blocks are disjoint. *)
Lemma live_sum h F live : slab_inv h F ((al_block <$> live) ++ pin) -> Forall alloc_ok live ->
  0 <= sum_req live < 2 ^ 64 /\ Z.of_nat (length live) < 2 ^ 64.
Proof.
  intros [_ _ Hs Ho] Hl. apply sep_app in Hs as (_ & Hs & _). apply sep_app in Hs as (Hs & _).
  apply Forall_app in Ho as [_ Ho]. apply Forall_app in Ho as [Ho _].
  pose proof (sep_sum _ (al_block <$> live) 1 (2 ^ 64) ltac:(reflexivity) ltac:(lia) Hs) as Hsum.
  assert (sum_req live <= foldr (fun b s => b.2 + s) 0 (al_block <$> live) /\ Z.of_nat (length live) <= sum_req live) as [? ?].
  { clear -Hl. induction Hl as [|x live Hx Hl IH]; cbn; [lia|].
    destruct (alloc_ok_req x Hx). unfold sum_req in *. lia. }
  assert (foldr (fun b s => b.2 + s) 0 (al_block <$> live) <= 2 ^ 64 - 1).
  { apply Hsum. eapply Forall_impl; [|exact Ho]. intros b (? & ? & ? & _). lia. }
  lia.
Qed.

Lemma heap_alloc_ok h live size align : heap_ok h live -> layout_ok size align ->
  exists ptr h', heap_alloc h size align = Done (ptr, h') /\
    heap_ok h' (if ptr =? 0 then live else mk_alloc ptr size align :: live) /\
    (forall x a, x ∈ live -> in_block (al_block x) a -> h_mem h' a = h_mem h a).
Proof.
  intros ([F Hinv] & Hl & Hu & Hn) Hlay.
  destruct (alloc_ok_req (mk_alloc 0 size align) Hlay) as [Hsz Hreq]. unfold al_req in Hsz, Hreq. cbn in Hsz, Hreq.
  unfold heap_alloc. destruct (slab_alloc h (Z.max size align)) as [[ptr h']|] eqn:E;
    destruct (slab_alloc_spec h F _ (Z.max size align) Hinv Hsz) as (ptr' & h1 & Ha & Hm & F' & H1);
    rewrite E in Ha; [|done]. simplify_eq. mred.
  assert (h_used h1 = h_used h /\ h_allocs h1 = h_allocs h) as [Hu1 Hn1].
  { clear -E. unfold slab_alloc in E. destruct (class_index _) as [i|].
    - apply bind_Done in E as (c & _ & E). apply bind_Done in E as ([ok h2] & E2 & E).
      assert (h_used h2 = h_used h /\ h_allocs h2 = h_allocs h) as [<- <-].
      { destruct (c_head c =? 0); [|by simplify_eq]. unfold grow in E2.
        apply bind_Done in E2 as (c2 & _ & E2). apply bind_Done in E2 as ([[s|] p] & _ & E2); [|by simplify_eq].
        destruct (c_block_size c2 =? 0); [done|]. apply bind_Done in E2 as (cs & _ & E2). by simplify_eq. }
      destruct ok; [|by simplify_eq]. apply bind_Done in E as (c2 & _ & E). apply bind_Done in E as (cs & _ & E).
      by simplify_eq.
    - apply bind_Done in E as ([r p] & _ & E). by simplify_eq. }
  destruct (Z.eqb_spec ptr' 0) as [->|Hp]; mred.
  - eexists _, _. split; [done|]. rewrite Z.eqb_refl. split.
    + split; [by exists F'|]. rewrite Hu1, Hn1. done.
    + intros x a Hx. apply Hm. apply elem_of_app. left. by apply list_elem_of_fmap_2.
  - eexists _, _. split; [done|]. destruct (Z.eqb_spec ptr' 0); [done|].
    assert (Forall alloc_ok (mk_alloc ptr' size align :: live)) as Hl' by by constructor.
    destruct (live_sum h1 F' (mk_alloc ptr' size align :: live) H1 Hl') as [Hsum Hlen].
    cbn in Hsum, Hlen. fold (sum_req live) in Hsum. split; [|intros x a Hx; apply Hm; apply elem_of_app; left; by apply list_elem_of_fmap_2].
    unfold al_req in Hsum. cbn in Hsum. destruct (live_sum h F live Hinv Hl) as [? ?].
    split; [exists F'; destruct H1; by split|]. split; [done|]. cbn. rewrite Hu1, Hn1, Hu, Hn.
    fold (sum_req live). unfold uadd, al_req. cbn. rewrite !wrap_small by lia. lia.
Qed.

Lemma heap_dealloc_ok h l1 x l2 : heap_ok h (l1 ++ x :: l2) ->
  exists h', heap_dealloc h (al_ptr x) (al_size x) (al_align x) = Done h' /\ heap_ok h' (l1 ++ l2) /\
    (forall y a, y ∈ l1 ++ l2 -> in_block (al_block y) a -> h_mem h' a = h_mem h a).
Proof.
  intros ([F Hinv] & Hl & Hu & Hn). rewrite fmap_app in Hinv. cbn [fmap list_fmap] in Hinv.
  rewrite <- app_assoc in Hinv. cbn [app] in Hinv.
  rewrite <- (Permutation_middle l1) in Hl. inversion Hl as [|? ? Hx Hl']; subst.
  destruct (alloc_ok_req x Hx) as [Hsz Hreq].
  unfold heap_dealloc. fold (al_req x).
  set (h0 := mk_heap _ _ _ _ _).
  assert (slab_inv h0 F ((al_block <$> l1) ++ al_block x :: (al_block <$> l2) ++ pin)) as H0 by (destruct Hinv; by split).
  destruct (slab_dealloc_spec h0 F _ _ (al_ptr x) (al_req x) H0 Hsz) as (h' & F' & E & H' & Hm).
  rewrite E. exists h'. split; [done|]. rewrite app_assoc, <- fmap_app in H', Hm.
  assert (h_used h' = h_used h0 /\ h_allocs h' = h_allocs h0) as [Eu En].
  { clear -E. unfold slab_dealloc in E. destruct (al_ptr x =? 0); [by simplify_eq|].
    destruct (class_index _).
    - apply bind_Done in E as (c & _ & E). apply bind_Done in E as (cs & _ & E). by simplify_eq.
    - apply bind_Done in E as (p & _ & E). by simplify_eq. }
  split; [|intros y a Hy; apply Hm; apply elem_of_app; left; by apply list_elem_of_fmap_2].
  split; [by exists F'|]. split; [done|]. rewrite Eu, En. cbn. rewrite Hu, Hn.
  assert (sum_req (l1 ++ x :: l2) = al_req x + sum_req (l1 ++ l2) /\ 0 <= sum_req (l1 ++ l2)) as [-> ?].
  { split; [clear; induction l1; cbn in *; unfold sum_req in *; lia|].
    clear -Hl'. induction Hl' as [|y l Hy _ IH]; cbn; [lia|]. destruct (alloc_ok_req y Hy). unfold sum_req in *. lia. }
  rewrite !length_app. cbn. unfold saturating_sub. lia.
Qed.

Lemma heap_reach_ok h0 h live : heap_ok h0 [] -> heap_reach h0 h live -> heap_ok h live.
Proof.
  intros H0. induction 1 as [|h live size align ptr h' _ IH Hlay E|h l1 x l2 h' _ IH E|h live x m' _ IH Hx Hm].
  - done.
  - destruct (heap_alloc_ok h live size align IH Hlay) as (ptr' & h1 & E' & Hok & _). rewrite E in E'. by simplify_eq.
  - destruct (heap_dealloc_ok h l1 x l2 IH) as (h1 & E' & Hok & _). rewrite E in E'. by simplify_eq.
  - destruct IH as ([F Hinv] & Hl & Hu & Hn). split; [|done]. exists F.
    assert (slab_inv (with_slab h m' (h_pages h) (h_caches h)) F ((al_block <$> live) ++ pin)) as [? ? ? ?]; [|by split].
    apply slab_inv_client with (b := al_block x);
      [done | apply elem_of_app; left; by apply list_elem_of_fmap_2 |].
    intros a Ha. apply Hm. intros Ha'. apply Ha. unfold in_block, al_block, al_bytes in *. cbn in *.
    apply list_elem_of_In in Hx.
    destruct (alloc_ok_req x (proj1 (List.Forall_forall _ _) Hl x Hx)) as [_ ?]. unfold al_req in *. lia.
Qed.
End heap_laws.

(** ** Boot *)

(** The statics as the loader leaves them; memory holds anything. *)
Definition heap_bss (m : mem) : heap pages := mk_heap m pages_bss (replicate 9 cache_empty) 0 0.

(** The frames of region [r] the kernel image touches. *)
Definition image (kend : Z) (r : MemoryRegion) : list (Z * Z) :=
  let n := Z.min ((kend - r_base r + 4095) / 4096) (Z.min (r_size r / 4096) MAX_FRAMES) in
  if 0 <? n then [(r_base r, 4096 * n)] else [].

Lemma memory_init_ok t kend m r mm : mmap_wf m -> 0 < min_base t ->
  largest_usable m (min_base t) = Some r -> r_base r mod 4096 = 0 ->
  exists h0, memory_init t kend m (heap_bss mm) = Done h0 /\ heap_ok (laws := pages_laws) (image kend r) h0 [] /\
    h_mem h0 = mm.
Proof.
  intros Hm Hmin Hr Hal.
  destruct (init_from_mmap_spec t kend m r Hm ltac:(lia) Hr) as (bm & Hbm & Hwf & Hb & Ht & Hu).
  assert (0 < r_size r /\ min_base t <= r_base r /\ r_base r + r_size r < 2 ^ 64) as (Hsz & Hbase & Hend).
  { pose proof (largest_usable_pick_max m (min_base t)) as Hsp. rewrite Hr in Hsp.
    destruct Hsp as [(x & Hx & Hc) _]. destruct Hm as (_ & _ & Hm).
    destruct (proj1 (List.Forall_forall _ _) Hm x (proj1 (list_elem_of_In _ _) Hx)) as [Hok _].
    destruct (candidate_bounds (min_base t) x r Hok ltac:(lia) Hc) as (? & _ & ? & _ & ?). done. }
  unfold memory_init, pages_init. cbn [h_pages heap_bss pg_bm pages_bss]. rewrite Hbm; mred.
  set (pg := mk_pages _ _ _).
  exists (mk_heap mm pg (mk_cache 0 <$> CLASSES) 0 0). split; [reflexivity|]. split; [|done].
  assert (pages_inv pg) as Hpg.
  { change (bm_page_wf bm). split; [done|]. rewrite Hb, Ht. split; [lia|]. split; [done|].
    pose proof (Z.mul_div_le (r_size r) 4096). lia. }
  split; [|split; [constructor | done]]. exists (fun _ => []).
  change (free_blocks (fun _ => [])) with (@nil (Z * Z)). split; cbn [h_pages h_mem h_caches]; [done | | |].
  - intros i Hi. do 9 (destruct i as [|i]; [eexists; split; [reflexivity|]; split; [reflexivity | constructor]|]). lia.
  - change (sep (image kend r)). unfold image. destruct (0 <? _); repeat constructor.
  - change (Forall (block_ok (laws := pages_laws) pg) (image kend r)). unfold image.
    set (n := Z.min _ _).
    assert (n <= (kend - r_base r + 4095) / 4096 /\ n <= r_size r / 4096 /\ n <= MAX_FRAMES) as (Hn1 & Hn2 & Hn3) by lia.
    clearbody n. destruct (Z.ltb_spec 0 n) as [Hn|]; [|constructor].
    pose proof (Z.mul_div_le (r_size r) 4096). constructor; [|constructor].
    split; [cbn; lia|]. split; [cbn; lia|]. split; [cbn; lia|]. split; [cbn [fst snd]; ztest; [lia | done]|].
    intros x [Hx1 Hx2]. cbn in Hx1, Hx2. split; cbn [pg_bm pg].
    + rewrite Hb, Ht. lia.
    + pose proof (Z.div_mod (x - r_base r) 4096). pose proof (Z.mod_pos_bound (x - r_base r) 4096).
      pose proof (Z.div_mod (kend - r_base r + 4095) 4096). pose proof (Z.mod_pos_bound (kend - r_base r + 4095) 4096).
      rewrite Hb, Hu by lia. apply Z.ltb_lt. lia.
Qed.

(** Powers of two below divide those above. *)
Lemma pow2_mod j k x : 0 <= j <= k -> x mod 2 ^ k = 0 -> x mod 2 ^ j = 0.
Proof.
  intros Hjk Hx. apply Z.mod_divide; [lia|]. apply Z.mod_divide in Hx; [|lia].
  etransitivity; [|exact Hx]. exists (2 ^ (k - j)). rewrite <- Z.pow_add_r by lia. f_equal. lia.
Qed.

Lemma cls_pow2 i : (i < 9)%nat -> cls i = 2 ^ (Z.of_nat i + 3).
Proof. intros Hi. do 9 (destruct i as [|i]; [reflexivity|]). lia. Qed.

(** Bumping the size to the alignment makes the block aligned, up to a page. *)
Lemma block_aligned p x : alloc_ok x -> al_align x <= 4096 ->
  block_ok (laws := pages_laws) p (al_block x) -> al_ptr x mod al_align x = 0.
Proof.
  intros Hok Hal (_ & _ & _ & Hb & _). destruct (alloc_ok_req x Hok) as [Hsz _].
  destruct Hok as (Hs & (k & Hk & Ek) & _). cbn [al_block fst snd] in Hb. rewrite Ek in *. unfold granted in Hb.
  pose proof (class_index_spec (Z.max (al_req x) usize_bytes)) as Hc.
  destruct (class_index _) as [i|].
  - destruct Hc as [Hi Hle]; [unfold usize_bytes; lia|]. rewrite cls_pow2 in * by done.
    replace (2 ^ (Z.of_nat i + 3) <=? 2048) with true in Hb
      by (symmetry; apply Z.leb_le; change 2048 with (2 ^ 11); apply Z.pow_le_mono_r; lia).
    apply (pow2_mod k (Z.of_nat i + 3)); [|done]. split; [done|].
    apply (Z.pow_le_mono_r_iff 2); [lia..|]. unfold al_req in Hle. lia.
  - destruct (npages_eq _ Hsz) as (_ & ? & _); [apply Hc; unfold usize_bytes; lia|].
    revert Hb. ztest; [lia|]. intros Hb. change 4096 with (2 ^ 12) in Hal, Hb.
    apply (pow2_mod k 12); [|done]. split; [done|]. by apply (Z.pow_le_mono_r_iff 2) in Hal; [|lia..].
Qed.

(** ** Theorems *)

(** C3: From boot on, whatever sequence of allocations, deallocations of live
    blocks and writes into live blocks the kernel makes: live allocations never
    overlap each other or the kernel image, are non-null, large enough and
    aligned as their layout asks (up to a page); the statistics are exactly the
    number and the total size of the live allocations; and no allocation, nor
    the deallocation of a live block, panics, loses an allocation or changes a
    byte of another live one. *)
Theorem heap_safe (t : target) (kend : Z) (m : MemoryMap) (r : MemoryRegion) (mm : mem) (h0 h : heap pages)
    (live : list alloc_rec) :
  mmap_wf m -> 0 < min_base t -> largest_usable m (min_base t) = Some r -> r_base r mod 4096 = 0 ->
  memory_init t kend m (heap_bss mm) = Done h0 -> heap_reach h0 h live ->
  sep ((al_bytes <$> live) ++ image kend r) /\
  (forall x, x ∈ live -> 0 < al_ptr x /\ (al_align x <= 4096 -> al_ptr x mod al_align x = 0)) /\
  st_used (heap_stats h) = sum_req live /\ st_allocs (heap_stats h) = Z.of_nat (length live) /\
  (forall size align, layout_ok size align -> exists ptr h', heap_alloc h size align = Done (ptr, h') /\
     forall x a, x ∈ live -> in_block (al_bytes x) a -> h_mem h' a = h_mem h a) /\
  (forall l1 x l2, live = l1 ++ x :: l2 -> exists h', heap_dealloc h (al_ptr x) (al_size x) (al_align x) = Done h' /\
     forall y a, y ∈ l1 ++ l2 -> in_block (al_bytes y) a -> h_mem h' a = h_mem h a).
Proof.
  intros Hm Hmin Hr Hal Hinit Hreach.
  destruct (memory_init_ok t kend m r mm Hm Hmin Hr Hal) as (h0' & E & Hok0 & _). rewrite Hinit in E. simplify_eq.
  pose proof (heap_reach_ok (laws := pages_laws) (image kend r) h0' h live Hok0 Hreach) as Hok.
  pose proof Hok as ([F Hinv] & Hl & Hu & Hn).
  assert (forall x, alloc_ok x -> al_size x <= granted (al_req x)) as Hsize.
  { intros x Hx. destruct (alloc_ok_req x Hx). unfold al_req in *. lia. }
  assert (forall x a, x ∈ live -> in_block (al_bytes x) a -> in_block (al_block x) a) as Hin.
  { intros x a Hx%list_elem_of_In. pose proof (Hsize x (proj1 (List.Forall_forall _ _) Hl x Hx)).
    unfold in_block, al_bytes, al_block. cbn. lia. }
  split; [|split; [|split; [done|split; [done|split]]]].
  - destruct Hinv as [_ _ Hs _]. apply sep_app in Hs as (_ & Hs & _). clear -Hs Hl Hsize.
    induction live as [|x live IH]; [done|]. cbn in Hs |- *. inversion Hl as [|? ? Hx Hl']; subst.
    destruct Hs as [Hd Hs]. split; [|by apply IH]. apply Forall_app in Hd as [Hd1 Hd2].
    pose proof (Hsize x Hx). apply Forall_app. split.
    + apply Forall_fmap. rewrite Forall_fmap in Hd1. pose proof (Forall_and Hd1 Hl') as Hb.
      eapply Forall_impl; [|exact Hb]. intros y [Hy Hoky]. pose proof (Hsize y Hoky).
      unfold disjoint, al_bytes, al_block in *. cbn in *. lia.
    + eapply Forall_impl; [|exact Hd2]. intros b Hb. unfold disjoint, al_bytes, al_block in *. cbn in *. lia.
  - intros x Hx. destruct Hinv as [_ _ _ Ho]. apply Forall_app in Ho as [_ Ho]. apply Forall_app in Ho as [Ho _].
    rewrite Forall_fmap in Ho. apply list_elem_of_In in Hx.
    pose proof (proj1 (List.Forall_forall _ _) Ho x Hx) as Hb.
    split; [apply Hb|]. intros Ha. eapply block_aligned; [|done | exact Hb].
    exact (proj1 (List.Forall_forall _ _) Hl x Hx).
  - intros size align Hlay. destruct (heap_alloc_ok (laws := pages_laws) _ h live size align Hok Hlay) as (p & h' & E' & _ & Hm').
    exists p, h'. split; [done|]. intros x a Hx Ha. apply (Hm' x); auto.
  - intros l1 x l2 ->. destruct (heap_dealloc_ok (laws := pages_laws) _ h l1 x l2 Hok) as (h' & E' & _ & Hm').
    exists h'. split; [done|]. intros y a Hy Ha. apply (Hm' y); [done|]. apply Hin; [|done].
    rewrite elem_of_app in Hy |- *. rewrite elem_of_cons. tauto.
Qed.

(** Boot with the demo map, then [Box::new] of 24 bytes and a 5000-byte buffer. *)
Definition demo_heap : heap pages :=
  match memory_init X86_64 0x102010 demo_map (heap_bss (fun _ => 0)) with Done h => h | Panic => heap_bss (fun _ => 0) end.
Definition demo_heap_alloc (h : heap pages) (size align : Z) : Z * heap pages :=
  match heap_alloc h size align with Done r => r | Panic => (0, h) end.

Lemma demo_heap_alloc_eq h size align p :
  match heap_alloc h size align with Done (q, _) => q =? p | Panic => false end = true ->
  heap_alloc h size align = Done (p, (demo_heap_alloc h size align).2).
Proof.
  unfold demo_heap_alloc. destruct (heap_alloc h size align) as [[q h']|]; [|done].
  by intros ->%Z.eqb_eq.
Qed.

Lemma heap_safe_witness :
  let h := (demo_heap_alloc (demo_heap_alloc demo_heap 24 8).2 5000 1).2 in
  sep [(0x104000, 5000); (0x103000, 24); (0x100000, 0x3000)] /\ st_used (heap_stats h) = 5024 /\
  st_allocs (heap_stats h) = 2.
Proof.
  set (live := [mk_alloc 0x104000 5000 1; mk_alloc 0x103000 24 8]).
  set (h := (demo_heap_alloc (demo_heap_alloc demo_heap 24 8).2 5000 1).2).
  assert (layout_ok 24 8 /\ layout_ok 5000 1) as [L1 L2].
  { split; (split; [lia|]); (split; [|lia]); [exists 3 | exists 0]; done. }
  assert (heap_reach demo_heap h live) as Hr.
  { change live with (if 0x104000 =? 0 then [mk_alloc 0x103000 24 8] else live).
    eapply (hr_alloc _ (demo_heap_alloc demo_heap 24 8).2); [| exact L2 |].
    - change [mk_alloc 0x103000 24 8] with (if 0x103000 =? 0 then [] else [mk_alloc 0x103000 24 8]).
      eapply (hr_alloc _ demo_heap); [apply hr_start | exact L1 |]. apply demo_heap_alloc_eq. by vm_compute.
    - apply demo_heap_alloc_eq. by vm_compute. }
  destruct (heap_safe X86_64 0x102010 demo_map (mk_region 0x100000 0x100000 Usable) (fun _ => 0) demo_heap h live)
    as (H1 & _ & H2 & H3 & _); [apply demo_map_wf | cbn; lia | by vm_compute | done | | exact Hr |];
    [unfold demo_heap; destruct (memory_init _ _ _ _) eqn:E; [done|]; apply (f_equal is_done) in E; by vm_compute in E|].
  split; [exact H1|]. split; [exact H2 | exact H3].
Defined.
