(* ===== verification/Ipc.v ===== *)
(** Pipes (src/kernel/src/ipc/mod.rs): the circular buffer of one pipe and the
    reference-counted pool of eight.

    A pipe is a queue of at most 4095 bytes; the pool is refined to an abstract
    one whose entries are either free or a channel (bytes in flight, open read
    ends, open write ends). *)
From Stdlib Require Import ZArith Lia.
From stdpp Require Import base option list numbers.
From S2P Require Import Prelude RingBuf.

(** ** One pipe *)

Definition PIPE_BUF : nat := Z.to_nat 4096.

Record Pipe := mk_pipe { p_buf : bytes; p_head : nat; p_tail : nat }.

Definition Pipe_new : Pipe := mk_pipe (replicate PIPE_BUF 0%Z) 0 0.
Definition Pipe_is_empty (p : Pipe) : bool := p_head p =? p_tail p.
Definition Pipe_is_full (p : Pipe) : bool := (p_head p + 1) mod PIPE_BUF =? p_tail p.

Fixpoint Pipe_write_loop (p : Pipe) (data : bytes) (written : nat) : outcome (nat * Pipe) :=
  match data with
  | [] => Done (written, p)
  | b :: data =>
      let next := (p_head p + 1) mod PIPE_BUF in
      if next =? p_tail p then Done (written, p)
      else
        buf ← set (p_buf p) (p_head p) b;
        Pipe_write_loop (mk_pipe buf next (p_tail p)) data (written + 1)
  end.
Definition Pipe_write (p : Pipe) (data : bytes) : outcome (nat * Pipe) := Pipe_write_loop p data 0.

(** [read] overwrites the slots of the caller's buffer one by one; the model
    returns the buffer. *)
Fixpoint Pipe_read_loop (p : Pipe) (buf : bytes) (n : nat) : outcome (nat * bytes * Pipe) :=
  match buf with
  | [] => Done (n, [], p)
  | slot :: buf =>
      if p_head p =? p_tail p then Done (n, slot :: buf, p)
      else
        b ← get (p_buf p) (p_tail p);
        '(n, buf, p) ← Pipe_read_loop (mk_pipe (p_buf p) (p_head p) ((p_tail p + 1) mod PIPE_BUF)) buf (n + 1);
        Done (n, b :: buf, p)
  end.
Definition Pipe_read (p : Pipe) (buf : bytes) : outcome (nat * bytes * Pipe) := Pipe_read_loop p buf 0.

(** ** The pool *)

Definition MAX_PIPES : nat := 8.

Record PipeSlot := mk_slot { sl_pipe : Pipe; sl_in_use : bool; sl_read_count : nat; sl_write_count : nat }.
Definition PipeSlot_new : PipeSlot := mk_slot Pipe_new false 0 0.

Abbreviation pool := (list PipeSlot).
Definition POOL_init : pool := replicate MAX_PIPES PipeSlot_new.

(** The loop of [alloc_pipe] over [POOL.iter_mut().enumerate()]. *)
Fixpoint alloc_pipe_loop (i : nat) (P : pool) : option nat * pool :=
  match P with
  | [] => (None, [])
  | s :: P =>
      if negb (sl_in_use s) then (Some i, mk_slot Pipe_new true 1 1 :: P)
      else let '(r, P) := alloc_pipe_loop (i + 1) P in (r, s :: P)
  end.
Definition alloc_pipe (P : pool) : option nat * pool := alloc_pipe_loop 0 P.

Definition dup_pipe_read (P : pool) (i : nat) : outcome pool :=
  if i <? MAX_PIPES then
    s ← get P i;
    if sl_in_use s && (sl_read_count s <? 255)
    then set P i (mk_slot (sl_pipe s) (sl_in_use s) (sl_read_count s + 1) (sl_write_count s))
    else Done P
  else Done P.

Definition dup_pipe_write (P : pool) (i : nat) : outcome pool :=
  if i <? MAX_PIPES then
    s ← get P i;
    if sl_in_use s && (sl_write_count s <? 255)
    then set P i (mk_slot (sl_pipe s) (sl_in_use s) (sl_read_count s) (sl_write_count s + 1))
    else Done P
  else Done P.

Definition close_pipe_read (P : pool) (i : nat) : outcome pool :=
  if i <? MAX_PIPES then
    s ← get P i;
    if sl_in_use s then
      let rc := if 0 <? sl_read_count s then sl_read_count s - 1 else sl_read_count s in
      let used := if (rc =? 0) && (sl_write_count s =? 0) then false else sl_in_use s in
      set P i (mk_slot (sl_pipe s) used rc (sl_write_count s))
    else Done P
  else Done P.

Definition close_pipe_write (P : pool) (i : nat) : outcome pool :=
  if i <? MAX_PIPES then
    s ← get P i;
    if sl_in_use s then
      let wc := if 0 <? sl_write_count s then sl_write_count s - 1 else sl_write_count s in
      let used := if (sl_read_count s =? 0) && (wc =? 0) then false else sl_in_use s in
      set P i (mk_slot (sl_pipe s) used (sl_read_count s) wc)
    else Done P
  else Done P.

Definition pipe_write_open (P : pool) (i : nat) : outcome bool :=
  if i <? MAX_PIPES then s ← get P i; Done (0 <? sl_write_count s) else Done false.
Definition pipe_read_open (P : pool) (i : nat) : outcome bool :=
  if i <? MAX_PIPES then s ← get P i; Done (0 <? sl_read_count s) else Done false.

Definition pipe_write (P : pool) (i : nat) (data : bytes) : outcome (nat * pool) :=
  if MAX_PIPES <=? i then Done (0, P)
  else
    s ← get P i;
    if negb (sl_in_use s) then Done (0, P)
    else
      '(n, p) ← Pipe_write (sl_pipe s) data;
      P ← set P i (mk_slot p (sl_in_use s) (sl_read_count s) (sl_write_count s));
      Done (n, P).

Definition pipe_read (P : pool) (i : nat) (buf : bytes) : outcome (nat * bytes * pool) :=
  if MAX_PIPES <=? i then Done (0, buf, P)
  else
    s ← get P i;
    if negb (sl_in_use s) then Done (0, buf, P)
    else
      '(n, buf, p) ← Pipe_read (sl_pipe s) buf;
      P ← set P i (mk_slot p (sl_in_use s) (sl_read_count s) (sl_write_count s));
      Done (n, buf, P).

Definition pipe_has_data (P : pool) (i : nat) : outcome bool :=
  if i <? MAX_PIPES then s ← get P i; Done (negb (Pipe_is_empty (sl_pipe s))) else Done false.

(** ** One pipe is a queue of 4095 bytes *)

Definition PIPE_CAP : nat := PIPE_BUF - 1.
Definition pipe_wf (p : Pipe) : Prop := ring_wf PIPE_BUF (p_buf p) (p_head p) (p_tail p).
Definition pipe_contents (p : Pipe) : bytes := ring_contents (p_buf p) (p_head p) (p_tail p).

Lemma pipe_contents_length p : pipe_wf p ->
  length (pipe_contents p) = ring_len PIPE_BUF (p_head p) (p_tail p) /\ length (pipe_contents p) <= PIPE_CAP.
Proof.
  intros (Hl & Hh & Ht). unfold pipe_contents. rewrite ring_contents_length, Hl. split; [done|].
  pose proof (ring_len_lt PIPE_BUF _ _ Hh Ht). unfold PIPE_CAP. lia.
Qed.

Lemma pipe_new_wf : pipe_wf Pipe_new /\ pipe_contents Pipe_new = [].
Proof.
  split; [|by vm_compute].
  split; [apply length_replicate|]. unfold Pipe_new, PIPE_BUF. cbn [p_head p_tail]. lia.
Qed.

Lemma pipe_empty_contents p : pipe_wf p -> Pipe_is_empty p = bool_decide (pipe_contents p = []).
Proof.
  intros Hwf. destruct (pipe_contents_length p Hwf) as [Hl _]. destruct Hwf as (_ & Hh & Ht).
  unfold Pipe_is_empty. pose proof (ring_len_0 PIPE_BUF _ _ Hh Ht) as H0. rewrite <- Hl in H0.
  destruct (Nat.eqb_spec (p_head p) (p_tail p)) as [E|E].
  - symmetry. apply bool_decide_true. apply nil_length_inv. tauto.
  - symmetry. apply bool_decide_false. intros Hn. rewrite Hn in H0. cbn in H0. tauto.
Qed.

(** What fits of [data] is appended; the rest is refused. *)
Lemma Pipe_write_loop_spec data : forall p w, pipe_wf p ->
  let n := min (length data) (PIPE_CAP - length (pipe_contents p)) in
  exists p', Pipe_write_loop p data w = Done (w + n, p') /\ pipe_wf p' /\
    pipe_contents p' = pipe_contents p ++ take n data.
Proof.
  induction data as [|b data IH]; intros p w Hwf; cbn [Pipe_write_loop].
  - exists p. cbn. rewrite Nat.add_0_r, app_nil_r. done.
  - destruct (pipe_contents_length p Hwf) as [Hlen Hcap]. pose proof Hwf as (Hl & Hh & Ht).
    destruct (Nat.eqb_spec ((p_head p + 1) mod PIPE_BUF) (p_tail p)) as [E|E].
    + apply ring_len_full in E; [|done..]. rewrite <- Hlen in E. exists p.
      unfold PIPE_CAP. rewrite E, Nat.sub_diag, Nat.min_0_r, Nat.add_0_r. cbn. by rewrite app_nil_r.
    + rewrite set_lt by lia. mred.
      set (p1 := mk_pipe _ _ _).
      assert (pipe_contents p1 = pipe_contents p ++ [b]) as Hc1 by (by apply ring_contents_push with (N := PIPE_BUF)).
      assert (pipe_wf p1) as Hwf1.
      { split; cbn; [by rewrite length_insert|]. split; [apply Nat.mod_upper_bound; lia | done]. }
      destruct (pipe_contents_length p1 Hwf1) as [_ Hcap1]. rewrite Hc1, length_app in Hcap1. cbn in Hcap1.
      destruct (IH p1 (w + 1) Hwf1) as (p' & Hp' & Hwf' & Hc'). rewrite Hc1, length_app in Hp', Hc'. cbn [length] in *.
      exists p'. rewrite Hp'. split; [f_equal; f_equal; lia|]. split; [done|]. rewrite Hc', <- app_assoc. f_equal.
      replace (min (S (length data)) (PIPE_CAP - length (pipe_contents p)))
        with (S (min (length data) (PIPE_CAP - (length (pipe_contents p) + 1)))) by lia. done.
Qed.

(** As many bytes as are there and fit are taken from the front. *)
Lemma Pipe_read_loop_spec buf : forall p w, pipe_wf p ->
  let n := min (length buf) (length (pipe_contents p)) in
  exists p', Pipe_read_loop p buf w = Done (w + n, take n (pipe_contents p) ++ drop n buf, p') /\ pipe_wf p' /\
    pipe_contents p' = drop n (pipe_contents p).
Proof.
  induction buf as [|x buf IH]; intros p w Hwf; cbn [Pipe_read_loop].
  - exists p. cbn. by rewrite Nat.add_0_r.
  - destruct (pipe_contents_length p Hwf) as [Hlen _]. pose proof Hwf as (Hl & Hh & Ht).
    destruct (Nat.eqb_spec (p_head p) (p_tail p)) as [E|E].
    + apply (ring_len_0 PIPE_BUF) in E; [|done..]. rewrite <- Hlen in E. exists p.
      rewrite E, Nat.min_0_r, Nat.add_0_r. by rewrite drop_0.
    + rewrite (get_Some _ _ (p_buf p !!! p_tail p)) by (apply list_lookup_lookup_total_lt; lia). mred.
      set (p1 := mk_pipe _ _ _).
      assert (pipe_contents p = (p_buf p !!! p_tail p) :: pipe_contents p1) as Hc
        by (by apply (ring_contents_pop PIPE_BUF)).
      assert (pipe_wf p1) as Hwf1 by (split; cbn; [done | split; [done | apply Nat.mod_upper_bound; lia]]).
      destruct (IH p1 (w + 1) Hwf1) as (p' & -> & Hwf' & Hc'). mred. exists p'. rewrite Hc. cbn [length Nat.min].
      split; [do 3 f_equal; lia | done].
Qed.

(** ** The abstract pool *)

(** A live channel: the bytes in flight and the open ends. *)
Record chan := mk_chan { ch_data : bytes; ch_r : nat; ch_w : nat }.
Abbreviation chans := (list (option chan)).

Definition slot_view (s : PipeSlot) : option chan :=
  if sl_in_use s then Some (mk_chan (pipe_contents (sl_pipe s)) (sl_read_count s) (sl_write_count s)) else None.
Definition pool_view (P : pool) : chans := slot_view <$> P.

(** A slot in use has an open end, a free one has none. *)
Definition slot_wf (s : PipeSlot) : Prop :=
  pipe_wf (sl_pipe s) /\ sl_read_count s <= 255 /\ sl_write_count s <= 255 /\
  (sl_in_use s = true <-> 0 < sl_read_count s + sl_write_count s).
Definition pool_wf (P : pool) : Prop := length P = MAX_PIPES /\ Forall slot_wf P.

(** Change the channel [i], if there is one. *)
Definition chan_update (f : chan -> option chan) (V : chans) (i : nat) : chans :=
  match V !! i with Some (Some c) => <[i := f c]> V | _ => V end.

(** A channel with no open end disappears. *)
Definition chan_norm (c : chan) : option chan := if decide (0 < ch_r c + ch_w c) then Some c else None.

Definition chan_dup_r (c : chan) : option chan := Some (mk_chan (ch_data c) (min 255 (ch_r c + 1)) (ch_w c)).
Definition chan_dup_w (c : chan) : option chan := Some (mk_chan (ch_data c) (ch_r c) (min 255 (ch_w c + 1))).
Definition chan_close_r (c : chan) : option chan := chan_norm (mk_chan (ch_data c) (ch_r c - 1) (ch_w c)).
Definition chan_close_w (c : chan) : option chan := chan_norm (mk_chan (ch_data c) (ch_r c) (ch_w c - 1)).
(** Bytes a write accepts and a read returns. *)
Definition chan_room (c : chan) (data : bytes) : nat := min (length data) (PIPE_CAP - length (ch_data c)).
Definition chan_write (data : bytes) (c : chan) : option chan :=
  Some (mk_chan (ch_data c ++ take (chan_room c data) data) (ch_r c) (ch_w c)).
Definition chan_read (n : nat) (c : chan) : option chan :=
  Some (mk_chan (drop n (ch_data c)) (ch_r c) (ch_w c)).

(** The first free entry becomes an empty channel with one end each. *)
Definition chan_alloc (V : chans) : option nat * chans :=
  match list_find (eq None) V with
  | Some (i, _) => (Some i, <[i := Some (mk_chan [] 1 1)]> V)
  | None => (None, V)
  end.

(** ** Refinement, operation by operation *)

Lemma pool_view_lookup P i : pool_view P !! i = slot_view <$> P !! i.
Proof. apply list_lookup_fmap. Qed.

Lemma pool_wf_lookup P i s : pool_wf P -> P !! i = Some s -> slot_wf s /\ i < MAX_PIPES.
Proof.
  intros [Hl Hf] Hs. split; [by eapply Forall_lookup_1|]. rewrite <- Hl. by apply lookup_lt_Some in Hs.
Qed.

Lemma pool_wf_get P i : pool_wf P -> i < MAX_PIPES -> exists s, P !! i = Some s /\ slot_wf s.
Proof.
  intros Hwf Hi. destruct (lookup_lt_is_Some_2 P i) as [s Hs]; [by rewrite (proj1 Hwf)|].
  exists s. split; [done|]. by eapply pool_wf_lookup.
Qed.

(** Storing a slot in use is a [chan_update] to its view. *)
Lemma pool_set P i s s' f : pool_wf P -> P !! i = Some s -> sl_in_use s = true -> slot_wf s' ->
  slot_view s' = f (mk_chan (pipe_contents (sl_pipe s)) (sl_read_count s) (sl_write_count s)) ->
  exists P', set P i s' = Done P' /\ pool_wf P' /\ pool_view P' = chan_update f (pool_view P) i.
Proof.
  intros [Hl Hf] Hs Hu Hs' Hv. pose proof (lookup_lt_Some _ _ _ Hs) as Hlt. rewrite set_lt by done.
  eexists. split; [done|]. split; [split|].
  - by rewrite length_insert.
  - by apply Forall_insert.
  - assert (slot_view s = Some (mk_chan (pipe_contents (sl_pipe s)) (sl_read_count s) (sl_write_count s))) as Hsv
      by (unfold slot_view; by rewrite Hu).
    unfold chan_update. rewrite pool_view_lookup, Hs. cbn [fmap option_fmap option_map]. rewrite Hsv.
    unfold pool_view. rewrite list_fmap_insert. by rewrite Hv.
Qed.

(** An entry that is not a channel is left alone. *)
Lemma chan_update_free P i s f : P !! i = Some s -> sl_in_use s = false ->
  chan_update f (pool_view P) i = pool_view P.
Proof.
  intros Hs Hu. unfold chan_update. rewrite pool_view_lookup, Hs. cbn. unfold slot_view. by rewrite Hu.
Qed.
Lemma chan_update_out P i f : pool_wf P -> MAX_PIPES <= i -> chan_update f (pool_view P) i = pool_view P.
Proof.
  intros [Hl _] Hi. unfold chan_update. by rewrite pool_view_lookup, lookup_ge_None_2 by (rewrite Hl; lia).
Qed.

(** [op] on pool entry [i] never panics and does [f] to the channel. *)
Definition refines_update (op : pool -> nat -> outcome pool) (f : chan -> option chan) : Prop :=
  forall P i, pool_wf P -> exists P', op P i = Done P' /\ pool_wf P' /\ pool_view P' = chan_update f (pool_view P) i.

(** Each of the four operations stores one slot when the entry is in use. *)
Lemma refines_update_intro op f :
  (forall P i, MAX_PIPES <= i -> op P i = Done P) ->
  (forall P i s, i < MAX_PIPES -> P !! i = Some s -> sl_in_use s = false -> op P i = Done P) ->
  (forall P i s, i < MAX_PIPES -> P !! i = Some s -> sl_in_use s = true -> slot_wf s ->
     exists s', op P i = set P i s' /\ slot_wf s' /\
       slot_view s' = f (mk_chan (pipe_contents (sl_pipe s)) (sl_read_count s) (sl_write_count s))) ->
  refines_update op f.
Proof.
  intros Hout Hfree Huse P i Hwf. destruct (le_lt_dec MAX_PIPES i) as [Hi|Hi].
  - exists P. rewrite Hout, chan_update_out by done. done.
  - destruct (pool_wf_get P i Hwf Hi) as (s & Hs & Hsw). destruct (sl_in_use s) eqn:Hu.
    + destruct (Huse P i s Hi Hs Hu Hsw) as (s' & -> & Hs' & Hv). by eapply pool_set.
    + exists P. rewrite (Hfree P i s), (chan_update_free P i s) by done. done.
Qed.

(** Unfold one pool operation on an entry. *)
Ltac pool_op :=
  intros; repeat match goal with
  | H : ?i < MAX_PIPES |- context [?i <? MAX_PIPES] => rewrite (proj2 (Nat.ltb_lt i MAX_PIPES) H)
  | H : MAX_PIPES <= ?i |- context [?i <? MAX_PIPES] => rewrite (proj2 (Nat.ltb_ge i MAX_PIPES) H)
  | H : ?P !! ?i = Some ?s |- context [get ?P ?i] => rewrite (get_Some _ _ _ H); mred
  | H : sl_in_use ?s = _ |- context [sl_in_use ?s] => rewrite H
  end; mred; cbn [andb negb].

Lemma dup_pipe_read_refines : refines_update dup_pipe_read chan_dup_r.
Proof.
  apply refines_update_intro; unfold dup_pipe_read; pool_op; try done.
  match goal with H : slot_wf s |- _ => destruct H as (Hp & Hr & Hw & Hu) end.
  destruct (Nat.ltb_spec (sl_read_count s) 255).
  - eexists. split; [done|]. split; [split; cbn; [done | lia]|]. unfold slot_view, chan_dup_r.
    cbn [sl_in_use sl_pipe sl_read_count sl_write_count ch_data ch_r ch_w]. do 2 f_equal. lia.
  - exists s. rewrite set_lt by (by eapply lookup_lt_Some). rewrite list_insert_id by done. split; [done|].
    split; [by split|]. unfold slot_view, chan_dup_r. pool_op. cbn [ch_r ch_w ch_data]. do 2 f_equal. lia.
Qed.

Lemma dup_pipe_write_refines : refines_update dup_pipe_write chan_dup_w.
Proof.
  apply refines_update_intro; unfold dup_pipe_write; pool_op; try done.
  match goal with H : slot_wf s |- _ => destruct H as (Hp & Hr & Hw & Hu) end.
  destruct (Nat.ltb_spec (sl_write_count s) 255).
  - eexists. split; [done|]. split; [split; cbn; [done | lia]|]. unfold slot_view, chan_dup_w.
    cbn [sl_in_use sl_pipe sl_read_count sl_write_count ch_data ch_r ch_w]. do 2 f_equal. lia.
  - exists s. rewrite set_lt by (by eapply lookup_lt_Some). rewrite list_insert_id by done. split; [done|].
    split; [by split|]. unfold slot_view, chan_dup_w. pool_op. cbn [ch_r ch_w ch_data]. do 2 f_equal. lia.
Qed.

Lemma pred_if n : (if 0 <? n then n - 1 else n) = n - 1.
Proof. destruct (Nat.ltb_spec 0 n); lia. Qed.

Lemma both_zero r w : ((r =? 0) && (w =? 0)) = negb (bool_decide (0 < r + w)).
Proof. destruct (Nat.eqb_spec r 0), (Nat.eqb_spec w 0); case_bool_decide; cbn; try done; lia. Qed.

Lemma slot_view_norm p r w :
  slot_view (mk_slot p (if negb (bool_decide (0 < r + w)) then false else true) r w) =
  chan_norm (mk_chan (pipe_contents p) r w).
Proof. unfold slot_view, chan_norm. cbn. case_bool_decide; case_decide; done || lia. Qed.

Lemma close_pipe_read_refines : refines_update close_pipe_read chan_close_r.
Proof.
  apply refines_update_intro; unfold close_pipe_read; pool_op; try done.
  match goal with H : slot_wf s |- _ => destruct H as (Hp & Hr & Hw & Hu) end.
  eexists. split; [done|]. rewrite pred_if, both_zero. split; [|apply slot_view_norm].
  split; cbn; [done|]. split; [lia|]. split; [done|]. case_bool_decide; cbn; split; done || lia.
Qed.

Lemma close_pipe_write_refines : refines_update close_pipe_write chan_close_w.
Proof.
  apply refines_update_intro; unfold close_pipe_write; pool_op; try done.
  match goal with H : slot_wf s |- _ => destruct H as (Hp & Hr & Hw & Hu) end.
  eexists. split; [done|]. rewrite pred_if, both_zero. split; [|apply slot_view_norm].
  split; cbn; [done|]. split; [lia|]. split; [lia|]. case_bool_decide; cbn; split; done || lia.
Qed.

Lemma alloc_pipe_loop_spec P : forall i, Forall slot_wf P ->
  let '(r, P') := alloc_pipe_loop i P in
  length P' = length P /\ Forall slot_wf P' /\
  match list_find (eq None) (pool_view P) with
  | Some (j, _) => r = Some (i + j) /\ pool_view P' = <[j := Some (mk_chan [] 1 1)]> (pool_view P)
  | None => r = None /\ P' = P
  end.
Proof.
  induction P as [|s P IH]; intros i Hf; cbn [alloc_pipe_loop]; [done|].
  inversion_clear Hf as [|? ? Hs Hf']. unfold pool_view. cbn [fmap list_fmap list_find]. fold (pool_view P).
  destruct (sl_in_use s) eqn:Hu; cbn [negb].
  - rewrite decide_False by (unfold slot_view; by rewrite Hu).
    specialize (IH (i + 1) Hf'). destruct (alloc_pipe_loop (i + 1) P) as [r P'].
    destruct IH as (Hl & Hwf & Hr). split; [cbn; lia|]. split; [by constructor|].
    destruct (list_find (eq None) (pool_view P)) as [[j o]|]; cbn.
    + destruct Hr as [-> Hv]. split; [f_equal; lia|]. unfold pool_view in *. cbn [fmap list_fmap]. by rewrite Hv.
    + destruct Hr as [-> ->]. done.
  - assert (slot_view s = None) as Hn by (unfold slot_view; by rewrite Hu). rewrite decide_True by done.
    split; [done|]. split.
    + constructor; [|done]. destruct pipe_new_wf as [Hw _]. split; [exact Hw|]. cbn. lia.
    + split; [f_equal; lia | done].
Qed.

Lemma alloc_pipe_refines P : pool_wf P -> exists r P', alloc_pipe P = (r, P') /\ pool_wf P' /\
  chan_alloc (pool_view P) = (r, pool_view P').
Proof.
  intros [Hl Hf]. pose proof (alloc_pipe_loop_spec P 0 Hf) as H. unfold alloc_pipe, chan_alloc.
  destruct (alloc_pipe_loop 0 P) as [r P']. destruct H as (Hl' & Hf' & Hr). exists r, P'. split; [done|].
  split; [split; [lia | done]|]. destruct (list_find _ _) as [[j o]|]; destruct Hr as [-> Hr]; [by rewrite Hr | by subst].
Qed.

Definition chan_at (V : chans) (i : nat) : option chan := default None (V !! i).

Lemma chan_at_view P i s : P !! i = Some s -> chan_at (pool_view P) i = slot_view s.
Proof. intros Hs. unfold chan_at. by rewrite pool_view_lookup, Hs. Qed.

Lemma chan_at_out P i : pool_wf P -> MAX_PIPES <= i -> chan_at (pool_view P) i = None.
Proof. intros [Hl _] Hi. unfold chan_at. by rewrite pool_view_lookup, lookup_ge_None_2 by (rewrite Hl; lia). Qed.

(** What [pipe_write] and [pipe_read] answer. *)
Definition write_answer (V : chans) (i : nat) (data : bytes) : nat :=
  match chan_at V i with Some c => chan_room c data | None => 0 end.
Definition read_answer (V : chans) (i : nat) (buf : bytes) : nat * bytes :=
  match chan_at V i with
  | Some c => let n := min (length buf) (length (ch_data c)) in (n, take n (ch_data c) ++ drop n buf)
  | None => (0, buf)
  end.

Lemma pipe_write_refines P i data : pool_wf P -> exists P',
  pipe_write P i data = Done (write_answer (pool_view P) i data, P') /\ pool_wf P' /\
  pool_view P' = chan_update (chan_write data) (pool_view P) i.
Proof.
  intros Hwf. unfold pipe_write, write_answer. destruct (Nat.leb_spec MAX_PIPES i) as [Hi|Hi].
  - exists P. by rewrite chan_at_out, chan_update_out.
  - destruct (pool_wf_get P i Hwf Hi) as (s & Hs & Hsw). rewrite (get_Some _ _ _ Hs); mred.
    rewrite (chan_at_view P i s Hs). unfold slot_view at 1. destruct (sl_in_use s) eqn:Hu; cbn [negb].
    + destruct Hsw as (Hp & Hr & Hw & Hiff). destruct (Pipe_write_loop_spec data (sl_pipe s) 0 Hp) as (p' & Hp' & Hwf' & Hc').
      unfold Pipe_write. rewrite Hp'; mred.
      destruct (pool_set P i s (mk_slot p' true (sl_read_count s) (sl_write_count s)) (chan_write data)) as (P' & -> & ? & ?);
        [done | done | done | split; [done | cbn; rewrite Hu in Hiff; done] | |].
      * unfold slot_view, chan_write. cbn [sl_in_use sl_pipe sl_read_count sl_write_count ch_data ch_r ch_w]. by rewrite Hc'.
      * mred. exists P'. split; [done | by split].
    + exists P. by rewrite (chan_update_free P i s).
Qed.

Lemma pipe_read_refines P i buf : pool_wf P -> exists P',
  pipe_read P i buf = Done (read_answer (pool_view P) i buf, P') /\ pool_wf P' /\
  pool_view P' = chan_update (chan_read (fst (read_answer (pool_view P) i buf))) (pool_view P) i.
Proof.
  intros Hwf. unfold pipe_read, read_answer. destruct (Nat.leb_spec MAX_PIPES i) as [Hi|Hi].
  - exists P. by rewrite chan_at_out, chan_update_out.
  - destruct (pool_wf_get P i Hwf Hi) as (s & Hs & Hsw). rewrite (get_Some _ _ _ Hs); mred.
    rewrite (chan_at_view P i s Hs). unfold slot_view. destruct (sl_in_use s) eqn:Hu; cbn [negb].
    + destruct Hsw as (Hp & Hr & Hw & Hiff). destruct (Pipe_read_loop_spec buf (sl_pipe s) 0 Hp) as (p' & Hp' & Hwf' & Hc').
      unfold Pipe_read. rewrite Hp'; mred. cbn [ch_data fst].
      destruct (pool_set P i s (mk_slot p' true (sl_read_count s) (sl_write_count s))
        (chan_read (min (length buf) (length (pipe_contents (sl_pipe s)))))) as (P' & -> & ? & ?);
        [done | done | done | split; [done | cbn; rewrite Hu in Hiff; done] | |].
      * unfold slot_view, chan_read. cbn [sl_in_use sl_pipe sl_read_count sl_write_count ch_data ch_r ch_w]. by rewrite Hc'.
      * mred. exists P'. split; [done | by split].
    + exists P. by rewrite (chan_update_free P i s).
Qed.

Lemma pipe_open_refines P i : pool_wf P ->
  pipe_read_open P i = Done (match chan_at (pool_view P) i with Some c => 0 <? ch_r c | None => false end) /\
  pipe_write_open P i = Done (match chan_at (pool_view P) i with Some c => 0 <? ch_w c | None => false end).
Proof.
  intros Hwf. unfold pipe_read_open, pipe_write_open. destruct (Nat.ltb_spec i MAX_PIPES) as [Hi|Hi].
  - destruct (pool_wf_get P i Hwf Hi) as (s & Hs & _ & _ & _ & Hiff). rewrite (get_Some _ _ _ Hs); mred.
    rewrite (chan_at_view P i s Hs). unfold slot_view. destruct (sl_in_use s); [done|].
    assert (sl_read_count s = 0 /\ sl_write_count s = 0) as [-> ->]; [|done].
    destruct (decide (0 < sl_read_count s + sl_write_count s)) as [H|H]; [|lia]. by apply Hiff in H.
  - by rewrite chan_at_out.
Qed.

(** [pipe_has_data] is exact for pipes in use (it does not look at [in_use]). *)
Lemma pipe_has_data_refines P i c : pool_wf P -> chan_at (pool_view P) i = Some c ->
  pipe_has_data P i = Done (negb (bool_decide (ch_data c = []))).
Proof.
  intros Hwf Hc. unfold pipe_has_data. destruct (Nat.ltb_spec i MAX_PIPES) as [Hi|Hi]; [|by rewrite chan_at_out in Hc].
  destruct (pool_wf_get P i Hwf Hi) as (s & Hs & Hp & _). rewrite (get_Some _ _ _ Hs); mred.
  rewrite (chan_at_view P i s Hs) in Hc. unfold slot_view in Hc. destruct (sl_in_use s); [|done]. simplify_eq.
  rewrite pipe_empty_contents by done. done.
Qed.

Lemma POOL_init_wf : pool_wf POOL_init /\ pool_view POOL_init = replicate MAX_PIPES None.
Proof.
  split; [split; [done|]|reflexivity].
  apply Forall_replicate. destruct pipe_new_wf as [Hw _]. split; [exact Hw|]. cbn. split; [lia|]. split; [lia|].
  split; [done | lia].
Qed.

(** ** Any sequence of pool operations *)

Inductive pipe_op :=
| PAlloc | PDupR (i : nat) | PDupW (i : nat) | PCloseR (i : nat) | PCloseW (i : nat)
| PWrite (i : nat) (data : bytes) | PRead (i : nat) (buf : bytes) | PReadOpen (i : nat) | PWriteOpen (i : nat).
Inductive pipe_out :=
| OutIdx (r : option nat) | OutUnit | OutWritten (n : nat) | OutRead (n : nat) (buf : bytes) | OutFlag (b : bool).

Definition pool_step (P : pool) (op : pipe_op) : outcome (pipe_out * pool) :=
  match op with
  | PAlloc => let '(r, P) := alloc_pipe P in Done (OutIdx r, P)
  | PDupR i => P ← dup_pipe_read P i; Done (OutUnit, P)
  | PDupW i => P ← dup_pipe_write P i; Done (OutUnit, P)
  | PCloseR i => P ← close_pipe_read P i; Done (OutUnit, P)
  | PCloseW i => P ← close_pipe_write P i; Done (OutUnit, P)
  | PWrite i data => '(n, P) ← pipe_write P i data; Done (OutWritten n, P)
  | PRead i buf => '(n, buf, P) ← pipe_read P i buf; Done (OutRead n buf, P)
  | PReadOpen i => b ← pipe_read_open P i; Done (OutFlag b, P)
  | PWriteOpen i => b ← pipe_write_open P i; Done (OutFlag b, P)
  end.

(** The same on the abstract pool. *)
Definition chans_step (V : chans) (op : pipe_op) : pipe_out * chans :=
  match op with
  | PAlloc => let '(r, V) := chan_alloc V in (OutIdx r, V)
  | PDupR i => (OutUnit, chan_update chan_dup_r V i)
  | PDupW i => (OutUnit, chan_update chan_dup_w V i)
  | PCloseR i => (OutUnit, chan_update chan_close_r V i)
  | PCloseW i => (OutUnit, chan_update chan_close_w V i)
  | PWrite i data => (OutWritten (write_answer V i data), chan_update (chan_write data) V i)
  | PRead i buf =>
      let '(n, buf) := read_answer V i buf in (OutRead n buf, chan_update (chan_read n) V i)
  | PReadOpen i => (OutFlag (match chan_at V i with Some c => 0 <? ch_r c | None => false end), V)
  | PWriteOpen i => (OutFlag (match chan_at V i with Some c => 0 <? ch_w c | None => false end), V)
  end.

Fixpoint pool_run (P : pool) (ops : list pipe_op) : outcome (list pipe_out * pool) :=
  match ops with
  | [] => Done ([], P)
  | op :: ops => '(o, P) ← pool_step P op; '(os, P) ← pool_run P ops; Done (o :: os, P)
  end.
Fixpoint chans_run (V : chans) (ops : list pipe_op) : list pipe_out * chans :=
  match ops with
  | [] => ([], V)
  | op :: ops => let '(o, V) := chans_step V op in let '(os, V) := chans_run V ops in (o :: os, V)
  end.

Lemma pool_step_refines P op : pool_wf P -> exists P',
  pool_step P op = Done (fst (chans_step (pool_view P) op), P') /\ pool_wf P' /\
  pool_view P' = snd (chans_step (pool_view P) op).
Proof.
  intros Hwf. destruct op as [|i|i|i|i|i data|i buf|i|i]; cbn [pool_step chans_step].
  - destruct (alloc_pipe_refines P Hwf) as (r & P' & -> & ? & ->). by exists P'.
  - destruct (dup_pipe_read_refines P i Hwf) as (P' & -> & ? & ?). by exists P'.
  - destruct (dup_pipe_write_refines P i Hwf) as (P' & -> & ? & ?). by exists P'.
  - destruct (close_pipe_read_refines P i Hwf) as (P' & -> & ? & ?). by exists P'.
  - destruct (close_pipe_write_refines P i Hwf) as (P' & -> & ? & ?). by exists P'.
  - destruct (pipe_write_refines P i data Hwf) as (P' & -> & ? & ?). by exists P'.
  - destruct (pipe_read_refines P i buf Hwf) as (P' & -> & ? & ?).
    destruct (read_answer (pool_view P) i buf) as [n buf']. by exists P'.
  - rewrite (proj1 (pipe_open_refines P i Hwf)). by exists P.
  - rewrite (proj2 (pipe_open_refines P i Hwf)). by exists P.
Qed.

(** C26: From boot on, any sequence of pool operations ([alloc_pipe], [dup_pipe_*],
    [close_pipe_*], [pipe_write], [pipe_read], [pipe_*_open]) answers exactly as
    the abstract pool of at most eight channels does: each channel is a
    first-in first-out byte stream of capacity 4095 with saturating reference
    counts, it exists as long as one of its ends is open, operations on one
    channel leave the others alone, and no operation panics. *)
Theorem pool_refines_channels (ops : list pipe_op) : exists P',
  pool_run POOL_init ops = Done (fst (chans_run (replicate MAX_PIPES None) ops), P') /\
  pool_view P' = snd (chans_run (replicate MAX_PIPES None) ops).
Proof.
  destruct POOL_init_wf as [Hwf Hv]. rewrite <- Hv. clear Hv. revert Hwf.
  generalize POOL_init as P. induction ops as [|op ops IH]; intros P Hwf; cbn [pool_run chans_run]; [by exists P|].
  destruct (pool_step_refines P op Hwf) as (P1 & -> & Hwf1 & Hv1); mred.
  destruct (chans_step (pool_view P) op) as [o V]. cbn in Hv1. subst V.
  destruct (IH P1 Hwf1) as (P2 & -> & Hv2); mred. destruct (chans_run (pool_view P1) ops). by exists P2.
Qed.
