(* ===== verification/Process.v ===== *)
(** The process model (src/kernel/src/process/mod.rs): signals, file descriptor
    tables and tasks.

    File descriptors that name pipe ends hold references into the pipe pool; the
    table operations that close them change the pool, which is passed along. *)
From Stdlib Require Import ZArith Lia.
From stdpp Require Import base option list numbers.
From S2P Require Import Prelude RingBuf Ipc.
Local Open Scope Z_scope.

(** ** Signals *)

Definition SIGHUP : Z := 1.
Definition SIGINT : Z := 2.
Definition SIGQUIT : Z := 3.
Definition SIGABRT : Z := 6.
Definition SIGKILL : Z := 9.
Definition SIGTERM : Z := 15.
Definition SIGCHLD : Z := 17.

Definition sig_bit (sig : Z) : Z :=
  if (sig =? 0) || (31 <? sig) then 0 else wrap 32 (Z.shiftl 1 (sig - 1)).

(** ** File descriptor tables *)

Definition MAX_FDS : nat := 16.

Inductive FdEntry :=
| FdEmpty
| Stdin
| Stdout
| Stderr
| VfsFile (inode : nat) (offset : Z) (writable : bool)
| VfsDir (inode : nat) (pos : nat)
| PipeRead (idx : nat)
| PipeWrite (idx : nat)
| SocketPair (read_idx write_idx : nat)
| DevNull
| DevZero
| DevUrandom.

#[export] Instance FdEntry_eq_dec : EqDecision FdEntry.
Proof. solve_decision. Defined.

Abbreviation FdTable := (list FdEntry).

Definition FdTable_new : FdTable :=
  [Stdin; Stdout; Stderr] ++ replicate (MAX_FDS - 3) FdEmpty.

(** The loop of [alloc] over [3..MAX_FDS]. *)
Fixpoint fd_alloc_loop (t : FdTable) (e : FdEntry) (l : list nat) : outcome (option nat * FdTable) :=
  match l with
  | [] => Done (None, t)
  | i :: l =>
      x ← get t i;
      match x with
      | FdEmpty => t ← set t i e; Done (Some i, t)
      | _ => fd_alloc_loop t e l
      end
  end.
Definition fd_alloc (t : FdTable) (e : FdEntry) : outcome (option nat * FdTable) :=
  fd_alloc_loop t e (seq 3 (MAX_FDS - 3)).

Definition fd_get (t : FdTable) (fd : nat) : outcome (option FdEntry) :=
  if (MAX_FDS <=? fd)%nat then Done None
  else
    e ← get t fd;
    Done (match e with FdEmpty => None | e => Some e end).

Definition fd_set_offset (t : FdTable) (fd : nat) (new_offset : Z) : FdTable :=
  match t !! fd with
  | Some (VfsFile inode _ writable) => <[fd := VfsFile inode new_offset writable]> t
  | _ => t
  end.

Definition fd_set_dir_pos (t : FdTable) (fd : nat) (new_pos : nat) : FdTable :=
  match t !! fd with
  | Some (VfsDir inode _) => <[fd := VfsDir inode new_pos]> t
  | _ => t
  end.

(** The [match] that releases the pipe ends of an entry, in [alloc_at],
    [close_all] and the scheduler's [current_fd_close]. *)
Definition release_entry (e : FdEntry) (P : pool) : outcome pool :=
  match e with
  | PipeRead idx => close_pipe_read P idx
  | PipeWrite idx => close_pipe_write P idx
  | SocketPair r w => P ← close_pipe_read P r; close_pipe_write P w
  | _ => Done P
  end.

Definition fd_alloc_at (t : FdTable) (fd : nat) (e : FdEntry) (P : pool) : outcome (option nat * FdTable * pool) :=
  if (MAX_FDS <=? fd)%nat then Done (None, t, P)
  else
    old ← get t fd;
    P ← release_entry old P;
    t ← set t fd e;
    Done (Some fd, t, P).

Definition fd_close (t : FdTable) (fd : nat) : outcome (option FdEntry * FdTable) :=
  if (MAX_FDS <=? fd)%nat then Done (None, t)
  else
    old ← get t fd;
    match old with
    | FdEmpty => Done (None, t)
    | e => t ← set t fd FdEmpty; Done (Some e, t)
    end.

Definition close_all_step (s : FdTable * pool) (i : nat) : outcome (FdTable * pool) :=
  let '(t, P) := s in
  e ← get t i;
  P ← release_entry e P;
  t ← set t i FdEmpty;
  Done (t, P).
Definition fd_close_all (t : FdTable) (P : pool) : outcome (FdTable * pool) :=
  foldM close_all_step (t, P) (seq 0 MAX_FDS).

(** ** Tasks *)

Inductive TaskState := Ready | Running | Blocked | Zombie.
#[export] Instance TaskState_eq_dec : EqDecision TaskState.
Proof. solve_decision. Defined.

Record CpuContext := mk_ctx { ctx_regs : list Z; ctx_ip : Z; ctx_sp : Z; ctx_flags : Z }.
Definition CpuContext_zero : CpuContext := mk_ctx (replicate 16 0) 0 0 0.

Record Task := mk_task {
  pid : Z;
  ppid : Z;
  state : TaskState;
  context : CpuContext;
  kernel_sp : Z;
  stack_top : Z;
  exit_code : Z;        (* i32 *)
  is_user : bool;
  page_table_phys : Z;
  pending_signals : Z;  (* u32 *)
  waiting_for_pid : Z;
  heap_brk : Z;
  fd_table : FdTable;
  cwd : nat;
  fs_base : Z
}.

(** The constructors take the next process id and return the one after it. *)
Definition Task_new (next_pid ip sp : Z) : Task * Z :=
  (mk_task next_pid 0 Ready (mk_ctx (replicate 16 0) ip sp 0) 0 0 0 false 0 0 0 0 FdTable_new 0 0, uadd next_pid 1).
Definition Task_new_kernel (next_pid ksp top parent : Z) : Task * Z :=
  (mk_task next_pid parent Ready CpuContext_zero ksp top 0 false 0 0 0 0 FdTable_new 0 0, uadd next_pid 1).
Definition Task_new_user (next_pid ksp top pt parent : Z) : Task * Z :=
  (mk_task next_pid parent Ready CpuContext_zero ksp top 0 true pt 0 0 0 FdTable_new 0 0, uadd next_pid 1).
Definition Task_idle : Task :=
  mk_task 0 0 Ready CpuContext_zero 0 0 0 false 0 0 0 0 FdTable_new 0 0.

(** Field updates. *)
Definition with_state (s : TaskState) (t : Task) : Task :=
  mk_task (pid t) (ppid t) s (context t) (kernel_sp t) (stack_top t) (exit_code t) (is_user t)
    (page_table_phys t) (pending_signals t) (waiting_for_pid t) (heap_brk t) (fd_table t) (cwd t) (fs_base t).
Definition with_pending (p : Z) (t : Task) : Task :=
  mk_task (pid t) (ppid t) (state t) (context t) (kernel_sp t) (stack_top t) (exit_code t) (is_user t)
    (page_table_phys t) p (waiting_for_pid t) (heap_brk t) (fd_table t) (cwd t) (fs_base t).
Definition with_fds (f : FdTable) (t : Task) : Task :=
  mk_task (pid t) (ppid t) (state t) (context t) (kernel_sp t) (stack_top t) (exit_code t) (is_user t)
    (page_table_phys t) (pending_signals t) (waiting_for_pid t) (heap_brk t) f (cwd t) (fs_base t).
Definition with_exit_code (c : Z) (t : Task) : Task :=
  mk_task (pid t) (ppid t) (state t) (context t) (kernel_sp t) (stack_top t) c (is_user t)
    (page_table_phys t) (pending_signals t) (waiting_for_pid t) (heap_brk t) (fd_table t) (cwd t) (fs_base t).

Definition exit (t : Task) (code : Z) (P : pool) : outcome (Task * pool) :=
  '(f, P) ← fd_close_all (fd_table t) P;
  Done (with_state Zombie (with_exit_code code (with_fds f t)), P).

Definition raise_signal (t : Task) (sig : Z) : bool * Task :=
  let bit := sig_bit sig in
  if bit =? 0 then (false, t) else (true, with_pending (Z.lor (pending_signals t) bit) t).

Definition take_signal (t : Task) (sig : Z) : bool * Task :=
  let bit := sig_bit sig in
  if Z.land (pending_signals t) bit =? 0 then (false, t)
  else (true, with_pending (Z.land (pending_signals t) (wrap 32 (Z.lnot bit))) t).

(** ** References to pipe ends *)

Definition one_if (b : bool) : nat := if b then 1 else 0.
Definition entry_refs_r (e : FdEntry) (i : nat) : nat :=
  match e with PipeRead j => one_if (j =? i)%nat | SocketPair j _ => one_if (j =? i)%nat | _ => 0 end.
Definition entry_refs_w (e : FdEntry) (i : nat) : nat :=
  match e with PipeWrite j => one_if (j =? i)%nat | SocketPair _ j => one_if (j =? i)%nat | _ => 0 end.
Definition table_refs_r (t : FdTable) (i : nat) : nat := sum_list ((fun e => entry_refs_r e i) <$> t).
Definition table_refs_w (t : FdTable) (i : nat) : nat := sum_list ((fun e => entry_refs_w e i) <$> t).

(** A channel after [a] read ends and [b] write ends of it are closed. *)
Definition chan_release (a b : nat) (o : option chan) : option chan :=
  o ≫= fun c => chan_norm (mk_chan (ch_data c) (ch_r c - a) (ch_w c - b)).

Lemma chan_release_0 P i : pool_wf P -> chan_release 0 0 (chan_at (pool_view P) i) = chan_at (pool_view P) i.
Proof.
  intros Hwf. destruct (le_lt_dec MAX_PIPES i); [by rewrite chan_at_out|].
  destruct (pool_wf_get P i Hwf) as (s & Hs & Hsw); [done|]. rewrite (chan_at_view P i s Hs).
  destruct Hsw as (_ & _ & _ & Hu). unfold slot_view, chan_release, chan_norm. destruct (sl_in_use s); [|done].
  cbn. rewrite !Nat.sub_0_r. rewrite decide_True; [done | by apply Hu].
Qed.

Lemma chan_release_compose a b a' b' o : chan_release a b (chan_release a' b' o) = chan_release (a' + a) (b' + b) o.
Proof.
  destruct o as [[d r w]|]; [|done]. unfold chan_release, chan_norm. cbn. repeat case_decide; cbn; try done.
  - case_decide; cbn in *; [do 2 f_equal; lia | lia].
  - case_decide; cbn in *; [lia | done].
  - cbn in *. lia.
Qed.

Lemma chan_at_update f V i j :
  chan_at (chan_update f V i) j =
  if decide (i = j) then chan_at V j ≫= f else chan_at V j.
Proof.
  unfold chan_update, chan_at. destruct (V !! i) as [[c|]|] eqn:E; case_decide; subst; rewrite ?E; cbn; try done.
  - rewrite list_lookup_insert_eq by (by eapply lookup_lt_Some). done.
  - by rewrite list_lookup_insert_ne.
Qed.

(** Closing one entry releases its own references and nothing else. *)
Definition released (P P' : pool) (rr rw : nat -> nat) : Prop :=
  pool_wf P' /\ forall i, chan_at (pool_view P') i = chan_release (rr i) (rw i) (chan_at (pool_view P) i).

Lemma released_refl P rr rw : pool_wf P -> (forall i, rr i = 0%nat /\ rw i = 0%nat) -> released P P rr rw.
Proof. intros Hwf H. split; [done|]. intros i. destruct (H i) as [-> ->]. symmetry. by apply chan_release_0. Qed.

Lemma released_trans P P1 P2 rr rw rr' rw' : released P P1 rr rw -> released P1 P2 rr' rw' ->
  released P P2 (fun i => (rr i + rr' i)%nat) (fun i => (rw i + rw' i)%nat).
Proof. intros [_ H1] [Hwf H2]. split; [done|]. intros i. by rewrite H2, H1, chan_release_compose. Qed.

Lemma close_read_released P i : pool_wf P -> exists P', close_pipe_read P i = Done P' /\
  released P P' (fun j => one_if (i =? j)%nat) (fun _ => 0%nat).
Proof.
  intros Hwf. destruct (close_pipe_read_refines P i Hwf) as (P' & -> & Hwf' & Hv). exists P'. split; [done|].
  split; [done|]. intros j. rewrite Hv, chan_at_update. case_decide as E.
  - subst. rewrite Nat.eqb_refl. destruct (chan_at (pool_view P) j); [|done]. cbn. by rewrite Nat.sub_0_r.
  - rewrite (proj2 (Nat.eqb_neq i j) E). symmetry. by apply chan_release_0.
Qed.

Lemma close_write_released P i : pool_wf P -> exists P', close_pipe_write P i = Done P' /\
  released P P' (fun _ => 0%nat) (fun j => one_if (i =? j)%nat).
Proof.
  intros Hwf. destruct (close_pipe_write_refines P i Hwf) as (P' & -> & Hwf' & Hv). exists P'. split; [done|].
  split; [done|]. intros j. rewrite Hv, chan_at_update. case_decide as E.
  - subst. rewrite Nat.eqb_refl. destruct (chan_at (pool_view P) j); [|done]. cbn. by rewrite Nat.sub_0_r.
  - rewrite (proj2 (Nat.eqb_neq i j) E). symmetry. by apply chan_release_0.
Qed.

Lemma release_entry_ok e P : pool_wf P -> exists P', release_entry e P = Done P' /\
  released P P' (entry_refs_r e) (entry_refs_w e).
Proof.
  intros Hwf. destruct e as [ | | | | | |i|i|i j| | | ]; cbn [release_entry entry_refs_r entry_refs_w];
    try (exists P; split; [done | by apply released_refl]).
  - by apply close_read_released.
  - by apply close_write_released.
  - destruct (close_read_released P i Hwf) as (P1 & -> & H1); mred.
    destruct (close_write_released P1 j) as (P2 & -> & H2); [apply H1|]. exists P2. split; [done|].
    pose proof (released_trans _ _ _ _ _ _ _ H1 H2) as [Hwf2 H]. split; [done|]. intros k.
    rewrite H. cbn. by rewrite Nat.add_0_r.
Qed.

(** The table is emptied from the front. *)
Lemma close_all_loop (n k : nat) : forall t P, pool_wf P -> length t = (k + n)%nat ->
  exists P', foldM close_all_step (t, P) (seq k n) = Done (take k t ++ replicate n FdEmpty, P') /\
    released P P' (table_refs_r (drop k t)) (table_refs_w (drop k t)).
Proof.
  revert k. induction n as [|n IH]; intros k t P Hwf Hl; cbn [seq foldM].
  - exists P. rewrite firstn_all2, app_nil_r by lia. split; [done|].
    rewrite skipn_all2 by lia. by apply released_refl.
  - destruct (get_lt t k ltac:(lia)) as (e & He & Hlk). cbn [close_all_step]. rewrite He; mred.
    destruct (release_entry_ok e P Hwf) as (P1 & -> & H1); mred. rewrite set_lt by lia; mred.
    destruct (IH (S k) (<[k := FdEmpty]> t) P1) as (P2 & -> & H2); [apply H1 | rewrite length_insert; lia |].
    exists P2. split.
    + f_equal. f_equal. rewrite (take_S_r _ _ FdEmpty) by (rewrite list_lookup_insert_eq by lia; done).
      rewrite take_insert_ge by lia. by rewrite <- app_assoc.
    + rewrite drop_insert_lt in H2 by lia. rewrite (drop_S t e k) by done.
      pose proof (released_trans _ _ _ _ _ _ _ H1 H2) as H. exact H.
Qed.

Lemma exit_run t code P : pool_wf P -> length (fd_table t) = MAX_FDS ->
  exists P', exit t code P = Done (with_state Zombie (with_exit_code code (with_fds (replicate MAX_FDS FdEmpty) t)), P') /\
    released P P' (table_refs_r (fd_table t)) (table_refs_w (fd_table t)).
Proof.
  intros Hwf Hl. destruct (close_all_loop MAX_FDS 0 (fd_table t) P Hwf Hl) as (P' & Hc & H).
  exists P'. unfold exit, fd_close_all. rewrite Hc; mred. split; [done | exact H].
Qed.

(** Exiting a task ([Task::exit], [FdTable::close_all]) empties its
    descriptor table and gives back exactly the references the table holds: the
    counts of every channel drop by the number of its read and write ends in the
    table, a channel is freed precisely when that leaves no open end, all other
    channels are untouched, and nothing panics. *)
Theorem exit_releases_pipe_ends (t : Task) (code : Z) (P : pool) :
  pool_wf P -> length (fd_table t) = MAX_FDS ->
  exists t' P', exit t code P = Done (t', P') /\
    state t' = Zombie /\ exit_code t' = code /\ pid t' = pid t /\
    fd_table t' = replicate MAX_FDS FdEmpty /\ pool_wf P' /\
    forall i, chan_at (pool_view P') i =
      chan_release (table_refs_r (fd_table t) i) (table_refs_w (fd_table t) i) (chan_at (pool_view P) i).
Proof.
  intros Hwf Hl. destruct (exit_run t code P Hwf Hl) as (P' & -> & Hwf' & H). eexists _, P'. by repeat (split; [done|]).
Qed.

(** ** The table as a finite map *)

Definition fd_map (t : FdTable) (fd : nat) : option FdEntry :=
  match t !! fd with Some FdEmpty | None => None | o => o end.

Lemma fd_get_map t fd : length t = MAX_FDS -> fd_get t fd = Done (fd_map t fd).
Proof.
  intros Hl. unfold fd_get, fd_map. destruct (Nat.leb_spec MAX_FDS fd).
  - by rewrite lookup_ge_None_2 by lia.
  - destruct (get_lt t fd ltac:(lia)) as (e & -> & ->). mred. by destruct e.
Qed.

Lemma fd_map_set t fd e fd' : (fd < length t)%nat ->
  fd_map (<[fd := e]> t) fd' = if decide (fd = fd') then (if decide (e = FdEmpty) then None else Some e) else fd_map t fd'.
Proof.
  intros Hlt. unfold fd_map. case_decide as E.
  - subst. rewrite list_lookup_insert_eq by done. case_decide; subst; [done|]. by destruct e.
  - by rewrite list_lookup_insert_ne.
Qed.

Lemma fd_alloc_loop_spec t e (n : nat) : forall k, length t = (k + n)%nat ->
  (exists fd, (k <= fd)%nat /\ (fd < k + n)%nat /\ fd_map t fd = None /\
     (forall j, (k <= j < fd)%nat -> fd_map t j <> None) /\
     fd_alloc_loop t e (seq k n) = Done (Some fd, <[fd := e]> t)) \/
  ((forall j, (k <= j < k + n)%nat -> fd_map t j <> None) /\ fd_alloc_loop t e (seq k n) = Done (None, t)).
Proof.
  induction n as [|n IH]; intros k Hl; cbn [seq fd_alloc_loop].
  - right. split; [lia | done].
  - destruct (get_lt t k ltac:(lia)) as (x & Hx & Hlk). rewrite Hx; mred.
    assert (fd_map t k = None <-> x = FdEmpty) as Hm by (unfold fd_map; rewrite Hlk; by destruct x).
    destruct (decide (x = FdEmpty)) as [->|Hne].
    + left. exists k. rewrite set_lt by lia. split; [lia|]. split; [lia|]. split; [by apply Hm|]. split; [lia | done].
    + assert (match x with FdEmpty => t ← set t k e; Done (Some k, t) | _ => fd_alloc_loop t e (seq (S k) n) end
        = fd_alloc_loop t e (seq (S k) n)) as Hred by by destruct x.
      destruct (IH (S k) ltac:(lia)) as [(fd & ? & ? & ? & Hall & Heq)|[Hall Heq]].
      * left. exists fd. split; [lia|]. split; [lia|]. split; [done|]. split; [|by rewrite <- Heq].
        intros j Hj. destruct (decide (j = k)) as [->|]; [by rewrite Hm | apply Hall; lia].
      * right. split; [|by rewrite <- Heq].
        intros j Hj. destruct (decide (j = k)) as [->|]; [by rewrite Hm | apply Hall; lia].
Qed.

(** [FdTable::alloc] installs the entry at the lowest free descriptor from 3
    on and changes no other, failing only when all of them are taken;
    [FdTable::close] then returns that entry and restores the table. *)
Theorem fd_alloc_close (t : FdTable) (e : FdEntry) : length t = MAX_FDS -> e <> FdEmpty ->
  match fd_alloc t e with
  | Done (Some fd, t') =>
      (3 <= fd < MAX_FDS)%nat /\ fd_map t fd = None /\ (forall j, (3 <= j < fd)%nat -> fd_map t j <> None) /\
      (forall j, fd_map t' j = if decide (fd = j) then Some e else fd_map t j) /\
      fd_close t' fd = Done (Some e, t)
  | Done (None, t') => t' = t /\ forall j, (3 <= j < MAX_FDS)%nat -> fd_map t j <> None
  | Panic => False
  end.
Proof.
  intros Hl He. unfold fd_alloc.
  destruct (fd_alloc_loop_spec t e (MAX_FDS - 3) 3) as [(fd & ? & ? & Hfree & Hall & ->)|[Hall ->]]; [done | |].
  - unfold MAX_FDS in *. split; [lia|]. split; [done|]. split; [done|]. split.
    + intros j. rewrite fd_map_set by lia. by rewrite (decide_False (P := e = FdEmpty)).
    + unfold fd_close. destruct (Nat.leb_spec MAX_FDS fd); [unfold MAX_FDS in *; lia|].
      rewrite (get_Some _ _ e) by (rewrite list_lookup_insert_eq by lia; done). mred.
      rewrite set_lt by (rewrite length_insert; lia). mred. rewrite list_insert_insert_eq.
      assert (t !! fd = Some FdEmpty) as Ht.
      { unfold fd_map in Hfree. destruct (lookup_lt_is_Some_2 t fd) as [x Hx]; [lia|]. rewrite Hx in Hfree |- *. by destruct x. }
      rewrite (list_insert_id t fd FdEmpty Ht). by destruct e.
  - split; [done|]. intros j Hj. apply Hall. unfold MAX_FDS in *. lia.
Qed.

(** ** The set of pending signals *)

Definition pending (t : Task) (s : Z) : bool := Z.testbit (pending_signals t) (s - 1).
Definition valid_sig (s : Z) : Prop := 1 <= s <= 31.
Definition sigs_wf (t : Task) : Prop := 0 <= pending_signals t < 2 ^ 32.

Lemma sig_bit_eq sig : valid_sig sig -> sig_bit sig = Z.shiftl 1 (sig - 1).
Proof.
  unfold valid_sig, sig_bit. intros H. replace ((sig =? 0) || (31 <? sig)) with false.
  - apply wrap_small. apply shiftl_1_range. lia.
  - symmetry. apply orb_false_iff. split; [apply Z.eqb_neq | apply Z.ltb_ge]; lia.
Qed.

Lemma sig_bit_invalid sig : 0 <= sig < 256 -> ~ valid_sig sig -> sig_bit sig = 0.
Proof.
  unfold valid_sig, sig_bit. intros H Hv. replace ((sig =? 0) || (31 <? sig)) with true; [done|].
  symmetry. apply orb_true_iff. rewrite Z.eqb_eq, Z.ltb_lt. lia.
Qed.

Lemma testbit_not32 b n : 0 <= b < 32 -> 0 <= n < 32 -> Z.testbit (wrap 32 (Z.lnot (Z.shiftl 1 b))) n = negb (n =? b).
Proof.
  intros Hb Hn. unfold wrap. rewrite Z.mod_pow2_bits_low, Z.lnot_spec, testbit_shiftl_1 by lia. done.
Qed.

(** Pending signals are a set: raising signal 1..31 adds it and nothing
    else, taking it answers whether it was there and removes it and nothing else
    (so a signal raised is taken exactly once), numbers 0 and 32..255 are
    rejected without effect, and no other field of the task changes. *)
Theorem signal_set_semantics (t : Task) (sig : Z) : sigs_wf t -> 0 <= sig < 256 ->
  let '(ok, tr) := raise_signal t sig in
  let '(got, tk) := take_signal t sig in
  sigs_wf tr /\ sigs_wf tk /\
  tr = with_pending (pending_signals tr) t /\ tk = with_pending (pending_signals tk) t /\
  ok = bool_decide (valid_sig sig) /\ got = bool_decide (valid_sig sig) && pending t sig /\
  (forall s, 1 <= s <= 32 ->
     pending tr s = (bool_decide (valid_sig sig) && (s =? sig)) || pending t s /\
     pending tk s = pending t s && negb (bool_decide (valid_sig sig) && (s =? sig))).
Proof.
  intros Hwf Hsig. unfold raise_signal, take_signal. pose proof Hwf as Hb.
  destruct (decide (valid_sig sig)) as [Hv|Hv].
  - rewrite (bool_decide_true _ Hv). rewrite sig_bit_eq by done. unfold valid_sig in Hv.
    destruct (Z.eqb_spec (Z.shiftl 1 (sig - 1)) 0) as [H0|_].
    { pose proof (testbit_shiftl_1 (sig - 1) (sig - 1)) as Ht. rewrite H0, Z.bits_0, Z.eqb_refl in Ht. lia. }
    rewrite land_bit_zero by lia. fold (pending t sig).
    assert (forall s, 1 <= s <= 32 -> Z.testbit (Z.shiftl 1 (sig - 1)) (s - 1) = (s =? sig)) as Hbit.
    { intros s Hs. rewrite testbit_shiftl_1 by lia. destruct (Z.eqb_spec (s - 1) (sig - 1)), (Z.eqb_spec s sig); done || lia. }
    assert (sigs_wf (with_pending (Z.lor (pending_signals t) (Z.shiftl 1 (sig - 1))) t)) as Hwr.
    { apply lor_range; [lia | exact Hb | apply shiftl_1_range; lia]. }
    destruct (pending t sig) eqn:Hp; cbn [negb andb].
    + split; [done|]. split; [apply land_range_l; [lia | exact Hb]|].
      repeat (split; [done|]). intros s Hs. unfold pending. cbn [pending_signals with_pending].
      rewrite Z.lor_spec, Z.land_spec, Hbit by done. split; [by rewrite orb_comm|].
      rewrite testbit_not32 by lia. do 2 f_equal.
      destruct (Z.eqb_spec (s - 1) (sig - 1)), (Z.eqb_spec s sig); done || lia.
    + split; [done|]. split; [done|]. split; [done|]. split; [by destruct t|]. split; [done|]. split; [done|].
      intros s Hs. unfold pending. cbn [pending_signals with_pending]. rewrite Z.lor_spec, Hbit by done.
      split; [by rewrite orb_comm|]. destruct (Z.eqb_spec s sig) as [->|]; [|by rewrite andb_true_r].
      unfold pending in Hp. by rewrite Hp.
  - rewrite (bool_decide_false _ Hv). rewrite sig_bit_invalid by done. cbn [Z.eqb andb negb].
    rewrite Z.land_0_r. cbn [Z.eqb]. split; [done|]. split; [done|]. split; [by destruct t|]. split; [by destruct t|].
    split; [done|]. split; [done|]. intros s Hs. by rewrite andb_true_r.
Qed.

(** *** Witnesses *)

(** A task holding both ends of pipe 0, and a pool where it was forked once. *)
Definition demo_task : Task := with_fds ([Stdin; Stdout; Stderr; PipeRead 0; PipeWrite 0] ++ replicate 11 FdEmpty) Task_idle.
Definition demo_pool : pool :=
  let P := snd (alloc_pipe POOL_init) in
  match P ← dup_pipe_read P 0; dup_pipe_write P 0 with Done P => P | Panic => P end.

Lemma demo_pool_wf : pool_wf demo_pool.
Proof.
  destruct (alloc_pipe_refines POOL_init (proj1 POOL_init_wf)) as (r & P1 & E1 & H1 & _).
  destruct (dup_pipe_read_refines P1 0%nat H1) as (P2 & E2 & H2 & _).
  destruct (dup_pipe_write_refines P2 0%nat H2) as (P3 & E3 & H3 & _).
  unfold demo_pool. rewrite E1. cbn [snd]. rewrite E2; mred. by rewrite E3.
Qed.

Lemma exit_releases_pipe_ends_witness :
  chan_at (pool_view demo_pool) 0 = Some (mk_chan [] 2 2) /\
  exists t' P', exit demo_task 7 demo_pool = Done (t', P') /\
    state t' = Zombie /\ exit_code t' = 7 /\ pid t' = pid demo_task /\
    fd_table t' = replicate MAX_FDS FdEmpty /\ pool_wf P' /\
    forall i, chan_at (pool_view P') i =
      chan_release (table_refs_r (fd_table demo_task) i) (table_refs_w (fd_table demo_task) i)
        (chan_at (pool_view demo_pool) i).
Proof. split; [by vm_compute|]. apply exit_releases_pipe_ends; [apply demo_pool_wf | done]. Defined.

Lemma fd_alloc_close_witness :
  fd_alloc (fd_table demo_task) DevNull = Done (Some 5%nat, <[5%nat := DevNull]> (fd_table demo_task)) /\
  match fd_alloc (fd_table demo_task) DevNull with
  | Done (Some fd, t') =>
      (3 <= fd < MAX_FDS)%nat /\ fd_map (fd_table demo_task) fd = None /\
      (forall j, (3 <= j < fd)%nat -> fd_map (fd_table demo_task) j <> None) /\
      (forall j, fd_map t' j = if decide (fd = j) then Some DevNull else fd_map (fd_table demo_task) j) /\
      fd_close t' fd = Done (Some DevNull, fd_table demo_task)
  | Done (None, t') => t' = fd_table demo_task /\ forall j, (3 <= j < MAX_FDS)%nat -> fd_map (fd_table demo_task) j <> None
  | Panic => False
  end.
Proof. split; [by vm_compute|]. apply fd_alloc_close; [done | done]. Defined.

Lemma signal_set_semantics_witness :
  let '(ok, tr) := raise_signal demo_task SIGTERM in
  let '(got, tk) := take_signal demo_task SIGTERM in
  sigs_wf tr /\ sigs_wf tk /\
  tr = with_pending (pending_signals tr) demo_task /\ tk = with_pending (pending_signals tk) demo_task /\
  ok = bool_decide (valid_sig SIGTERM) /\ got = bool_decide (valid_sig SIGTERM) && pending demo_task SIGTERM /\
  (forall s, 1 <= s <= 32 ->
     pending tr s = (bool_decide (valid_sig SIGTERM) && (s =? SIGTERM)) || pending demo_task s /\
     pending tk s = pending demo_task s && negb (bool_decide (valid_sig SIGTERM) && (s =? SIGTERM))).
Proof. apply (signal_set_semantics demo_task SIGTERM); [done | done]. Defined.
