(* ===== verification/Userspace.v ===== *)
(** The programs embedded in the kernel image (src/kernel/src/userspace/mod.rs):
    two position-independent ELF files installed as [/bin/hello] and two raw
    machine-code programs, byte for byte. *)
From Stdlib Require Import ZArith.
From stdpp Require Import base list numbers.
From S2P Require Import Prelude.
Local Open Scope Z_scope.

Definition HELLO_ELF_RV64 : bytes := [
  127; 69; 76; 70; 2; 1; 1; 0; 0; 0; 0; 0; 0; 0; 0; 0;
  3; 0; 243; 0; 1; 0; 0; 0; 0; 0; 0; 0; 0; 0; 0; 0;
  64; 0; 0; 0; 0; 0; 0; 0; 0; 0; 0; 0; 0; 0; 0; 0;
  0; 0; 0; 0; 64; 0; 56; 0; 1; 0; 64; 0; 0; 0; 0; 0;
  1; 0; 0; 0; 5; 0; 0; 0; 120; 0; 0; 0; 0; 0; 0; 0;
  0; 0; 0; 0; 0; 0; 0; 0; 0; 0; 0; 0; 0; 0; 0; 0;
  58; 0; 0; 0; 0; 0; 0; 0; 58; 0; 0; 0; 0; 0; 0; 0;
  0; 16; 0; 0; 0; 0; 0; 0; 147; 8; 16; 0; 19; 5; 16; 0;
  151; 5; 0; 0; 147; 133; 197; 1; 19; 6; 96; 1; 115; 0; 0; 0;
  147; 8; 192; 3; 19; 5; 0; 0; 115; 0; 0; 0; 91; 101; 108; 102;
  93; 32; 72; 101; 108; 108; 111; 32; 102; 114; 111; 109; 32; 69; 76; 70;
  33; 10
].

Definition HELLO_ELF_X86 : bytes := [
  127; 69; 76; 70; 2; 1; 1; 0; 0; 0; 0; 0; 0; 0; 0; 0;
  3; 0; 62; 0; 1; 0; 0; 0; 0; 0; 0; 0; 0; 0; 0; 0;
  64; 0; 0; 0; 0; 0; 0; 0; 0; 0; 0; 0; 0; 0; 0; 0;
  0; 0; 0; 0; 64; 0; 56; 0; 1; 0; 64; 0; 0; 0; 0; 0;
  1; 0; 0; 0; 5; 0; 0; 0; 120; 0; 0; 0; 0; 0; 0; 0;
  0; 0; 0; 0; 0; 0; 0; 0; 0; 0; 0; 0; 0; 0; 0; 0;
  68; 0; 0; 0; 0; 0; 0; 0; 68; 0; 0; 0; 0; 0; 0; 0;
  0; 16; 0; 0; 0; 0; 0; 0; 72; 199; 192; 1; 0; 0; 0; 72;
  199; 199; 1; 0; 0; 0; 72; 141; 53; 25; 0; 0; 0; 72; 199; 194;
  22; 0; 0; 0; 205; 128; 72; 199; 192; 60; 0; 0; 0; 72; 199; 199;
  0; 0; 0; 0; 205; 128; 91; 101; 108; 102; 93; 32; 72; 101; 108; 108;
  111; 32; 102; 114; 111; 109; 32; 69; 76; 70; 33; 10
].

Definition HELLO_USER_RV64 : bytes := [
  147; 8; 16; 0; 19; 5; 16; 0; 151; 5; 0; 0; 147; 133; 5; 2;
  19; 6; 160; 1; 115; 0; 0; 0; 147; 8; 192; 3; 19; 5; 0; 0;
  115; 0; 0; 0; 111; 0; 0; 0; 91; 117; 115; 101; 114; 93; 32; 72;
  101; 108; 108; 111; 32; 102; 114; 111; 109; 32; 85; 45; 109; 111; 100; 101;
  33; 10
].

Definition HELLO_USER : bytes := [
  72; 199; 192; 1; 0; 0; 0; 72; 199; 199; 1; 0; 0; 0; 72; 141;
  53; 27; 0; 0; 0; 72; 199; 194; 26; 0; 0; 0; 205; 128; 72; 199;
  192; 60; 0; 0; 0; 72; 199; 199; 0; 0; 0; 0; 205; 128; 235; 254;
  91; 117; 115; 101; 114; 93; 32; 72; 101; 108; 108; 111; 32; 102; 114; 111;
  109; 32; 114; 105; 110; 103; 32; 51; 33; 10
].
