(* ===== verification/Net.v ===== *)
(** The network codecs (src/kernel/src/net/): Ethernet II, ARP, IPv4 with its
    header checksum, ICMP echo, UDP and the TCP header parser.

    A parser takes a buffer and returns the fields and the payload; a builder
    writes into a caller's buffer [out] and returns the number of bytes. *)
From Stdlib Require Import ZArith Lia.
From stdpp Require Import base option list numbers.
From S2P Require Import Prelude.
Local Open Scope Z_scope.

(** [u16::from_be_bytes([buf[i], buf[i + 1]])] *)
Definition get_be16 (buf : bytes) (i : nat) : outcome Z :=
  a ← get buf i; b ← get buf (i + 1); Done (from_be16 a b).
Definition get_be32 (buf : bytes) (i : nat) : outcome Z :=
  a ← get buf i; b ← get buf (i + 1); c ← get buf (i + 2); d ← get buf (i + 3); Done (from_be32 a b c d).

(** ** Ethernet (ethernet.rs) *)

Definition ETHERTYPE_ARP : Z := 0x0806.
Definition ETHERTYPE_IPV4 : Z := 0x0800.
(** [MacAddr]: six bytes. *)
Abbreviation MacAddr := bytes.
Definition MAC_BROADCAST : MacAddr := replicate 6 0xFF.
Definition MAC_ZERO : MacAddr := replicate 6 0x00.

Definition ethernet_parse (buf : bytes) : outcome (option (MacAddr * MacAddr * Z * bytes)) :=
  if (length buf <? 14)%nat then Done None
  else
    dst ← slice buf 0 6;
    src ← slice buf 6 12;
    etype ← get_be16 buf 12;
    payload ← slice buf 14 (length buf);
    Done (Some (dst, src, etype, payload)).

Definition ethernet_build (dst src : MacAddr) (etype : Z) (payload out : bytes) : outcome (nat * bytes) :=
  if (length out <? 14 + length payload)%nat then Done (0%nat, out)
  else
    out ← blit out 0 6 dst;
    out ← blit out 6 12 src;
    out ← blit out 12 14 (to_be16 etype);
    out ← blit out 14 (14 + length payload) payload;
    Done (14 + length payload, out)%nat.

(** ** ARP (arp.rs) *)

Abbreviation Ipv4Addr := bytes.
Definition HTYPE_ETHERNET : Z := 1.
Definition PTYPE_IPV4 : Z := 0x0800.
Definition HLEN : Z := 6.
Definition PLEN : Z := 4.
Definition OP_REQUEST : Z := 1.
Definition OP_REPLY : Z := 2.

Record ArpPacket := mk_arp {
  arp_op : Z;
  arp_sender_mac : MacAddr;
  arp_sender_ip : Ipv4Addr;
  arp_target_mac : MacAddr;
  arp_target_ip : Ipv4Addr
}.

Definition arp_parse (buf : bytes) : outcome (option ArpPacket) :=
  if (length buf <? 28)%nat then Done None
  else
    op ← get_be16 buf 6;
    sm ← slice buf 8 14;
    si ← slice buf 14 18;
    tm ← slice buf 18 24;
    ti ← slice buf 24 28;
    Done (Some (mk_arp op sm si tm ti)).

Definition arp_build (pkt : ArpPacket) (out : bytes) : outcome (nat * bytes) :=
  if (length out <? 28)%nat then Done (0%nat, out)
  else
    out ← blit out 0 2 (to_be16 HTYPE_ETHERNET);
    out ← blit out 2 4 (to_be16 PTYPE_IPV4);
    out ← set out 4 HLEN;
    out ← set out 5 PLEN;
    out ← blit out 6 8 (to_be16 (arp_op pkt));
    out ← blit out 8 14 (arp_sender_mac pkt);
    out ← blit out 14 18 (arp_sender_ip pkt);
    out ← blit out 18 24 (arp_target_mac pkt);
    out ← blit out 24 28 (arp_target_ip pkt);
    Done (28%nat, out).

(** ** IPv4 (ipv4.rs) *)

Definition PROTO_ICMP : Z := 1.
Definition PROTO_UDP : Z := 17.
Definition PROTO_TCP : Z := 6.

Record Ipv4Header := mk_ipv4 {
  ip_src : Ipv4Addr;
  ip_dst : Ipv4Addr;
  ip_protocol : Z;
  ip_ttl : Z;
  ip_total_len : Z
}.

Definition ipv4_parse (buf : bytes) : outcome (option (Ipv4Header * bytes)) :=
  if (length buf <? 20)%nat then Done None
  else
    b0 ← get buf 0;
    let ihl := (Z.to_nat (Z.land b0 0x0F) * 4)%nat in
    if (length buf <? ihl)%nat then Done None
    else
      src ← slice buf 12 16;
      dst ← slice buf 16 20;
      proto ← get buf 9;
      ttl ← get buf 8;
      tl ← get_be16 buf 2;
      payload ← slice buf ihl (length buf);
      Done (Some (mk_ipv4 src dst proto ttl tl, payload)).

(** The summing loop of [checksum]; [sum] is a u32. *)
Fixpoint checksum_loop (fuel : nat) (dat : bytes) (i : nat) (sum : Z) : outcome (nat * Z) :=
  match fuel with
  | O => Panic
  | S fuel =>
      if (i + 1 <? length dat)%nat then
        w ← get_be16 dat i;
        checksum_loop fuel dat (i + 2) (wrap 32 (sum + w))
      else Done (i, sum)
  end.
(** [while sum >> 16 != 0] *)
Fixpoint fold_carry (fuel : nat) (sum : Z) : outcome Z :=
  match fuel with
  | O => Panic
  | S fuel =>
      if Z.shiftr sum 16 =? 0 then Done sum
      else fold_carry fuel (wrap 32 (Z.land sum 0xFFFF + Z.shiftr sum 16))
  end.
Definition checksum (dat : bytes) : outcome Z :=
  '(i, sum) ← checksum_loop (S (length dat)) dat 0 0;
  sum ← (if (i <? length dat)%nat then b ← get dat i; Done (wrap 32 (sum + Z.shiftl b 8)) else Done sum);
  sum ← fold_carry 4 sum;
  Done (65535 - wrap 16 sum).

Definition ipv4_build (hdr : Ipv4Header) (payload out : bytes) : outcome (nat * bytes) :=
  let total := (20 + length payload)%nat in
  if (length out <? total)%nat then Done (0%nat, out)
  else
    out ← set out 0 0x45;
    out ← set out 1 0;
    out ← blit out 2 4 (to_be16 (wrap 16 (Z.of_nat total)));
    out ← blit out 4 6 (to_be16 0);
    out ← blit out 6 8 (to_be16 0);
    out ← set out 8 (ip_ttl hdr);
    out ← set out 9 (ip_protocol hdr);
    out ← blit out 10 12 (to_be16 0);
    out ← blit out 12 16 (ip_src hdr);
    out ← blit out 16 20 (ip_dst hdr);
    out ← blit out 20 (20 + length payload) payload;
    h ← slice out 0 20;
    csum ← checksum h;
    out ← blit out 10 12 (to_be16 csum);
    Done (total, out).

(** ** ICMP (icmp.rs) *)

Definition TYPE_ECHO_REQUEST : Z := 8.
Definition TYPE_ECHO_REPLY : Z := 0.

Definition parse_echo (buf : bytes) : outcome (option (Z * Z * bytes)) :=
  if (length buf <? 8)%nat then Done None
  else
    id ← get_be16 buf 4;
    seq ← get_be16 buf 6;
    payload ← slice buf 8 (length buf);
    Done (Some (id, seq, payload)).

Definition build_reply (id seq : Z) (dat out : bytes) : outcome (nat * bytes) :=
  let len := (8 + length dat)%nat in
  if (length out <? len)%nat then Done (0%nat, out)
  else
    out ← set out 0 TYPE_ECHO_REPLY;
    out ← set out 1 0;
    out ← blit out 2 4 (to_be16 0);
    out ← blit out 4 6 (to_be16 id);
    out ← blit out 6 8 (to_be16 seq);
    out ← blit out 8 len dat;
    m ← slice out 0 len;
    csum ← checksum m;
    out ← blit out 2 4 (to_be16 csum);
    Done (len, out).

(** ** UDP (udp.rs) *)

Definition udp_parse (buf : bytes) : outcome (option (Z * Z * bytes)) :=
  if (length buf <? 8)%nat then Done None
  else
    src_port ← get_be16 buf 0;
    dst_port ← get_be16 buf 2;
    payload ← slice buf 8 (length buf);
    Done (Some (src_port, dst_port, payload)).

Definition udp_build (src dst : Z) (payload out : bytes) : outcome (nat * bytes) :=
  let len := (8 + length payload)%nat in
  if (length out <? len)%nat then Done (0%nat, out)
  else
    out ← blit out 0 2 (to_be16 src);
    out ← blit out 2 4 (to_be16 dst);
    out ← blit out 4 6 (to_be16 (wrap 16 (Z.of_nat len)));
    out ← blit out 6 8 (to_be16 0);
    out ← blit out 8 len payload;
    Done (len, out).

(** ** TCP (tcp.rs) *)

Inductive TcpState :=
| Closed | Listen | SynSent | SynReceived | Established | FinWait1 | FinWait2 | CloseWait | Closing | LastAck | TimeWait.

Definition FLAG_FIN : Z := 0x01.
Definition FLAG_SYN : Z := 0x02.
Definition FLAG_RST : Z := 0x04.
Definition FLAG_PSH : Z := 0x08.
Definition FLAG_ACK : Z := 0x10.

Record TcpSegment := mk_tcp {
  tcp_src : Z; tcp_dst : Z; tcp_seq : Z; tcp_ack : Z; tcp_flags : Z; tcp_payload : bytes
}.

Definition tcp_parse (buf : bytes) : outcome (option TcpSegment) :=
  if (length buf <? 20)%nat then Done None
  else
    src ← get_be16 buf 0;
    dst ← get_be16 buf 2;
    seq ← get_be32 buf 4;
    ack ← get_be32 buf 8;
    b12 ← get buf 12;
    let off := (Z.to_nat (Z.shiftr b12 4) * 4)%nat in
    flags ← get buf 13;
    if (length buf <? off)%nat then Done None
    else
      payload ← slice buf off (length buf);
      Done (Some (mk_tcp src dst seq ack flags payload)).

(** ** Writing a buffer front to back *)

Section buffers.
Implicit Types (pre old rest s : bytes).

(** After the fields [pre] are written, [rest] of the buffer is old. *)
Lemma blit_next pre rest a b s : length pre = a -> b = (a + length s)%nat -> (length s <= length rest)%nat ->
  blit (pre ++ rest) a b s = Done ((pre ++ s) ++ drop (length s) rest).
Proof.
  intros Ha Hb Hs. rewrite blit_ok by (rewrite ?length_app; lia). f_equal.
  rewrite take_app_length' by done. rewrite drop_app_ge by lia. rewrite <- app_assoc.
  by replace (b - length pre)%nat with (length s) by lia.
Qed.

Lemma set_next pre rest a x : length pre = a -> (1 <= length rest)%nat ->
  set (pre ++ rest) a x = Done ((pre ++ [x]) ++ drop 1 rest).
Proof.
  intros Ha Hr. rewrite set_lt by (rewrite length_app; lia). f_equal. rewrite <- Ha.
  replace (length pre) with (length pre + 0)%nat by lia. rewrite insert_app_r.
  destruct rest as [|y rest]; [cbn in Hr; lia|]. cbn. rewrite drop_0. by rewrite <- app_assoc.
Qed.

(** Overwriting a field in the middle. *)
Lemma blit_mid pre old rest a b s : length pre = a -> b = (a + length s)%nat -> length old = length s ->
  blit (pre ++ old ++ rest) a b s = Done (pre ++ s ++ rest).
Proof.
  intros Ha Hb Hs. rewrite blit_ok by (rewrite ?length_app; lia). f_equal.
  rewrite take_app_length' by done. do 2 f_equal. rewrite drop_app_ge by lia. rewrite drop_app_length'; [done | lia].
Qed.

Lemma slice_app pre s rest a b : length pre = a -> b = (a + length s)%nat -> slice (pre ++ s ++ rest) a b = Done s.
Proof.
  intros Ha Hb. rewrite slice_ok by (rewrite !length_app; lia). f_equal.
  rewrite drop_app_length' by done. apply take_app_length'. lia.
Qed.

Lemma slice_head s rest b : b = length s -> slice (s ++ rest) 0 b = Done s.
Proof. exact (slice_app [] s rest 0 b eq_refl). Qed.

Lemma slice_tail pre rest a b : length pre = a -> b = (a + length rest)%nat -> slice (pre ++ rest) a b = Done rest.
Proof.
  intros Ha Hb. pose proof (slice_app pre rest [] a b Ha Hb) as H. by rewrite app_nil_r in H.
Qed.

Lemma lookup_mid (pre l : bytes) k i : i = (length pre + k)%nat -> (pre ++ l) !! i = l !! k.
Proof. intros ->. rewrite lookup_app_r by lia. f_equal. lia. Qed.

Lemma get_be16_app pre v rest i : length pre = i -> 0 <= v < 65536 -> get_be16 (pre ++ to_be16 v ++ rest) i = Done v.
Proof.
  intros Hi Hv. unfold get_be16.
  rewrite (get_Some _ i (Z.shiftr v 8 mod 256)) by (by rewrite (lookup_mid _ _ 0) by lia). mred.
  rewrite (get_Some _ (i + 1) (v mod 256)) by (by rewrite (lookup_mid _ _ 1) by lia). mred.
  f_equal. by apply from_be16_to_be16.
Qed.

Lemma get_be16_head v rest : 0 <= v < 65536 -> get_be16 (to_be16 v ++ rest) 0 = Done v.
Proof. exact (get_be16_app [] v rest 0 eq_refl). Qed.

Lemma get_app pre x rest i : length pre = i -> get (pre ++ x :: rest) i = Done x.
Proof. intros Hi. apply get_Some. by rewrite (lookup_mid _ _ 0) by lia. Qed.
End buffers.

(** Run a builder: each write extends the written prefix. *)
Ltac lens := do 3 (cbn [length app to_be16] in *; rewrite ?length_app, ?length_drop); cbn [length] in *; lia.
Ltac build_step :=
  lazymatch goal with
  | |- context [blit (?pre ++ ?rest) ?a ?b ?s] => rewrite (blit_next pre rest a b s) by lens
  | |- context [set (?pre ++ ?rest) ?a ?x] => rewrite (set_next pre rest a x) by lens
  end; mred.

(** ** Round trips *)

(** A frame that [ethernet::build] writes into a large enough buffer is
    parsed back into the same addresses, type and payload; a buffer that is too
    small is left alone. *)
Theorem ethernet_roundtrip (dst src : MacAddr) (etype : Z) (payload out : bytes) :
  length dst = 6%nat -> length src = 6%nat -> 0 <= etype < 65536 ->
  exists n out', ethernet_build dst src etype payload out = Done (n, out') /\ length out' = length out /\
    if (length out <? 14 + length payload)%nat then n = 0%nat /\ out' = out
    else n = (14 + length payload)%nat /\ ethernet_parse (take n out') = Done (Some (dst, src, etype, payload)).
Proof.
  intros Hd Hs He. unfold ethernet_build. destruct (Nat.ltb_spec (length out) (14 + length payload)) as [Hl|Hl].
  - exists 0%nat, out. done.
  - change out with ([] ++ out) at 1. do 4 build_step.
    eexists _, _. split; [done|]. split; [lens|]. split; [done|].
    rewrite take_app_length' by lens. cbn [app]. rewrite <- !app_assoc. unfold ethernet_parse.
    destruct (Nat.ltb_spec (length (dst ++ src ++ to_be16 etype ++ payload)) 14) as [Hx|Hx]; [rewrite !length_app in Hx; lens|].
    rewrite slice_head by done. mred. rewrite (slice_app dst src _ 6 12) by lens. mred.
    rewrite (app_assoc dst src). rewrite (get_be16_app _ etype _ 12) by (try lens; lia). mred.
    rewrite (app_assoc (dst ++ src)). rewrite slice_tail by lens. done.
Qed.

(** Likewise for ARP packets: [arp::parse] returns the packet
    [arp::build] wrote. *)
Theorem arp_roundtrip (pkt : ArpPacket) (out : bytes) :
  length (arp_sender_mac pkt) = 6%nat -> length (arp_target_mac pkt) = 6%nat ->
  length (arp_sender_ip pkt) = 4%nat -> length (arp_target_ip pkt) = 4%nat -> 0 <= arp_op pkt < 65536 ->
  exists n out', arp_build pkt out = Done (n, out') /\ length out' = length out /\
    if (length out <? 28)%nat then n = 0%nat /\ out' = out
    else n = 28%nat /\ arp_parse out' = Done (Some pkt).
Proof.
  destruct pkt as [op sm si tm ti]. cbn [arp_op arp_sender_mac arp_sender_ip arp_target_mac arp_target_ip].
  intros Hsm Htm Hsi Hti Hop. unfold arp_build. cbn [arp_op arp_sender_mac arp_sender_ip arp_target_mac arp_target_ip].
  destruct (Nat.ltb_spec (length out) 28) as [Hl|Hl].
  - exists 0%nat, out. done.
  - change out with ([] ++ out) at 1. do 9 build_step.
    eexists _, _. split; [done|]. split; [lens|]. split; [done|].
    set (rest := drop _ _). set (h := to_be16 HTYPE_ETHERNET ++ to_be16 PTYPE_IPV4 ++ [HLEN] ++ [PLEN]).
    assert (forall l : bytes, (((((((([] ++ to_be16 HTYPE_ETHERNET) ++ to_be16 PTYPE_IPV4) ++ [HLEN]) ++ [PLEN]) ++
      to_be16 op) ++ sm) ++ si) ++ tm) ++ l = h ++ to_be16 op ++ sm ++ si ++ tm ++ l) as Hnorm
      by (intros; unfold h; cbn [app]; by rewrite <- !app_assoc).
    rewrite <- (app_assoc _ ti rest), Hnorm. clear Hnorm.
    assert (length h = 6%nat) as Hh by done. clearbody h rest. unfold arp_parse.
    match goal with |- context [(?x <? 28)%nat] => replace (x <? 28)%nat with false by (symmetry; apply Nat.ltb_ge; lens) end.
    rewrite (get_be16_app h op _ 6) by done. mred.
    rewrite (app_assoc h). rewrite (slice_app _ sm _ 8 14) by lens. mred.
    rewrite (app_assoc _ sm). rewrite (slice_app _ si _ 14 18) by lens. mred.
    rewrite (app_assoc _ si). rewrite (slice_app _ tm _ 18 24) by lens. mred.
    rewrite (app_assoc _ tm). rewrite (slice_app _ ti _ 24 28) by lens. done.
Qed.

(** Likewise for UDP datagrams. *)
Theorem udp_roundtrip (src dst : Z) (payload out : bytes) :
  0 <= src < 65536 -> 0 <= dst < 65536 ->
  exists n out', udp_build src dst payload out = Done (n, out') /\ length out' = length out /\
    if (length out <? 8 + length payload)%nat then n = 0%nat /\ out' = out
    else n = (8 + length payload)%nat /\ udp_parse (take n out') = Done (Some (src, dst, payload)).
Proof.
  intros Hs Hd. unfold udp_build. destruct (Nat.ltb_spec (length out) (8 + length payload)) as [Hl|Hl].
  - exists 0%nat, out. done.
  - change out with ([] ++ out) at 1. do 5 build_step.
    eexists _, _. split; [done|]. split; [lens|]. split; [done|].
    rewrite take_app_length' by lens. rewrite app_nil_l, <- !app_assoc. unfold udp_parse.
    match goal with |- context [(?x <? 8)%nat] => replace (x <? 8)%nat with false by (symmetry; apply Nat.ltb_ge; lens) end.
    rewrite get_be16_head by done. mred. rewrite (get_be16_app _ dst _ 2) by done. mred.
    rewrite !app_assoc. rewrite slice_tail by lens. done.
Qed.

(** ** The Internet checksum *)

(** Sum of the big-endian 16-bit words, the last one padded with zero. *)
Fixpoint words_sum (l : bytes) : Z :=
  match l with
  | a :: b :: l => from_be16 a b + words_sum l
  | [a] => a * 256
  | [] => 0
  end.
(** One's complement reduction to 16 bits. *)
Definition fold16 (s : Z) : Z := if s =? 0 then 0 else (s - 1) mod 65535 + 1.

Lemma list_ind2 (P : bytes -> Prop) :
  P [] -> (forall a, P [a]) -> (forall a b l, P l -> P (a :: b :: l)) -> forall l, P l.
Proof.
  intros H0 H1 H2. fix IH 1. intros [|a [|b l]]; [apply H0 | apply H1 | apply H2, IH].
Qed.

Lemma words_sum_app pre l : Nat.Even (length pre) -> words_sum (pre ++ l) = words_sum pre + words_sum l.
Proof.
  induction pre as [|a|a b pre IH] using list_ind2; intros He.
  - done.
  - destruct He as [k Hk]. cbn in Hk. lia.
  - cbn [app words_sum]. rewrite IH; [lia|]. destruct He as [k Hk]. exists (k - 1)%nat. cbn in Hk. lia.
Qed.

Lemma words_sum_bound l : Forall byte_ok l -> 0 <= words_sum l /\ 2 * words_sum l <= 65535 * (Z.of_nat (length l) + 1).
Proof.
  induction l as [|a|a b l IH] using list_ind2; intros Hb.
  - cbn. lia.
  - inversion_clear Hb. unfold byte_ok in *. cbn. lia.
  - inversion_clear Hb as [|? ? Ha Hb']. inversion_clear Hb' as [|? ? Hb Hl]. specialize (IH Hl).
    unfold byte_ok, from_be16 in *. cbn [words_sum length]. unfold from_be16. lia.
Qed.

Lemma wrap_add w a b : wrap w (wrap w a + b) = wrap w (a + b).
Proof. unfold wrap. apply Zplus_mod_idemp_l. Qed.

(** The loop and the odd byte after it. *)
Definition checksum_sum (dat : bytes) (fuel i : nat) (sum : Z) : outcome Z :=
  '(i, sum) ← checksum_loop fuel dat i sum;
  (if (i <? length dat)%nat then b ← get dat i; Done (wrap 32 (sum + Z.shiftl b 8)) else Done sum).

Lemma checksum_sum_spec dat (fuel : nat) : forall i sum, (i <= length dat)%nat -> (length dat < i + fuel)%nat -> wrap 32 sum = sum ->
  checksum_sum dat fuel i sum = Done (wrap 32 (sum + words_sum (drop i dat))).
Proof.
  induction fuel as [|fuel IH]; intros i sum Hi0 Hf Hs.
  - lia.
  - unfold checksum_sum. cbn [checksum_loop]. destruct (Nat.ltb_spec (i + 1) (length dat)) as [Hi|Hi].
    + unfold get_be16. destruct (get_lt dat i ltac:(lia)) as (a & -> & Ha); mred.
      destruct (get_lt dat (i + 1) ltac:(lia)) as (b & -> & Hb); mred.
      fold (checksum_sum dat fuel (i + 2) (wrap 32 (sum + from_be16 a b))). rewrite IH; [|lia|lia|].
      * rewrite wrap_add. do 2 f_equal. rewrite (drop_S dat a i) by done. rewrite (drop_S dat b (S i)) by (by rewrite <- Nat.add_1_r).
        replace (i + 2)%nat with (S (S i)) by lia. cbn [words_sum]. lia.
      * unfold wrap. apply Zmod_mod.
    + mred. destruct (Nat.ltb_spec i (length dat)) as [Hlt|Hge].
      * destruct (get_lt dat i Hlt) as (a & -> & Ha); mred. do 2 f_equal.
        rewrite (drop_S dat a i) by done. rewrite skipn_all2 by lia. cbn [words_sum].
        rewrite Z.shiftl_mul_pow2 by lia. done.
      * rewrite skipn_all2 by lia. cbn [words_sum]. by rewrite Z.add_0_r, Hs.
Qed.

Lemma fold16_small s : 0 <= s < 65536 -> fold16 s = s.
Proof. intros. unfold fold16. destruct (Z.eqb_spec s 0); [lia|]. rewrite Z.mod_small by lia. lia. Qed.

Lemma fold16_step s : 65536 <= s -> fold16 (s mod 65536 + s / 65536) = fold16 s.
Proof.
  intros Hs. pose proof (Z.div_mod s 65536). pose proof (Z.mod_pos_bound s 65536).
  assert (1 <= s / 65536) by (apply Z.div_le_lower_bound; lia).
  unfold fold16. destruct (Z.eqb_spec (s mod 65536 + s / 65536) 0), (Z.eqb_spec s 0); [lia..|].
  f_equal. replace (s - 1) with (s mod 65536 + s / 65536 - 1 + (s / 65536) * 65535) by lia.
  by rewrite Z.mod_add.
Qed.

Lemma fold_carry_spec s : 0 <= s < 2 ^ 32 -> fold_carry 4 s = Done (fold16 s).
Proof.
  assert (forall (n : nat) s, 0 <= s < 2 ^ 32 -> (s < 65536 -> (1 <= n)%nat) -> (65536 <= s < 131071 -> (2 <= n)%nat) ->
    (131071 <= s -> (3 <= n)%nat) -> fold_carry n s = Done (fold16 s)) as H; [|intros; apply H; lia].
  clear. induction n as [|n IH]; intros s Hs H1 H2 H3; [lia|]. cbn [fold_carry].
  pose proof (Z.div_mod s 65536). pose proof (Z.mod_pos_bound s 65536).
  rewrite Z.shiftr_div_pow2 by lia. change (2 ^ 16) with 65536.
  destruct (Z.eqb_spec (s / 65536) 0) as [Hz|Hz].
  - rewrite fold16_small by lia. done.
  - change 0xFFFF with (Z.ones 16). rewrite Z.land_ones by lia. change (2 ^ 16) with 65536.
    assert (1 <= s / 65536 /\ s / 65536 < 65536) by (split; [pose proof (Z.div_pos s 65536); lia | apply Z.div_lt_upper_bound; lia]).
    rewrite wrap_small by lia. rewrite IH by lia. by rewrite fold16_step by lia.
Qed.

(** The checksum of at most 131072 bytes is the complement of the one's
    complement sum; both of its loops end. *)
Lemma checksum_spec dat : Forall byte_ok dat -> Z.of_nat (length dat) < 131072 ->
  checksum dat = Done (65535 - fold16 (words_sum dat)) /\ 0 <= fold16 (words_sum dat) <= 65535.
Proof.
  intros Hb Hl. pose proof (words_sum_bound dat Hb) as [H0 H1].
  assert (0 <= fold16 (words_sum dat) <= 65535) as Hf.
  { unfold fold16. destruct (Z.eqb_spec (words_sum dat) 0); [lia|]. pose proof (Z.mod_pos_bound (words_sum dat - 1) 65535). lia. }
  split; [|done]. pose proof (checksum_sum_spec dat (S (length dat)) 0 0 ltac:(lia) ltac:(lia) eq_refl) as Hs.
  unfold checksum_sum in Hs. unfold checksum. destruct (checksum_loop _ dat 0 0) as [[i sum]|]; [|done].
  mred_in Hs. mred. rewrite Hs. mred. rewrite drop_0, Z.add_0_l. rewrite wrap_small by lia.
  rewrite fold_carry_spec by lia. mred. rewrite wrap_small by lia. done.
Qed.

(** A message that carries its checksum sums to zero. *)
Lemma checksum_verifies pre rest c : Forall byte_ok (pre ++ [0; 0] ++ rest) -> Nat.Even (length pre) ->
  Z.of_nat (length (pre ++ [0; 0] ++ rest)) < 131072 -> checksum (pre ++ [0; 0] ++ rest) = Done c ->
  0 <= c < 65536 /\ checksum (pre ++ to_be16 c ++ rest) = Done 0.
Proof.
  intros Hb He Hl Hc. destruct (checksum_spec _ Hb Hl) as [Hc' Hf]. rewrite Hc in Hc'.
  apply (f_equal (fun m => match m with Done x => x | Panic => 0 end)) in Hc'. cbv beta iota in Hc'.
  assert (0 <= c < 65536) as Hcr by lia. split; [done|].
  assert (Forall byte_ok (pre ++ to_be16 c ++ rest)) as Hb'.
  { apply Forall_app in Hb as [Hp Hr]. apply Forall_app in Hr as [_ Hr]. apply Forall_app. split; [done|].
    apply Forall_app. split; [|done]. repeat constructor; unfold byte_ok; apply Z.mod_pos_bound; lia. }
  destruct (checksum_spec _ Hb') as [-> _]; [revert Hl; rewrite !length_app; done|]. f_equal.
  set (tot := words_sum (pre ++ [0; 0] ++ rest)) in *.
  assert (words_sum (pre ++ to_be16 c ++ rest) = tot + c) as ->.
  { unfold tot. rewrite (words_sum_app pre (to_be16 c ++ rest)), (words_sum_app pre ([0; 0] ++ rest)) by done.
    cbn [app to_be16 words_sum]. rewrite from_be16_to_be16 by done. change (from_be16 0 0) with 0. ring. }
  pose proof (words_sum_bound _ Hb) as [HS _]. fold tot in HS. clearbody tot. subst c.
  unfold fold16 in *. destruct (Z.eqb_spec tot 0) as [E0|HS0]; [rewrite E0; done|].
  pose proof (Z.mod_pos_bound (tot - 1) 65535). pose proof (Z.div_mod (tot - 1) 65535).
  destruct (Z.eqb_spec (tot + (65535 - ((tot - 1) mod 65535 + 1))) 0) as [?|_]; [lia|].
  replace (tot + (65535 - ((tot - 1) mod 65535 + 1)) - 1) with (65534 + (tot - 1) / 65535 * 65535) by lia.
  rewrite Z.mod_add by lia. done.
Qed.

(** Parsing a header whose first byte is 0x45, followed by a payload. *)
Lemma ipv4_parse_header (total ttl proto : Z) (c src dst payload : bytes) :
  0 <= total < 65536 -> length c = 2%nat -> length src = 4%nat -> length dst = 4%nat ->
  let hd := ([69; 0] ++ to_be16 total ++ to_be16 0 ++ to_be16 0 ++ [ttl] ++ [proto]) ++ c ++ src ++ dst in
  ipv4_parse (hd ++ payload) = Done (Some (mk_ipv4 src dst proto ttl total, payload)).
Proof.
  intros Ht Hc Hs Hd hd.
  assert (hd = [69; 0] ++ to_be16 total ++ (to_be16 0 ++ to_be16 0 ++ [ttl] ++ [proto] ++ c ++ src ++ dst)) as Ehd
    by (unfold hd; cbn [app to_be16]; done).
  assert (length hd = 20%nat) as Hh by (unfold hd; lens).
  unfold ipv4_parse.
  match goal with |- context [(?x <? 20)%nat] => replace (x <? 20)%nat with false by (symmetry; apply Nat.ltb_ge; lens) end.
  rewrite (get_Some _ 0 69) by (by rewrite Ehd). mred.
  change (Z.to_nat (Z.land 69 15) * 4)%nat with 20%nat.
  match goal with |- context [(?x <? 20)%nat] => replace (x <? 20)%nat with false by (symmetry; apply Nat.ltb_ge; lens) end.
  set (h1 := [69; 0] ++ to_be16 total ++ to_be16 0 ++ to_be16 0 ++ [ttl] ++ [proto]) in *.
  assert (length h1 = 10%nat) as Hh1 by done.
  assert (slice (hd ++ payload) 12 16 = Done src) as ->.
  { replace (hd ++ payload) with ((h1 ++ c) ++ src ++ dst ++ payload) by (unfold hd; by rewrite <- !app_assoc).
    by rewrite slice_app by lens. } mred.
  assert (slice (hd ++ payload) 16 20 = Done dst) as ->.
  { replace (hd ++ payload) with ((h1 ++ c ++ src) ++ dst ++ payload) by (unfold hd; by rewrite <- !app_assoc).
    by rewrite slice_app by lens. } mred.
  rewrite (get_Some _ 9 proto) by (by rewrite Ehd). mred.
  rewrite (get_Some _ 8 ttl) by (by rewrite Ehd). mred.
  rewrite Ehd at 1. rewrite <- !(app_assoc [69; 0]), <- (app_assoc (to_be16 total)).
  rewrite get_be16_app by done. mred. rewrite slice_tail by lens. done.
Qed.

(** C40: [ipv4::build] makes a packet that [ipv4::parse] reads back (with the
    16-bit total length) and whose header, checksum included, verifies. *)
Theorem ipv4_roundtrip (hdr : Ipv4Header) (payload out : bytes) :
  length (ip_src hdr) = 4%nat -> length (ip_dst hdr) = 4%nat ->
  Forall byte_ok (ip_src hdr ++ ip_dst hdr ++ [ip_ttl hdr; ip_protocol hdr]) ->
  exists n out', ipv4_build hdr payload out = Done (n, out') /\ length out' = length out /\
    if (length out <? 20 + length payload)%nat then n = 0%nat /\ out' = out
    else n = (20 + length payload)%nat /\
      ipv4_parse (take n out') = Done (Some (mk_ipv4 (ip_src hdr) (ip_dst hdr) (ip_protocol hdr) (ip_ttl hdr)
        (wrap 16 (Z.of_nat n)), payload)) /\
      checksum (take 20 out') = Done 0.
Proof.
  destruct hdr as [src dst proto ttl tl]. cbn [ip_src ip_dst ip_ttl ip_protocol]. intros Hs Hd Hb.
  unfold ipv4_build. cbn [ip_src ip_dst ip_ttl ip_protocol].
  destruct (Nat.ltb_spec (length out) (20 + length payload)) as [Hl|Hl].
  - exists 0%nat, out. done.
  - change out with ([] ++ out) at 1. do 11 build_step.
    set (total := wrap 16 (Z.of_nat (20 + length payload))).
    assert (0 <= total < 65536) as Ht by (apply wrap_range; lia).
    set (rest := drop (length payload) _).
    assert (length rest = length out - 20 - length payload)%nat as Hrest by (unfold rest; lens).
    set (h1 := [69; 0] ++ to_be16 total ++ to_be16 0 ++ to_be16 0 ++ [ttl] ++ [proto]).
    assert (forall l : bytes, ((((((((((([] ++ [69]) ++ [0]) ++ to_be16 total) ++ to_be16 0) ++ to_be16 0) ++ [ttl]) ++ [proto]) ++
      to_be16 0) ++ src) ++ dst) ++ payload) ++ l = h1 ++ [0; 0] ++ (src ++ dst) ++ payload ++ l) as ->
      by (intros; unfold h1; cbn [app to_be16]; by rewrite <- !app_assoc).
    assert (length h1 = 10%nat) as Hh by done.
    assert (length (h1 ++ [0; 0] ++ src ++ dst) = 20%nat) as Hh20 by lens.
    assert (forall c : bytes, length c = 2%nat ->
      h1 ++ c ++ (src ++ dst) ++ payload ++ rest = (h1 ++ c ++ src ++ dst) ++ payload ++ rest) as Hgroup
      by (intros; rewrite <- !app_assoc; done).
    rewrite (Hgroup [0; 0]) by done. rewrite slice_head by lens. mred.
    assert (Forall byte_ok (h1 ++ [0; 0] ++ src ++ dst)) as Hbytes.
    { rewrite !Forall_app in Hb. destruct Hb as (Hbs & Hbd & Hbt). inversion_clear Hbt as [|? ? Htt Hbt'].
      inversion_clear Hbt' as [|? ? Hpp _]. rewrite !Forall_app. split; [|split; [|split; done]].
      - unfold h1. rewrite !Forall_app. unfold to_be16.
        repeat (split || constructor); try done; unfold byte_ok in *; try lia; try (apply Z.mod_pos_bound; lia).
      - repeat constructor; unfold byte_ok; lia. }
    destruct (checksum_spec _ Hbytes) as [Hck _]; [rewrite Hh20; lia|].
    rewrite Hck; mred. set (c := 65535 - _) in *.
    destruct (checksum_verifies h1 (src ++ dst) c Hbytes) as [Hc Hv]; [by exists 5%nat | rewrite Hh20; lia | done |].
    rewrite <- (Hgroup [0; 0]) by done. rewrite blit_mid by done. mred.
    eexists _, _. split; [done|]. split; [lens|]. split; [done|].
    rewrite (Hgroup (to_be16 c)) by done.
    assert (length (h1 ++ to_be16 c ++ src ++ dst) = 20%nat) as Hh20' by lens.
    split; [|by rewrite take_app_length' by lens].
    rewrite (app_assoc _ payload rest). rewrite take_app_length' by lens.
    by apply ipv4_parse_header.
Qed.

(** [icmp::build_reply] makes an echo reply that carries the identifier,
    sequence number and data it was given and whose checksum verifies. *)
Theorem icmp_reply_roundtrip (id seq : Z) (dat out : bytes) :
  0 <= id < 65536 -> 0 <= seq < 65536 -> Forall byte_ok dat -> Z.of_nat (length dat) < 131064 ->
  exists n out', build_reply id seq dat out = Done (n, out') /\ length out' = length out /\
    if (length out <? 8 + length dat)%nat then n = 0%nat /\ out' = out
    else n = (8 + length dat)%nat /\ parse_echo (take n out') = Done (Some (id, seq, dat)) /\
      out' !! 0%nat = Some TYPE_ECHO_REPLY /\ checksum (take n out') = Done 0.
Proof.
  intros Hi Hs Hb Hlen. unfold build_reply.
  destruct (Nat.ltb_spec (length out) (8 + length dat)) as [Hl|Hl].
  - exists 0%nat, out. done.
  - change out with ([] ++ out) at 1. do 6 build_step.
    set (rest := drop (length dat) _).
    assert (length rest = length out - 8 - length dat)%nat as Hrest by (unfold rest; lens).
    set (h1 := [TYPE_ECHO_REPLY; 0]). set (h2 := to_be16 id ++ to_be16 seq ++ dat).
    assert (forall l : bytes, (((((([] ++ [TYPE_ECHO_REPLY]) ++ [0]) ++ to_be16 0) ++ to_be16 id) ++ to_be16 seq) ++ dat) ++ l
      = h1 ++ [0; 0] ++ h2 ++ l) as -> by (intros; unfold h1, h2; cbn [app to_be16]; done).
    assert (length h2 = 4 + length dat)%nat as Hh2 by (unfold h2; rewrite !length_app; cbn; lia).
    assert (forall c : bytes, h1 ++ c ++ h2 ++ rest = (h1 ++ c ++ h2) ++ rest) as Hgroup by (intros; rewrite <- !app_assoc; done).
    assert (length h1 = 2)%nat as Hh1 by done.
    rewrite (Hgroup [0; 0]). rewrite slice_head by lens. mred.
    assert (Forall byte_ok (h1 ++ [0; 0] ++ h2)) as Hbytes.
    { unfold h1, h2. rewrite !Forall_app. unfold to_be16.
      repeat (split || constructor); try done; unfold byte_ok, TYPE_ECHO_REPLY in *; try lia; try (apply Z.mod_pos_bound; lia). }
    assert (length (h1 ++ [0%Z; 0%Z] ++ h2) = 8 + length dat)%nat as Hlen8 by lens.
    destruct (checksum_spec _ Hbytes) as [Hck _]; [rewrite Hlen8; lia|].
    rewrite Hck; mred. set (c := 65535 - _) in *.
    destruct (checksum_verifies h1 h2 c Hbytes) as [Hc Hv]; [by exists 1%nat | rewrite Hlen8; lia | done |].
    rewrite <- (Hgroup [0; 0]). rewrite blit_mid by done. mred.
    eexists _, _. split; [done|]. split; [lens|]. split; [done|].
    rewrite (Hgroup (to_be16 c)). rewrite take_app_length' by lens.
    split; [|split; [done | done]]. unfold parse_echo.
    match goal with |- context [(?x <? 8)%nat] => replace (x <? 8)%nat with false by (symmetry; apply Nat.ltb_ge; lens) end.
    unfold h2. rewrite (app_assoc h1). rewrite (get_be16_app _ id _ 4) by done. mred.
    rewrite (app_assoc (h1 ++ to_be16 c)). rewrite (get_be16_app _ seq _ 6) by done. mred.
    rewrite (app_assoc _ (to_be16 seq)). rewrite slice_tail by lens. done.
Qed.

(** ** Parsers on arbitrary input *)

Lemma runs_be16 buf i (Q : Z -> Prop) : (i + 1 < length buf)%nat -> (forall v, Q v) -> runs (get_be16 buf i) Q.
Proof. intros Hi HQ. unfold get_be16. rstep. rstep; [lia|]. rstep. rstep; [lia|]. apply HQ. Qed.
Lemma runs_be32 buf i (Q : Z -> Prop) : (i + 3 < length buf)%nat -> (forall v, Q v) -> runs (get_be32 buf i) Q.
Proof.
  intros Hi HQ. unfold get_be32. rstep. rstep; [lia|]. rstep. rstep; [lia|]. rstep. rstep; [lia|]. rstep. rstep; [lia|]. apply HQ.
Qed.

Ltac pstep :=
  first [ apply runs_be16; [lia|intros ?] | apply runs_be32; [lia|intros ?]
        | lazymatch goal with |- context [(?a <? ?b)%nat] => destruct (Nat.ltb_spec a b) end
        | rstep; try lia ].

(** None of the six parsers panics on any input: no index or slice is ever
    out of range, whatever the lengths and offsets the packet claims. *)
Theorem net_parsers_total (buf : bytes) :
  is_done (ethernet_parse buf) && is_done (arp_parse buf) && is_done (ipv4_parse buf) &&
  is_done (parse_echo buf) && is_done (udp_parse buf) && is_done (tcp_parse buf) = true.
Proof.
  assert (forall A (m : outcome A), runs m (fun _ => True) -> is_done m = true) as H by by intros A [].
  rewrite !andb_true_iff. split_and!; apply H.
  - unfold ethernet_parse. repeat pstep; done.
  - unfold arp_parse. repeat pstep; done.
  - unfold ipv4_parse. repeat pstep; done.
  - unfold parse_echo. repeat pstep; done.
  - unfold udp_parse. repeat pstep; done.
  - unfold tcp_parse. repeat pstep; done.
Qed.

(** [ipv4::parse] does not check that the header length is at least five
    words: a packet that claims a header of zero words is accepted, and its
    payload is the packet itself, header included. *)
Theorem ipv4_short_header_accepted (rest : bytes) : (19 <= length rest)%nat ->
  exists h, ipv4_parse (0x40 :: rest) = Done (Some (h, 0x40 :: rest)).
Proof.
  intros Hl. assert (runs (ipv4_parse (0x40 :: rest)) (fun r => exists h, r = Some (h, 0x40 :: rest))) as H.
  { unfold ipv4_parse. destruct (Nat.ltb_spec (length (0x40 :: rest)) 20) as [Hx|Hx]; [cbn in Hx; lia|].
    cbn [get unwrap lookup list_lookup]. mred. change (Z.to_nat (Z.land 0x40 15) * 4)%nat with 0%nat.
    destruct (Nat.ltb_spec (length (0x40 :: rest)) 0); [lia|]. repeat pstep. eexists.
    rewrite Nat.sub_0_r. cbn [drop]. by rewrite firstn_all. }
  apply runs_Done in H as (r & Hr & h & ->). by exists h.
Qed.

(** *** Witnesses *)
Definition demo_mac : MacAddr := [2; 0; 0; 0; 0; 1].
Definition demo_ip : Ipv4Addr := [10; 0; 2; 15].

Lemma ethernet_roundtrip_witness : exists n out',
  ethernet_build MAC_BROADCAST demo_mac ETHERTYPE_ARP [1; 2; 3] (replicate 20 0) = Done (n, out') /\ length out' = 20%nat /\
  n = 17%nat /\ ethernet_parse (take n out') = Done (Some (MAC_BROADCAST, demo_mac, ETHERTYPE_ARP, [1; 2; 3])).
Proof.
  apply (ethernet_roundtrip MAC_BROADCAST demo_mac ETHERTYPE_ARP [1; 2; 3] (replicate 20 0)); [done | done | unfold ETHERTYPE_ARP; lia].
Defined.

Lemma arp_roundtrip_witness :
  let pkt := mk_arp OP_REPLY demo_mac demo_ip MAC_ZERO demo_ip in
  exists n out', arp_build pkt (replicate 28 0) = Done (n, out') /\ length out' = 28%nat /\
    n = 28%nat /\ arp_parse out' = Done (Some pkt).
Proof.
  apply (arp_roundtrip (mk_arp OP_REPLY demo_mac demo_ip MAC_ZERO demo_ip) (replicate 28 0)); try done.
Defined.

Lemma udp_roundtrip_witness : exists n out',
  udp_build 68 67 [1; 2; 3] (replicate 20 0) = Done (n, out') /\ length out' = 20%nat /\
  n = 11%nat /\ udp_parse (take n out') = Done (Some (68, 67, [1; 2; 3])).
Proof. apply (udp_roundtrip 68 67 [1; 2; 3] (replicate 20 0)); lia. Defined.

Lemma ipv4_roundtrip_witness :
  let hdr := mk_ipv4 demo_ip demo_ip PROTO_UDP 64 0 in
  exists n out', ipv4_build hdr [7; 8] (replicate 30 0) = Done (n, out') /\ length out' = 30%nat /\
    n = 22%nat /\ ipv4_parse (take n out') = Done (Some (mk_ipv4 demo_ip demo_ip PROTO_UDP 64 (wrap 16 (Z.of_nat n)), [7; 8])) /\
    checksum (take 20 out') = Done 0.
Proof.
  apply (ipv4_roundtrip (mk_ipv4 demo_ip demo_ip PROTO_UDP 64 0) [7; 8] (replicate 30 0)); [done | done |].
  cbn. repeat (apply Forall_cons; [unfold byte_ok, PROTO_UDP; lia|]). apply Forall_nil.
Defined.

Lemma icmp_reply_roundtrip_witness : exists n out',
  build_reply 1 2 [97; 98; 99] (replicate 16 0) = Done (n, out') /\ length out' = 16%nat /\
  n = 11%nat /\ parse_echo (take n out') = Done (Some (1, 2, [97; 98; 99])) /\
  out' !! 0%nat = Some TYPE_ECHO_REPLY /\ checksum (take n out') = Done 0.
Proof.
  apply (icmp_reply_roundtrip 1 2 [97; 98; 99] (replicate 16 0)); [lia | lia | | cbn; lia].
  cbn. repeat (apply Forall_cons; [unfold byte_ok, PROTO_UDP; lia|]). apply Forall_nil.
Defined.

Lemma ipv4_short_header_accepted_witness : exists h,
  ipv4_parse (0x40 :: replicate 19 0) = Done (Some (h, 0x40 :: replicate 19 0)).
Proof. apply ipv4_short_header_accepted. cbn. lia. Defined.
