(* ===== verification/SlotAsm.v ===== *)
(** Frames of registers: words in slots of eight bytes above a base address, written and read back by the
    assembly of RISC-V (RiscvAsm.v) and of AArch64 (ArmAsm.v).  The registers of the architecture are a
    parameter. *)
From Stdlib Require Import ZArith Lia.
From stdpp Require Import base option list numbers.
From S2P Require Import Prelude.
Local Open Scope Z_scope.

Definition u64 (v : Z) : Prop := 0 <= v < 2 ^ 64.
(** The value of slot [i] of the frame at [base]. *)
Definition slot_value (m : mem) (base i : Z) : Z := load64 m (base + i * 8).
Lemma slot_store m base i j v : u64 v -> slot_value (store64 m (base + i * 8) v) base j = if decide (j = i) then v else slot_value m base j.
Proof.
  intros Hv. unfold slot_value. case_decide; [subst; by apply load64_store64_eq|]. apply load64_store64_ne. lia.
Qed.

Section slots.
Context {R : Type} `{EqDecision R}.
Implicit Types l : list (Z * R).

(** The slots of a list are in [0, n). *)
Definition slots_in (n : Z) l : Prop := Forall (fun x => 0 <= x.1 < n) l.
Lemma slots_range n l i r : slots_in n l -> (i, r) ∈ l -> 0 <= i < n.
Proof. intros H [j Hj]%list_elem_of_lookup_1. exact (Forall_lookup_1 _ _ _ _ H Hj). Qed.

(** Memory after storing the registers of a list in their slots. *)
Definition saved l (base : Z) (f : R -> Z) (m : mem) : mem := foldl (fun m x => store64 m (base + x.1 * 8) (f x.2)) m l.
Lemma saved_spec n l base f : forall m, slots_in n l -> (forall r, u64 (f r)) -> NoDup (fst <$> l) -> let m' := saved l base f m in
  (forall i r, (i, r) ∈ l -> slot_value m' base i = f r) /\
  (forall i, i ∉ fst <$> l -> slot_value m' base i = slot_value m base i) /\
  (forall x, ~ base <= x < base + 8 * n -> m' x = m x).
Proof.
  induction l as [|[i r] l IH]; intros m Hs Hf Hd; [split; [by intros ? ? ?%elem_of_nil | done]|].
  inversion Hs as [|? ? Hi Hs']; subst. cbn [fst] in Hi. inversion Hd as [|? ? Hni Hd']; subst.
  cbv zeta. change (saved ((i, r) :: l) base f m) with (saved l base f (store64 m (base + i * 8) (f r))).
  destruct (IH (store64 m (base + i * 8) (f r)) Hs' Hf Hd') as (H1 & H2 & H3). split; [|split].
  - intros j q [[= -> ->]|Hj]%elem_of_cons; [|by apply H1]. rewrite H2 by done. rewrite slot_store by apply Hf. by rewrite decide_True.
  - intros j Hj. cbn in Hj. rewrite H2 by (intros Hj'; apply Hj; by right). rewrite slot_store by apply Hf. rewrite decide_False; [done|].
    intros ->. apply Hj. by left.
  - intros x Hx. rewrite H3 by done. unfold store64. ztest; cbn; done || lia.
Qed.

(** Registers after loading the slots: the last load of a register counts. *)
Definition loaded l (m : mem) (base : Z) (f : R -> Z) : R -> Z :=
  foldl (fun f x => fun r => if decide (r = x.2) then slot_value m base x.1 else f r) f l.
Lemma loaded_other l m base r : forall f, r ∉ snd <$> l -> loaded l m base f r = f r.
Proof.
  induction l as [|[i q] l IH]; intros f H; [done|]. cbn in H. change (loaded ((i, q) :: l) m base f) with (loaded l m base (fun r => if decide (r = q) then slot_value m base i else f r)).
  rewrite IH by (intros H'; apply H; by right). rewrite decide_False; [done|]. intros ->. apply H. by left.
Qed.
Lemma loaded_slot l m base i r : forall f, NoDup (snd <$> l) -> (i, r) ∈ l -> loaded l m base f r = slot_value m base i.
Proof.
  induction l as [|[j q] l IH]; intros f Hd Hin; [by apply elem_of_nil in Hin|]. inversion Hd as [|? ? Hn Hd']; subst.
  change (loaded ((j, q) :: l) m base f) with (loaded l m base (fun r => if decide (r = q) then slot_value m base j else f r)).
  apply elem_of_cons in Hin as [[= -> ->]|Hin]; [|by apply IH]. rewrite loaded_other by done. by rewrite decide_True.
Qed.
End slots.
