(* ===== verification/RiscvAsm.v ===== *)
(** A small RV64 machine: the instructions the kernel's naked functions use, with their
    effect on registers, control registers and memory, and the lemmas on runs of stores
    and loads relative to the stack pointer. *)
From Stdlib Require Import ZArith Lia.
From stdpp Require Import base option list numbers.
From S2P Require Import Prelude SlotAsm.
Local Open Scope Z_scope.

(** The integer registers by their ABI names; [zero] is not a register here. *)
Inductive xreg := RA | SP | GP | TP | T0 | T1 | T2 | S0 | S1 | A0 | A1 | A2 | A3 | A4 | A5 | A6 | A7
  | S2 | S3 | S4 | S5 | S6 | S7 | S8 | S9 | S10 | S11 | T3 | T4 | T5 | T6.
#[export] Instance xreg_eq_dec : EqDecision xreg.
Proof. solve_decision. Defined.
Inductive csr := SEPC | SSTATUS | SSCRATCH.
#[export] Instance csr_eq_dec : EqDecision csr.
Proof. solve_decision. Defined.

Record hart := mk_hart { xr : xreg -> Z; csrs : csr -> Z; hmem : mem; hpc : Z; in_user : bool }.

Definition set_x (r : xreg) (v : Z) (h : hart) : hart :=
  mk_hart (fun x => if decide (x = r) then v else xr h x) (csrs h) (hmem h) (hpc h) (in_user h).
Definition set_csr (c : csr) (v : Z) (h : hart) : hart :=
  mk_hart (xr h) (fun x => if decide (x = c) then v else csrs h x) (hmem h) (hpc h) (in_user h).
Definition set_hmem (m : mem) (h : hart) : hart := mk_hart (xr h) (csrs h) m (hpc h) (in_user h).

(** sstatus: SIE, SPIE, SPP. *)
Definition SIE : Z := 1.
Definition SPIE : Z := 5.
Definition SPP : Z := 8.
(** What [sret] makes of sstatus: SIE takes the value of SPIE, SPIE is set, SPP cleared. *)
Definition sret_status (v : Z) : Z :=
  let v := if Z.testbit v SPIE then Z.setbit v SIE else Z.clearbit v SIE in Z.clearbit (Z.setbit v SPIE) SPP.

Inductive rinstr :=
| ADDI (d s : xreg) (i : Z)
| ANDI (d s : xreg) (i : Z)
| MV (d s : xreg)
| SD (s : xreg) (off : Z) (b : xreg)        (* sd s, off(b) *)
| LD (d : xreg) (off : Z) (b : xreg)        (* ld d, off(b) *)
| CSRRW (d : xreg) (c : csr) (s : xreg)
| CSRRW_ZERO (d : xreg) (c : csr)           (* csrrw d, c, zero *)
| CSRR (d : xreg) (c : csr)
| CSRW (c : csr) (s : xreg)
| RCALL (f : hart -> hart)                  (* call and return, seen from the caller *)
| JR_RA                                     (* ret *)
| SRET.

Definition rstep (i : rinstr) (h : hart) : hart :=
  match i with
  | ADDI d s i => set_x d (uadd (xr h s) i) h
  | ANDI d s i => set_x d (Z.land (xr h s) i) h
  | MV d s => set_x d (xr h s) h
  | SD s off b => set_hmem (store64 (hmem h) (uadd (xr h b) off) (xr h s)) h
  | LD d off b => set_x d (load64 (hmem h) (uadd (xr h b) off)) h
  | CSRRW d c s => set_x d (csrs h c) (set_csr c (xr h s) h)
  | CSRRW_ZERO d c => set_x d (csrs h c) (set_csr c 0 h)
  | CSRR d c => set_x d (csrs h c) h
  | CSRW c s => set_csr c (xr h s) h
  | RCALL f => f h
  | JR_RA => mk_hart (xr h) (csrs h) (hmem h) (xr h RA) (in_user h)
  | SRET =>
      let h' := set_csr SSTATUS (sret_status (csrs h SSTATUS)) h in
      mk_hart (xr h') (csrs h') (hmem h') (csrs h SEPC) (negb (Z.testbit (csrs h SSTATUS) SPP))
  end.
Definition rexec (p : list rinstr) (h : hart) : hart := foldl (fun h i => rstep i h) h p.
Lemma rexec_app p q h : rexec (p ++ q) h = rexec q (rexec p h).
Proof. apply foldl_app. Qed.
Lemma rexec_cons i p h : rexec (i :: p) h = rexec p (rstep i h).
Proof. done. Qed.

Lemma set_x_eq r v h : xr (set_x r v h) r = v.
Proof. unfold set_x. cbn [xr]. by rewrite decide_True. Qed.
Lemma set_x_ne r q v h : q <> r -> xr (set_x r v h) q = xr h q.
Proof. intros H. unfold set_x. cbn [xr]. by rewrite decide_False. Qed.

Lemma set_csr_eq c v h : csrs (set_csr c v h) c = v.
Proof. unfold set_csr. cbn [csrs]. by rewrite decide_True. Qed.
Lemma set_csr_ne c d v h : d <> c -> csrs (set_csr c v h) d = csrs h d.
Proof. intros H. unfold set_csr. cbn [csrs]. by rewrite decide_False. Qed.
Lemma xr_csr c v h : xr (set_csr c v h) = xr h.
Proof. done. Qed.
Lemma xr_mem m h : xr (set_hmem m h) = xr h.
Proof. done. Qed.
Lemma csrs_x r v h : csrs (set_x r v h) = csrs h.
Proof. done. Qed.
Lemma csrs_mem m h : csrs (set_hmem m h) = csrs h.
Proof. done. Qed.
Lemma mem_x r v h : hmem (set_x r v h) = hmem h.
Proof. done. Qed.
Lemma mem_csr c v h : hmem (set_csr c v h) = hmem h.
Proof. done. Qed.
Lemma mem_mem m h : hmem (set_hmem m h) = m.
Proof. done. Qed.
(** The state after a few instructions. *)
Ltac hart_reduce := repeat first
  [ rewrite xr_csr | rewrite xr_mem | rewrite csrs_x | rewrite csrs_mem | rewrite mem_x | rewrite mem_csr | rewrite mem_mem
  | rewrite set_x_eq | rewrite set_x_ne by first [discriminate | done] | rewrite set_csr_eq | rewrite set_csr_ne by discriminate ].

(** ** Frames: registers in slots of eight bytes above the stack pointer *)

Abbreviation slot_of := (Z * xreg)%type.
Definition save_slot (x : slot_of) : rinstr := SD x.2 (x.1 * 8) SP.
Definition load_slot (x : slot_of) : rinstr := LD x.2 (x.1 * 8) SP.
Lemma rexec_saves n l : forall h, slots_in n l -> 0 <= xr h SP -> xr h SP + 8 * n <= 2 ^ 64 -> (forall r, u64 (xr h r)) -> NoDup (fst <$> l) ->
  exists m', rexec (save_slot <$> l) h = set_hmem m' h /\
    (forall i r, (i, r) ∈ l -> slot_value m' (xr h SP) i = xr h r) /\
    (forall i, i ∉ fst <$> l -> slot_value m' (xr h SP) i = slot_value (hmem h) (xr h SP) i) /\
    (forall x, ~ xr h SP <= x < xr h SP + 8 * n -> m' x = hmem h x).
Proof.
  intros h Hs H0 Hn Hr Hd. exists (saved l (xr h SP) (xr h) (hmem h)). split; [|exact (saved_spec n l (xr h SP) (xr h) (hmem h) Hs Hr Hd)].
  clear Hd Hr. revert h H0 Hn. induction Hs as [|[i r] l Hi Hs IH]; intros h H0 Hn; [by destruct h|]. cbn [fst] in Hi.
  rewrite fmap_cons, rexec_cons. cbn [rstep save_slot fst snd]. assert (uadd (xr h SP) (i * 8) = xr h SP + i * 8) as -> by (apply wrap_small; lia).
  by rewrite IH.
Qed.
Lemma rexec_loads n l : forall h, slots_in n l -> 0 <= xr h SP -> xr h SP + 8 * n <= 2 ^ 64 -> SP ∉ snd <$> l ->
  rexec (load_slot <$> l) h = mk_hart (loaded l (hmem h) (xr h SP) (xr h)) (csrs h) (hmem h) (hpc h) (in_user h).
Proof.
  induction l as [|[i r] l IH]; intros h Hs H0 Hn Hsp; [by destruct h|].
  inversion Hs as [|? ? Hi Hs']; subst. cbn [fst] in Hi. cbn in Hsp. rewrite fmap_cons, rexec_cons. cbn [rstep load_slot fst snd].
  assert (uadd (xr h SP) (i * 8) = xr h SP + i * 8) as -> by (apply wrap_small; lia).
  set (h1 := set_x r _ h). assert (xr h1 SP = xr h SP) as Esp.
  { cbn. rewrite decide_False; [done|]. intros <-. apply Hsp. by left. }
  rewrite IH; [|done | by rewrite Esp | by rewrite Esp | intros H; apply Hsp; by right]. rewrite Esp. done.
Qed.
