(* ===== verification/X86Asm.v ===== *)
(** A small x86_64 machine: the instructions the kernel's naked functions use,
    with their effect on registers, stack and memory, and the lemmas that step
    through straight-line code. *)
From Stdlib Require Import ZArith Lia.
From stdpp Require Import base option list numbers.
From S2P Require Import Prelude.
Local Open Scope Z_scope.

(** General registers other than rsp, which is a field of its own. *)
Inductive reg := RAX | RBX | RCX | RDX | RSI | RDI | RBP | R8 | R9 | R10 | R11 | R12 | R13 | R14 | R15.
#[export] Instance reg_eq_dec : EqDecision reg.
Proof. solve_decision. Defined.

(** System V: the registers a function hands back unchanged (with rsp). *)
Definition callee_saved (r : reg) : bool :=
  match r with RBX | RBP | R12 | R13 | R14 | R15 => true | _ => false end.

Record cpu := mk_cpu {
  gpr : reg -> Z; rsp : Z; ram : mem;
  rip : Z; cs : Z; ss : Z; rflags : Z; cr2 : Z; cr3 : Z
}.

Definition upd (f : reg -> Z) (r : reg) (v : Z) : reg -> Z := fun x => if decide (x = r) then v else f x.
Definition set_gpr (r : reg) (v : Z) (s : cpu) : cpu :=
  mk_cpu (upd (gpr s) r v) (rsp s) (ram s) (rip s) (cs s) (ss s) (rflags s) (cr2 s) (cr3 s).
Definition set_rsp (v : Z) (s : cpu) : cpu :=
  mk_cpu (gpr s) v (ram s) (rip s) (cs s) (ss s) (rflags s) (cr2 s) (cr3 s).
Definition set_ram (m : mem) (s : cpu) : cpu :=
  mk_cpu (gpr s) (rsp s) m (rip s) (cs s) (ss s) (rflags s) (cr2 s) (cr3 s).
Definition set_cr3 (v : Z) (s : cpu) : cpu :=
  mk_cpu (gpr s) (rsp s) (ram s) (rip s) (cs s) (ss s) (rflags s) (cr2 s) v.

Definition push_val (v : Z) (s : cpu) : cpu :=
  let sp := usub (rsp s) 8 in set_rsp sp (set_ram (store64 (ram s) sp v) s).

Inductive instr :=
| PUSH (r : reg)
| POP (r : reg)
| PUSH_AT (a : Z)              (* push qword ptr [rip + sym] *)
| MOV (d s : reg)
| MOV_IMM (d : reg) (i : Z)
| MOV_FROM_RSP (d : reg)       (* mov d, rsp *)
| MOV_TO_RSP (s : reg)         (* mov rsp, s *)
| MOV_RSP_AT (a : Z)           (* mov rsp, qword ptr [rip + sym] *)
| MOV_AT_RSP (a : Z)           (* mov qword ptr [rip + sym], rsp *)
| MOV_AT (a : Z) (s : reg)     (* mov qword ptr [rip + sym], s *)
| MOV_IND_RSP (d : reg)        (* mov qword ptr [d], rsp *)
| MOV_STACK (d : reg) (off : Z) (* mov d, qword ptr [rsp + off] *)
| LEA_STACK (d : reg) (off : Z) (* lea d, [rsp + off] *)
| ADD_RSP (i : Z)
| SUB_RSP (i : Z)
| XOR_EAX                      (* xor eax, eax *)
| OR_IMM (d : reg) (i : Z)
| MOV_CR2 (d : reg)
| CALL (f : cpu -> cpu)        (* call and return, seen from the caller *)
| RET
| IRETQ
| SYSRETQ.

Definition step (i : instr) (s : cpu) : cpu :=
  match i with
  | PUSH r => push_val (gpr s r) s
  | POP r => set_rsp (uadd (rsp s) 8) (set_gpr r (load64 (ram s) (rsp s)) s)
  | PUSH_AT a => push_val (load64 (ram s) a) s
  | MOV d r => set_gpr d (gpr s r) s
  | MOV_IMM d i => set_gpr d i s
  | MOV_FROM_RSP d => set_gpr d (rsp s) s
  | MOV_TO_RSP r => set_rsp (gpr s r) s
  | MOV_RSP_AT a => set_rsp (load64 (ram s) a) s
  | MOV_AT_RSP a => set_ram (store64 (ram s) a (rsp s)) s
  | MOV_AT a r => set_ram (store64 (ram s) a (gpr s r)) s
  | MOV_IND_RSP d => set_ram (store64 (ram s) (gpr s d) (rsp s)) s
  | MOV_STACK d off => set_gpr d (load64 (ram s) (uadd (rsp s) off)) s
  | LEA_STACK d off => set_gpr d (uadd (rsp s) off) s
  | ADD_RSP i => set_rsp (uadd (rsp s) i) s
  | SUB_RSP i => set_rsp (usub (rsp s) i) s
  | XOR_EAX => set_gpr RAX 0 s
  | OR_IMM d i => set_gpr d (Z.lor (gpr s d) i) s
  | MOV_CR2 d => set_gpr d (cr2 s) s
  | CALL f => f s
  | RET => mk_cpu (gpr s) (uadd (rsp s) 8) (ram s) (load64 (ram s) (rsp s)) (cs s) (ss s) (rflags s) (cr2 s) (cr3 s)
  | IRETQ =>
      let at_ i := load64 (ram s) (uadd (rsp s) (8 * i)) in
      mk_cpu (gpr s) (at_ 3) (ram s) (at_ 0) (at_ 1) (at_ 4) (at_ 2) (cr2 s) (cr3 s)
  | SYSRETQ =>
      (* CS and SS come from IA32_STAR, 0x10 in bits 63..48 *)
      mk_cpu (gpr s) (rsp s) (ram s) (gpr s RCX) (Z.lor (0x10 + 16) 3) (Z.lor (0x10 + 8) 3) (gpr s R11) (cr2 s) (cr3 s)
  end.

Definition exec (p : list instr) (s : cpu) : cpu := foldl (fun s i => step i s) s p.

Lemma exec_app p q s : exec (p ++ q) s = exec q (exec p s).
Proof. apply foldl_app. Qed.
Lemma exec_cons i p s : exec (i :: p) s = exec p (step i s).
Proof. done. Qed.

(** ** The stack as a list of words *)

(** The words from [sp] up. *)
Definition stack_has (m : mem) (sp : Z) (l : list Z) : Prop :=
  forall i v, l !! i = Some v -> load64 m (sp + 8 * Z.of_nat i) = v.

Definition u64 (v : Z) : Prop := 0 <= v < 2 ^ 64.
Definition regs_ok (s : cpu) : Prop := forall r, u64 (gpr s r).

Lemma stack_has_nil m sp : stack_has m sp [].
Proof. by intros i v ?%list_lookup_nil_Some || intros [] v [=]. Qed.

Lemma stack_has_cons m sp v l : stack_has m sp (v :: l) <-> load64 m sp = v /\ stack_has m (sp + 8) l.
Proof.
  split.
  - intros H. split; [rewrite <- (H O v eq_refl); f_equal; lia|].
    intros i w Hi. rewrite <- (H (S i) w Hi). f_equal. lia.
  - intros [H0 H] [|i] w Hi; cbn in Hi; [done_inv; f_equal; lia|]. rewrite <- (H i w Hi). f_equal. lia.
Qed.

Lemma stack_has_app m sp l l' :
  stack_has m sp (l ++ l') <-> stack_has m sp l /\ stack_has m (sp + 8 * Z.of_nat (length l)) l'.
Proof.
  revert sp. induction l as [|v l IH]; intros sp; cbn [app length].
  - rewrite Z.add_0_r. split; [intros; split; [apply stack_has_nil | done] | tauto].
  - rewrite !stack_has_cons, IH. replace (sp + 8 * Z.of_nat (S (length l))) with (sp + 8 + 8 * Z.of_nat (length l)) by lia. tauto.
Qed.

Lemma stack_word m sp l i v : stack_has m sp l -> 0 <= i -> l !! Z.to_nat i = Some v -> load64 m (sp + 8 * i) = v.
Proof. intros H Hi Hl. rewrite <- (H _ _ Hl). do 2 f_equal. lia. Qed.

(** The words do not depend on memory elsewhere. *)
Lemma stack_has_ext m m' sp l : (forall x, sp <= x < sp + 8 * Z.of_nat (length l) -> m' x = m x) ->
  stack_has m sp l -> stack_has m' sp l.
Proof.
  intros H Hl i v Hi. rewrite <- (Hl i v Hi). apply load64_ext. intros x Hx. apply H.
  apply lookup_lt_Some in Hi. lia.
Qed.

(** ** Runs of pushes and pops *)

Lemma exec_pushes rs : forall s l,
  regs_ok s -> 8 * Z.of_nat (length rs) <= rsp s < 2 ^ 64 -> stack_has (ram s) (rsp s) l ->
  let s' := exec (PUSH <$> rs) s in
  exists m', s' = set_rsp (rsp s - 8 * Z.of_nat (length rs)) (set_ram m' s) /\
    stack_has m' (rsp s - 8 * Z.of_nat (length rs)) (reverse (gpr s <$> rs) ++ l) /\
    forall x, ~ rsp s - 8 * Z.of_nat (length rs) <= x < rsp s -> m' x = ram s x.
Proof.
  induction rs as [|r rs IH]; intros s l Hr Hsp Hl; cbn [fmap list_fmap length].
  - exists (ram s). rewrite Z.sub_0_r. split; [by destruct s|]. split; [done | done].
  - cbn [length] in Hsp. rewrite exec_cons. cbn [step]. unfold push_val.
    assert (usub (rsp s) 8 = rsp s - 8) as -> by (apply wrap_small; lia).
    set (s1 := set_rsp (rsp s - 8) (set_ram (store64 (ram s) (rsp s - 8) (gpr s r)) s)).
    assert (stack_has (ram s1) (rsp s1) (gpr s r :: l)) as Hl1.
    { apply stack_has_cons. cbn [ram rsp s1 set_rsp set_ram]. split; [apply load64_store64_eq, Hr|].
      replace (rsp s - 8 + 8) with (rsp s) by lia. eapply stack_has_ext; [|exact Hl].
      intros x Hx. unfold store64. ztest; cbn; done || lia. }
    destruct (IH s1 (gpr s r :: l)) as (m' & -> & Hs & Ho); [done | cbn [rsp s1 set_rsp]; lia | done |].
    exists m'. cbn [rsp s1 set_rsp set_ram gpr ram] in *.
    replace (rsp s - 8 - 8 * Z.of_nat (length rs)) with (rsp s - 8 * Z.of_nat (S (length rs))) in * by lia.
    split; [by destruct s|]. split.
    + rewrite reverse_cons, <- app_assoc. exact Hs.
    + intros x Hx. rewrite Ho by lia. unfold store64. ztest; cbn; done || lia.
Qed.

(** Registers after popping the words [vs] into [rs]. *)
Fixpoint pop_regs (f : reg -> Z) (rs : list reg) (vs : list Z) : reg -> Z :=
  match rs, vs with
  | r :: rs, v :: vs => pop_regs (upd f r v) rs vs
  | _, _ => f
  end.

Lemma exec_pops rs : forall s vs l, length rs = length vs ->
  0 <= rsp s -> rsp s + 8 * Z.of_nat (length rs) < 2 ^ 64 -> stack_has (ram s) (rsp s) (vs ++ l) ->
  exec (POP <$> rs) s = set_rsp (rsp s + 8 * Z.of_nat (length rs))
    (mk_cpu (pop_regs (gpr s) rs vs) (rsp s) (ram s) (rip s) (cs s) (ss s) (rflags s) (cr2 s) (cr3 s)).
Proof.
  induction rs as [|r rs IH]; intros s [|v vs] l Hlen H0 H1 Hs; cbn [length] in *; try done.
  - cbn. destruct s. unfold set_rsp. cbn. f_equal. lia.
  - cbn [fmap list_fmap app] in *. apply stack_has_cons in Hs as [Hv Hs]. rewrite exec_cons. cbn [step]. rewrite Hv.
    assert (uadd (rsp s) 8 = rsp s + 8) as -> by (apply wrap_small; lia).
    rewrite (IH _ vs l); [|lia | cbn; lia | cbn; lia | exact Hs].
    cbn [gpr rsp ram rip cs ss rflags cr2 cr3 set_rsp set_gpr pop_regs]. unfold set_rsp. cbn. f_equal. lia.
Qed.

(** ** Single steps on the stack *)

Lemma push_stack m sp v l : 8 <= sp < 2 ^ 64 -> u64 v -> stack_has m sp l ->
  stack_has (store64 m (sp - 8) v) (sp - 8) (v :: l).
Proof.
  intros Hsp Hv Hl. apply stack_has_cons. split; [by apply load64_store64_eq|].
  replace (sp - 8 + 8) with sp by lia. eapply stack_has_ext; [|exact Hl].
  intros x Hx. unfold store64. ztest; cbn; done || lia.
Qed.

(** A store elsewhere. *)
Lemma store_stack m a v sp l : a + 8 <= sp \/ sp + 8 * Z.of_nat (length l) <= a ->
  stack_has m sp l -> stack_has (store64 m a v) sp l.
Proof. intros H. apply stack_has_ext. intros x Hx. unfold store64. ztest; cbn; done || lia. Qed.

Lemma store64_out m a v x : ~ a <= x < a + 8 -> store64 m a v x = m x.
Proof. intros. unfold store64. ztest; cbn; done || lia. Qed.

Lemma usub_small a b : 0 <= b <= a -> a < 2 ^ 64 -> usub a b = a - b.
Proof. intros. apply wrap_small. lia. Qed.
Lemma uadd_small a b : 0 <= a -> 0 <= b -> a + b < 2 ^ 64 -> uadd a b = a + b.
Proof. intros. apply wrap_small. lia. Qed.

(** ** Calls of compiled code

    What the ABI promises about a call made in state [s]: the stack pointer and
    the callee-saved registers come back, and so do the caller's words in
    [lo, hi). *)
Record abi (f : cpu -> cpu) (s : cpu) (lo hi : Z) : Prop := {
  abi_rsp : rsp (f s) = rsp s;
  abi_saved r : callee_saved r = true -> gpr (f s) r = gpr s r;
  abi_mem x : lo <= x < hi -> ram (f s) x = ram s x
}.

(** The caller-saved registers hold anything after a call. *)
Definition clobber (junk : reg -> Z) (s : cpu) : cpu :=
  mk_cpu (fun r => if callee_saved r then gpr s r else junk r) (rsp s) (ram s) (rip s) (cs s) (ss s) (rflags s) (cr2 s) (cr3 s).
