(* ===== verification/Context.v ===== *)
(** Switching between tasks on x86_64 (src/kernel/src/arch/x86_64/context.rs and
    the selectors of gdt.rs): the assembly of [context_switch] and the trampolines,
    and the stacks that new tasks start on. *)
From Stdlib Require Import ZArith Lia.
From stdpp Require Import base option list numbers.
From S2P Require Import Prelude X86Asm.
Local Open Scope Z_scope.

(** gdt.rs *)
Definition KERNEL_CODE_SEL : Z := 0x08.
Definition KERNEL_DATA_SEL : Z := 0x10.
Definition USER_CODE_SEL : Z := Z.lor 0x20 3.
Definition USER_DATA_SEL : Z := Z.lor 0x18 3.

(** rdi = cur_sp, rsi = next_sp *)
Definition context_switch : list instr :=
  (PUSH <$> [RBX; RBP; R12; R13; R14; R15]) ++ [MOV_IND_RSP RDI; MOV_TO_RSP RSI] ++
  (POP <$> [R15; R14; R13; R12; RBP; RBX]) ++ [RET].

Definition user_enter_trampoline : list instr := [IRETQ].

Definition fork_enter_trampoline : list instr :=
  XOR_EAX :: (POP <$> [RDI; RSI; RDX; R10; R8; R9; RBX; RBP; R12; R13; R14; R15]) ++ [IRETQ].

(** [sp.add(i).write(v)] for the words of a new stack. *)
Fixpoint write_words (m : mem) (sp : Z) (l : list Z) : mem :=
  match l with [] => m | v :: l => write_words (store64 m sp v) (sp + 8) l end.

(** The end of the stack slice, rounded down. *)
Definition stack_end (base len : Z) : Z := Z.land (base + len) (Z.lnot 0xF).

Section init.
(** Addresses of the two trampolines. *)
Variables (user_tramp fork_tramp : Z).

Definition task_init_userspace_stack (m : mem) (base len user_rip user_rsp : Z) : Z * mem :=
  let sp := stack_end base len - 12 * 8 in
  (sp, write_words m sp
    [0; 0; 0; 0; 0; 0; user_tramp; user_rip; USER_CODE_SEL; 0x202; user_rsp; USER_DATA_SEL]).

Definition task_init_fork_stack (m : mem) (base len user_rip user_rsp a0 a1 a2 a3 a4 a5 : Z) (saved : list Z) : outcome (Z * mem) :=
  let sp := stack_end base len - 24 * 8 in
  b0 ← get saved 0; b1 ← get saved 1; b2 ← get saved 2; b3 ← get saved 3; b4 ← get saved 4; b5 ← get saved 5;
  Done (sp, write_words m sp
    [0; 0; 0; 0; 0; 0; fork_tramp; a0; a1; a2; a3; a4; a5; b0; b1; b2; b3; b4; b5;
     user_rip; USER_CODE_SEL; 0x202; user_rsp; USER_DATA_SEL]).

Definition task_init_stack (m : mem) (base len entry : Z) : Z * mem :=
  let sp := stack_end base len - 8 * 8 in
  (sp, write_words m sp [0; 0; 0; 0; 0; 0; entry; 0]).
End init.

(** ** The words of a new stack *)

Lemma write_words_out l : forall m sp x, ~ sp <= x < sp + 8 * Z.of_nat (length l) -> write_words m sp l x = m x.
Proof.
  induction l as [|v l IH]; intros m sp x Hx; cbn [write_words length] in *; [done|].
  rewrite IH by lia. unfold store64. ztest; cbn; done || lia.
Qed.

Lemma write_words_has l : Forall u64 l -> forall m sp, stack_has (write_words m sp l) sp l.
Proof.
  induction 1 as [|v l Hv _ IH]; intros m sp; [apply stack_has_nil|]. cbn [write_words].
  apply stack_has_cons. split; [|apply IH].
  transitivity (load64 (store64 m sp v) sp); [|by apply load64_store64_eq].
  apply load64_ext. intros x Hx. apply write_words_out. lia.
Qed.

Lemma stack_end_bounds base len : stack_end base len mod 16 = 0 /\ base + len - 16 < stack_end base len <= base + len.
Proof.
  unfold stack_end. rewrite <- Z.ldiff_land. change 0xF with (Z.ones 4). rewrite Z.ldiff_ones_r by lia.
  rewrite Z.shiftr_div_pow2, Z.shiftl_mul_pow2 by lia. change (2 ^ 4) with 16.
  pose proof (Z.div_mod (base + len) 16). pose proof (Z.mod_pos_bound (base + len) 16). split; [by apply Z.mod_mul | lia].
Qed.

(** ** What a switch does *)

(** The stack from which [context_switch] resumes a task: the six registers and
    the address it goes on at. *)
Definition resumes (m : mem) (sp : Z) (v15 v14 v13 v12 vbp vbx ret : Z) : Prop :=
  stack_has m sp [v15; v14; v13; v12; vbp; vbx; ret].

(** The memory of the task left: six registers under its return address, its
    stack pointer in [cur_sp]. *)
Lemma context_switch_spec s ret : regs_ok s -> 64 <= rsp s -> rsp s + 8 <= 2 ^ 64 ->
  load64 (ram s) (rsp s) = ret -> gpr s RDI + 8 <= rsp s - 48 \/ rsp s + 8 <= gpr s RDI ->
  exists m', let sp := rsp s - 48 in
    resumes m' sp (gpr s R15) (gpr s R14) (gpr s R13) (gpr s R12) (gpr s RBP) (gpr s RBX) ret /\
    load64 m' (gpr s RDI) = sp /\
    (forall x, ~ sp <= x < rsp s -> ~ gpr s RDI <= x < gpr s RDI + 8 -> m' x = ram s x) /\
    forall v15 v14 v13 v12 vbp vbx ret', 0 <= gpr s RSI -> gpr s RSI + 64 < 2 ^ 64 ->
      resumes m' (gpr s RSI) v15 v14 v13 v12 vbp vbx ret' ->
      exec context_switch s =
        mk_cpu (pop_regs (gpr s) [R15; R14; R13; R12; RBP; RBX] [v15; v14; v13; v12; vbp; vbx])
          (gpr s RSI + 56) m' ret' (cs s) (ss s) (rflags s) (cr2 s) (cr3 s).
Proof.
  intros Hr Hlo Hhi Hret Hcell. unfold context_switch.
  destruct (exec_pushes [RBX; RBP; R12; R13; R14; R15] s [ret]) as (m1 & E1 & H1 & O1); [done | cbn [length]; lia | |].
  { apply stack_has_cons. split; [done | apply stack_has_nil]. }
  cbn [length] in *. change (8 * Z.of_nat 6) with 48 in *.
  set (m' := store64 m1 (gpr s RDI) (rsp s - 48)). exists m'. cbn zeta. split_and!.
  - eapply stack_has_ext; [|exact H1]. cbn [length reverse rev_append fmap list_fmap app]. intros x Hx.
    unfold m', store64. ztest; cbn; done || lia.
  - apply load64_store64_eq. lia.
  - intros x Hx Hc. unfold m', store64. rewrite <- O1 by lia. ztest; cbn; done || lia.
  - intros v15 v14 v13 v12 vbp vbx ret' Hs0 Hs1 Hres. rewrite exec_app, E1, exec_app.
    cbn [exec foldl step set_ram set_rsp gpr rsp ram rip cs ss rflags cr2 cr3]. fold m'. fold (exec (POP <$> [R15; R14; R13; R12; RBP; RBX])).
    unfold resumes in Hres. change [v15; v14; v13; v12; vbp; vbx; ret'] with ([v15; v14; v13; v12; vbp; vbx] ++ [ret']) in Hres.
    rewrite exec_app, (exec_pops _ _ [v15; v14; v13; v12; vbp; vbx] [ret']); [|done | cbn; lia | cbn; lia | exact Hres].
    apply stack_has_app in Hres as [_ Hret']. apply stack_has_cons in Hret' as [Hret' _].
    cbn [exec foldl step set_rsp set_ram gpr rsp ram rip cs ss rflags cr2 cr3 length] in *.
    change (8 * Z.of_nat 6) with 48 in *. rewrite Hret'. f_equal. rewrite <- (wrap_small 64 (gpr s RSI + 56)) by lia. unfold uadd. f_equal. lia.
Qed.

(** The same, for whatever the stack at [next_sp] holds. *)
Lemma resumes_loads m sp : resumes m sp (load64 m sp) (load64 m (sp + 8)) (load64 m (sp + 16)) (load64 m (sp + 24))
  (load64 m (sp + 32)) (load64 m (sp + 40)) (load64 m (sp + 48)).
Proof.
  unfold resumes. rewrite !stack_has_cons. rewrite <- !Z.add_assoc. repeat (split; [done|]). apply stack_has_nil.
Qed.

(** Conditions under which a task may call [context_switch]. *)
Record can_switch (s : cpu) : Prop := {
  sw_regs : regs_ok s;
  sw_low : 64 <= rsp s;
  sw_high : rsp s + 8 <= 2 ^ 64;
  sw_cell : gpr s RDI + 8 <= rsp s - 48 \/ rsp s + 8 <= gpr s RDI;
  sw_next : gpr s RSI + 64 < 2 ^ 64
}.

(** C7: [context_switch] saves and restores a task: when task A calls it, and later
    another task B calls it with the stack pointer that was saved for A, with the
    words A left on its stack unchanged, A goes on at its return address, with its stack pointer
    as a return leaves it and every callee-saved register as it was; whatever B's
    registers and stack are. *)
Theorem context_switch_roundtrip (a b : cpu) :
  can_switch a -> can_switch b ->
  let a' := exec context_switch a in
  gpr b RSI = load64 (ram a') (gpr a RDI) ->
  (forall x, rsp a - 48 <= x < rsp a + 8 -> ram b x = ram a' x) ->
  (rsp b <= rsp a - 48 \/ rsp a + 8 <= rsp b - 48) ->
  (gpr b RDI + 8 <= rsp a - 48 \/ rsp a + 8 <= gpr b RDI) ->
  let b' := exec context_switch b in
  rip b' = load64 (ram a) (rsp a) /\ rsp b' = rsp a + 8 /\
  (forall r, callee_saved r = true -> gpr b' r = gpr a r) /\
  (forall r, callee_saved r = false -> gpr b' r = gpr b r).
Proof.
  intros [Ra La Ha Ca Na] [Rb Lb Hb Cb Nb] a' Hsp Hmem Hstk Hcell b'.
  destruct (context_switch_spec a _ Ra La Ha eq_refl Ca) as (ma & Hres & Hsaved & _ & Ea).
  assert (ram a' = ma) as Hram.
  { unfold a'. erewrite Ea; [done | apply Ra | lia | apply resumes_loads]. }
  rewrite Hram in *. rewrite Hsaved in Hsp. cbn zeta in *.
  destruct (context_switch_spec b _ Rb Lb Hb eq_refl Cb) as (mb & _ & _ & Ob & Eb).
  assert (resumes mb (gpr b RSI) (gpr a R15) (gpr a R14) (gpr a R13) (gpr a R12) (gpr a RBP) (gpr a RBX) (load64 (ram a) (rsp a))) as Hres'.
  { rewrite Hsp. eapply stack_has_ext; [|exact Hres]. cbn [length]. intros x Hx. rewrite Ob by lia. apply Hmem. lia. }
  unfold b'. erewrite Eb by (exact Hres' || lia). cbn [rip rsp gpr]. split_and!; [done | lia | |]; by intros [].
Qed.

Lemma pair_inj {A B} (a a' : A) (b b' : B) : (a, b) = (a', b') -> a = a' /\ b = b'.
Proof. by intros [= -> ->]. Qed.
Lemma Done_inj {A} (a b : A) : Done a = Done b -> a = b.
Proof. by intros [= ->]. Qed.

Ltac words := repeat (apply Forall_cons_2; [first [assumption | by vm_compute]|]); apply Forall_nil_2.

(** Switching to a stack that was laid out apart from the running one. *)
Lemma enter_stack s v15 v14 v13 v12 vbp vbx ret rest :
  can_switch s -> 0 <= gpr s RSI ->
  stack_has (ram s) (gpr s RSI) ([v15; v14; v13; v12; vbp; vbx; ret] ++ rest) ->
  (gpr s RSI + 56 + 8 * Z.of_nat (length rest) <= rsp s - 48 \/ rsp s <= gpr s RSI) ->
  (gpr s RDI + 8 <= gpr s RSI \/ gpr s RSI + 56 + 8 * Z.of_nat (length rest) <= gpr s RDI) ->
  exists m', exec context_switch s =
      mk_cpu (pop_regs (gpr s) [R15; R14; R13; R12; RBP; RBX] [v15; v14; v13; v12; vbp; vbx])
        (gpr s RSI + 56) m' ret (cs s) (ss s) (rflags s) (cr2 s) (cr3 s) /\
    stack_has m' (gpr s RSI + 56) rest.
Proof.
  intros [Hr Hl Hh Hc Hn] H0 Hs Hd1 Hd2.
  destruct (context_switch_spec s _ Hr Hl Hh eq_refl Hc) as (m' & _ & _ & Ho & E). exists m'.
  assert (stack_has m' (gpr s RSI) ([v15; v14; v13; v12; vbp; vbx; ret] ++ rest)) as Hs'.
  { eapply stack_has_ext; [|exact Hs]. rewrite length_app. cbn [length]. intros x Hx. apply Ho; lia. }
  apply stack_has_app in Hs' as [Ha Hb]. split; [by apply E | exact Hb].
Qed.

(** Where a new stack is: in its slice, away from the running stack and from [cur_sp]. *)
Record new_stack (s : cpu) (base len : Z) : Prop := {
  ns_switch : can_switch s;
  ns_base : 0 <= base;
  ns_len : 256 <= len;
  ns_end : base + len + 64 < 2 ^ 64;
  ns_running : base + len <= rsp s - 48 \/ rsp s + 8 <= base;
  ns_cell : gpr s RDI + 8 <= base \/ base + len <= gpr s RDI
}.

(** A new user task: [task_init_userspace_stack] lays out the words so that
    switching to the stack pointer it returns and going through the trampoline
    enters ring 3 at [user_rip] with stack [user_rsp], interrupts on, the user's
    code and data segments, and zero in every callee-saved register. *)
Theorem userspace_stack_enters_user (s : cpu) (m0 : mem) (tramp base len user_rip user_rsp : Z) :
  new_stack s base len -> u64 tramp -> u64 user_rip -> u64 user_rsp ->
  task_init_userspace_stack tramp m0 base len user_rip user_rsp = (gpr s RSI, ram s) ->
  let s1 := exec context_switch s in
  let s2 := exec user_enter_trampoline s1 in
  rip s1 = tramp /\ rip s2 = user_rip /\ rsp s2 = user_rsp /\ cs s2 = 0x23 /\ ss s2 = 0x1B /\ rflags s2 = 0x202 /\
  forall r, callee_saved r = true -> gpr s2 r = 0.
Proof.
  intros [Hsw Hb Hl He Hr Hc] Ht Hip Hsp E s1 s2. unfold task_init_userspace_stack in E.
  pose proof (stack_end_bounds base len) as [_ Hend]. apply pair_inj in E as [Esp Em].
  assert (stack_has (ram s) (gpr s RSI) ([0; 0; 0; 0; 0; 0; tramp] ++ [user_rip; USER_CODE_SEL; 0x202; user_rsp; USER_DATA_SEL])) as Hs.
  { rewrite <- Em, <- Esp. apply write_words_has. words. }
  destruct (enter_stack s 0 0 0 0 0 0 tramp _ Hsw ltac:(lia) Hs) as (m' & E1 & H1); [cbn [length]; lia..|].
  unfold s2, s1. rewrite E1. cbn [user_enter_trampoline exec foldl step rip rsp ram gpr cs ss rflags].
  assert (forall i, 0 <= i < 5 -> uadd (gpr s RSI + 56) (8 * i) = gpr s RSI + 56 + 8 * i) as Ea by (intros; apply wrap_small; lia).
  rewrite !Ea by lia.
  rewrite (stack_word _ _ _ 0 _ H1), (stack_word _ _ _ 1 _ H1), (stack_word _ _ _ 2 _ H1), (stack_word _ _ _ 3 _ H1), (stack_word _ _ _ 4 _ H1) by done. repeat (split; [done|]). by intros [].
Qed.

(** C8: A forked task: the stack of [task_init_fork_stack] enters ring 3 where the
    parent called, with 0 in rax, with the six argument registers and the six callee-saved
    registers of the parent at the call, on the parent's user stack. *)
Theorem fork_stack_enters_child (s : cpu) (m0 : mem) (tramp base len user_rip user_rsp a0 a1 a2 a3 a4 a5 : Z) (saved : list Z) :
  new_stack s base len -> u64 tramp -> u64 user_rip -> u64 user_rsp -> Forall u64 [a0; a1; a2; a3; a4; a5] ->
  Forall u64 saved -> length saved = 6%nat ->
  task_init_fork_stack tramp m0 base len user_rip user_rsp a0 a1 a2 a3 a4 a5 saved = Done (gpr s RSI, ram s) ->
  let s1 := exec context_switch s in
  let s2 := exec fork_enter_trampoline s1 in
  rip s1 = tramp /\ rip s2 = user_rip /\ rsp s2 = user_rsp /\ cs s2 = 0x23 /\ ss s2 = 0x1B /\ rflags s2 = 0x202 /\
  gpr s2 RAX = 0 /\ gpr s2 <$> [RDI; RSI; RDX; R10; R8; R9] = [a0; a1; a2; a3; a4; a5] /\
  gpr s2 <$> [RBX; RBP; R12; R13; R14; R15] = saved.
Proof.
  intros [Hsw Hb Hl He Hr Hc] Ht Hip Hsp Hargs Hsv Hsl E s1 s2. unfold task_init_fork_stack in E.
  destruct saved as [|b0 [|b1 [|b2 [|b3 [|b4 [|b5 []]]]]]]; try done. cbn [get lookup list_lookup] in E. mred_in E. apply Done_inj in E.
  pose proof (stack_end_bounds base len) as [_ Hend]. apply pair_inj in E as [Esp Em].
  set (regs := [a0; a1; a2; a3; a4; a5; b0; b1; b2; b3; b4; b5]).
  set (frame := [user_rip; USER_CODE_SEL; 0x202; user_rsp; USER_DATA_SEL]).
  assert (stack_has (ram s) (gpr s RSI) ([0; 0; 0; 0; 0; 0; tramp] ++ regs ++ frame)) as Hs.
  { rewrite <- Em, <- Esp. apply write_words_has. repeat apply Forall_app_2; [words | |].
    - change regs with ([a0; a1; a2; a3; a4; a5] ++ [b0; b1; b2; b3; b4; b5]). by apply Forall_app_2.
    - words. }
  destruct (enter_stack s 0 0 0 0 0 0 tramp _ Hsw ltac:(lia) Hs) as (m' & E1 & H1); [cbn [length app regs frame]; lia..|].
  unfold s2, s1. rewrite E1. unfold fork_enter_trampoline. rewrite exec_cons, exec_app.
  match goal with |- context [exec (POP <$> ?rs) ?st] => rewrite (exec_pops rs st regs frame); [|done | cbn; lia | cbn; lia | exact H1] end.
  apply stack_has_app in H1 as [_ H2]. change (8 * Z.of_nat (length regs)) with 96 in H2.
  cbn [step set_gpr set_rsp length exec foldl rip rsp ram gpr cs ss rflags cr2 cr3]. change (8 * Z.of_nat 12) with 96.
  assert (forall i, 0 <= i < 5 -> uadd (gpr s RSI + 56 + 96) (8 * i) = gpr s RSI + 56 + 96 + 8 * i) as Ea by (intros; apply wrap_small; lia).
  rewrite !Ea by lia.
  rewrite (stack_word _ _ _ 0 _ H2), (stack_word _ _ _ 1 _ H2), (stack_word _ _ _ 2 _ H2), (stack_word _ _ _ 3 _ H2), (stack_word _ _ _ 4 _ H2) by done. by repeat (split; [done|]).
Qed.

(** A new kernel task: the stack of [task_init_stack] enters [entry] with zero in
    the callee-saved registers and the stack pointer 8 below a multiple of 16, as
    the ABI has it at function entry, inside the slice. *)
Theorem kernel_stack_enters_entry (s : cpu) (m0 : mem) (base len entry : Z) :
  new_stack s base len -> u64 entry -> task_init_stack m0 base len entry = (gpr s RSI, ram s) ->
  let s1 := exec context_switch s in
  rip s1 = entry /\ rsp s1 mod 16 = 8 /\ base <= rsp s1 < base + len /\ forall r, callee_saved r = true -> gpr s1 r = 0.
Proof.
  intros [Hsw Hb Hl He Hr Hc] Hent E s1. unfold task_init_stack in E.
  pose proof (stack_end_bounds base len) as [Hmod Hend]. apply pair_inj in E as [Esp Em].
  assert (stack_has (ram s) (gpr s RSI) ([0; 0; 0; 0; 0; 0; entry] ++ [0])) as Hs.
  { rewrite <- Em, <- Esp. apply write_words_has. words. }
  destruct (enter_stack s 0 0 0 0 0 0 entry _ Hsw ltac:(lia) Hs) as (m' & E1 & _); [cbn [length]; lia..|].
  unfold s1. rewrite E1. cbn [rip rsp gpr]. split; [done|]. split; [|split; [lia | by intros []]].
  rewrite <- Esp. replace (stack_end base len - 8 * 8 + 56) with (stack_end base len + (-1) * 16 + 8) by lia.
  rewrite <- Zplus_mod_idemp_l, Z.mod_add, Hmod by lia. done.
Qed.

(** ** Witnesses *)

Definition demo_gpr (rdi rsi : Z) : reg -> Z := fun r =>
  match r with RDI => rdi | RSI => rsi | RBX => 11 | RBP => 22 | R12 => 33 | R13 => 44 | R14 => 55 | R15 => 66 | _ => 7 end.
Definition demo_cpu (sp rdi rsi : Z) (m : mem) : cpu := mk_cpu (demo_gpr rdi rsi) sp m 0x4000 0x08 0x10 0x202 0 0.
Definition demo_a : cpu := demo_cpu 0x8000 0x1000 0x9000 (store64 (fun _ => 0) 0x8000 0x4242).
Definition demo_b : cpu :=
  mk_cpu (upd (fun _ => 99) RDI 0x1008) 0xA000 (ram (exec context_switch demo_a)) 0x5000 0x08 0x10 0x202 0 0.
Definition demo_b' : cpu := set_gpr RSI 0x7FD0 demo_b.

Lemma ram_set_gpr r v s : ram (set_gpr r v s) = ram s.
Proof. done. Qed.
Lemma ram_mk g sp m a b c d e f : ram (mk_cpu g sp m a b c d e f) = m.
Proof. done. Qed.
Lemma demo_same_ram : ram demo_b' = ram (exec context_switch demo_a).
Proof. unfold demo_b'. rewrite ram_set_gpr. unfold demo_b. by rewrite ram_mk. Qed.

Lemma demo_can_switch sp rdi rsi m : u64 rdi -> u64 rsi -> 64 <= sp -> sp + 8 <= 2 ^ 64 -> rsi + 64 < 2 ^ 64 ->
  (rdi + 8 <= sp - 48 \/ sp + 8 <= rdi) -> can_switch (demo_cpu sp rdi rsi m).
Proof. intros. split; cbn [rsp gpr demo_cpu demo_gpr]; try done. intros []; cbn; done || (unfold u64; lia). Qed.

Lemma context_switch_roundtrip_witness :
  let b' := exec context_switch demo_b' in
  rip b' = 0x4242 /\ rsp b' = 0x8008 /\ gpr b' R12 = 33 /\ gpr b' RCX = 99.
Proof.
  destruct (context_switch_roundtrip demo_a demo_b') as (H1 & H2 & H3 & H4).
  - apply demo_can_switch; unfold u64; lia.
  - split; cbn [rsp gpr demo_b' demo_b set_gpr]; [|lia | lia | left; vm_compute; discriminate | by vm_compute].
    intros []; by vm_compute.
  - by vm_compute.
  - intros x _. by rewrite demo_same_ram.
  - right. by vm_compute.
  - left. by vm_compute.
  - split; [rewrite H1; by vm_compute|]. split; [exact H2|]. split; [by rewrite H3 | by rewrite H4].
Defined.

(** A scheduler on a stack at 0x8000, a new stack of 8 pages at 0x10000. *)
Definition demo_new (start : Z * mem) : cpu := demo_cpu 0x8000 0x1000 (fst start) (snd start).

Lemma demo_new_stack start : u64 (fst start) -> fst start + 64 < 2 ^ 64 -> new_stack (demo_new start) 0x10000 0x8000.
Proof.
  intros. split; cbn [rsp gpr demo_new demo_cpu demo_gpr]; try lia. apply demo_can_switch; done || (unfold u64; lia).
Qed.

Lemma userspace_stack_enters_user_witness :
  let s := demo_new (task_init_userspace_stack 0x7000 (fun _ => 0) 0x10000 0x8000 0x8000001000 0x8000010000) in
  let s2 := exec user_enter_trampoline (exec context_switch s) in
  rip s2 = 0x8000001000 /\ rsp s2 = 0x8000010000 /\ cs s2 = 0x23.
Proof.
  destruct (userspace_stack_enters_user
    (demo_new (task_init_userspace_stack 0x7000 (fun _ => 0) 0x10000 0x8000 0x8000001000 0x8000010000))
    (fun _ => 0) 0x7000 0x10000 0x8000 0x8000001000 0x8000010000) as (_ & H1 & H2 & H3 & _).
  - apply demo_new_stack; by vm_compute.
  - by vm_compute.
  - by vm_compute.
  - by vm_compute.
  - reflexivity.
  - by split_and!.
Defined.

Definition demo_fork : Z * mem :=
  match task_init_fork_stack 0x7000 (fun _ => 0) 0x10000 0x8000 0x8000001000 0x8000010000 1 2 3 4 5 6 [7; 8; 9; 10; 11; 12] with
  | Done x => x | Panic => (0, fun _ => 0) end.

Lemma fork_stack_enters_child_witness :
  let s2 := exec fork_enter_trampoline (exec context_switch (demo_new demo_fork)) in
  rip s2 = 0x8000001000 /\ gpr s2 RAX = 0 /\ gpr s2 <$> [RDI; RSI; RDX; R10; R8; R9] = [1; 2; 3; 4; 5; 6] /\
  gpr s2 <$> [RBX; RBP; R12; R13; R14; R15] = [7; 8; 9; 10; 11; 12].
Proof.
  destruct (fork_stack_enters_child (demo_new demo_fork) (fun _ => 0) 0x7000 0x10000 0x8000 0x8000001000 0x8000010000
    1 2 3 4 5 6 [7; 8; 9; 10; 11; 12]) as (_ & H1 & _ & _ & _ & _ & H2 & H3 & H4).
  - apply demo_new_stack; by vm_compute.
  - by vm_compute.
  - by vm_compute.
  - by vm_compute.
  - words.
  - words.
  - done.
  - reflexivity.
  - by split_and!.
Defined.

Lemma kernel_stack_enters_entry_witness :
  let s := demo_new (task_init_stack (fun _ => 0) 0x10000 0x8000 0x6000) in
  rip (exec context_switch s) = 0x6000 /\ rsp (exec context_switch s) mod 16 = 8.
Proof.
  destruct (kernel_stack_enters_entry (demo_new (task_init_stack (fun _ => 0) 0x10000 0x8000 0x6000)) (fun _ => 0) 0x10000 0x8000 0x6000)
    as (H1 & H2 & _).
  - apply demo_new_stack; by vm_compute.
  - by vm_compute.
  - reflexivity.
  - by split.
Defined.
