(* ===== verification/RiscvContext.v ===== *)
(** Switching between tasks on RISC-V (src/kernel/src/arch/riscv64/context.rs): the assembly of
    [context_switch] and of the trampoline, and the stacks that new tasks start on. *)
From Stdlib Require Import ZArith Lia.
From stdpp Require Import base option list numbers.
From S2P Require Import Prelude X86Asm Context SlotAsm RiscvAsm.
Local Open Scope Z_scope.

Module Rv.
(** The frame of a suspended task: ra, s0 .. s11. *)
Definition saved_slots : list slot_of :=
  [(0, RA); (1, S0); (2, S1); (3, S2); (4, S3); (5, S4); (6, S5); (7, S6); (8, S7); (9, S8); (10, S9); (11, S10); (12, S11)].
(** a0 = cur_sp, a1 = next_sp *)
Definition context_switch : list rinstr :=
  [ADDI SP SP (-104)] ++ (save_slot <$> saved_slots) ++ [SD SP 0 A0; MV SP A1] ++ (load_slot <$> saved_slots) ++ [ADDI SP SP 104; JR_RA].

(** The 13 words of a new stack. *)
Definition task_init_stack (m : mem) (base len entry : Z) : Z * mem :=
  let sp := stack_end base len - 13 * 8 in
  (sp, write_words m sp (entry :: replicate 12 0)).
Definition user_enter_trampoline : list rinstr := [CSRW SEPC S1; CSRW SSTATUS S2; MV SP S0; SRET].
Definition USER_SSTATUS : Z := Z.lor (Z.shiftl 1 5) (Z.shiftl 1 18).
(** [tramp]: the address of the trampoline. *)
Definition task_init_userspace_stack (tramp : Z) (m : mem) (base len user_rip user_rsp : Z) : Z * mem :=
  let sp := stack_end base len - 13 * 8 in
  (sp, write_words m sp ([tramp; user_rsp; user_rip; USER_SSTATUS] ++ replicate 9 0)).
(** The registers of the parent are not passed on (src/kernel/src/arch/mod.rs). *)
Definition task_init_fork_stack (tramp : Z) (m : mem) (base len user_rip user_rsp : Z) (regs callee_saved : list Z) : Z * mem :=
  task_init_userspace_stack tramp m base len user_rip user_rsp.
(** [csrw sscratch] *)
Definition set_kernel_stack (sp : Z) (h : hart) : hart := set_csr SSCRATCH sp h.
End Rv.

(** ** What a switch does *)

Record rv_can_switch (h : hart) : Prop := {
  rv_regs : forall r, SlotAsm.u64 (xr h r);
  rv_low : 104 <= xr h SP;
  rv_cell : xr h A0 + 8 <= xr h SP - 104 \/ xr h SP <= xr h A0;
  rv_next : xr h A1 + 104 < 2 ^ 64
}.
Definition rv_saved (r : xreg) : bool := bool_decide (r ∈ snd <$> Rv.saved_slots).

Lemma saved_in : slots_in 13 Rv.saved_slots.
Proof. repeat (constructor; [cbn; lia|]). constructor. Qed.
Lemma saved_nodup : NoDup (fst <$> Rv.saved_slots) /\ NoDup (snd <$> Rv.saved_slots).
Proof. split; apply (bool_decide_unpack _); vm_compute; exact I. Qed.
Lemma saved_no_sp : SP ∉ snd <$> Rv.saved_slots.
Proof. apply (bool_decide_unpack _). vm_compute. exact I. Qed.
Lemma saved_ne i r : (i, r) ∈ Rv.saved_slots -> r <> SP.
Proof. intros Hi ->. apply saved_no_sp, list_elem_of_fmap. by exists (i, SP). Qed.
Lemma saved_slot r : rv_saved r = true -> exists i, (i, r) ∈ Rv.saved_slots.
Proof. unfold rv_saved. rewrite bool_decide_eq_true. intros ([i q] & -> & H)%list_elem_of_fmap. by exists i. Qed.

Lemma rv_switch_spec h : rv_can_switch h -> exists m', let sp := xr h SP - 104 in
  (forall i r, (i, r) ∈ Rv.saved_slots -> slot_value m' sp i = xr h r) /\
  load64 m' (xr h A0) = sp /\
  (forall x, ~ sp <= x < xr h SP -> ~ xr h A0 <= x < xr h A0 + 8 -> m' x = hmem h x) /\
  let h' := rexec Rv.context_switch h in
  xr h' SP = xr h A1 + 104 /\ (forall i r, (i, r) ∈ Rv.saved_slots -> xr h' r = slot_value m' (xr h A1) i) /\
  (forall r, r <> SP -> rv_saved r = false -> xr h' r = xr h r) /\
  hpc h' = slot_value m' (xr h A1) 0 /\ hmem h' = m' /\ csrs h' = csrs h /\ in_user h' = in_user h.
Proof.
  intros [Hr Hlo Hcell Hnx]. pose proof (Hr SP) as Bsp. pose proof (Hr A1) as B1. pose proof (Hr A0) as B0. unfold SlotAsm.u64 in Bsp, B1, B0.
  unfold Rv.context_switch. rewrite !rexec_app.
  set (h1 := set_x SP (xr h SP - 104) h).
  assert (rexec [ADDI SP SP (-104)] h = h1) as ->.
  { change (rexec [ADDI SP SP (-104)] h) with (set_x SP (uadd (xr h SP) (-104)) h). unfold h1. do 2 f_equal. apply wrap_small. lia. }
  assert (xr h1 SP = xr h SP - 104) as Esp by apply set_x_eq.
  assert (forall r, r <> SP -> xr h1 r = xr h r) as Ex by (intros r Hne; by apply set_x_ne).
  destruct (rexec_saves 13 Rv.saved_slots h1 saved_in) as (m1 & -> & H1 & H2 & H3); [rewrite Esp; lia.. | | apply saved_nodup |].
  { intros r. destruct (decide (r = SP)) as [->|Hne]; [rewrite Esp; unfold SlotAsm.u64; lia | rewrite Ex by done; apply Hr]. }
  rewrite Esp in *. set (m' := store64 m1 (xr h A0) (xr h SP - 104)). set (h2 := set_x SP (xr h A1) (set_hmem m' h1)).
  assert (rexec [SD SP 0 A0; MV SP A1] (set_hmem m1 h1) = h2) as ->.
  { rewrite !rexec_cons. cbn [rstep]. cbn [set_hmem xr]. rewrite Esp, (Ex A0), (Ex A1) by done.
    assert (uadd (xr h A0) 0 = xr h A0) as -> by (unfold uadd; rewrite Z.add_0_r; by apply wrap_small). reflexivity. }
  assert (xr h2 SP = xr h A1) as E2 by apply set_x_eq.
  rewrite (rexec_loads 13) by (rewrite ?E2; apply saved_in || apply saved_no_sp || lia). rewrite E2. change (hmem h2) with m'. set (f := loaded _ _ _ _).
  assert (f SP = xr h A1) as Ef by (unfold f; by rewrite loaded_other by apply saved_no_sp).
  exists m'. cbv zeta. split; [|split; [|split]].
  - intros i r Hi. rewrite <- (Ex r) by (by eapply saved_ne). rewrite <- (H1 i r Hi).
    unfold slot_value, m'. apply load64_store64_ne. pose proof (slots_range _ _ _ _ saved_in Hi). lia.
  - apply load64_store64_eq. lia.
  - intros x Hx Hc. unfold m'. rewrite X86Asm.store64_out by lia. apply H3. lia.
  - rewrite !rexec_cons. cbn [rstep]. cbn [rexec foldl]. cbn [xr set_x csrs hmem hpc in_user]. rewrite Ef.
    assert (uadd (xr h A1) 104 = xr h A1 + 104) as -> by (apply wrap_small; lia). pose proof (proj2 saved_nodup) as Hnd.
    split; [by rewrite decide_True|]. split; [|split; [|split]].
    + intros i r Hi. rewrite decide_False by (by eapply saved_ne). by apply loaded_slot.
    + intros r Hne Hs. unfold rv_saved in Hs. apply bool_decide_eq_false_1 in Hs. rewrite decide_False by done. unfold f. rewrite loaded_other by done.
      unfold h2. rewrite set_x_ne by done. apply (Ex r Hne).
    + rewrite decide_False by done. apply loaded_slot; [done|]. left.
    + done.
Qed.

(** [context_switch] on RISC-V saves and restores a task: when task A calls it, and later
    another task B calls it with the stack pointer that was saved for A, with the words A left
    on its stack unchanged, A goes on at its return address, with its stack pointer and every
    callee-saved register as they were; the other registers and the control registers are B's. *)
Theorem rv_context_switch_roundtrip (a b : hart) : rv_can_switch a -> rv_can_switch b ->
  let a' := rexec Rv.context_switch a in
  xr b A1 = load64 (hmem a') (xr a A0) ->
  (forall x, xr a SP - 104 <= x < xr a SP -> hmem b x = hmem a' x) ->
  (xr b SP <= xr a SP - 104 \/ xr a SP <= xr b SP - 104) ->
  (xr b A0 + 8 <= xr a SP - 104 \/ xr a SP <= xr b A0) ->
  let b' := rexec Rv.context_switch b in
  hpc b' = xr a RA /\ xr b' SP = xr a SP /\ (forall r, rv_saved r = true -> xr b' r = xr a r) /\
  (forall r, r <> SP -> rv_saved r = false -> xr b' r = xr b r) /\ csrs b' = csrs b.
Proof.
  intros Ha Hb a' Hnext Hmem Hstk Hcell b'.
  destruct (rv_switch_spec a Ha) as (ma & Fa & Ca & _ & _ & _ & _ & _ & Ma & _). fold a' in Ma. rewrite Ma in *. rewrite Ca in Hnext.
  destruct (rv_switch_spec b Hb) as (mb & _ & _ & Ob & Sb & Rb & Xb & Pb & _ & Cb & _). fold b' in Sb, Rb, Xb, Pb, Cb.
  assert (forall i r, (i, r) ∈ Rv.saved_slots -> slot_value mb (xr a SP - 104) i = xr a r) as Hslots.
  { intros i r Hi. rewrite <- (Fa i r Hi). pose proof (slots_range _ _ _ _ saved_in Hi). apply load64_ext. intros x Hx. rewrite Ob by lia. apply Hmem. lia. }
  rewrite Hnext in *. split_and!; [|lia| |done|done].
  - rewrite Pb. apply Hslots. left.
  - intros r Hr. destruct (saved_slot r Hr) as [i Hi]. rewrite (Rb i r Hi). by apply Hslots.
Qed.

(** ** New tasks *)

(** Where a new stack is: in its slice, away from the running stack and from [cur_sp]. *)
Record rv_new_stack (h : hart) (base len : Z) : Prop := {
  rn_switch : rv_can_switch h;
  rn_base : 0 <= base;
  rn_len : 128 <= len;
  rn_running : base + len <= xr h SP - 104 \/ xr h SP <= base;
  rn_cell : xr h A0 + 8 <= base \/ base + len <= xr h A0
}.
(** Switching to 13 words laid out as a new stack. *)
Lemma enter_words h base len m0 l : rv_new_stack h base len -> length l = 13%nat -> Forall X86Asm.u64 l ->
  xr h A1 = stack_end base len - 13 * 8 -> hmem h = write_words m0 (xr h A1) l ->
  let h' := rexec Rv.context_switch h in
  (forall i r v, (i, r) ∈ Rv.saved_slots -> l !! Z.to_nat i = Some v -> xr h' r = v) /\ (forall v, l !! 0%nat = Some v -> hpc h' = v) /\
  xr h' SP = stack_end base len /\ csrs h' = csrs h.
Proof.
  intros [Hsw Hb Hl Hrun Hcell] Hlen Hu E Hm. pose proof (stack_end_bounds base len) as [_ Hend].
  destruct (rv_switch_spec h Hsw) as (m' & _ & _ & O & S & R & _ & P & _ & C & _). cbv zeta.
  assert (forall i v, 0 <= i < 13 -> l !! Z.to_nat i = Some v -> slot_value m' (xr h A1) i = v) as Hslot.
  { intros i v Hi Hv. pose proof (write_words_has l Hu m0 (xr h A1)) as Hw.
    rewrite <- (stack_word _ _ _ i v Hw (proj1 Hi) Hv). unfold slot_value. replace (i * 8) with (8 * i) by lia. rewrite <- Hm.
    apply load64_ext. intros x Hx. apply O; lia. }
  split; [|split; [|split; [lia | exact C]]].
  - intros i r v Hi Hv. rewrite (R i r Hi). apply Hslot; [exact (slots_range _ _ _ _ saved_in Hi) | exact Hv].
  - intros v Hv. rewrite P. by apply Hslot.
Qed.

(** What the trampoline does. *)
Lemma trampoline_enters s : let u := rexec Rv.user_enter_trampoline s in
  hpc u = xr s S1 /\ xr u SP = xr s S0 /\ in_user u = negb (Z.testbit (xr s S2) SPP) /\
  csrs u SSTATUS = sret_status (xr s S2) /\ csrs u SSCRATCH = csrs s SSCRATCH.
Proof. by split_and!. Qed.

Lemma trampoline_regs s r : r <> SP -> xr (rexec Rv.user_enter_trampoline s) r = xr s r.
Proof. intros Hr. change (xr (set_x SP (xr s S0) s) r = xr s r). by apply set_x_ne. Qed.
(** Switching to a new user stack and going through the trampoline. *)
Lemma user_stack_enters h m0 tramp base len user_rip user_rsp :
  rv_new_stack h base len -> X86Asm.u64 tramp -> X86Asm.u64 user_rip -> X86Asm.u64 user_rsp ->
  Rv.task_init_userspace_stack tramp m0 base len user_rip user_rsp = (xr h A1, hmem h) ->
  let s := rexec Rv.context_switch h in
  let u := rexec Rv.user_enter_trampoline s in
  hpc s = tramp /\ hpc u = user_rip /\ xr u SP = user_rsp /\ in_user u = true /\
  csrs u SSTATUS = sret_status Rv.USER_SSTATUS /\ csrs u SSCRATCH = csrs h SSCRATCH /\
  (forall r, r <> SP -> rv_saved r = false -> xr u r = xr h r) /\
  (xr u S0 = user_rsp /\ xr u S1 = user_rip /\ forall r, r ∈ [S3; S4; S5; S6; S7; S8; S9; S10; S11] -> xr u r = 0).
Proof.
  intros Hn Ht Hi Hs [Esp Em]%pair_inj. rewrite Esp in Em. symmetry in Esp, Em.
  pose proof (fun Hl Hu => enter_words h base len m0 _ Hn Hl Hu Esp Em) as H. destruct H as (R & P & _ & C); [done | cbn [app replicate]; words |].
  destruct (rv_switch_spec h (rn_switch _ _ _ Hn)) as (m' & _ & _ & _ & _ & _ & O & _).
  cbv zeta. set (s := rexec Rv.context_switch h) in *.
  assert (forall i r v, Rv.saved_slots !! i = Some (Z.of_nat i, r) -> ([tramp; user_rsp; user_rip; Rv.USER_SSTATUS] ++ replicate 9 0) !! i = Some v -> xr s r = v) as R'.
  { intros i r v Hi' Hv. apply (R (Z.of_nat i) r); [by eapply list_elem_of_lookup_2 | by rewrite Nat2Z.id]. }
  pose proof (R' 1%nat S0 _ eq_refl eq_refl) as E0. pose proof (R' 2%nat S1 _ eq_refl eq_refl) as E1. pose proof (R' 3%nat S2 _ eq_refl eq_refl) as E2.
  pose proof (trampoline_regs s) as Et.
  destruct (trampoline_enters s) as (-> & -> & -> & -> & ->). rewrite !Et by done. rewrite E0, E1, E2, C.
  clearbody s. split; [by apply P|]. do 5 (split; [reflexivity|]). split; [intros r Hr Hs'; rewrite Et by exact Hr; by apply O|].
  split; [reflexivity|]. split; [reflexivity|]. intros r [i Hj]%list_elem_of_lookup. rewrite Et by (intros ->; do 9 (destruct i as [|i]; [discriminate|]); discriminate).
  apply (R' (4 + i)%nat); do 9 (destruct i as [|i]; [by injection Hj as <-|]); done.
Qed.

(** A new user task on RISC-V: switching to the stack that [task_init_userspace_stack] lays out and
    going through the trampoline enters user mode at the program's entry, on its stack, with interrupts
    on and user pages readable by the kernel, and leaves the kernel stack for the next trap as [schedule] set it. *)
Theorem rv_userspace_stack_enters_user (h : hart) (m0 : mem) (tramp base len user_rip user_rsp : Z) :
  rv_new_stack h base len -> X86Asm.u64 tramp -> X86Asm.u64 user_rip -> X86Asm.u64 user_rsp ->
  Rv.task_init_userspace_stack tramp m0 base len user_rip user_rsp = (xr h A1, hmem h) ->
  let s := rexec Rv.context_switch h in
  let u := rexec Rv.user_enter_trampoline s in
  hpc s = tramp /\ hpc u = user_rip /\ xr u SP = user_rsp /\ in_user u = true /\
  Z.testbit (csrs u SSTATUS) SIE = true /\ Z.testbit (csrs u SSTATUS) 18 = true /\ csrs u SSCRATCH = csrs h SSCRATCH.
Proof.
  intros Hn Ht Hi Hs E. destruct (user_stack_enters _ _ _ _ _ _ _ Hn Ht Hi Hs E) as (H1 & H2 & H3 & H4 & Es & H5 & _).
  cbv zeta. rewrite Es. do 4 (split; [assumption|]). split; [reflexivity|]. split; [reflexivity | exact H5].
Qed.
(** The child of a fork on RISC-V goes on where the parent called, on the stack it was
    given, but not with the parent's registers: whatever the parent's argument and saved registers hold, the
    child's a0, where fork answers 0, is the kernel address of the stack pointer of the
    task that was switched out; s0 and s1 hold its stack pointer and program counter, s3 to s11 hold 0. *)
Theorem rv_fork_child_registers (h : hart) (m0 : mem) (tramp base len user_rip user_rsp : Z) (regs callee_saved : list Z) :
  rv_new_stack h base len -> X86Asm.u64 tramp -> X86Asm.u64 user_rip -> X86Asm.u64 user_rsp ->
  Rv.task_init_fork_stack tramp m0 base len user_rip user_rsp regs callee_saved = (xr h A1, hmem h) ->
  let u := rexec Rv.user_enter_trampoline (rexec Rv.context_switch h) in
  hpc u = user_rip /\ xr u SP = user_rsp /\ in_user u = true /\ xr u A0 = xr h A0 /\
  xr u S0 = user_rsp /\ xr u S1 = user_rip /\ forall r, r ∈ [S3; S4; S5; S6; S7; S8; S9; S10; S11] -> xr u r = 0.
Proof.
  intros Hn Ht Hi Hs E. destruct (user_stack_enters _ _ _ _ _ _ _ Hn Ht Hi Hs E) as (_ & H1 & H2 & H3 & _ & _ & O & H4).
  cbv zeta. split; [exact H1|]. split; [exact H2|]. split; [exact H3|]. split; [by apply O | exact H4].
Qed.
(** A new kernel task starts at its entry, on the top of its stack, with zero in the saved registers. *)
Lemma rv_stack_enters_kernel (h : hart) (m0 : mem) (base len entry : Z) : rv_new_stack h base len -> X86Asm.u64 entry ->
  Rv.task_init_stack m0 base len entry = (xr h A1, hmem h) ->
  let s := rexec Rv.context_switch h in
  hpc s = entry /\ xr s SP = stack_end base len /\ (forall i r, (i, r) ∈ Rv.saved_slots -> i <> 0 -> xr s r = 0) /\ csrs s = csrs h.
Proof.
  intros Hn He [Esp Em]%pair_inj. rewrite Esp in Em. symmetry in Esp, Em.
  pose proof (fun Hl Hu => enter_words h base len m0 _ Hn Hl Hu Esp Em) as H. destruct H as (R & P & Q & C); [done | cbn [replicate]; words |].
  cbv zeta. split; [by apply P|]. split; [done|]. split; [|done]. intros i r Hi H0. apply (R i r); [done|].
  pose proof (slots_range _ _ _ _ saved_in Hi). replace (Z.to_nat i) with (S (Z.to_nat (i - 1))) by lia. cbn [lookup list_lookup].
  change (replicate 12 0 !! Z.to_nat (i - 1) = Some 0). apply lookup_replicate. lia.
Qed.

(** Two harts that run one after the other. *)
Definition demo_hart (sp a0 a1 k : Z) (m : mem) : hart :=
  mk_hart (fun r => match r with SP => sp | A0 => a0 | A1 => a1 | RA => 0x80200000 + k | _ => k end) (fun _ => 0) m 0 false.
Definition demo_task_a : hart := demo_hart 0x80010000 0x80000100 0x80030000 1 (fun _ => 0).
Definition demo_task_b : hart := demo_hart 0x80020000 0x80000108 (0x80010000 - 104) 2 (hmem (rexec Rv.context_switch demo_task_a)).
Lemma demo_hart_mem sp a0 a1 k m : hmem (demo_hart sp a0 a1 k m) = m.
Proof. done. Qed.
Lemma rv_demo_can_switch sp a0 a1 k m : 104 <= sp < 2 ^ 63 -> 0 <= a0 -> a0 + 8 <= sp - 104 -> 0 <= a1 < 2 ^ 63 -> 0 <= k < 2 ^ 32 -> rv_can_switch (demo_hart sp a0 a1 k m).
Proof. intros. constructor; [intros []; cbn; unfold SlotAsm.u64; lia | cbn; lia..]. Qed.
Lemma rv_context_switch_roundtrip_witness : let b' := rexec Rv.context_switch demo_task_b in
  hpc b' = 0x80200001 /\ xr b' SP = 0x80010000 /\ (forall r, rv_saved r = true -> xr b' r = xr demo_task_a r) /\
  (forall r, r <> SP -> rv_saved r = false -> xr b' r = xr demo_task_b r) /\ csrs b' = csrs demo_task_b.
Proof.
  apply (rv_context_switch_roundtrip demo_task_a demo_task_b); [apply rv_demo_can_switch; lia | apply rv_demo_can_switch; lia | vm_compute; reflexivity | intros x _; unfold demo_task_b at 1; by rewrite demo_hart_mem | right; vm_compute; discriminate | left; vm_compute; discriminate].
Defined.
Definition demo_new_stack : Z * mem := Rv.task_init_userspace_stack 0x80201000 (fun _ => 0) 0x80040000 4096 0x400000 0x7fff0000.
Definition demo_starter : hart := demo_hart 0x80010000 0x80000100 (fst demo_new_stack) 1 (snd demo_new_stack).
Lemma demo_starter_stack : rv_new_stack demo_starter 0x80040000 4096.
Proof.
  constructor; [apply rv_demo_can_switch; [lia | lia | lia | vm_compute; split; [discriminate | reflexivity] | lia] | lia | lia | right; vm_compute; discriminate | left; vm_compute; discriminate].
Qed.
Lemma rv_userspace_stack_enters_user_witness :
  let s := rexec Rv.context_switch demo_starter in
  let u := rexec Rv.user_enter_trampoline s in
  hpc s = 0x80201000 /\ hpc u = 0x400000 /\ xr u SP = 0x7fff0000 /\ in_user u = true /\
  Z.testbit (csrs u SSTATUS) SIE = true /\ Z.testbit (csrs u SSTATUS) 18 = true /\ csrs u SSCRATCH = csrs demo_starter SSCRATCH.
Proof.
  apply (rv_userspace_stack_enters_user demo_starter (fun _ => 0) 0x80201000 0x80040000 4096 0x400000 0x7fff0000);
    [apply demo_starter_stack | by vm_compute | by vm_compute | by vm_compute | reflexivity].
Defined.
Lemma rv_fork_child_registers_witness :
  let u := rexec Rv.user_enter_trampoline (rexec Rv.context_switch demo_starter) in
  hpc u = 0x400000 /\ xr u SP = 0x7fff0000 /\ in_user u = true /\ xr u A0 = 0x80000100 /\
  xr u S0 = 0x7fff0000 /\ xr u S1 = 0x400000 /\ forall r, r ∈ [S3; S4; S5; S6; S7; S8; S9; S10; S11] -> xr u r = 0.
Proof.
  apply (rv_fork_child_registers demo_starter (fun _ => 0) 0x80201000 0x80040000 4096 0x400000 0x7fff0000 [1; 2; 3; 4; 5; 6] [7; 8; 9; 10; 11; 12]);
    [apply demo_starter_stack | by vm_compute | by vm_compute | by vm_compute | reflexivity].
Defined.
