(* ===== verification/RiscvTrap.v ===== *)
(** Entering and leaving the RISC-V kernel (src/kernel/src/arch/riscv64/trap.rs, [trap_entry]): the
    trap frame the assembly saves, and what it restores from the frame as the handler leaves it.

    The compiled [trap_handler] that the stub calls is a function on the hart here; what the
    kernel does in it is in RiscvHandler.v. *)
From Stdlib Require Import ZArith Lia.
From stdpp Require Import base option list numbers.
From S2P Require Import Prelude SlotAsm RiscvAsm.
Local Open Scope Z_scope.

(** [TrapFrame]: 33 words; the registers in the order of its fields, then sepc and sstatus. *)
Definition frame_size : Z := 33 * 8.
Definition frame_slots : list slot_of :=
  [(0, RA); (1, SP); (2, GP); (3, TP); (4, T0); (5, T1); (6, T2); (7, S0); (8, S1); (9, A0); (10, A1); (11, A2); (12, A3); (13, A4);
   (14, A5); (15, A6); (16, A7); (17, S2); (18, S3); (19, S4); (20, S5); (21, S6); (22, S7); (23, S8); (24, S9); (25, S10); (26, S11);
   (27, T3); (28, T4); (29, T5); (30, T6)].
Definition SEPC_SLOT : Z := 31.
Definition SSTATUS_SLOT : Z := 32.

(** From supervisor mode: the frame is below the stack pointer. *)
Definition smode_entry : list rinstr :=
  [CSRRW SP SSCRATCH SP; ADDI SP SP (- frame_size); SD T0 (4 * 8) SP; ADDI T0 SP frame_size] ++ (save_slot <$> [(0, RA); (1, T0); (2, GP); (3, TP)]).
(** From user mode: the frame is on the kernel stack of the task. *)
Definition umode_entry : list rinstr :=
  [ADDI SP SP (- frame_size); SD T0 (4 * 8) SP; CSRRW_ZERO T0 SSCRATCH] ++ (save_slot <$> [(0, RA); (1, T0); (2, GP); (3, TP)]).
Definition common_save : list rinstr :=
  (save_slot <$> drop 5 frame_slots) ++
  [CSRR T0 SEPC; SD T0 (SEPC_SLOT * 8) SP; CSRR T0 SSTATUS; SD T0 (SSTATUS_SLOT * 8) SP; MV A0 SP].
(** Up to [call trap_handler]; [bnez sp, 1f] is the test. *)
Definition trap_prologue (h : hart) : hart :=
  let h := rexec [CSRRW SP SSCRATCH SP] h in
  let h := if negb (xr h SP =? 0) then rexec umode_entry h else rexec smode_entry h in
  rexec common_save h.

Definition restore_slots : list slot_of := (0, RA) :: drop 2 frame_slots.
(** From the return of [trap_handler] on; [bnez t0, 3f] is the test. *)
Definition trap_epilogue (h : hart) : hart :=
  let h := rexec [LD T0 (SEPC_SLOT * 8) SP; CSRW SEPC T0; LD T0 (SSTATUS_SLOT * 8) SP; CSRW SSTATUS T0; ANDI T0 T0 256] h in
  let h := if negb (xr h T0 =? 0) then h else rexec [ADDI T0 SP frame_size; CSRW SSCRATCH T0] h in
  rexec ((load_slot <$> restore_slots) ++ [LD SP (1 * 8) SP; SRET]) h.
Definition trap_entry (trap_handler : hart -> hart) (h : hart) : hart :=
  trap_epilogue (rexec [RCALL trap_handler] (trap_prologue h)).

(** ** What the frame holds *)

Definition frame_has (m : mem) (base : Z) (F : list (Z * Z)) : Prop := forall i v, (i, v) ∈ F -> slot_value m base i = v.
Definition slot_vals (h : hart) (l : list slot_of) : list (Z * Z) := (fun x => (x.1, xr h x.2)) <$> l.

Lemma frame_has_app m base F G : frame_has m base (F ++ G) <-> frame_has m base F /\ frame_has m base G.
Proof.
  split; [intros H; split; intros i v Hi; apply H, elem_of_app; tauto | intros [H1 H2] i v [Hi|Hi]%elem_of_app; [by apply H1 | by apply H2]].
Qed.
(** More slots saved: those of before stay. *)
Lemma save_frame l h base F : xr h SP = base -> 0 <= base -> base + frame_size <= 2 ^ 64 -> (forall r, u64 (xr h r)) ->
  slots_in 33 l -> NoDup (fst <$> l) -> (forall i, i ∈ fst <$> l -> i ∉ fst <$> F) -> frame_has (hmem h) base F ->
  exists m', rexec (save_slot <$> l) h = set_hmem m' h /\ frame_has m' base (F ++ slot_vals h l) /\
    forall x, ~ base <= x < base + frame_size -> m' x = hmem h x.
Proof.
  intros <- H0 Hb Hr Hl Hd Hdis HF. unfold frame_size in *. destruct (rexec_saves 33 l h Hl) as (m' & E & H1 & H2 & H3); [lia | lia | done | done |].
  exists m'. split; [exact E|]. split; [|exact H3]. apply frame_has_app. split.
  - intros i v Hi. rewrite H2; [by apply HF|]. intros Hin. apply (Hdis i Hin). apply list_elem_of_fmap. by exists (i, v).
  - intros i v ([j r] & [= -> ->] & Hin)%list_elem_of_fmap. by apply H1.
Qed.

(** The stub is entered with the kernel stack below [K]: from user mode sscratch holds [K], from
    supervisor mode it is 0 and [K] is the stack pointer. *)
Record trapped (h : hart) (user : bool) (K : Z) : Prop := {
  tr_regs : forall r, u64 (xr h r);
  tr_sepc : u64 (csrs h SEPC);
  tr_sstatus : u64 (csrs h SSTATUS);
  tr_stack : frame_size <= K < 2 ^ 64;
  tr_origin : if user then csrs h SSCRATCH = K else csrs h SSCRATCH = 0 /\ xr h SP = K
}.
(** The frame of a trap. *)
Definition frame_of (h : hart) : list (Z * Z) := slot_vals h frame_slots ++ [(SEPC_SLOT, csrs h SEPC); (SSTATUS_SLOT, csrs h SSTATUS)].

(** After the part that depends on where the trap came from. *)
Record entered (h e : hart) (base : Z) : Prop := {
  en_sp : xr e SP = base;
  en_reg : forall r, r <> SP -> r <> T0 -> xr e r = xr h r;
  en_t0 : u64 (xr e T0);
  en_csr : csrs e SSCRATCH = 0 /\ csrs e SEPC = csrs h SEPC /\ csrs e SSTATUS = csrs h SSTATUS;
  en_frame : frame_has (hmem e) base [(4, xr h T0); (0, xr h RA); (1, xr h SP); (2, xr h GP); (3, xr h TP)];
  en_mem : forall x, ~ base <= x < base + frame_size -> hmem e x = hmem h x
}.
(** The four registers after t0: here t0 holds the interrupted stack pointer, and its own value is saved. *)
Lemma save_first h g base : xr g SP = base -> xr g T0 = xr h SP -> (forall r, r <> SP -> r <> T0 -> xr g r = xr h r) ->
  csrs g SSCRATCH = 0 /\ csrs g SEPC = csrs h SEPC /\ csrs g SSTATUS = csrs h SSTATUS ->
  (forall r, u64 (xr h r)) -> 0 <= base -> base + frame_size < 2 ^ 64 ->
  hmem g = store64 (hmem h) (base + 4 * 8) (xr h T0) ->
  entered h (rexec (save_slot <$> [(0, RA); (1, T0); (2, GP); (3, TP)]) g) base.
Proof.
  intros Esp Et Ex Hc Hr H0 Hb Em. assert (forall r, u64 (xr g r)) as Hg.
  { intros r. destruct (decide (r = SP)) as [->|]; [rewrite Esp; unfold u64, frame_size in *; lia|].
    destruct (decide (r = T0)) as [->|]; [rewrite Et; apply Hr|]. rewrite Ex by done. apply Hr. }
  destruct (save_frame [(0, RA); (1, T0); (2, GP); (3, TP)] g base [(4, xr h T0)]) as (m' & E & HF & Ho); try done; [lia | | | | |].
  - repeat (constructor; [cbn; lia|]). constructor.
  - apply (bool_decide_unpack _). vm_compute. exact I.
  - intros i Hi Hi'. cbn in Hi'. apply list_elem_of_singleton in Hi'. subst i. revert Hi. apply (bool_decide_unpack _). vm_compute. exact I.
  - intros i v Hi. apply list_elem_of_singleton in Hi as [= -> ->]. rewrite Em. unfold slot_value. apply load64_store64_eq, Hr.
  - rewrite E. constructor; try done.
    + apply Hg.
    + replace (slot_vals g [(0, RA); (1, T0); (2, GP); (3, TP)]) with [(0, xr h RA); (1, xr h SP); (2, xr h GP); (3, xr h TP)] in HF; [exact HF|].
      unfold slot_vals. cbn. by rewrite Et, !Ex by done.
    + intros x Hx. cbn. rewrite Ho by done. rewrite Em. unfold store64. unfold frame_size in *. ztest; cbn; done || lia.
Qed.

Lemma stack_down K : frame_size <= K < 2 ^ 64 -> uadd K (- frame_size) = K - frame_size.
Proof. intros. unfold frame_size in *. apply wrap_small. lia. Qed.
Lemma slot_addr K i : frame_size <= K < 2 ^ 64 -> 0 <= i < 33 -> uadd (K - frame_size) (i * 8) = K - frame_size + i * 8.
Proof. intros. unfold frame_size in *. apply wrap_small. lia. Qed.
Lemma entry_from_user h K : trapped h true K -> entered h (rexec umode_entry (rexec [CSRRW SP SSCRATCH SP] h)) (K - frame_size).
Proof.
  intros [Hr He Hs Hk Ho]. unfold umode_entry. rewrite rexec_app, !rexec_cons.
  cbn [rexec foldl]. cbn [rstep]. hart_reduce. rewrite Ho, stack_down, slot_addr by (done || lia).
  apply save_first; hart_reduce; try done; unfold frame_size in *; try lia.
  intros r H1 H2. hart_reduce. done.
Qed.
Lemma entry_from_kernel h K : trapped h false K -> entered h (rexec smode_entry (rexec [CSRRW SP SSCRATCH SP] h)) (K - frame_size).
Proof.
  intros [Hr He Hs Hk [Ho Hsp]]. unfold smode_entry. rewrite rexec_app, !rexec_cons.
  cbn [rexec foldl]. cbn [rstep]. hart_reduce. rewrite Hsp, stack_down, slot_addr by (done || lia).
  assert (uadd (K - frame_size) frame_size = K) as EK by (unfold frame_size in *; rewrite <- (wrap_small 64 K) at 2 by lia; unfold uadd; f_equal; lia).
  apply save_first; hart_reduce; try done; unfold frame_size in *; try lia.
  intros r H1 H2. hart_reduce. done.
Qed.

Lemma frame_store m base F j v : frame_has m base F -> j ∉ fst <$> F -> u64 v -> frame_has (store64 m (base + j * 8) v) base (F ++ [(j, v)]).
Proof.
  intros HF Hj Hv. apply frame_has_app. split.
  - intros i w Hi. rewrite slot_store by done. rewrite decide_False; [by apply HF|]. intros ->. apply Hj, list_elem_of_fmap. by exists (j, w).
  - intros i w [= -> ->]%list_elem_of_singleton. rewrite slot_store by done. by rewrite decide_True.
Qed.
Definition rest_slots : list slot_of := drop 5 frame_slots.
Lemma rest_range i r : (i, r) ∈ rest_slots -> 5 <= i <= 30.
Proof. assert (Forall (fun x => 5 <= x.1 <= 30) rest_slots) as H by (repeat (constructor; [cbn; lia|]); constructor). intros [j Hj]%list_elem_of_lookup_1. exact (Forall_lookup_1 _ _ _ _ H Hj). Qed.
Lemma rest_regs i r : (i, r) ∈ rest_slots -> r <> SP /\ r <> T0.
Proof.
  intros Hi. assert ((SP ∉ snd <$> rest_slots) /\ (T0 ∉ snd <$> rest_slots)) as [H1 H2] by (split; apply (bool_decide_unpack _); vm_compute; exact I).
  split; intros ->; [apply H1 | apply H2]; apply list_elem_of_fmap; first [by exists (i, SP) | by exists (i, T0)].
Qed.
(** The frame, in the order the stub fills it. *)
Lemma common_saved h e base : entered h e base -> (forall r, u64 (xr h r)) -> u64 (csrs h SEPC) -> u64 (csrs h SSTATUS) -> 0 <= base -> base + frame_size < 2 ^ 64 ->
  let c := rexec common_save e in
  xr c SP = base /\ xr c A0 = base /\ csrs c SSCRATCH = 0 /\
  frame_has (hmem c) base ([(4, xr h T0); (0, xr h RA); (1, xr h SP); (2, xr h GP); (3, xr h TP)] ++ slot_vals h rest_slots ++
    [(SEPC_SLOT, csrs h SEPC)] ++ [(SSTATUS_SLOT, csrs h SSTATUS)]) /\
  forall x, ~ base <= x < base + frame_size -> hmem c x = hmem h x.
Proof.
  intros [Esp Ex Et (C1 & C2 & C3) HF Hm] Hr He Hs H0 Hb. unfold common_save. fold rest_slots. cbv zeta. rewrite rexec_app.
  pose proof (fun H1 H2 H3 H4 => save_frame rest_slots e base _ Esp H0 ltac:(lia) H1 H2 H3 H4 HF) as Hsave. destruct Hsave as (m' & -> & HF' & Ho).
  - intros r. destruct (decide (r = SP)) as [->|]; [rewrite Esp; unfold u64, frame_size in *; lia|].
    destruct (decide (r = T0)) as [->|]; [done|]. rewrite Ex by done. apply Hr.
  - repeat (constructor; [cbn; lia|]). constructor.
  - apply (bool_decide_unpack _). vm_compute. exact I.
  - intros i ([j r] & -> & Hi)%list_elem_of_fmap Hin. apply rest_range in Hi. cbn in Hin.
    repeat (apply elem_of_cons in Hin as [->|Hin]; [lia|]). by apply elem_of_nil in Hin.
  - assert (slot_vals e rest_slots = slot_vals h rest_slots) as Ev.
    { apply list_fmap_ext. intros j [i r] Hj%list_elem_of_lookup_2. apply rest_regs in Hj as [? ?]. cbn. by rewrite Ex. }
    rewrite Ev in HF'. set (F1 := _ ++ slot_vals h rest_slots) in HF'.
    assert (forall j, 30 < j -> j ∉ fst <$> F1) as Hnew.
    { intros j Hj Hin. unfold F1 in Hin. rewrite fmap_app in Hin. apply elem_of_app in Hin as [Hin|Hin].
      - cbn in Hin. repeat (apply elem_of_cons in Hin as [->|Hin]; [lia|]). by apply elem_of_nil in Hin.
      - unfold slot_vals in Hin. rewrite <- list_fmap_compose in Hin. apply list_elem_of_fmap in Hin as ([i r] & -> & Hi). apply rest_range in Hi. cbn in Hj. lia. }
    rewrite !rexec_cons. cbn [rexec foldl]. cbn [rstep]. hart_reduce. rewrite Esp, C2, C3.
    assert (forall i, 0 <= i < 33 -> uadd base (i * 8) = base + i * 8) as Ha by (intros; unfold frame_size in *; apply wrap_small; lia).
    rewrite !Ha by (unfold SEPC_SLOT, SSTATUS_SLOT; lia). split; [done|]. split; [done|]. split; [done|]. split.
    + rewrite app_assoc, app_assoc. fold F1. apply frame_store; [apply frame_store; [exact HF' | apply Hnew; done | done] | | done].
      rewrite fmap_app. intros [Hin|Hin]%elem_of_app; [by apply (Hnew SSTATUS_SLOT) | by apply list_elem_of_singleton in Hin].
    + intros x Hx. rewrite <- Hm by done. rewrite <- Ho by done. unfold store64, SEPC_SLOT, SSTATUS_SLOT, frame_size in *. ztest; cbn; done || lia.
Qed.

(** ** What is restored *)

Lemma restore_ok : slots_in 33 restore_slots /\ NoDup (snd <$> restore_slots) /\ SP ∉ (snd <$> restore_slots).
Proof.
  split; [repeat (constructor; [cbn; lia|]); constructor|]. split; apply (bool_decide_unpack _); vm_compute; exact I.
Qed.
Lemma frame_slot_cases i r : (i, r) ∈ frame_slots -> (i, r) = (1, SP) \/ (i, r) ∈ restore_slots.
Proof.
  unfold restore_slots, frame_slots. cbn [drop]. intros H. apply elem_of_cons in H as [->|H]; [right; left|].
  apply elem_of_cons in H as [->|H]; [by left|]. right. by right.
Qed.
Lemma frame_in : slots_in 33 frame_slots.
Proof. repeat (constructor; [cbn; lia|]); constructor. Qed.
Lemma every_slot r : exists i, (i, r) ∈ frame_slots.
Proof.
  assert (r ∈ (snd <$> frame_slots)) as H by (destruct r; apply (bool_decide_unpack _); vm_compute; exact I).
  apply list_elem_of_fmap in H as ([i q] & -> & H). by exists i.
Qed.
(** The last part, from a state whose stack pointer is at the frame. *)
Lemma restore_run g base (w := slot_value (hmem g) base) : xr g SP = base -> 0 <= base -> base + frame_size < 2 ^ 64 ->
  let t := rexec ((load_slot <$> restore_slots) ++ [LD SP (1 * 8) SP; SRET]) g in
  (forall i r, (i, r) ∈ frame_slots -> xr t r = w i) /\ hpc t = csrs g SEPC /\ in_user t = negb (Z.testbit (csrs g SSTATUS) SPP) /\
  csrs t SSTATUS = sret_status (csrs g SSTATUS) /\ csrs t SSCRATCH = csrs g SSCRATCH /\ hmem t = hmem g.
Proof.
  intros Esp H0 Hb. destruct restore_ok as (Hin & Hnd & Hsp). unfold frame_size in Hb. cbv zeta.
  rewrite rexec_app, (rexec_loads 33) by (rewrite ?Esp; done || lia). rewrite Esp. rewrite !rexec_cons. cbn [rexec foldl]. cbn [rstep].
  set (f := loaded restore_slots (hmem g) base (xr g)). assert (f SP = base) as Ef by (unfold f; by rewrite loaded_other).
  cbn [xr csrs hmem hpc in_user set_x set_csr]. rewrite Ef. assert (uadd base (1 * 8) = base + 1 * 8) as -> by (apply wrap_small; lia).
  split; [|by rewrite decide_True].
  intros i r Hi. destruct (frame_slot_cases i r Hi) as [[= -> ->]|Hr]; [by rewrite decide_True|].
  rewrite decide_False; [by apply loaded_slot|]. intros ->. apply Hsp, list_elem_of_fmap. by exists (i, SP).
Qed.
Lemma epilogue_run d base (w := slot_value (hmem d) base) : xr d SP = base -> 0 <= base -> base + frame_size < 2 ^ 64 ->
  let t := trap_epilogue d in
  (forall i r, (i, r) ∈ frame_slots -> xr t r = w i) /\ hpc t = w SEPC_SLOT /\ in_user t = negb (Z.testbit (w SSTATUS_SLOT) SPP) /\
  csrs t SSTATUS = sret_status (w SSTATUS_SLOT) /\
  csrs t SSCRATCH = (if Z.testbit (w SSTATUS_SLOT) SPP then csrs d SSCRATCH else base + frame_size) /\ hmem t = hmem d.
Proof.
  intros Esp H0 Hb. unfold trap_epilogue. cbv zeta.
  assert (forall i, 0 <= i < 33 -> uadd base (i * 8) = base + i * 8) as Ha by (intros; unfold frame_size in *; apply wrap_small; lia).
  set (g0 := rexec [LD T0 (SEPC_SLOT * 8) SP; _; _; _; _] d).
  assert (xr g0 T0 = Z.land (w SSTATUS_SLOT) 256 /\ xr g0 SP = base /\ csrs g0 SEPC = w SEPC_SLOT /\ csrs g0 SSTATUS = w SSTATUS_SLOT /\
    csrs g0 SSCRATCH = csrs d SSCRATCH /\ hmem g0 = hmem d) as (E1 & E2 & E3 & E4 & E5 & E6).
  { unfold g0. rewrite !rexec_cons. cbn [rexec foldl]. cbn [rstep]. hart_reduce. rewrite Esp, !Ha by (unfold SEPC_SLOT, SSTATUS_SLOT; lia). done. }
  clearbody g0. rewrite E1. change 256 with (Z.shiftl 1 SPP). rewrite land_bit_zero, negb_involutive by (unfold SPP; lia).
  destruct (Z.testbit (w SSTATUS_SLOT) SPP) eqn:Espp.
  - destruct (restore_run g0 base E2 H0 Hb) as (R & P & U & S & C & M). rewrite E6 in R. rewrite P, U, S, C, M, E3, E4, E5, E6, Espp. done.
  - set (g1 := rexec [ADDI T0 SP frame_size; CSRW SSCRATCH T0] g0).
    assert (xr g1 SP = base /\ csrs g1 SEPC = w SEPC_SLOT /\ csrs g1 SSTATUS = w SSTATUS_SLOT /\ csrs g1 SSCRATCH = base + frame_size /\ hmem g1 = hmem d)
      as (F2 & F3 & F4 & F5 & F6).
    { unfold g1. rewrite !rexec_cons. cbn [rexec foldl]. cbn [rstep]. hart_reduce. rewrite E2.
      split; [done|]. split; [done|]. split; [done|]. split; [apply wrap_small; unfold frame_size in *; lia | done]. }
    clearbody g1. destruct (restore_run g1 base F2 H0 Hb) as (R & P & U & S & C & M). rewrite F6 in R. rewrite P, U, S, C, M, F3, F4, F5, F6, Espp. done.
Qed.

(** C24: the RISC-V trap stub, entered from user or from supervisor mode: it calls the handler with
    sscratch 0 and, in the 33 words below [K] and nowhere else, the interrupted registers, pc and
    status; and when the handler returns, every register, the pc, the status and the mode are what the frame then
    says, and sscratch is [K] again before user mode; so a handler that leaves the frame alone is
    transparent: all 31 registers and the pc are as they were. *)
Theorem trap_entry_exact (h : hart) (user : bool) (K : Z) (handler : hart -> hart) : trapped h user K ->
  let base := K - frame_size in
  let c := trap_prologue h in
  xr c SP = base /\ xr c A0 = base /\ csrs c SSCRATCH = 0 /\ frame_has (hmem c) base (frame_of h) /\
  (forall x, ~ base <= x < K -> hmem c x = hmem h x) /\
  (xr (handler c) SP = base ->
    let w := slot_value (hmem (handler c)) base in
    let t := trap_entry handler h in
    (forall i r, (i, r) ∈ frame_slots -> xr t r = w i) /\ hpc t = w SEPC_SLOT /\
    in_user t = negb (Z.testbit (w SSTATUS_SLOT) SPP) /\ csrs t SSTATUS = sret_status (w SSTATUS_SLOT) /\
    csrs t SSCRATCH = (if Z.testbit (w SSTATUS_SLOT) SPP then csrs (handler c) SSCRATCH else K) /\ hmem t = hmem (handler c) /\
    ((forall x, base <= x < K -> hmem (handler c) x = hmem c x) -> (forall r, xr t r = xr h r) /\ hpc t = csrs h SEPC)).
Proof.
  intros Ht base c. pose proof Ht as [Hr He Hs Hk Ho]. assert (K = base + frame_size) as EK by (unfold base; lia).
  assert (exists e, c = rexec common_save e /\ entered h e base) as (e & Ec & Hent).
  { unfold c, trap_prologue. eexists. split; [reflexivity|].
    assert (xr (rexec [CSRRW SP SSCRATCH SP] h) SP = csrs h SSCRATCH) as -> by (rewrite rexec_cons; cbn [rexec foldl rstep]; by hart_reduce).
    destruct user.
    - rewrite Ho, (proj2 (Z.eqb_neq K 0)) by (unfold frame_size in *; lia). by apply entry_from_user.
    - destruct Ho as [-> _]. by apply entry_from_kernel. }
  destruct (common_saved h e base Hent Hr He Hs) as (C1 & C2 & C3 & CF & CM); [unfold base; lia | lia |]. rewrite <- Ec in *.
  assert (frame_has (hmem c) base (frame_of h)) as HF.
  { intros i v Hi. apply CF. revert Hi. unfold frame_of, slot_vals. cbn [fmap list_fmap frame_slots rest_slots drop fst snd app].
    rewrite !elem_of_cons. tauto. }
  split; [done|]. split; [done|]. split; [done|]. split; [done|]. split.
  - intros x Hx. apply CM. by rewrite <- EK.
  - intros Hsp. pose proof (epilogue_run (handler c) base Hsp) as Hep. cbv zeta in Hep. rewrite <- EK in Hep.
    destruct Hep as (R & P & U & S & C & M); [unfold base; lia | lia |]. do 6 (split; [assumption|]). intros Hsame.
    assert (forall i v, 0 <= i < 33 -> (i, v) ∈ frame_of h -> slot_value (hmem (handler c)) base i = v) as Hw.
    { intros i v Hi Hin. rewrite <- (HF i v Hin). unfold slot_value. apply load64_ext. intros x Hx. apply Hsame. unfold frame_size in *. lia. }
    split.
    + intros r. destruct (every_slot r) as [i Hi]. etransitivity; [exact (R i r Hi)|]. apply Hw; [exact (slots_range _ _ _ _ frame_in Hi)|].
      apply elem_of_app. left. apply list_elem_of_fmap. by exists (i, r).
    + etransitivity; [exact P|]. apply Hw; [unfold SEPC_SLOT; lia|]. apply elem_of_app. right. left.
Qed.

Definition demo_user : hart :=
  mk_hart (fun r => match r with SP => 0x7fff0000 | A7 => 39 | _ => 5 end)
    (fun c => match c with SEPC => 0x400010 | SSTATUS => 0x40020 | SSCRATCH => 0x80010000 end) (fun _ => 0) 0x80200000 false.
(** A handler that answers 7 in a0. *)
Definition demo_handler (c : hart) : hart := set_hmem (store64 (hmem c) (xr c A0 + 9 * 8) 7) c.
Lemma demo_trapped : trapped demo_user true 0x80010000.
Proof. constructor; [intros []; cbn; unfold u64; lia | cbn; unfold u64; lia | cbn; unfold u64; lia | unfold frame_size; lia | done]. Qed.
Lemma trap_entry_exact_witness : let t := trap_entry demo_handler demo_user in
  xr t A0 = 7 /\ xr t A7 = 39 /\ xr t SP = 0x7fff0000 /\ hpc t = 0x400010 /\ in_user t = true /\ csrs t SSCRATCH = 0x80010000.
Proof.
  destruct (trap_entry_exact demo_user true 0x80010000 demo_handler demo_trapped) as (_ & _ & _ & _ & _ & H).
  destruct H as (R & P & U & _ & C & _ & _); [vm_compute; reflexivity|].
  split; [rewrite (R 9 A0) by (do 9 right; left); vm_compute; reflexivity|].
  split; [rewrite (R 16 A7) by (do 16 right; left); vm_compute; reflexivity|].
  split; [rewrite (R 1 SP) by (right; left); vm_compute; reflexivity|].
  split; [rewrite P; vm_compute; reflexivity|]. split; [rewrite U; vm_compute; reflexivity|]. rewrite C. vm_compute. reflexivity.
Defined.
