(* ===== verification/Gdt.v ===== *)
(** The segments of x86_64 (src/kernel/src/arch/x86_64/gdt.rs) and the registers of SYSCALL
    (src/kernel/src/arch/x86_64/mod.rs, [setup_syscall]): the descriptor table as [init] builds it,
    and what the processor decodes from it.

    The address of the task-state segment and of the stubs are arguments; loading the tables
    (lgdt, ltr, wrmsr) is not modelled, what is loaded is. *)
From Stdlib Require Import ZArith Lia.
From stdpp Require Import base option list numbers.
From S2P Require Import Prelude X86Asm Context.
Local Open Scope Z_scope.

Record GdtEntry := mk_gdt { limit_low : Z; base_low : Z; base_mid : Z; access : Z; gran : Z; base_high : Z }.
Definition GdtEntry_null : GdtEntry := mk_gdt 0 0 0 0 0 0.
Definition GdtEntry_new (base limit access gran : Z) : GdtEntry :=
  mk_gdt (Z.land limit 0xFFFF) (Z.land base 0xFFFF) (Z.land (Z.shiftr base 16) 0xFF) access
    (Z.lor (Z.land gran 0xF0) (Z.land (Z.shiftr limit 16) 0x0F)) (Z.land (Z.shiftr base 24) 0xFF).
(** The packed record in memory, and the u64 read from it. *)
Definition GdtEntry_bytes (e : GdtEntry) : bytes :=
  to_le 2 (limit_low e) ++ to_le 2 (base_low e) ++ [base_mid e; access e; gran e; base_high e].
Definition GdtEntry_raw (e : GdtEntry) : Z := from_le (GdtEntry_bytes e).

Definition GDT : list GdtEntry :=
  [GdtEntry_null; GdtEntry_new 0 0xFFFFF 0x9A 0xA0; GdtEntry_new 0 0xFFFFF 0x92 0xC0;
   GdtEntry_new 0 0xFFFFF 0xF2 0xC0; GdtEntry_new 0 0xFFFFF 0xFA 0xA0].

Record Tss := mk_tss { rsp0 : Z; rsp1 : Z; rsp2 : Z; ist : list Z; iomap_base : Z }.
Definition Tss_bytes (t : Tss) : bytes :=
  to_le 4 0 ++ to_le 8 (rsp0 t) ++ to_le 8 (rsp1 t) ++ to_le 8 (rsp2 t) ++ to_le 8 0 ++ concat (to_le 8 <$> ist t) ++
  to_le 8 0 ++ to_le 2 0 ++ to_le 2 (iomap_base t).
(** [size_of::<Tss>()] *)
Definition Tss_size : Z := 4 + 3 * 8 + 8 + 7 * 8 + 8 + 2 + 2.
Definition TSS : Tss := mk_tss 0 0 0 (replicate 7 0) Tss_size.
Definition with_rsp0 (v : Z) (t : Tss) : Tss := mk_tss v (rsp1 t) (rsp2 t) (ist t) (iomap_base t).

(** The two words of the descriptor of the task-state segment. *)
Definition tss_lo (tss_base : Z) : Z :=
  let tss_limit := Tss_size - 1 in
  Z.lor (Z.lor (Z.lor (Z.lor (wrap 64 (Z.shiftl (Z.land tss_base 0xFFFFFF) 16)) (Z.land tss_limit 0xFFFF)) (Z.shiftl 0x89 40))
    (wrap 64 (Z.shiftl (Z.land (Z.shiftr tss_base 24) 0xFF) 56))) (wrap 64 (Z.shiftl (Z.shiftr tss_limit 16) 48)).
Definition tss_hi (tss_base : Z) : Z := Z.land (Z.shiftr tss_base 32) 0xFFFFFFFFFF.
(** [FULL_GDT] *)
Definition full_gdt (tss_base : Z) : list Z := (GdtEntry_raw <$> GDT) ++ [tss_lo tss_base; tss_hi tss_base].

(** What [init] leaves: the table, the limit and the base that lgdt loads, and the task-state segment;
    the selectors of cs, of the data segments and of the task register. *)
Record segments := mk_segments { sg_table : list Z; sg_limit : Z; sg_tss : Tss; sg_cs : Z; sg_data : Z; sg_tr : Z }.
Definition gdt_init (tss_base kernel_stack : Z) : segments :=
  mk_segments (full_gdt tss_base) (7 * 8 - 1) (with_rsp0 (uadd kernel_stack 4096) TSS) 0x08 0x10 0x28.
(** Also [SYSCALL_KERNEL_RSP], the second component. *)
Definition set_rsp0 (sp : Z) (s : segments * Z) : segments * Z :=
  (mk_segments (sg_table s.1) (sg_limit s.1) (with_rsp0 sp (sg_tss s.1)) (sg_cs s.1) (sg_data s.1) (sg_tr s.1), sp).

(** [setup_syscall]: the registers written, from the value of EFER and the stub's address. *)
Definition IA32_EFER : Z := 0xC0000080.
Definition IA32_STAR : Z := 0xC0000081.
Definition IA32_LSTAR : Z := 0xC0000082.
Definition IA32_FMASK : Z := 0xC0000084.
Definition setup_syscall (efer syscall_entry : Z) : list (Z * Z) :=
  [(IA32_EFER, Z.lor efer 1); (IA32_STAR, Z.lor (Z.shiftl 0x10 48) (Z.shiftl 0x08 32)); (IA32_LSTAR, syscall_entry); (IA32_FMASK, 0x200)].

(** ** What the processor makes of it *)

Definition bits (x lo n : Z) : Z := Z.land (Z.shiftr x lo) (Z.ones n).
Record descriptor := mk_descriptor { d_base : Z; d_limit : Z; d_type : Z; d_code_or_data : bool; d_dpl : Z; d_present : bool; d_long : bool; d_big : bool; d_pages : bool }.
Definition decode (e : Z) : descriptor :=
  mk_descriptor (bits e 16 24 + bits e 56 8 * 2 ^ 24) (bits e 0 16 + bits e 48 4 * 2 ^ 16) (bits e 40 4) (Z.testbit e 44) (bits e 45 2)
    (Z.testbit e 47) (Z.testbit e 53) (Z.testbit e 54) (Z.testbit e 55).
(** A selector's descriptor: its index in the table of 8-byte entries. *)
Definition selected_segment (s : segments) (sel : Z) : option descriptor :=
  if (sg_limit s <? Z.land sel (Z.lnot 7) + 7) || Z.testbit sel 2 then None else decode <$> sg_table s !! Z.to_nat (Z.shiftr sel 3).
(** A 16-byte system descriptor: the base has its upper half in the next entry. *)
Definition system_segment (s : segments) (sel : Z) : option descriptor :=
  d ← selected_segment s sel; hi ← sg_table s !! S (Z.to_nat (Z.shiftr sel 3));
  Some (mk_descriptor (d_base d + bits hi 0 32 * 2 ^ 32) (d_limit d) (d_type d) (d_code_or_data d) (d_dpl d) (d_present d) (d_long d) (d_big d) (d_pages d)).
Definition rpl (sel : Z) : Z := Z.land sel 3.

Definition msr (ms : list (Z * Z)) (r : Z) : Z :=
  match filter (fun p => p.1 = r) ms with p :: _ => p.2 | [] => 0 end.
(** SYSCALL and SYSRET on these registers: the code and the stack selector. *)
Definition syscall_selectors (ms : list (Z * Z)) : Z * Z :=
  let s := bits (msr ms IA32_STAR) 32 16 in (Z.land s 0xFFFC, s + 8).
Definition sysret_selectors (ms : list (Z * Z)) : Z * Z :=
  let s := bits (msr ms IA32_STAR) 48 16 in (Z.lor (s + 16) 3, Z.lor (s + 8) 3).

Lemma bits_eq x lo n : 0 <= lo -> 0 <= n -> bits x lo n = x / 2 ^ lo mod 2 ^ n.
Proof. intros. unfold bits. by rewrite Z.land_ones, Z.shiftr_div_pow2 by lia. Qed.
(** A field above what is there. *)
Lemma lor_field x y n : 0 <= n -> 0 <= x < 2 ^ n -> Z.lor x (Z.shiftl y n) = x + y * 2 ^ n.
Proof. intros Hn Hx. rewrite Z.shiftl_mul_pow2, Z.lor_comm, (lor_low n) by (rewrite ?Z.mod_mul; lia). lia. Qed.
Lemma div_at x q r n : 0 <= r < 2 ^ n -> x = q * 2 ^ n + r -> x / 2 ^ n = q.
Proof. intros Hr ->. symmetry. apply (Z.div_unique _ _ _ r); lia. Qed.
Lemma mod_at x q r n : 0 <= r < 2 ^ n -> x = q * 2 ^ n + r -> x mod 2 ^ n = r.
Proof. intros Hr ->. symmetry. apply (Z.mod_unique _ _ q); lia. Qed.
(** The address in the parts a descriptor has it in. *)
Lemma tss_words a b c : 0 <= a < 2 ^ 24 -> 0 <= b < 2 ^ 8 -> 0 <= c < 2 ^ 32 -> let t := a + b * 2 ^ 24 + c * 2 ^ 32 in
  tss_lo t = 103 + a * 2 ^ 16 + 0x89 * 2 ^ 40 + b * 2 ^ 56 /\ tss_hi t = c.
Proof.
  intros Ha Hb Hc t. unfold tss_lo, tss_hi. change (Tss_size - 1) with 103.
  change 0xFFFFFF with (Z.ones 24). change 0xFF with (Z.ones 8). change 0xFFFFFFFFFF with (Z.ones 40). rewrite !Z.land_ones, !Z.shiftr_div_pow2 by lia.
  assert (t mod 2 ^ 24 = a) as -> by (apply (mod_at _ (b + c * 2 ^ 8)); unfold t; lia).
  assert (t / 2 ^ 24 = b + c * 2 ^ 8) as -> by (apply (div_at _ _ a); unfold t; lia).
  assert ((b + c * 2 ^ 8) mod 2 ^ 8 = b) as -> by (apply (mod_at _ c); lia).
  assert (t / 2 ^ 32 = c) as -> by (apply (div_at _ _ (a + b * 2 ^ 24)); unfold t; lia). split; [|apply Z.mod_small; lia].
  change (Z.land 103 0xFFFF) with 103. change (wrap 64 (Z.shiftl (103 / 2 ^ 16) 48)) with 0.
  rewrite !(wrap_small 64) by (rewrite Z.shiftl_mul_pow2; lia). rewrite Z.lor_0_r, (Z.lor_comm _ 103).
  rewrite (lor_field 103 a 16), (lor_field _ 0x89 40), (lor_field _ b 56) by lia. done.
Qed.
Lemma split_address t : 0 <= t < 2 ^ 64 -> exists a b c, 0 <= a < 2 ^ 24 /\ 0 <= b < 2 ^ 8 /\ 0 <= c < 2 ^ 32 /\ t = a + b * 2 ^ 24 + c * 2 ^ 32.
Proof.
  intros Ht. exists (t mod 2 ^ 24), (t / 2 ^ 24 mod 2 ^ 8), (t / 2 ^ 24 / 2 ^ 8).
  pose proof (Z.div_mod t (2 ^ 24)). pose proof (Z.div_mod (t / 2 ^ 24) (2 ^ 8)).
  pose proof (Z.mod_pos_bound t (2 ^ 24)). pose proof (Z.mod_pos_bound (t / 2 ^ 24) (2 ^ 8)). lia.
Qed.
Lemma decode_tss a b : 0 <= a < 2 ^ 24 -> 0 <= b < 2 ^ 8 ->
  decode (103 + a * 2 ^ 16 + 0x89 * 2 ^ 40 + b * 2 ^ 56) = mk_descriptor (a + b * 2 ^ 24) 103 9 false 0 true false false false.
Proof.
  intros Ha Hb. unfold decode. set (e := 103 + a * 2 ^ 16 + 0x89 * 2 ^ 40 + b * 2 ^ 56).
  assert (forall i, 40 <= i < 56 -> Z.testbit e i = Z.testbit 0x89 (i - 40)) as Hbit.
  { intros i Hi. rewrite <- (Z.mod_pow2_bits_low e 56 i) by lia. rewrite (mod_at e b (103 + a * 2 ^ 16 + 0x89 * 2 ^ 40)) by (unfold e; lia).
    replace i with ((i - 40) + 40) at 1 by lia. rewrite <- Z.div_pow2_bits by lia. by rewrite (div_at _ 0x89 (103 + a * 2 ^ 16)) by lia. }
  rewrite !bits_eq, !Hbit by lia. rewrite Z.pow_0_r, Z.div_1_r.
  rewrite (div_at e (a + 0x89 * 2 ^ 24 + b * 2 ^ 40) 103 16), (div_at e (0x89 + b * 2 ^ 16) (103 + a * 2 ^ 16) 40), (div_at e (4 + b * 2 ^ 11) (103 + a * 2 ^ 16 + 9 * 2 ^ 40) 45),
    (div_at e (b * 2 ^ 8) (103 + a * 2 ^ 16 + 0x89 * 2 ^ 40) 48), (div_at e b (103 + a * 2 ^ 16 + 0x89 * 2 ^ 40) 56) by (unfold e; lia).
  rewrite (mod_at e (a + 0x89 * 2 ^ 24 + b * 2 ^ 40) 103 16) by (unfold e; lia).
  rewrite (mod_at _ (0x89 + b * 2 ^ 16) a 24), (mod_at (0x89 + _) (8 + b * 2 ^ 12) 9 4), (mod_at (4 + _) (1 + b * 2 ^ 9) 0 2), (mod_at (b * 2 ^ 8) (b * 2 ^ 4) 0 4), (mod_at b 0 b 8) by lia.
  done.
Qed.

(** The flat segments. *)
Definition code_segment (dpl : Z) : descriptor := mk_descriptor 0 0xFFFFF 10 true dpl true true false true.
Definition data_segment (dpl : Z) : descriptor := mk_descriptor 0 0xFFFFF 2 true dpl true false true true.
Definition selects (s : segments) (sel : Z) (d : descriptor) : Prop := selected_segment s sel = Some d /\ rpl sel = d_dpl d.

Lemma flat_selects t k : selects (gdt_init t k) KERNEL_CODE_SEL (code_segment 0) /\ selects (gdt_init t k) KERNEL_DATA_SEL (data_segment 0) /\
  selects (gdt_init t k) USER_CODE_SEL (code_segment 3) /\ selects (gdt_init t k) USER_DATA_SEL (data_segment 3).
Proof. repeat split. Qed.
Lemma tss_selected t k : 0 <= t < 2 ^ 64 -> system_segment (gdt_init t k) 0x28 = Some (mk_descriptor t 103 9 false 0 true false false false).
Proof.
  intros Ht. destruct (split_address t Ht) as (a & b & c & Ha & Hb & Hc & E). destruct (tss_words a b c Ha Hb Hc) as [E1 E2]. cbv zeta in E1, E2. rewrite <- E in E1, E2.
  unfold system_segment. change (selected_segment (gdt_init t k) 0x28) with (Some (decode (tss_lo t))). rewrite E1, decode_tss by done. cbn [mbind option_bind].
  change (sg_table (gdt_init t k) !! S (Z.to_nat (Z.shiftr 0x28 3))) with (Some (tss_hi t)). rewrite E2. cbn [mbind option_bind d_base d_limit d_type d_code_or_data d_dpl d_present d_long d_big d_pages].
  rewrite bits_eq, Z.pow_0_r, Z.div_1_r, Z.mod_small by lia. by rewrite E.
Qed.
Lemma tss_stack t : 0 <= rsp0 t < 2 ^ 64 -> from_le (take 8 (drop 4 (Tss_bytes t))) = rsp0 t.
Proof.
  intros Hr. unfold Tss_bytes. rewrite drop_app_length' by (by rewrite to_le_length). rewrite take_app_length' by (by rewrite to_le_length).
  rewrite from_le_to_le. apply Z.mod_small. lia.
Qed.

(** C35: the segments of x86_64: in the table that [init] builds each of the four selectors of the kernel
    finds the flat 64-bit code or data segment of its privilege level, and the task register the
    task-state segment, whose base, put together from three fields of two entries, is its address,
    whatever it is, and whose limit is its size; the stack pointer the processor finds there is what [set_rsp0] last set;
    and with the registers that [setup_syscall] writes, SYSCALL loads the kernel's selectors, goes to the
    stub and masks interrupts, and SYSRET loads the user's. *)
Theorem segments_exact (tss_base kernel_stack efer stub sp : Z) :
  0 <= tss_base < 2 ^ 64 -> 0 <= sp < 2 ^ 64 ->
  let s := gdt_init tss_base kernel_stack in
  let ms := setup_syscall efer stub in
  selects s KERNEL_CODE_SEL (code_segment 0) /\ selects s KERNEL_DATA_SEL (data_segment 0) /\
  selects s USER_CODE_SEL (code_segment 3) /\ selects s USER_DATA_SEL (data_segment 3) /\
  (exists d, system_segment s (sg_tr s) = Some d /\ d_base d = tss_base /\ d_limit d + 1 = Z.of_nat (length (Tss_bytes (sg_tss s))) /\
    d_type d = 9 /\ d_present d = true /\ d_code_or_data d = false) /\
  sg_limit s + 1 = 8 * Z.of_nat (length (sg_table s)) /\ sg_cs s = KERNEL_CODE_SEL /\ sg_data s = KERNEL_DATA_SEL /\
  (let '(s', entry_sp) := set_rsp0 sp (s, 0) in from_le (take 8 (drop 4 (Tss_bytes (sg_tss s')))) = sp /\ entry_sp = sp) /\
  syscall_selectors ms = (KERNEL_CODE_SEL, KERNEL_DATA_SEL) /\ sysret_selectors ms = (USER_CODE_SEL, USER_DATA_SEL) /\
  msr ms IA32_LSTAR = stub /\ Z.testbit (msr ms IA32_EFER) 0 = true /\ Z.testbit (msr ms IA32_FMASK) 9 = true.
Proof.
  intros Ht Hsp s ms. destruct (flat_selects tss_base kernel_stack) as (S1 & S2 & S3 & S4).
  do 4 (split; [assumption|]). split; [eexists; split; [by apply tss_selected | done]|].
  do 3 (split; [reflexivity|]). split; [split; [by apply tss_stack | done]|]. do 3 (split; [reflexivity|]). split; [|reflexivity].
  change (msr ms IA32_EFER) with (Z.lor efer 1). by rewrite Z.lor_spec, orb_true_r.
Qed.
Lemma segments_exact_witness : exists d, system_segment (gdt_init 0xFFFF8000DEADBEE0 0x200000) 0x28 = Some d /\ d_base d = 0xFFFF8000DEADBEE0.
Proof.
  destruct (segments_exact 0xFFFF8000DEADBEE0 0x200000 0 0x100000 0x300000) as (_ & _ & _ & _ & (d & E & Hb & _) & _); [lia | lia |].
  exists d. split; [exact E | exact Hb].
Defined.
