(* ===== verification/ArmAsm.v ===== *)
(** A small AArch64 machine: the instructions of the kernel's naked functions and of its vector
    table, with their effect on registers, system registers and memory. *)
From Stdlib Require Import ZArith Lia.
From stdpp Require Import base option list numbers.
From S2P Require Import Prelude SlotAsm.
Local Open Scope Z_scope.

(** x0 to x30, and the stack pointer. *)
Inductive areg := X (n : nat) | WSP.
#[export] Instance areg_eq_dec : EqDecision areg.
Proof. solve_decision. Defined.
Inductive sysreg := ELR_EL1 | SPSR_EL1 | TPIDR_EL1.
#[export] Instance sysreg_eq_dec : EqDecision sysreg.
Proof. solve_decision. Defined.

(** [pstate]: the flags, the masks and the exception level, as SPSR holds them. *)
Record core := mk_core { ar : areg -> Z; sysregs : sysreg -> Z; amem : mem; apc : Z; pstate : Z }.
Definition set_a (r : areg) (v : Z) (c : core) : core :=
  mk_core (fun x => if decide (x = r) then v else ar c x) (sysregs c) (amem c) (apc c) (pstate c).
Definition set_sys (s : sysreg) (v : Z) (c : core) : core :=
  mk_core (ar c) (fun x => if decide (x = s) then v else sysregs c x) (amem c) (apc c) (pstate c).
Definition set_amem (m : mem) (c : core) : core := mk_core (ar c) (sysregs c) m (apc c) (pstate c).

Inductive ainstr :=
| SUB_SP (n : Z)
| ADD_SP (n : Z)
| MOVR (d s : areg)                       (* mov, also to and from sp *)
| STR (s : areg) (off : Z) (b : areg)     (* str s, [b, #off] *)
| LDR (d : areg) (off : Z) (b : areg)
| STP (s1 s2 : areg) (off : Z) (b : areg) (* stp s1, s2, [b, #off] *)
| LDP (d1 d2 : areg) (off : Z) (b : areg)
| MRS (d : areg) (s : sysreg)
| MSR (s : sysreg) (r : areg)
| BL (f : core -> core)                   (* call and return, seen from the caller *)
| RET_LR
| ERET.

Definition astep (i : ainstr) (c : core) : core :=
  match i with
  | SUB_SP n => set_a WSP (uadd (ar c WSP) (- n)) c
  | ADD_SP n => set_a WSP (uadd (ar c WSP) n) c
  | MOVR d s => set_a d (ar c s) c
  | STR s off b => set_amem (store64 (amem c) (uadd (ar c b) off) (ar c s)) c
  | LDR d off b => set_a d (load64 (amem c) (uadd (ar c b) off)) c
  | STP s1 s2 off b =>
      set_amem (store64 (store64 (amem c) (uadd (ar c b) off) (ar c s1)) (uadd (ar c b) (off + 8)) (ar c s2)) c
  | LDP d1 d2 off b =>
      set_a d2 (load64 (amem c) (uadd (ar c b) (off + 8))) (set_a d1 (load64 (amem c) (uadd (ar c b) off)) c)
  | MRS d s => set_a d (sysregs c s) c
  | MSR s r => set_sys s (ar c r) c
  | BL f => f c
  | RET_LR => mk_core (ar c) (sysregs c) (amem c) (ar c (X 30)) (pstate c)
  | ERET => mk_core (ar c) (sysregs c) (amem c) (sysregs c ELR_EL1) (sysregs c SPSR_EL1)
  end.
Definition aexec (p : list ainstr) (c : core) : core := foldl (fun c i => astep i c) c p.
Lemma aexec_app p q c : aexec (p ++ q) c = aexec q (aexec p c).
Proof. apply foldl_app. Qed.
Lemma aexec_cons i p c : aexec (i :: p) c = aexec p (astep i c).
Proof. done. Qed.

Lemma set_a_eq r v c : ar (set_a r v c) r = v.
Proof. unfold set_a. cbn [ar]. by rewrite decide_True. Qed.
Lemma set_a_ne r q v c : q <> r -> ar (set_a r v c) q = ar c q.
Proof. intros H. unfold set_a. cbn [ar]. by rewrite decide_False. Qed.
Lemma set_sys_eq s v c : sysregs (set_sys s v c) s = v.
Proof. unfold set_sys. cbn [sysregs]. by rewrite decide_True. Qed.
Lemma set_sys_ne s d v c : d <> s -> sysregs (set_sys s v c) d = sysregs c d.
Proof. intros H. unfold set_sys. cbn [sysregs]. by rewrite decide_False. Qed.

(** ** Runs of stores and loads *)

Abbreviation aslot := (Z * areg)%type.
Definition str_slot (x : aslot) : ainstr := STR x.2 (x.1 * 8) WSP.
Definition ldr_slot (x : aslot) : ainstr := LDR x.2 (x.1 * 8) WSP.
(** Two neighbouring slots at once. *)
Definition stp_slots (x : Z * areg * areg) : ainstr := STP x.1.2 x.2 (x.1.1 * 8) WSP.
Definition ldp_slots (x : Z * areg * areg) : ainstr := LDP x.1.2 x.2 (x.1.1 * 8) WSP.
Definition pair_slots (l : list (Z * areg * areg)) : list aslot := concat ((fun x => [(x.1.1, x.1.2); (x.1.1 + 1, x.2)]) <$> l).

Lemma sp_slot c i n : 0 <= i < n -> 0 <= ar c WSP -> ar c WSP + 8 * n <= 2 ^ 64 -> uadd (ar c WSP) (i * 8) = ar c WSP + i * 8.
Proof. intros. apply wrap_small. lia. Qed.
Lemma aexec_saves n l : forall c, slots_in n l -> 0 <= ar c WSP -> ar c WSP + 8 * n <= 2 ^ 64 ->
  aexec (str_slot <$> l) c = set_amem (saved l (ar c WSP) (ar c) (amem c)) c.
Proof.
  induction l as [|[i r] l IH]; intros c Hs H0 Hn; [by destruct c|]. inversion Hs as [|? ? Hi Hs']; subst. cbn [fst] in Hi.
  rewrite fmap_cons, aexec_cons. cbn [astep str_slot fst snd]. rewrite (sp_slot c i n) by done. by rewrite IH.
Qed.
Lemma aexec_loads n l : forall c, slots_in n l -> 0 <= ar c WSP -> ar c WSP + 8 * n <= 2 ^ 64 -> WSP ∉ snd <$> l ->
  aexec (ldr_slot <$> l) c = mk_core (loaded l (amem c) (ar c WSP) (ar c)) (sysregs c) (amem c) (apc c) (pstate c).
Proof.
  induction l as [|[i r] l IH]; intros c Hs H0 Hn Hsp; [by destruct c|].
  inversion Hs as [|? ? Hi Hs']; subst. cbn [fst] in Hi. cbn in Hsp. rewrite fmap_cons, aexec_cons. cbn [astep ldr_slot fst snd].
  rewrite (sp_slot c i n) by done. set (c1 := set_a r _ c). assert (ar c1 WSP = ar c WSP) as Esp.
  { apply set_a_ne. intros <-. apply Hsp. by left. }
  rewrite IH; [|done | by rewrite Esp | by rewrite Esp | intros H; apply Hsp; by right]. rewrite Esp. done.
Qed.
(** Pairs are two single stores or loads. *)
Lemma aexec_stps l : forall c, aexec (stp_slots <$> l) c = aexec (str_slot <$> pair_slots l) c.
Proof.
  induction l as [|[[i r] q] l IH]; intros c; [done|]. rewrite fmap_cons, aexec_cons. unfold pair_slots. rewrite fmap_cons. cbn [concat app fmap list_fmap].
  rewrite !aexec_cons. fold (pair_slots l). rewrite IH. f_equal. cbn [astep stp_slots str_slot fst snd set_amem ar amem]. by replace ((i + 1) * 8) with (i * 8 + 8) by lia.
Qed.
Lemma aexec_ldps l : forall c, WSP ∉ snd <$> pair_slots l -> aexec (ldp_slots <$> l) c = aexec (ldr_slot <$> pair_slots l) c.
Proof.
  induction l as [|[[i r] q] l IH]; intros c Hsp; [done|]. rewrite fmap_cons, aexec_cons. unfold pair_slots in *. rewrite fmap_cons in *. cbn [concat app fmap list_fmap] in *.
  rewrite !aexec_cons. fold (pair_slots l) in *. rewrite IH by (intros H; apply Hsp; by do 2 right). f_equal. cbn [astep ldp_slots ldr_slot fst snd].
  rewrite (set_a_ne r WSP) by (intros <-; apply Hsp; by left). by replace ((i + 1) * 8) with (i * 8 + 8) by lia.
Qed.
