(* ===== verification/ArmContext.v ===== *)
(** Switching between tasks on AArch64 (src/kernel/src/arch/aarch64/context.rs): the assembly of
    [context_switch], and the stack a new kernel task starts on.  There are no user tasks on this
    architecture yet: the functions that would make their stacks are [unimplemented!]. *)
From Stdlib Require Import ZArith Lia.
From stdpp Require Import base option list numbers.
From S2P Require Import Prelude X86Asm Context SlotAsm ArmAsm.
Local Open Scope Z_scope.

Module Arm.
(** The frame of a suspended task. *)
Definition saved_pairs : list (Z * areg * areg) :=
  [(0, X 30, X 29); (2, X 19, X 20); (4, X 21, X 22); (6, X 23, X 24); (8, X 25, X 26); (10, X 27, X 28)].
(** x0 = cur_sp, x1 = next_sp *)
Definition context_switch : list ainstr :=
  [SUB_SP 96] ++ (stp_slots <$> saved_pairs) ++ [MOVR (X 2) WSP; STR (X 2) 0 (X 0); MOVR WSP (X 1)] ++
  (ldp_slots <$> saved_pairs) ++ [ADD_SP 96; RET_LR].

(** The 12 words of a new stack. *)
Definition task_init_stack (m : mem) (base len entry : Z) : Z * mem :=
  let sp := stack_end base len - 12 * 8 in
  (sp, write_words m sp (entry :: replicate 11 0)).
Definition set_kernel_stack (sp : Z) (c : core) : core := set_sys TPIDR_EL1 sp c.
End Arm.

(** ** What a switch does *)

Record arm_can_switch (c : core) : Prop := {
  ac_regs : forall r, SlotAsm.u64 (ar c r);
  ac_low : 96 <= ar c WSP;
  ac_cell : ar c (X 0) + 8 <= ar c WSP - 96 \/ ar c WSP <= ar c (X 0);
  ac_next : ar c (X 1) + 96 < 2 ^ 64
}.
Definition arm_slots : list aslot := pair_slots Arm.saved_pairs.
Definition arm_saved (r : areg) : bool := bool_decide (r ∈ snd <$> arm_slots).

Lemma arm_slots_in : slots_in 12 arm_slots.
Proof. repeat (constructor; [cbn; lia|]). constructor. Qed.
Lemma arm_slots_nodup : NoDup (fst <$> arm_slots) /\ NoDup (snd <$> arm_slots).
Proof. split; apply (bool_decide_unpack _); vm_compute; exact I. Qed.
Lemma arm_slots_regs r : r ∈ snd <$> arm_slots -> r <> WSP /\ r <> X 0 /\ r <> X 1 /\ r <> X 2.
Proof. intros H. split_and!; intros ->; revert H; apply (bool_decide_unpack _); vm_compute; exact I. Qed.
Lemma arm_slot_reg i r : (i, r) ∈ arm_slots -> r ∈ snd <$> arm_slots.
Proof. intros H. apply list_elem_of_fmap. by exists (i, r). Qed.

Lemma arm_switch_spec c : arm_can_switch c -> exists m', let sp := ar c WSP - 96 in
  (forall i r, (i, r) ∈ arm_slots -> slot_value m' sp i = ar c r) /\
  load64 m' (ar c (X 0)) = sp /\
  (forall x, ~ sp <= x < ar c WSP -> ~ ar c (X 0) <= x < ar c (X 0) + 8 -> m' x = amem c x) /\
  let c' := aexec Arm.context_switch c in
  ar c' WSP = ar c (X 1) + 96 /\ (forall i r, (i, r) ∈ arm_slots -> ar c' r = slot_value m' (ar c (X 1)) i) /\
  (forall r, r <> WSP -> r <> X 2 -> arm_saved r = false -> ar c' r = ar c r) /\
  apc c' = slot_value m' (ar c (X 1)) 0 /\ amem c' = m' /\ sysregs c' = sysregs c /\ pstate c' = pstate c.
Proof.
  intros [Hr Hlo Hcell Hnx]. pose proof (Hr WSP) as Bsp. pose proof (Hr (X 1)) as B1. pose proof (Hr (X 0)) as B0. unfold SlotAsm.u64 in Bsp, B1, B0.
  unfold Arm.context_switch. rewrite !aexec_app.
  set (c1 := set_a WSP (ar c WSP - 96) c).
  assert (aexec [SUB_SP 96] c = c1) as ->.
  { change (aexec [SUB_SP 96] c) with (set_a WSP (uadd (ar c WSP) (- 96)) c). unfold c1. do 2 f_equal. apply wrap_small. lia. }
  assert (ar c1 WSP = ar c WSP - 96) as Esp by apply set_a_eq.
  assert (forall r, r <> WSP -> ar c1 r = ar c r) as Ex by (intros r Hne; by apply set_a_ne).
  rewrite aexec_stps. rewrite (aexec_saves 12) by (rewrite ?Esp; apply arm_slots_in || lia). rewrite Esp. fold arm_slots.
  set (sp := ar c WSP - 96) in *. set (m1 := saved arm_slots sp (ar c1) (amem c1)).
  destruct (saved_spec 12 arm_slots sp (ar c1) (amem c1) arm_slots_in) as (H1 & _ & H3); [|apply arm_slots_nodup|].
  { intros r. destruct (decide (r = WSP)) as [->|Hne]; [rewrite Esp; unfold SlotAsm.u64, sp; lia | rewrite Ex by done; apply Hr]. }
  fold m1 in H1, H3. set (m' := store64 m1 (ar c (X 0)) sp). set (c2 := set_a WSP (ar c (X 1)) (set_amem m' (set_a (X 2) sp c1))).
  assert (aexec [MOVR (X 2) WSP; STR (X 2) 0 (X 0); MOVR WSP (X 1)] (set_amem m1 c1) = c2) as ->.
  { rewrite !aexec_cons. cbn [astep]. cbn [set_amem ar amem]. rewrite Esp, set_a_eq, !set_a_ne by done. cbn [set_amem ar]. rewrite (Ex (X 0)), (Ex (X 1)) by done.
    assert (uadd (ar c (X 0)) 0 = ar c (X 0)) as -> by (unfold uadd; rewrite Z.add_0_r; by apply wrap_small). reflexivity. }
  assert (ar c2 WSP = ar c (X 1)) as E2 by apply set_a_eq.
  rewrite aexec_ldps by (intros H; by apply arm_slots_regs in H as [? _]). fold arm_slots.
  rewrite (aexec_loads 12) by (rewrite ?E2; first [apply arm_slots_in | lia | intros H; by apply arm_slots_regs in H as [? _]]).
  rewrite E2. change (amem c2) with m'. set (f := loaded _ _ _ _).
  assert (f WSP = ar c (X 1)) as Ef by (unfold f; rewrite loaded_other; [done|]; intros H; by apply arm_slots_regs in H as [? _]).
  exists m'. cbv zeta. split; [|split; [|split]].
  - intros i r Hi. destruct (arm_slots_regs r (arm_slot_reg i r Hi)) as [Hne _]. rewrite <- (Ex r) by done. rewrite <- (H1 i r Hi).
    unfold slot_value, m'. apply load64_store64_ne. pose proof (slots_range _ _ _ _ arm_slots_in Hi). lia.
  - apply load64_store64_eq. unfold sp. lia.
  - intros x Hx Hc. unfold m'. rewrite X86Asm.store64_out by lia. apply H3. unfold sp in *. lia.
  - rewrite !aexec_cons. cbn [astep]. cbn [aexec foldl]. cbn [ar set_a sysregs amem apc pstate]. rewrite Ef.
    assert (uadd (ar c (X 1)) 96 = ar c (X 1) + 96) as -> by (apply wrap_small; lia). pose proof (proj2 arm_slots_nodup) as Hnd.
    split; [by rewrite decide_True|]. split; [|split; [|split]].
    + intros i r Hi. destruct (arm_slots_regs r (arm_slot_reg i r Hi)) as [Hne _]. rewrite decide_False by done. by apply loaded_slot.
    + intros r Hne H2 Hs. unfold arm_saved in Hs. apply bool_decide_eq_false_1 in Hs. rewrite decide_False by done. unfold f. rewrite loaded_other by done.
      unfold c2. rewrite set_a_ne by done. cbn [set_amem ar]. rewrite set_a_ne by done. apply (Ex r Hne).
    + rewrite decide_False by done. apply loaded_slot; [done|]. left.
    + done.
Qed.

(** [context_switch] on AArch64 saves and restores a task: when task A calls it, and later
    another task B calls it with the stack pointer that was saved for A, with the words A left
    on its stack unchanged, A goes on at its return address, with its stack pointer and every
    callee-saved register as they were; the other registers but x2 and the system registers are B's. *)
Theorem arm_context_switch_roundtrip (a b : core) : arm_can_switch a -> arm_can_switch b ->
  let a' := aexec Arm.context_switch a in
  ar b (X 1) = load64 (amem a') (ar a (X 0)) ->
  (forall x, ar a WSP - 96 <= x < ar a WSP -> amem b x = amem a' x) ->
  (ar b WSP <= ar a WSP - 96 \/ ar a WSP <= ar b WSP - 96) ->
  (ar b (X 0) + 8 <= ar a WSP - 96 \/ ar a WSP <= ar b (X 0)) ->
  let b' := aexec Arm.context_switch b in
  apc b' = ar a (X 30) /\ ar b' WSP = ar a WSP /\ (forall r, arm_saved r = true -> ar b' r = ar a r) /\
  (forall r, r <> WSP -> r <> X 2 -> arm_saved r = false -> ar b' r = ar b r) /\ sysregs b' = sysregs b /\ pstate b' = pstate b.
Proof.
  intros Ha Hb a' Hnext Hmem Hstk Hcell b'.
  destruct (arm_switch_spec a Ha) as (ma & Fa & Ca & _ & _ & _ & _ & _ & Ma & _). fold a' in Ma. rewrite Ma in *. rewrite Ca in Hnext.
  destruct (arm_switch_spec b Hb) as (mb & _ & _ & Ob & Sb & Rb & Xb & Pb & _ & Cb & Eb). fold b' in Sb, Rb, Xb, Pb, Cb, Eb.
  assert (forall i r, (i, r) ∈ arm_slots -> slot_value mb (ar a WSP - 96) i = ar a r) as Hslots.
  { intros i r Hi. rewrite <- (Fa i r Hi). pose proof (slots_range _ _ _ _ arm_slots_in Hi). apply load64_ext. intros x Hx. rewrite Ob by lia. apply Hmem. lia. }
  rewrite Hnext in *. split; [rewrite Pb; apply Hslots; left|]. split; [lia|]. split; [|done].
  intros r Hr. unfold arm_saved in Hr. apply bool_decide_eq_true_1 in Hr. apply list_elem_of_fmap in Hr as ([i q] & -> & Hi).
  change (ar b' q = ar a q). rewrite (Rb i q Hi). by apply Hslots.
Qed.

(** ** New tasks *)

(** A new kernel task starts at its entry, on the top of its stack, with zero in the saved registers. *)
Lemma arm_stack_enters_kernel (c : core) (m0 : mem) (base len entry : Z) : arm_can_switch c -> 0 <= base -> 112 <= len ->
  base + len <= ar c WSP - 96 \/ ar c WSP <= base -> ar c (X 0) + 8 <= base \/ base + len <= ar c (X 0) -> SlotAsm.u64 entry ->
  Arm.task_init_stack m0 base len entry = (ar c (X 1), amem c) ->
  let s := aexec Arm.context_switch c in
  apc s = entry /\ ar s WSP = stack_end base len /\ (forall i r, (i, r) ∈ arm_slots -> i <> 0 -> ar s r = 0) /\
  sysregs s = sysregs c /\ pstate s = pstate c.
Proof.
  intros Hc Hb Hl Hrun Hcell He [Esp Em]%pair_inj. rewrite Esp in Em. pose proof (stack_end_bounds base len) as [_ Hend].
  destruct (arm_switch_spec c Hc) as (m' & _ & _ & O & S & R & _ & P & _ & C & E). cbv zeta.
  assert (forall i v, 0 <= i < 12 -> (entry :: replicate 11 0) !! Z.to_nat i = Some v -> slot_value m' (ar c (X 1)) i = v) as Hslot.
  { intros i v Hi Hv. assert (Forall X86Asm.u64 (entry :: replicate 11 0)) as Hu by (apply Forall_cons_2; [exact He | apply Forall_replicate; by vm_compute]).
    rewrite <- (stack_word _ _ _ i v (write_words_has _ Hu m0 (ar c (X 1))) (proj1 Hi) Hv). unfold slot_value. replace (i * 8) with (8 * i) by lia.
    rewrite Em. apply load64_ext. intros x Hx. apply O; lia. }
  split; [rewrite P; by apply Hslot|]. split; [lia|]. split; [|done]. intros i r Hi H0. rewrite (R i r Hi).
  pose proof (slots_range _ _ _ _ arm_slots_in Hi). apply Hslot; [done|]. replace (Z.to_nat i) with (Datatypes.S (Z.to_nat (i - 1))) by lia.
  change (replicate 11 0 !! Z.to_nat (i - 1) = Some 0). apply lookup_replicate. lia.
Qed.

(** Two tasks that run one after the other. *)
Definition arm_demo (sp x0 x1 k : Z) (m : mem) : core :=
  mk_core (fun r => match r with WSP => sp | X 0 => x0 | X 1 => x1 | X 30 => 0x40080000 + k | X _ => k end) (fun _ => 0) m 0 5.
Definition arm_task_a : core := arm_demo 0x40110000 0x40100100 0x40130000 1 (fun _ => 0).
Definition arm_task_b : core := arm_demo 0x40120000 0x40100108 (0x40110000 - 96) 2 (amem (aexec Arm.context_switch arm_task_a)).
Lemma arm_demo_mem sp x0 x1 k m : amem (arm_demo sp x0 x1 k m) = m.
Proof. done. Qed.
Lemma arm_demo_can_switch sp x0 x1 k m : 96 <= sp < 2 ^ 63 -> 0 <= x0 -> x0 + 8 <= sp - 96 -> 0 <= x1 < 2 ^ 63 -> 0 <= k < 2 ^ 32 -> arm_can_switch (arm_demo sp x0 x1 k m).
Proof.
  intros. constructor; [|cbn; lia..]. intros [n|]; cbn; unfold SlotAsm.u64; [|lia]. destruct n as [|[|n]]; [lia | lia|].
  do 29 (destruct n as [|n]; [cbn; lia|]). lia.
Qed.
Lemma arm_context_switch_roundtrip_witness : let b' := aexec Arm.context_switch arm_task_b in
  apc b' = 0x40080001 /\ ar b' WSP = 0x40110000 /\ (forall r, arm_saved r = true -> ar b' r = ar arm_task_a r).
Proof.
  destruct (arm_context_switch_roundtrip arm_task_a arm_task_b) as (H1 & H2 & H3 & _);
    [apply arm_demo_can_switch; lia | apply arm_demo_can_switch; lia | vm_compute; reflexivity | intros x _; unfold arm_task_b at 1; by rewrite arm_demo_mem | right; vm_compute; discriminate | left; vm_compute; discriminate |].
  split; [exact H1 | split; [exact H2 | exact H3]].
Defined.
