(* ===== verification/ArmTrap.v ===== *)
(** The exception vectors of AArch64 (src/kernel/src/arch/aarch64/exceptions.rs): which stub each entry of the
    table leads to, the frame the stubs save, and what the interrupt stub restores.

    The compiled handlers that the stubs call are functions on the core here; what the interrupt
    handler does to the kernel is in ArmHandler.v. *)
From Stdlib Require Import ZArith Lia.
From stdpp Require Import base option list numbers.
From S2P Require Import Prelude X86Asm SlotAsm ArmAsm.
Local Open Scope Z_scope.

(** [TrapFrame]: x0 to x30, elr_el1, spsr_el1 and a word of padding. *)
Definition arm_frame_size : Z := 272.
Definition arm_frame_regs : list aslot := (fun n => (Z.of_nat n, X n)) <$> seq 0 31.
Definition ELR_SLOT : Z := 31.
Definition SPSR_SLOT : Z := 32.

(** Where the table leads: 16 entries, four for each origin of the exception. *)
Inductive vector := VecFatal | VecIrq.
Definition aarch64_vector_table : list vector :=
  [VecFatal; VecFatal; VecFatal; VecFatal] ++ [VecFatal; VecIrq; VecFatal; VecFatal] ++
  [VecFatal; VecFatal; VecFatal; VecFatal] ++ [VecFatal; VecFatal; VecFatal; VecFatal].

(** The common start of [vec_irq] and [vec_fatal]. *)
Definition vec_save : list ainstr :=
  [SUB_SP arm_frame_size] ++ (str_slot <$> arm_frame_regs) ++
  [MRS (X 0) ELR_EL1; STR (X 0) (ELR_SLOT * 8) WSP; MRS (X 0) SPSR_EL1; STR (X 0) (SPSR_SLOT * 8) WSP; MOVR (X 0) WSP].
Definition vec_restore : list ainstr :=
  [LDR (X 0) (ELR_SLOT * 8) WSP; MSR ELR_EL1 (X 0); LDR (X 0) (SPSR_SLOT * 8) WSP; MSR SPSR_EL1 (X 0)] ++
  (ldr_slot <$> drop 1 arm_frame_regs) ++ [LDR (X 0) (0 * 8) WSP; ADD_SP arm_frame_size; ERET].
Definition vec_irq (aarch64_irq_handler : core -> core) : list ainstr := vec_save ++ [BL aarch64_irq_handler] ++ vec_restore.

(** The fatal handler does not return; the wait after it is not reached. *)
Definition vec_fatal (aarch64_fatal_handler : core -> core) : list ainstr := vec_save ++ [BL aarch64_fatal_handler].

(** ** What the stubs save and restore *)

(** A core as an exception finds it. *)
Record arm_trapped (c : core) : Prop := {
  at_regs : forall r, SlotAsm.u64 (ar c r);
  at_elr : SlotAsm.u64 (sysregs c ELR_EL1);
  at_spsr : SlotAsm.u64 (sysregs c SPSR_EL1);
  at_stack : arm_frame_size <= ar c WSP
}.
(** The frame of a core. *)
Record arm_frame (m : mem) (base : Z) (c : core) : Prop := {
  af_regs : forall n, (n < 31)%nat -> slot_value m base (Z.of_nat n) = ar c (X n);
  af_elr : slot_value m base ELR_SLOT = sysregs c ELR_EL1;
  af_spsr : slot_value m base SPSR_SLOT = sysregs c SPSR_EL1
}.

Lemma arm_frame_in : slots_in 34 arm_frame_regs.
Proof. apply Forall_fmap, Forall_forall. intros n Hn. apply in_seq in Hn. cbn. lia. Qed.
Lemma arm_frame_slots n : (n < 31)%nat -> (Z.of_nat n, X n) ∈ arm_frame_regs.
Proof. intros Hn. apply list_elem_of_fmap. exists n. split; [done|]. apply elem_of_seq. lia. Qed.
Lemma arm_frame_inv i r : (i, r) ∈ arm_frame_regs -> exists n, (n < 31)%nat /\ i = Z.of_nat n /\ r = X n.
Proof. intros (n & E & Hn)%list_elem_of_fmap. injection E as -> ->. exists n. split; [|done]. apply elem_of_seq in Hn. lia. Qed.
Lemma arm_frame_fst i : i ∈ fst <$> arm_frame_regs -> 0 <= i < 31.
Proof. intros ([j r] & E & (n & Hn & -> & ->)%arm_frame_inv)%list_elem_of_fmap. cbn in E. lia. Qed.
Lemma arm_frame_nodup : NoDup (fst <$> arm_frame_regs) /\ NoDup (snd <$> drop 1 arm_frame_regs) /\ (WSP ∉ snd <$> drop 1 arm_frame_regs) /\ (X 0 ∉ snd <$> drop 1 arm_frame_regs).
Proof. split_and!; apply (bool_decide_unpack _); vm_compute; exact I. Qed.

(** The last instructions: elr and spsr go to the frame, its address to x0. *)
Lemma vec_save_tail c : let sp := ar c WSP in
  aexec [MRS (X 0) ELR_EL1; STR (X 0) (ELR_SLOT * 8) WSP; MRS (X 0) SPSR_EL1; STR (X 0) (SPSR_SLOT * 8) WSP; MOVR (X 0) WSP] c =
  set_a (X 0) sp (set_amem (store64 (store64 (amem c) (uadd sp (ELR_SLOT * 8)) (sysregs c ELR_EL1)) (uadd sp (SPSR_SLOT * 8)) (sysregs c SPSR_EL1))
    (set_a (X 0) (sysregs c SPSR_EL1) (set_a (X 0) (sysregs c ELR_EL1) c))).
Proof. reflexivity. Qed.
Lemma vec_saves c : arm_trapped c -> let base := ar c WSP - arm_frame_size in let e := aexec vec_save c in
  ar e WSP = base /\ ar e (X 0) = base /\ arm_frame (amem e) base c /\
  (forall x, ~ base <= x < ar c WSP -> amem e x = amem c x) /\ pstate e = pstate c.
Proof.
  intros [Hr He Hs Hst] base e. pose proof (Hr WSP) as Bsp. unfold SlotAsm.u64, arm_frame_size in *.
  set (c1 := set_a WSP base c). assert (aexec [SUB_SP arm_frame_size] c = c1) as E1.
  { unfold arm_frame_size, c1, base. change (aexec [SUB_SP 272] c) with (set_a WSP (uadd (ar c WSP) (- 272)) c). do 2 f_equal. apply wrap_small. lia. }
  assert (ar c1 WSP = base) as Esp by apply set_a_eq.
  assert (forall n, ar c1 (X n) = ar c (X n)) as Ex by (intros n; by apply set_a_ne).
  set (m1 := saved arm_frame_regs base (ar c1) (amem c1)).
  destruct (saved_spec 34 arm_frame_regs base (ar c1) (amem c1) arm_frame_in) as (H1 & H2 & H3); [|apply arm_frame_nodup|].
  { intros [n|]; [rewrite Ex; apply Hr | rewrite Esp; unfold SlotAsm.u64, base, arm_frame_size; lia]. }
  fold m1 in H1, H2, H3.
  assert (forall i, 0 <= i < 34 -> uadd base (i * 8) = base + i * 8) as Eu by (intros i Hi; apply wrap_small; unfold base, arm_frame_size; lia).
  set (m2 := store64 (store64 m1 (base + ELR_SLOT * 8) (sysregs c ELR_EL1)) (base + SPSR_SLOT * 8) (sysregs c SPSR_EL1)).
  assert (e = set_a (X 0) base (set_amem m2 (set_a (X 0) (sysregs c SPSR_EL1) (set_a (X 0) (sysregs c ELR_EL1) c1)))) as ->.
  { unfold e, vec_save. rewrite !aexec_app, E1, (aexec_saves 34) by (rewrite ?Esp; first [apply arm_frame_in | unfold base, arm_frame_size; lia]).
    rewrite Esp. fold m1. rewrite vec_save_tail. change (ar (set_amem m1 c1)) with (ar c1). change (amem (set_amem m1 c1)) with m1.
    change (sysregs (set_amem m1 c1)) with (sysregs c). rewrite Esp. unfold ELR_SLOT, SPSR_SLOT in *. rewrite !Eu by lia. reflexivity. }
  clearbody m1. clear E1.
  assert (forall i, slot_value m2 base i = if decide (i = SPSR_SLOT) then sysregs c SPSR_EL1 else if decide (i = ELR_SLOT) then sysregs c ELR_EL1 else slot_value m1 base i) as Hm2.
  { intros i. unfold m2. by rewrite !slot_store by done. }
  split; [done|]. split; [apply set_a_eq|]. split; [|split; [|done]].
  - split; cbn [set_a set_amem amem]; [intros n Hn | ..]; rewrite Hm2; [|done..]. unfold SPSR_SLOT, ELR_SLOT. rewrite !decide_False by lia.
    rewrite (H1 _ _ (arm_frame_slots n Hn)). apply Ex.
  - intros x Hx. change (m2 x = amem c x). unfold m2, ELR_SLOT, SPSR_SLOT. rewrite !X86Asm.store64_out by (unfold base in *; lia). apply H3. unfold base in *. lia.
Qed.

Lemma vec_restore_head c base : ar c WSP = base -> 0 <= base -> base + 272 <= 2 ^ 64 ->
  aexec [LDR (X 0) (ELR_SLOT * 8) WSP; MSR ELR_EL1 (X 0); LDR (X 0) (SPSR_SLOT * 8) WSP; MSR SPSR_EL1 (X 0)] c =
  let w := slot_value (amem c) base in
  set_sys SPSR_EL1 (w SPSR_SLOT) (set_a (X 0) (w SPSR_SLOT) (set_sys ELR_EL1 (w ELR_SLOT) (set_a (X 0) (w ELR_SLOT) c))).
Proof.
  intros <- H0 Hn. unfold slot_value, ELR_SLOT, SPSR_SLOT.
  replace (ar c WSP + 31 * 8) with (uadd (ar c WSP) (31 * 8)) by (apply wrap_small; lia).
  replace (ar c WSP + 32 * 8) with (uadd (ar c WSP) (32 * 8)) by (apply wrap_small; lia). reflexivity.
Qed.
Lemma vec_restore_tail c base : ar c WSP = base -> 0 <= base -> base + 272 < 2 ^ 64 ->
  aexec [LDR (X 0) (0 * 8) WSP; ADD_SP arm_frame_size; ERET] c =
  mk_core (ar (set_a WSP (base + 272) (set_a (X 0) (slot_value (amem c) base 0) c))) (sysregs c) (amem c) (sysregs c ELR_EL1) (sysregs c SPSR_EL1).
Proof.
  intros <- H0 Hn. unfold slot_value. replace (ar c WSP + 0 * 8) with (uadd (ar c WSP) (0 * 8)) by (apply wrap_small; lia).
  replace (ar c WSP + 272) with (uadd (ar c WSP) 272) by (apply wrap_small; lia). reflexivity.
Qed.
Lemma vec_restores c base : ar c WSP = base -> 0 <= base -> base + 272 < 2 ^ 64 -> let t := aexec vec_restore c in
  let w := slot_value (amem c) base in
  (forall n, (n < 31)%nat -> ar t (X n) = w (Z.of_nat n)) /\ ar t WSP = base + 272 /\ apc t = w ELR_SLOT /\ pstate t = w SPSR_SLOT /\ amem t = amem c.
Proof.
  intros Esp H0 Hn t w. unfold t, vec_restore. rewrite !aexec_app, (vec_restore_head c base) by lia. cbv zeta. fold w.
  set (c1 := set_sys SPSR_EL1 _ _). assert (ar c1 WSP = base) as E1 by (unfold c1; cbn [ar set_sys]; rewrite set_a_ne by done; cbn [ar set_sys]; by rewrite set_a_ne by done).
  assert (sysregs c1 ELR_EL1 = w ELR_SLOT /\ sysregs c1 SPSR_EL1 = w SPSR_SLOT) as [Eelr Espsr].
  { unfold c1. split; [rewrite set_sys_ne by done; cbn [set_a sysregs]; apply set_sys_eq | apply set_sys_eq]. }
  assert (amem c1 = amem c) as Em by done. clearbody c1.
  destruct arm_frame_nodup as (_ & Hd & Hsp & Hx0). pose proof arm_frame_in as Hin.
  rewrite (aexec_loads 34) by (rewrite ?E1; first [exact Hsp | lia | by apply (Forall_drop _ 1) in Hin]). rewrite E1, Em. set (f := loaded _ _ _ _).
  assert (f WSP = base) as Ef by (unfold f; by rewrite loaded_other). rewrite (vec_restore_tail _ base) by (done || lia). cbn [ar sysregs amem apc pstate].
  split; [|split; [apply set_a_eq | by split_and!]]. intros n Hlt. rewrite set_a_ne by done. destruct n as [|n]; [apply set_a_eq|].
  rewrite set_a_ne by done. cbn [ar]. unfold f. apply loaded_slot; [done|].
  change (drop 1 arm_frame_regs) with ((fun n => (Z.of_nat n, X n)) <$> seq 1 30). apply list_elem_of_fmap. exists (S n). split; [done|]. apply elem_of_seq. lia.
Qed.

(** The interrupt stub of AArch64: it calls the handler on the address of a frame of 34 words below
    the stack pointer that holds all registers, the interrupted pc and its state, with nothing else in memory
    changed; when the handler returns, the registers, the pc and the state are what the frame
    then says, and the stack pointer is back; so a handler that leaves the frame alone is transparent. *)
Theorem arm_irq_exact (c : core) (handler : core -> core) : arm_trapped c ->
  let base := ar c WSP - arm_frame_size in
  let e := aexec vec_save c in
  ar e WSP = base /\ ar e (X 0) = base /\ arm_frame (amem e) base c /\ (forall x, ~ base <= x < ar c WSP -> amem e x = amem c x) /\
  (ar (handler e) WSP = base ->
    let w := slot_value (amem (handler e)) base in
    let t := aexec (vec_irq handler) c in
    (forall n, (n < 31)%nat -> ar t (X n) = w (Z.of_nat n)) /\ ar t WSP = ar c WSP /\ apc t = w ELR_SLOT /\ pstate t = w SPSR_SLOT /\
    amem t = amem (handler e) /\
    ((forall x, base <= x < ar c WSP -> amem (handler e) x = amem e x) ->
      (forall n, (n < 31)%nat -> ar t (X n) = ar c (X n)) /\ apc t = sysregs c ELR_EL1 /\ pstate t = sysregs c SPSR_EL1)).
Proof.
  intros Ht base e. destruct (vec_saves c Ht) as (H1 & H2 & [F1 F2 F3] & H4 & _). fold base e in H1, H2, F1, F2, F3, H4.
  do 2 (split; [assumption|]). split; [by split|]. split; [assumption|]. intros Hsp w t.
  assert (t = aexec vec_restore (handler e)) as Et by (unfold t, vec_irq; by rewrite !aexec_app). pose proof (at_regs c Ht WSP) as Bsp.
  pose proof (at_stack c Ht) as Bst. unfold SlotAsm.u64, arm_frame_size in *.
  destruct (vec_restores (handler e) base Hsp) as (R & S & P & Q & M); [unfold base; lia.. |]. rewrite <- Et in *. fold w in R, P, Q.
  split; [done|]. split; [unfold base in S; lia|]. do 3 (split; [assumption|]). intros Hsame.
  assert (forall i, 0 <= i < 34 -> w i = slot_value (amem e) base i) as Hw.
  { intros i Hi. unfold w, slot_value. apply load64_ext. intros x Hx. apply Hsame. unfold base in *. lia. }
  unfold ELR_SLOT, SPSR_SLOT in *. split; [intros n Hn; rewrite R, Hw by lia; by apply F1|].
  rewrite P, Q, !Hw by lia. by split.
Qed.
(** The fatal handler is called on the same frame. *)
Lemma vec_fatal_frame c handler : arm_trapped c -> let e := aexec vec_save c in
  aexec (vec_fatal handler) c = handler e /\ ar e (X 0) = ar c WSP - arm_frame_size /\ arm_frame (amem e) (ar e (X 0)) c.
Proof. intros Ht e. destruct (vec_saves c Ht) as (_ & H2 & H3 & _). split; [unfold vec_fatal; by rewrite aexec_app|]. split; [exact H2|]. unfold e. by rewrite H2. Qed.
(** The table: only an interrupt of the kernel's own level, on its own stack, is handled; everything else is fatal. *)
Lemma vectors_exact i : aarch64_vector_table !! i = (if decide (i < 16)%nat then Some (if decide (i = 5)%nat then VecIrq else VecFatal) else None).
Proof. do 16 (destruct i as [|i]; [done|]). done. Qed.

(** The handler stores 7 to the slot of x9. *)
Definition arm_demo_core : core := mk_core (fun r => match r with WSP => 0x40110000 | X n => 100 + Z.of_nat n mod 31 end) (fun s => match s with ELR_EL1 => 0x40080444 | _ => 0x60000005 end) (fun _ => 0) 0x40090000 0x3c5.
Definition arm_demo_handler (c : core) : core := set_amem (store64 (amem c) (ar c (X 0) + 9 * 8) 7) c.
Lemma arm_irq_exact_witness : let t := aexec (vec_irq arm_demo_handler) arm_demo_core in
  ar t (X 8) = 108 /\ ar t (X 9) = 7 /\ ar t WSP = 0x40110000 /\ apc t = 0x40080444 /\ pstate t = 0x60000005.
Proof.
  destruct (arm_irq_exact arm_demo_core arm_demo_handler) as (_ & _ & _ & _ & H).
  { constructor; [intros [n|]; cbn; unfold SlotAsm.u64; [pose proof (Z.mod_pos_bound (Z.of_nat n) 31); lia | lia] | by vm_compute | by vm_compute | by vm_compute]. }
  destruct H as (R & S & P & Q & _); [vm_compute; reflexivity|].
  split; [rewrite R by lia; vm_compute; reflexivity|]. split; [rewrite R by lia; vm_compute; reflexivity|]. split; [exact S|].
  split; [rewrite P; vm_compute; reflexivity | rewrite Q; vm_compute; reflexivity].
Defined.
