(* ===== verification/ArmBoot.v ===== *)
(** The boot assembly of AArch64 (src/kernel/src/arch/aarch64/boot.rs): parking the other cores, dropping from
    the exception level of the firmware to EL1, the stack, and zeroing the data of the kernel.

    A machine of its own, with exception levels: an access to a register of a higher level, and a return to a
    level that is not set up for 64 bits, are faults.  The addresses of the linker's symbols are variables. *)
From Stdlib Require Import ZArith Lia.
From stdpp Require Import base option list numbers.
From S2P Require Import Prelude X86Asm.
Local Open Scope Z_scope.

Inductive bsys :=
| MPIDR_EL1 | SCTLR_EL1 | CPACR_EL1
| HCR_EL2 | CNTHCTL_EL2 | CNTVOFF_EL2 | CPTR_EL2 | SPSR_EL2 | ELR_EL2
| SCR_EL3 | CPTR_EL3 | SPSR_EL3 | ELR_EL3.
#[export] Instance bsys_eq_dec : EqDecision bsys.
Proof. solve_decision. Defined.
(** The lowest level that may use the register. *)
Definition bsys_level (r : bsys) : Z :=
  match r with
  | MPIDR_EL1 | SCTLR_EL1 | CPACR_EL1 => 1
  | HCR_EL2 | CNTHCTL_EL2 | CNTVOFF_EL2 | CPTR_EL2 | SPSR_EL2 | ELR_EL2 => 2
  | SCR_EL3 | CPTR_EL3 | SPSR_EL3 | ELR_EL3 => 3
  end.

(** [b_level]: the exception level; [b_mode]: the rest of the state, as SPSR holds it. *)
Record bcore := mk_bcore { bx : nat -> Z; b_sp : Z; b_sys : bsys -> Z; b_mem : mem; b_level : Z; b_mode : Z; b_cmp : Z * Z }.
Definition bset (r : nat) (v : Z) (c : bcore) : bcore :=
  mk_bcore (fun x => if decide (x = r) then v else bx c x) (b_sp c) (b_sys c) (b_mem c) (b_level c) (b_mode c) (b_cmp c).
Definition bset_sp (v : Z) (c : bcore) : bcore := mk_bcore (bx c) v (b_sys c) (b_mem c) (b_level c) (b_mode c) (b_cmp c).
Definition bset_sys (r : bsys) (v : Z) (c : bcore) : bcore :=
  mk_bcore (bx c) (b_sp c) (fun x => if decide (x = r) then v else b_sys c x) (b_mem c) (b_level c) (b_mode c) (b_cmp c).
Definition bset_mem (m : mem) (c : bcore) : bcore := mk_bcore (bx c) (b_sp c) (b_sys c) m (b_level c) (b_mode c) (b_cmp c).
Definition bset_cmp (a b : Z) (c : bcore) : bcore := mk_bcore (bx c) (b_sp c) (b_sys c) (b_mem c) (b_level c) (b_mode c) (a, b).
(** The level in bits 2 and 3 of SPSR. *)
Definition spsr_level (v : Z) : Z := Z.land (Z.shiftr v 2) 3.
Definition bset_state (v : Z) (c : bcore) : bcore := mk_bcore (bx c) (b_sp c) (b_sys c) (b_mem c) (spsr_level v) v (b_cmp c).

(** The numbered labels of the source, and the entry. *)
Inductive label := L_start | L9 | L0 | L5 | L1 | L2 | L3 | L4.
Inductive symbol := boot_stack_top | aarch64_fdt_ptr | bss_start | bss_end.
Inductive binstr :=
| BMRS (d : nat) (s : bsys)
| BMRS_EL (d : nat)                       (* mrs d, CurrentEL *)
| BMSR (s : bsys) (r : nat)
| BMSR_XZR (s : bsys)
| BAND (d s : nat) (imm : Z)
| BMOV (d s : nat)
| BMOVI (d : nat) (imm : Z)
| BMOVK (d : nat) (imm sh : Z)            (* movk d, #imm, lsl #sh *)
| BLSR (d s : nat) (n : Z)
| BLSL (d s : nat) (n : Z)
| BCMPI (r : nat) (imm : Z)
| BCMP (r q : nat)
| BADR (d : nat) (l : label)
| BADRP (d : nat) (s : symbol)            (* the page of the symbol *)
| BADD_LO12 (d r : nat) (s : symbol)      (* and its low 12 bits *)
| BMOV_SP (r : nat)
| BSTR (s b : nat)
| BSTR_XZR_POST (b : nat) (n : Z)         (* str xzr, [b], #n *)
| BISB
| BCBZ (r : nat) (l : label)
| BB (l : label)
| BB_EQ (l : label)
| BB_NE (l : label)
| BB_GE (l : label)
| BERET
| BWFE
| BWFI
| BBL_start.                              (* bl _start, which does not return *)

(** *** The text, from each label to the end *)
Definition code_4 : list binstr := [BWFI; BB L4].
Definition code_3 : list binstr := BBL_start :: code_4.
Definition code_2 : list binstr := [BCMP 0 1; BB_GE L3; BSTR_XZR_POST 0 8; BB L2] ++ code_3.
Definition code_1 : list binstr :=
  [BMOVI 0 (Z.shiftl 3 20); BMSR CPACR_EL1 0; BISB;
   BADRP 0 boot_stack_top; BADD_LO12 0 0 boot_stack_top; BMOV_SP 0;
   BADRP 1 aarch64_fdt_ptr; BADD_LO12 1 1 aarch64_fdt_ptr; BSTR 19 1;
   BADRP 0 bss_start; BADD_LO12 0 0 bss_start; BADRP 1 bss_end; BADD_LO12 1 1 bss_end] ++ code_2.
(** From EL3. *)
Definition code_5 : list binstr :=
  [BMOVI 0 0x401; BMSR SCR_EL3 0;
   BMOVI 0 1; BLSL 0 0 31; BMSR HCR_EL2 0;
   BMOVI 0 3; BMSR CNTHCTL_EL2 0; BMSR_XZR CNTVOFF_EL2;
   BMOVI 0 0x0800; BMOVK 0 0x30d0 16; BMSR SCTLR_EL1 0;
   BMSR_XZR CPTR_EL2; BMSR_XZR CPTR_EL3;
   BMOVI 0 0x3c5; BMSR SPSR_EL3 0; BADR 0 L1; BMSR ELR_EL3 0; BERET] ++ code_1.
(** From EL2. *)
Definition code_el2 : list binstr :=
  [BMOVI 0 1; BLSL 0 0 31; BMSR HCR_EL2 0;
   BMOVI 0 3; BMSR CNTHCTL_EL2 0; BMSR_XZR CNTVOFF_EL2;
   BMOVI 0 0x0800; BMOVK 0 0x30d0 16; BMSR SCTLR_EL1 0;
   BMSR_XZR CPTR_EL2;
   BMOVI 0 0x3c5; BMSR SPSR_EL2 0; BADR 0 L1; BMSR ELR_EL2 0; BERET] ++ code_5.
Definition code_0 : list binstr :=
  [BMOV 19 0; BMRS_EL 0; BLSR 0 0 2; BCMPI 0 3; BB_EQ L5; BCMPI 0 2; BB_NE L1] ++ code_el2.
Definition code_9 : list binstr := [BWFE; BB L9] ++ code_0.
Definition boot_start : list binstr := [BMRS 1 MPIDR_EL1; BAND 1 1 0xFF; BCBZ 1 L0] ++ code_9.
Definition code_at (l : label) : list binstr :=
  match l with L_start => boot_start | L9 => code_9 | L0 => code_0 | L5 => code_5 | L1 => code_1 | L2 => code_2 | L3 => code_3 | L4 => code_4 end.

(** Where a core is: in the text, in [_start], or stopped by a fault. *)
Inductive brun := Running (pc : list binstr) (c : bcore) | Started (c : bcore) | Fault (c : bcore).

Section boot.
Variables (addr : label -> Z) (sym : symbol -> Z).
Definition labels : list label := [L_start; L9; L0; L5; L1; L2; L3; L4].

Definition signed64 (v : Z) : Z := if v <? 2 ^ 63 then v else v - 2 ^ 64.
Definition b_access (r : bsys) (c : bcore) (next : bcore -> brun) : brun := if bsys_level r <=? b_level c then next c else Fault c.
(** A return: to a level not above, in 64-bit state as the registers of the levels between say. *)
Definition eret_allowed (spsr : Z) (c : bcore) : bool :=
  let target := spsr_level spsr in
  negb (Z.testbit spsr 4) && (target <=? b_level c) && (1 <=? target) &&
  (negb (b_level c =? 3) || (target =? 3) || Z.testbit (b_sys c SCR_EL3) 10) &&
  (negb (1 <? b_level c) || negb (target =? 1) || Z.testbit (b_sys c HCR_EL2) 31).
Definition b_eret (spsr elr : bsys) (c : bcore) : brun :=
  if eret_allowed (b_sys c spsr) c then
    match filter (fun l => addr l = b_sys c elr) labels with
    | l :: _ => Running (code_at l) (bset_state (b_sys c spsr) c)
    | [] => Fault c
    end
  else Fault c.
Definition bstep (r : brun) : brun :=
  match r with
  | Running (i :: k) c =>
    match i with
    | BMRS d s => b_access s c (fun c => Running k (bset d (b_sys c s) c))
    | BMRS_EL d => Running k (bset d (Z.shiftl (b_level c) 2) c)
    | BMSR s q => b_access s c (fun c => Running k (bset_sys s (bx c q) c))
    | BMSR_XZR s => b_access s c (fun c => Running k (bset_sys s 0 c))
    | BAND d s imm => Running k (bset d (Z.land (bx c s) imm) c)
    | BMOV d s => Running k (bset d (bx c s) c)
    | BMOVI d imm => Running k (bset d imm c)
    | BMOVK d imm sh => Running k (bset d (Z.lor (Z.ldiff (bx c d) (Z.shiftl 0xFFFF sh)) (Z.shiftl imm sh)) c)
    | BLSR d s n => Running k (bset d (Z.shiftr (bx c s) n) c)
    | BLSL d s n => Running k (bset d (wrap 64 (Z.shiftl (bx c s) n)) c)
    | BCMPI q imm => Running k (bset_cmp (bx c q) imm c)
    | BCMP p q => Running k (bset_cmp (bx c p) (bx c q) c)
    | BADR d l => Running k (bset d (addr l) c)
    | BADRP d s => Running k (bset d (Z.ldiff (sym s) 0xFFF) c)
    | BADD_LO12 d q s => Running k (bset d (uadd (bx c q) (Z.land (sym s) 0xFFF)) c)
    | BMOV_SP q => Running k (bset_sp (bx c q) c)
    | BSTR s b => Running k (bset_mem (store64 (b_mem c) (bx c b) (bx c s)) c)
    | BSTR_XZR_POST b n => Running k (bset b (uadd (bx c b) n) (bset_mem (store64 (b_mem c) (bx c b) 0) c))
    | BISB => Running k c
    | BCBZ q l => Running (if bx c q =? 0 then code_at l else k) c
    | BB l => Running (code_at l) c
    | BB_EQ l => Running (if (b_cmp c).1 =? (b_cmp c).2 then code_at l else k) c
    | BB_NE l => Running (if (b_cmp c).1 =? (b_cmp c).2 then k else code_at l) c
    | BB_GE l => Running (if signed64 (b_cmp c).2 <=? signed64 (b_cmp c).1 then code_at l else k) c
    | BERET => if b_level c =? 3 then b_eret SPSR_EL3 ELR_EL3 c else if b_level c =? 2 then b_eret SPSR_EL2 ELR_EL2 c else Fault c
    | BWFE | BWFI => Running k c
    | BBL_start => Started c
    end
  | Running [] c => Fault c
  | r => r
  end.
(** [n] instructions; a wait may end at once. *)
Definition bsteps (n : nat) (r : brun) : brun := Nat.iter n bstep r.
End boot.

(** ** What the boot does *)

Section spec.
Context (addr : label -> Z) (sym : symbol -> Z).
(** No other label has the address that the drops return to; the symbols are addresses, and the data of the
    kernel is whole words. *)
Record layout_ok : Prop := {
  bl_l1 : forall l, addr l = addr L1 -> l = L1;
  bl_sym : forall s, 0 <= sym s < 2 ^ 63;
  bl_bss : sym bss_start <= sym bss_end;
  bl_words : (sym bss_end - sym bss_start) mod 8 = 0
}.
Context (Hok : layout_ok).
Local Abbreviation steps := (bsteps addr sym).

Lemma bsteps_S n r : steps (S n) r = steps n (bstep addr sym r).
Proof. apply Nat.iter_succ_r. Qed.
Lemma bsteps_add n k r : steps (n + k) r = steps k (steps n r).
Proof. revert r. induction n as [|n IH]; intros r; [done|]. cbn [Nat.add]. by rewrite !bsteps_S, IH. Qed.
Lemma b_access_ok r c next : bsys_level r <= b_level c -> b_access r c next = next c.
Proof. intros H. unfold b_access. by rewrite (proj2 (Z.leb_le _ _)). Qed.
Lemma symbol_addr s : uadd (Z.ldiff (sym s) 0xFFF) (Z.land (sym s) 0xFFF) = sym s.
Proof.
  pose proof (bl_sym Hok s). change 0xFFF with (Z.ones 12). rewrite Z.ldiff_ones_r, Z.land_ones, Z.shiftl_mul_pow2, Z.shiftr_div_pow2 by lia.
  pose proof (Z.div_mod (sym s) (2 ^ 12)). unfold uadd. rewrite wrap_small; lia.
Qed.
Lemma eret_label c spsr elr : b_sys c elr = addr L1 -> eret_allowed (b_sys c spsr) c = true -> b_eret addr spsr elr c = Running code_1 (bset_state (b_sys c spsr) c).
Proof.
  intros He Ha. unfold b_eret. rewrite Ha, He. destruct (filter _ _) as [|l k] eqn:E.
  - exfalso. assert (L1 ∈ filter (fun l => addr l = addr L1) labels) as H by (apply list_elem_of_filter; split; [done | apply list_elem_of_In; cbn; tauto]).
    rewrite E in H. by apply elem_of_nil in H.
  - assert (l ∈ filter (fun l => addr l = addr L1) labels) as [H _]%list_elem_of_filter by (rewrite E; left). by rewrite (bl_l1 Hok l H).
Qed.

Lemma bx_bset_eq r v c : bx (bset r v c) r = v.
Proof. unfold bset. cbn [bx]. by rewrite decide_True. Qed.
Lemma bx_bset_ne r q v c : q <> r -> bx (bset r v c) q = bx c q.
Proof. intros. unfold bset. cbn [bx]. by rewrite decide_False. Qed.
(** What a core that has been dropped to EL1 runs with. *)
Record at_el1 (c : bcore) : Prop := {
  e1_level : b_level c = 1;
  e1_mode : b_mode c = 0x3c5;
  e1_sctlr : b_sys c SCTLR_EL1 = 0x30d00800;
  e1_hcr : b_sys c HCR_EL2 = Z.shiftl 1 31;
  e1_timer : b_sys c CNTHCTL_EL2 = 3 /\ b_sys c CNTVOFF_EL2 = 0;
  e1_fp : b_sys c CPTR_EL2 = 0
}.
(** The part both drops share. *)
Definition el2_set (c : bcore) : bcore :=
  bset_sys CPTR_EL2 0 (bset_sys SCTLR_EL1 0x30d00800 (bset 0 0x30d00800 (bset 0 0x0800
    (bset_sys CNTVOFF_EL2 0 (bset_sys CNTHCTL_EL2 3 (bset 0 3 (bset_sys HCR_EL2 (Z.shiftl 1 31) (bset 0 (Z.shiftl 1 31) (bset 0 1 c))))))))).
Lemma drop_el2 c : b_level c = 2 -> exists c', steps 15 (Running code_el2 c) = Running code_1 c' /\ at_el1 c' /\ bx c' 19%nat = bx c 19%nat /\ b_mem c' = b_mem c.
Proof.
  destruct c as [x sp sys m lv mode cmp]. cbn [b_level]. intros ->. set (c := mk_bcore x sp sys m 2 mode cmp).
  set (c1 := bset_sys ELR_EL2 (addr L1) (bset 0 (addr L1) (bset_sys SPSR_EL2 0x3c5 (bset 0 0x3c5 (el2_set c))))).
  assert (steps 14 (Running code_el2 c) = Running (BERET :: code_5) c1) as E by (vm_compute; reflexivity).
  exists (bset_state 0x3c5 c1). rewrite (bsteps_add 14 1), E. split; [exact (eret_label c1 SPSR_EL2 ELR_EL2 eq_refl eq_refl)|]. split; [by constructor | done].
Qed.
Lemma drop_el3 c : b_level c = 3 -> exists c', steps 18 (Running code_5 c) = Running code_1 c' /\ at_el1 c' /\ bx c' 19%nat = bx c 19%nat /\ b_mem c' = b_mem c.
Proof.
  destruct c as [x sp sys m lv mode cmp]. cbn [b_level]. intros ->. set (c := mk_bcore x sp sys m 3 mode cmp).
  set (c1 := bset_sys ELR_EL3 (addr L1) (bset 0 (addr L1) (bset_sys SPSR_EL3 0x3c5 (bset 0 0x3c5 (bset_sys CPTR_EL3 0 (el2_set (bset_sys SCR_EL3 0x401 (bset 0 0x401 c)))))))).
  assert (steps 17 (Running code_5 c) = Running (BERET :: code_1) c1) as E by (vm_compute; reflexivity).
  exists (bset_state 0x3c5 c1). rewrite (bsteps_add 17 1), E. split; [exact (eret_label c1 SPSR_EL3 ELR_EL3 eq_refl eq_refl)|]. split; [by constructor | done].
Qed.
(** The entry of the boot core, to EL1. *)
Lemma boot_to_el1 c : Z.land (b_sys c MPIDR_EL1) 0xFF = 0 -> 1 <= b_level c <= 3 -> exists n c', steps n (Running boot_start c) = Running code_1 c' /\
  b_level c' = 1 /\ bx c' 19%nat = bx c 0%nat /\ b_mem c' = b_mem c /\ (1 < b_level c -> at_el1 c').
Proof.
  intros Hm Hl. set (c0 := bset 1 (Z.land (b_sys c MPIDR_EL1) 0xFF) (bset 1 (b_sys c MPIDR_EL1) c)).
  assert (steps 3 (Running boot_start c) = Running code_0 c0) as E0.
  { rewrite !bsteps_S. cbn [bstep boot_start app]. rewrite b_access_ok by (cbn; lia). cbn [bstep]. rewrite !bx_bset_eq. fold c0. by rewrite Hm. }
  assert (forall lv, b_level c = lv -> exists x sp sys m mode cmp, c0 = mk_bcore x sp sys m lv mode cmp /\ x 0%nat = bx c 0%nat /\ m = b_mem c) as Hc0.
  { intros lv <-. unfold c0, bset. do 6 eexists. split; [reflexivity | done]. }
  assert (b_level c = 1 \/ b_level c = 2 \/ b_level c = 3) as H3 by lia.
  destruct H3 as [El | [El | El]]; destruct (Hc0 _ El) as (x & sp & sys & m & mode & cmp & Ec & <- & <-); rewrite El; rewrite Ec in E0; clear Hc0 Ec; set (d := mk_bcore x sp sys m _ mode cmp) in *.
  - exists (3 + 7)%nat, (bset_cmp 1 2 (bset_cmp 1 3 (bset 0 1 (bset 0 4 (bset 19 (x 0%nat) d))))). rewrite bsteps_add, E0. split; [vm_compute; reflexivity|]. split_and!; done.
  - set (d' := bset_cmp 2 2 (bset_cmp 2 3 (bset 0 2 (bset 0 8 (bset 19 (x 0%nat) d))))). assert (steps 7 (Running code_0 d) = Running code_el2 d') as E1 by (vm_compute; reflexivity).
    destruct (drop_el2 d' eq_refl) as (c' & E2 & H & X & M). exists (3 + (7 + 15))%nat, c'. rewrite bsteps_add, E0, bsteps_add, E1, E2. split_and!; try done. by destruct H.
  - set (d' := bset_cmp 3 3 (bset 0 3 (bset 0 12 (bset 19 (x 0%nat) d)))). assert (steps 5 (Running code_0 d) = Running code_5 d') as E1 by (vm_compute; reflexivity).
    destruct (drop_el3 d' eq_refl) as (c' & E2 & H & X & M). exists (3 + (5 + 18))%nat, c'. rewrite bsteps_add, E0, bsteps_add, E1, E2. split_and!; try done. by destruct H.
Qed.

(** The stack, the device tree's address, and the bounds of the data. *)
Definition el1_set (c : bcore) : bcore :=
  let at_sym s := uadd (Z.ldiff (sym s) 0xFFF) (Z.land (sym s) 0xFFF) in
  bset 1 (at_sym bss_end) (bset 1 (Z.ldiff (sym bss_end) 0xFFF) (bset 0 (at_sym bss_start) (bset 0 (Z.ldiff (sym bss_start) 0xFFF)
    (bset_mem (store64 (b_mem c) (at_sym aarch64_fdt_ptr) (bx c 19%nat)) (bset 1 (at_sym aarch64_fdt_ptr) (bset 1 (Z.ldiff (sym aarch64_fdt_ptr) 0xFFF)
      (bset_sp (at_sym boot_stack_top) (bset 0 (at_sym boot_stack_top) (bset 0 (Z.ldiff (sym boot_stack_top) 0xFFF)
        (bset_sys CPACR_EL1 (Z.shiftl 3 20) (bset 0 (Z.shiftl 3 20) c))))))))))).
Lemma el1_prologue c : b_level c = 1 -> steps 13 (Running code_1 c) = Running code_2 (el1_set c).
Proof. destruct c as [x sp sys m lv mode cmp]. cbn [b_level]. intros ->. cbv -[uadd Z.ldiff Z.land store64 Z.shiftl]. reflexivity. Qed.

(** What the loop that zeroes the data keeps: all but x0 and the memory. *)
Record loop_keeps (c c' : bcore) : Prop := { lk_sp : b_sp c' = b_sp c; lk_sys : b_sys c' = b_sys c; lk_level : b_level c' = b_level c; lk_mode : b_mode c' = b_mode c }.
Lemma zero_loop k : forall c a, bx c 0%nat = a -> bx c 1%nat = sym bss_end -> 0 <= a -> a + 8 * Z.of_nat k = sym bss_end ->
  exists n c', steps n (Running code_2 c) = Running code_3 c' /\ loop_keeps c c' /\
    forall x, b_mem c' x = if (a <=? x) && (x <? sym bss_end) then 0 else b_mem c x.
Proof.
  induction k as [|k IH]; intros c a E0 E1 Ha Hk; pose proof (bl_sym Hok bss_end) as Hend.
  - exists 2%nat. exists (bset_cmp a a c). split; [|split; [by constructor | intros x; cbn [b_mem bset_cmp]; ztest; cbn; done || lia]].
    rewrite !bsteps_S. cbn [bstep code_2 app b_cmp bset_cmp fst snd]. rewrite E0, E1. replace (sym bss_end) with a by lia. by rewrite Z.leb_refl.
  - set (c1 := bset_cmp a (sym bss_end) c). set (c2 := bset 0 (a + 8) (bset_mem (store64 (b_mem c) a 0) c1)).
    assert (steps 4 (Running code_2 c) = Running code_2 c2) as E.
    { rewrite bsteps_S. cbn [bstep code_2 app]. rewrite E0, E1. fold c1. rewrite bsteps_S. cbn [bstep b_cmp c1 bset_cmp fst snd]. fold c1.
      unfold signed64. rewrite !(proj2 (Z.ltb_lt _ (2 ^ 63))), (proj2 (Z.leb_gt _ _)) by lia. rewrite !bsteps_S. cbn [bstep code_at].
      change (bx c1 0%nat) with (bx c 0%nat). rewrite E0. unfold uadd. rewrite wrap_small by lia. reflexivity. }
    destruct (IH c2 (a + 8)) as (n & c' & En & [K1 K2 K3 K4] & M); [apply bx_bset_eq | by unfold c2; rewrite bx_bset_ne | lia | lia|].
    exists (4 + n)%nat, c'. split; [by rewrite bsteps_add, E|]. split; [by constructor|]. intros x. rewrite M. cbn [b_mem c2 bset bset_mem c1 bset_cmp]. unfold store64.
    ztest; cbn [andb]; try lia; try done. by rewrite Z.shiftr_0_l.
Qed.

(** C38: the boot of an AArch64 board: whatever exception level the firmware enters at, core 0 reaches [_start], at EL1, on
    the boot stack, with floating point on and every byte of the data between [__bss_start] and [__bss_end] zero, no
    other memory changed but the word for the device tree's address, and, when it came from EL2 or
    EL3, EL1 in its reset state with timers and floating point not trapped and interrupts masked; the word holds the
    address when it lies outside of that data, and 0 when it lies in it, where the source declares it; all other cores
    stay before the label 0 for ever and write nothing. *)
Theorem arm_boot_exact (c : bcore) : 1 <= b_level c <= 3 -> 0 <= bx c 0%nat < 2 ^ 64 ->
  (Z.land (b_sys c MPIDR_EL1) 0xFF = 0 -> exists n c', steps n (Running boot_start c) = Started c' /\
    b_level c' = 1 /\ b_sp c' = sym boot_stack_top /\ b_sys c' CPACR_EL1 = Z.shiftl 3 20 /\ (1 < b_level c -> at_el1 c') /\
    (forall x, sym bss_start <= x < sym bss_end -> b_mem c' x = 0) /\
    (forall x, ~ sym bss_start <= x < sym bss_end -> ~ sym aarch64_fdt_ptr <= x < sym aarch64_fdt_ptr + 8 -> b_mem c' x = b_mem c x) /\
    (sym aarch64_fdt_ptr + 8 <= sym bss_start \/ sym bss_end <= sym aarch64_fdt_ptr -> load64 (b_mem c') (sym aarch64_fdt_ptr) = bx c 0%nat) /\
    (sym bss_start <= sym aarch64_fdt_ptr /\ sym aarch64_fdt_ptr + 8 <= sym bss_end -> load64 (b_mem c') (sym aarch64_fdt_ptr) = 0)) /\
  (Z.land (b_sys c MPIDR_EL1) 0xFF <> 0 -> forall n, exists pc c', steps n (Running boot_start c) = Running pc c' /\ b_mem c' = b_mem c).
Proof.
  intros Hl Hx. split.
  - intros Hm. destruct (boot_to_el1 c Hm Hl) as (n1 & c1 & E1 & L1' & X1 & M1 & A1). pose proof (el1_prologue c1 L1') as E2.
    pose proof (bl_bss Hok). pose proof (bl_words Hok) as Hw. apply Z.mod_divide in Hw as [w Hw]; [|done].
    destruct (zero_loop (Z.to_nat w) (el1_set c1) (sym bss_start)) as (n2 & c2 & E3 & [K1 K2 K3 K4] & M2).
    { unfold el1_set. rewrite !bx_bset_ne by done. rewrite bx_bset_eq. apply symbol_addr. }
    { unfold el1_set. rewrite bx_bset_eq. apply symbol_addr. }
    { apply (bl_sym Hok). } { lia. }
    exists (n1 + (13 + (n2 + 1)))%nat, c2. rewrite !bsteps_add, E1, E2, E3. split; [reflexivity|].
    assert (forall x, b_mem (el1_set c1) x = store64 (b_mem c) (sym aarch64_fdt_ptr) (bx c 0%nat) x) as Mx.
    { intros x. unfold el1_set. cbn [b_mem bset bset_mem]. rewrite symbol_addr, M1, X1. done. }
    split; [by rewrite K3|]. split; [rewrite K1; apply symbol_addr|]. split; [by rewrite K2|].
    split. { intros Hgt. destruct (A1 Hgt) as [? ? ? ? ? ?]. constructor; rewrite ?K2, ?K3, ?K4; done. }
    split. { intros x Hx'. rewrite M2. rewrite (proj2 (Z.leb_le _ _)), (proj2 (Z.ltb_lt _ _)) by lia. done. }
    split. { intros x Hb Hf. rewrite M2, Mx, store64_out by lia. ztest; cbn; done || lia. }
    split; intros Hf.
    + transitivity (load64 (store64 (b_mem c) (sym aarch64_fdt_ptr) (bx c 0%nat)) (sym aarch64_fdt_ptr)); [|by apply load64_store64_eq].
      apply load64_ext. intros x Hx'. rewrite M2, Mx. ztest; cbn; done || lia.
    + transitivity (load64 (fun _ => 0) (sym aarch64_fdt_ptr)); [|reflexivity]. apply load64_ext. intros x Hx'. rewrite M2. ztest; cbn; done || lia.
  - intros Hm n. set (c0 := bset 1 (Z.land (b_sys c MPIDR_EL1) 0xFF) (bset 1 (b_sys c MPIDR_EL1) c)).
    assert (forall k, steps (2 * k) (Running code_9 c0) = Running code_9 c0) as Hloop by (induction k as [|k IH]; [done|]; rewrite Nat.mul_succ_r, Nat.add_comm, bsteps_add; exact IH).
    assert (steps 3 (Running boot_start c) = Running code_9 c0) as E0.
    { rewrite !bsteps_S. cbn [bstep boot_start app]. rewrite b_access_ok by (cbn; lia). cbn [bstep]. rewrite !bx_bset_eq. fold c0. by rewrite (proj2 (Z.eqb_neq _ _)). }
    destruct n as [|[|[|n]]].
    + do 2 eexists. by split.
    + do 2 eexists. rewrite bsteps_S. cbn [bstep boot_start app]. rewrite b_access_ok by (cbn; lia). by split.
    + do 2 eexists. rewrite !bsteps_S. cbn [bstep boot_start app]. rewrite b_access_ok by (cbn; lia). by split.
    + replace (S (S (S n))) with (3 + n)%nat by lia. rewrite bsteps_add, E0.
      destruct (Nat.Even_or_Odd n) as [[k ->]|[k ->]]; [rewrite Hloop | rewrite Nat.add_1_r, <- Nat.add_1_r, bsteps_add, Hloop]; do 2 eexists; by split.
Qed.
End spec.

(** QEMU's raspi3b enters at EL3; three words of data, the second for the device tree's address. *)
Definition boot_addr (l : label) : Z := match l with L_start => 0x80000 | L9 => 0x8000C | L0 => 0x80014 | L5 => 0x8006C | L1 => 0x800B4 | L2 => 0x800E8 | L3 => 0x800F8 | L4 => 0x800FC end.
Definition boot_sym (s : symbol) : Z := match s with boot_stack_top => 0x94000 | aarch64_fdt_ptr => 0x90008 | bss_start => 0x90000 | bss_end => 0x90018 end.
Definition boot_demo (core : Z) : bcore := mk_bcore (fun _ => 0x8000000) 0 (fun s => match s with MPIDR_EL1 => 0x80000000 + core | _ => 0 end) (fun _ => 7) 3 0 (0, 0).
Lemma boot_layout : layout_ok boot_addr boot_sym.
Proof. constructor; [by intros [] | by intros [] | done | done]. Qed.
Lemma arm_boot_exact_witness : (exists n c', bsteps boot_addr boot_sym n (Running boot_start (boot_demo 0)) = Started c' /\ b_level c' = 1 /\ b_mem c' 0x90017 = 0 /\ b_mem c' 0x90018 = 7 /\
  load64 (b_mem c') 0x90008 = 0) /\ forall n, exists pc c', bsteps boot_addr boot_sym n (Running boot_start (boot_demo 1)) = Running pc c' /\ b_mem c' = fun _ => 7.
Proof.
  split.
  - destruct (arm_boot_exact boot_addr boot_sym boot_layout (boot_demo 0)) as [H _]; [cbn; lia | cbn; lia |].
    destruct H as (n & c' & E & L & _ & _ & _ & Z0 & O & _ & F); [reflexivity|]. exists n, c'. split; [exact E|]. split; [exact L|].
    split; [apply Z0; cbn; lia|]. split; [apply O; cbn; lia|]. apply F. cbn. lia.
  - destruct (arm_boot_exact boot_addr boot_sym boot_layout (boot_demo 1)) as [_ H]; [cbn; lia | cbn; lia |]. apply H. vm_compute. discriminate.
Defined.
