(* ===== verification/X86Entry.v ===== *)
(** Entering and leaving the x86_64 kernel (src/kernel/src/arch/x86_64/idt.rs):
    the interrupt stubs, the page-fault stub, INT 0x80 and SYSCALL.

    Compiled Rust code that a stub calls is a function on the machine; what the
    theorems assume of it is what the System V ABI promises ([abi]). *)
From Stdlib Require Import ZArith Lia.
From stdpp Require Import base option list numbers.
From S2P Require Import Prelude X86Asm Context.
Local Open Scope Z_scope.

(** [make_isr!] *)
Definition isr_saved : list reg := [RAX; RBX; RCX; RDX; RSI; RDI; RBP; R8; R9; R10; R11; R12; R13; R14; R15].
Definition make_isr (common_dispatch : cpu -> cpu) (vec : Z) : list instr :=
  (PUSH <$> isr_saved) ++ [MOV_IMM RDI vec; CALL common_dispatch] ++
  (POP <$> [R15; R14; R13; R12; R11; R10; R9; R8; RBP; RDI; RSI; RDX; RCX; RBX; RAX]) ++ [IRETQ].

(** isr14, the page-fault stub *)
Definition isr14 (pagefault_handler : cpu -> cpu) : list instr :=
  [MOV_CR2 RCX; POP RDX; MOV_STACK R14 0] ++
  (PUSH <$> [RAX; RBX; RSI; RDI; RBP; R8; R9; R10; R11; R12; R13; R14; R15]) ++
  [MOV RDI RCX; MOV RSI RDX; MOV RDX R14; MOV_FROM_RSP RCX; CALL pagefault_handler] ++
  (POP <$> [R15; R14; R13; R12; R11; R10; R9; R8; RBP; RDI; RSI; RBX; RAX]) ++ [IRETQ].

(** isr13, the stub of the protection fault: the handler does not return, and the hlt loop is not reached. *)
Definition isr13_head : list instr := (PUSH <$> isr_saved) ++ [MOV_FROM_RSP RDI; LEA_STACK RSI (15 * 8)].
Definition isr13 (gpf_handler : cpu -> cpu) : list instr := isr13_head ++ [CALL gpf_handler].
(** [SavedGprs]: the registers from the lowest address. *)
Definition SavedGprs : list reg := [R15; R14; R13; R12; R11; R10; R9; R8; RBP; RDI; RSI; RDX; RCX; RBX; RAX].

(** The execve redirect: (entry, stack, page table), from [take_exec_ctx]. *)
Definition exec_ctx : Type := option (Z * Z * Z).

(** [apply_exec_redirect(stack)]: rdi points at the saved registers. *)
Definition apply_exec_redirect (ctx : exec_ctx) (junk : reg -> Z) (s : cpu) : cpu :=
  clobber junk
    match ctx with
    | None => s
    | Some (new_ip, new_sp, new_pt) =>
        set_cr3 new_pt (set_ram (store64 (store64 (ram s) (gpr s RDI + 8 * 11) new_ip) (gpr s RDI + 8 * 14) new_sp) s)
    end.

(** isr128, the INT 0x80 entry *)
Definition isr128_saved : list reg := [RBX; RBP; R12; R13; R14; R15; R10; R11; R8; R9; RCX].
Definition isr128_head : list instr :=
  (PUSH <$> isr128_saved) ++
  [MOV R11 RAX; SUB_RSP 8; MOV_STACK RAX 120; PUSH RAX; MOV_STACK RAX 104; PUSH RAX; PUSH R9;
   MOV R9 R8; MOV R8 R10; MOV RCX RDX; MOV RDX RSI; MOV RSI RDI; MOV RDI R11].
Definition isr128_tail (redirect : cpu -> cpu) : list instr :=
  [ADD_RSP 32; PUSH RAX; LEA_STACK RDI 8; SUB_RSP 8; CALL redirect; ADD_RSP 8; POP RAX] ++
  (POP <$> [RCX; R9; R8; R11; R10; R15; R14; R13; R12; RBP; RBX]) ++ [IRETQ].
Definition isr128 (syscall_entry_rust redirect : cpu -> cpu) : list instr :=
  isr128_head ++ [CALL syscall_entry_rust] ++ isr128_tail redirect.

(** The statics of the SYSCALL path. *)
Record syscall_statics := mk_statics {
  SYSCALL_KERNEL_RSP : Z; SYSCALL_USER_RSP : Z;
  SYSCALL_USER_RBX : Z; SYSCALL_USER_RBP : Z; SYSCALL_USER_R12 : Z; SYSCALL_USER_R13 : Z;
  SYSCALL_USER_R14 : Z; SYSCALL_USER_R15 : Z
}.

Section syscall.
Variable st : syscall_statics.

(** [callee_saved_snapshot()] *)
Definition callee_saved_snapshot (m : mem) : list Z :=
  load64 m <$> [SYSCALL_USER_RBX st; SYSCALL_USER_RBP st; SYSCALL_USER_R12 st; SYSCALL_USER_R13 st;
                SYSCALL_USER_R14 st; SYSCALL_USER_R15 st].

(** [apply_exec_redirect_syscall(saved_rcx)] *)
Definition apply_exec_redirect_syscall (ctx : exec_ctx) (junk : reg -> Z) (s : cpu) : cpu :=
  clobber junk
    match ctx with
    | None => s
    | Some (new_ip, new_sp, new_pt) =>
        set_cr3 new_pt (set_ram (store64 (store64 (ram s) (gpr s RDI) new_ip) (SYSCALL_USER_RSP st) new_sp) s)
    end.

Definition syscall_snapshot : list instr :=
  [MOV_AT (SYSCALL_USER_RBX st) RBX; MOV_AT (SYSCALL_USER_RBP st) RBP; MOV_AT (SYSCALL_USER_R12 st) R12;
   MOV_AT (SYSCALL_USER_R13 st) R13; MOV_AT (SYSCALL_USER_R14 st) R14; MOV_AT (SYSCALL_USER_R15 st) R15].
Definition syscall_saved : list reg := [RCX; R11; RDI; RSI; RDX; R8; R9; R10].
Definition syscall_entry_head : list instr :=
  [MOV_AT_RSP (SYSCALL_USER_RSP st); MOV_RSP_AT (SYSCALL_KERNEL_RSP st)] ++ syscall_snapshot ++
  (PUSH <$> syscall_saved) ++
  [SUB_RSP 8; PUSH_AT (SYSCALL_USER_RSP st); PUSH RCX; PUSH R9;
   MOV R9 R8; MOV R8 R10; MOV RCX RDX; MOV RDX RSI; MOV RSI RDI; MOV RDI RAX].
Definition syscall_entry_tail (exec_redir : cpu -> cpu) : list instr :=
  [ADD_RSP 32; SUB_RSP 8; PUSH RAX; LEA_STACK RDI 72; CALL exec_redir; POP RAX; ADD_RSP 8] ++
  (POP <$> [R10; R9; R8; RDX; RSI; RDI; R11]) ++
  [OR_IMM R11 0x200; POP RCX; MOV_RSP_AT (SYSCALL_USER_RSP st); SYSRETQ].
Definition syscall_entry_asm (handler exec_redir : cpu -> cpu) : list instr :=
  syscall_entry_head ++ [CALL handler] ++ syscall_entry_tail exec_redir.
End syscall.

(** ** Interrupt stubs *)

Lemma iretq_spec s rip' cs' fl' sp' ss' : 0 <= rsp s -> rsp s + 40 < 2 ^ 64 ->
  stack_has (ram s) (rsp s) [rip'; cs'; fl'; sp'; ss'] ->
  exec [IRETQ] s = mk_cpu (gpr s) sp' (ram s) rip' cs' ss' fl' (cr2 s) (cr3 s).
Proof.
  intros H0 H1 Hs. cbn [exec foldl step].
  rewrite !uadd_small by lia.
  by rewrite (stack_word _ _ _ 0 _ Hs), (stack_word _ _ _ 1 _ Hs), (stack_word _ _ _ 2 _ Hs), (stack_word _ _ _ 3 _ Hs), (stack_word _ _ _ 4 _ Hs) by done.
Qed.

(** Popping registers that were saved on the stack, then returning. *)
Lemma pops_iretq s rs vs rip' cs' fl' sp' ss' : length rs = length vs -> 0 <= rsp s ->
  rsp s + 8 * Z.of_nat (length rs) + 48 < 2 ^ 64 -> stack_has (ram s) (rsp s) (vs ++ [rip'; cs'; fl'; sp'; ss']) ->
  exec ((POP <$> rs) ++ [IRETQ]) s = mk_cpu (pop_regs (gpr s) rs vs) sp' (ram s) rip' cs' ss' fl' (cr2 s) (cr3 s).
Proof.
  intros Hlen H0 H1 Hs. rewrite exec_app, (exec_pops rs s vs [rip'; cs'; fl'; sp'; ss']) by (done || lia).
  apply stack_has_app in Hs as [_ Hs]. rewrite <- Hlen in Hs. by rewrite (iretq_spec _ rip' cs' fl' sp' ss') by (done || (cbn [rsp set_rsp]; lia)).
Qed.

(** C25: An interrupt is transparent: for every vector, whatever the dispatcher does
    within the ABI, the interrupted code goes on where it was with all fifteen
    general registers, its stack pointer, flags and segments as they were, and
    the dispatcher was called with the vector in rdi. *)
Theorem isr_transparent (common_dispatch : cpu -> cpu) (vec : Z) (s : cpu) (rip' cs' fl' sp' ss' : Z) :
  regs_ok s -> 128 <= rsp s -> rsp s + 48 < 2 ^ 64 -> stack_has (ram s) (rsp s) [rip'; cs'; fl'; sp'; ss'] ->
  let c := exec ((PUSH <$> isr_saved) ++ [MOV_IMM RDI vec]) s in
  abi common_dispatch c (rsp s - 120) (rsp s + 40) ->
  let s' := exec (make_isr common_dispatch vec) s in
  gpr c RDI = vec /\ rip s' = rip' /\ rsp s' = sp' /\ cs s' = cs' /\ ss s' = ss' /\ rflags s' = fl' /\
  forall r, gpr s' r = gpr s r.
Proof.
  intros Hr Hlo Hhi Hs c Habi s'.
  destruct (exec_pushes isr_saved s _ Hr ltac:(cbn; lia) Hs) as (m' & E & Hm & _).
  change (8 * Z.of_nat (length isr_saved)) with 120 in *.
  assert (c = set_gpr RDI vec (set_rsp (rsp s - 120) (set_ram m' s))) as Ec by (unfold c; rewrite exec_app, E; done).
  assert (s' = exec ((POP <$> [R15; R14; R13; R12; R11; R10; R9; R8; RBP; RDI; RSI; RDX; RCX; RBX; RAX]) ++ [IRETQ]) (common_dispatch c)) as Es.
  { unfold s', make_isr. rewrite exec_app, E, exec_app. cbn [exec foldl step]. by rewrite Ec. }
  destruct Habi as [Ha1 _ Ha3]. assert (rsp (common_dispatch c) = rsp s - 120) as Hrsp by (rewrite Ha1, Ec; done).
  assert (stack_has (ram (common_dispatch c)) (rsp (common_dispatch c)) (reverse (gpr s <$> isr_saved) ++ [rip'; cs'; fl'; sp'; ss'])) as Hst.
  { rewrite Hrsp. eapply stack_has_ext; [|exact Hm]. intros x Hx. rewrite length_app in Hx. cbn in Hx.
    rewrite Ha3 by lia. rewrite Ec. done. }
  rewrite (pops_iretq (common_dispatch c) _ (reverse (gpr s <$> isr_saved)) rip' cs' fl' sp' ss') in Es by (done || (rewrite Hrsp; cbn [length]; lia)).
  rewrite Es, Ec. cbn [rip rsp cs ss rflags gpr]. repeat (split; [done|]). by intros [].
Qed.

(** The handler of a protection fault is called on the registers of the interrupted code, laid out
    as [SavedGprs], and on the error code with what the processor pushed above it. *)
Lemma isr13_arguments gpf_handler s (err rip' cs' fl' sp' ss' : Z) : regs_ok s -> 128 <= rsp s -> rsp s + 48 < 2 ^ 64 ->
  stack_has (ram s) (rsp s) [err; rip'; cs'; fl'; sp'; ss'] -> let c := exec isr13_head s in
  exec (isr13 gpf_handler) s = gpf_handler c /\ gpr c RDI = rsp s - 120 /\ gpr c RSI = rsp s /\
  stack_has (ram c) (gpr c RDI) (gpr s <$> SavedGprs) /\ stack_has (ram c) (gpr c RSI) [err; rip'; cs'; fl'; sp'; ss'].
Proof.
  intros Hr Hlo Hhi Hs c. destruct (exec_pushes isr_saved s _ Hr ltac:(cbn; lia) Hs) as (m' & E & Hm & Ho). change (8 * Z.of_nat (length isr_saved)) with 120 in *.
  assert (c = set_gpr RSI (rsp s) (set_gpr RDI (rsp s - 120) (set_rsp (rsp s - 120) (set_ram m' s)))) as Ec.
  { unfold c, isr13_head. rewrite exec_app, E. cbn [exec foldl step rsp set_rsp set_gpr]. do 2 f_equal. rewrite uadd_small by lia. lia. }
  split; [unfold isr13; by rewrite exec_app|]. rewrite Ec. do 2 (split; [done|]).
  change (reverse (gpr s <$> isr_saved)) with (gpr s <$> SavedGprs) in Hm. apply stack_has_app in Hm as [H1 H2]. split; [exact H1|].
  cbn [length fmap list_fmap SavedGprs] in H2. cbn [gpr ram set_gpr set_rsp set_ram upd]. unfold upd at 1. rewrite decide_True by done.
  by replace (rsp s) with (rsp s - 120 + 8 * Z.of_nat 15) by lia.
Qed.

(** The page-fault stub is not transparent: after a fault that the handler
    resolved, the program goes on with rip of the fault in r14 and with what
    the compiled handler left in rcx and rdx; the other twelve registers are
    restored. *)
Theorem isr14_clobbers (pagefault_handler : cpu -> cpu) (s : cpu) (err rip' cs' fl' sp' ss' : Z) :
  regs_ok s -> 128 <= rsp s -> rsp s + 64 < 2 ^ 64 -> u64 rip' -> u64 (cr2 s) -> u64 err ->
  stack_has (ram s) (rsp s) [err; rip'; cs'; fl'; sp'; ss'] ->
  let c := exec ([MOV_CR2 RCX; POP RDX; MOV_STACK R14 0] ++
    (PUSH <$> [RAX; RBX; RSI; RDI; RBP; R8; R9; R10; R11; R12; R13; R14; R15]) ++
    [MOV RDI RCX; MOV RSI RDX; MOV RDX R14; MOV_FROM_RSP RCX]) s in
  abi pagefault_handler c (rsp s - 96) (rsp s + 48) ->
  let s' := exec (isr14 pagefault_handler) s in
  gpr c RDI = cr2 s /\ gpr c RSI = err /\ gpr c RDX = rip' /\
  rip s' = rip' /\ rsp s' = sp' /\
  gpr s' R14 = rip' /\ gpr s' RCX = gpr (pagefault_handler c) RCX /\ gpr s' RDX = gpr (pagefault_handler c) RDX /\
  forall r, r <> RCX -> r <> RDX -> r <> R14 -> gpr s' r = gpr s r.
Proof.
  intros Hr Hlo Hhi Hrip Hcr Herr Hs c Habi s'. set (saved := [RAX; RBX; RSI; RDI; RBP; R8; R9; R10; R11; R12; R13; R14; R15]).
  set (s1 := exec [MOV_CR2 RCX; POP RDX; MOV_STACK R14 0] s).
  apply stack_has_cons in Hs as [He Hs]. pose proof Hs as Hs'. apply stack_has_cons in Hs' as [Hri _].
  assert (s1 = mk_cpu (upd (upd (upd (gpr s) RCX (cr2 s)) RDX err) R14 rip') (rsp s + 8) (ram s) (rip s) (cs s) (ss s) (rflags s) (cr2 s) (cr3 s)) as E1.
  { unfold s1. cbn [exec foldl step set_rsp set_gpr rsp ram gpr rip cs ss rflags cr2 cr3]. rewrite He.
    rewrite (uadd_small (rsp s) 8), (uadd_small (rsp s + 8) 0) by lia. by rewrite Z.add_0_r, Hri. }
  assert (regs_ok s1) as Hr1.
  { intros r. rewrite E1. cbn [gpr]. unfold upd. repeat case_decide; done || apply Hr. }
  destruct (exec_pushes saved s1 [rip'; cs'; fl'; sp'; ss']) as (m' & E & Hm & _); [done | rewrite E1; cbn; lia | by rewrite E1 |].
  change (8 * Z.of_nat (length saved)) with 104 in *.
  assert (rsp s1 - 104 = rsp s - 96) as Er by (rewrite E1; cbn [rsp]; lia). rewrite Er in *.
  set (s2 := set_rsp (rsp s - 96) (set_ram m' s1)) in *.
  assert (c = exec [MOV RDI RCX; MOV RSI RDX; MOV RDX R14; MOV_FROM_RSP RCX] s2) as Ec.
  { unfold c. rewrite exec_app. fold s1. rewrite exec_app. fold saved. by rewrite E. }
  assert (s' = exec ((POP <$> [R15; R14; R13; R12; R11; R10; R9; R8; RBP; RDI; RSI; RBX; RAX]) ++ [IRETQ]) (pagefault_handler c)) as Es.
  { unfold s', isr14. rewrite exec_app. fold s1. rewrite exec_app. fold saved. rewrite E, exec_app.
    change (exec [MOV RDI RCX; MOV RSI RDX; MOV RDX R14; MOV_FROM_RSP RCX; CALL pagefault_handler] s2) with
      (pagefault_handler (exec [MOV RDI RCX; MOV RSI RDX; MOV RDX R14; MOV_FROM_RSP RCX] s2)). by rewrite <- Ec. }
  destruct Habi as [Ha1 _ Ha3]. assert (rsp (pagefault_handler c) = rsp s - 96) as Hrsp by (rewrite Ha1, Ec; done).
  assert (stack_has (ram (pagefault_handler c)) (rsp (pagefault_handler c)) (reverse (gpr s1 <$> saved) ++ [rip'; cs'; fl'; sp'; ss'])) as Hst.
  { rewrite Hrsp. eapply stack_has_ext; [|exact Hm]. intros x Hx. rewrite length_app in Hx. cbn in Hx.
    rewrite Ha3 by lia. rewrite Ec. done. }
  rewrite (pops_iretq (pagefault_handler c) _ (reverse (gpr s1 <$> saved)) rip' cs' fl' sp' ss') in Es by (done || (rewrite Hrsp; cbn [length]; lia)).
  rewrite Es. cbn [rip rsp gpr]. clear Es s'. rewrite Ec. unfold s2. rewrite E1.
  repeat (split; [done|]). intros []; done.
Qed.

(** ** The SYSCALL path *)

Definition static_cells (st : syscall_statics) : list Z :=
  [SYSCALL_KERNEL_RSP st; SYSCALL_USER_RSP st; SYSCALL_USER_RBX st; SYSCALL_USER_RBP st; SYSCALL_USER_R12 st;
   SYSCALL_USER_R13 st; SYSCALL_USER_R14 st; SYSCALL_USER_R15 st].
(** Eight-byte cells apart from each other. *)
Definition apart8 (l : list Z) : Prop := ForallOrdPairs (fun a b => a + 8 <= b \/ b + 8 <= a) l.
(** The statics and a kernel stack that ends at [K]. *)
Record statics_ok (st : syscall_statics) (K : Z) : Prop := {
  st_apart : apart8 (static_cells st);
  st_stack : Forall (fun a => a + 8 <= K - 104 \/ K <= a) (static_cells st);
  st_low : 128 <= K;
  st_high : K < 2 ^ 64
}.

Lemma push_small v s : 8 <= rsp s < 2 ^ 64 -> push_val v s = set_rsp (rsp s - 8) (set_ram (store64 (ram s) (rsp s - 8) v) s).
Proof. intros. unfold push_val. by rewrite usub_small by lia. Qed.

Ltac in_cells := unfold static_cells; repeat first [left; reflexivity | right].

Ltac other_cell := rewrite load64_store64_ne by (assumption || (apply or_comm; assumption)).

(** The machine at the call of the handler. *)
Lemma syscall_head_spec st s K : statics_ok st K -> regs_ok s -> u64 (rsp s) -> load64 (ram s) (SYSCALL_KERNEL_RSP st) = K ->
  let c := exec (syscall_entry_head st) s in
  (forall r, callee_saved r = true -> gpr c r = gpr s r) /\
  gpr c <$> [RDI; RSI; RDX; RCX; R8; R9] = gpr s <$> [RAX; RDI; RSI; RDX; R10; R8] /\
  rsp c = K - 96 /\
  stack_has (ram c) (K - 96) [gpr s R9; gpr s RCX; rsp s] /\
  stack_has (ram c) (K - 64) (reverse (gpr s <$> syscall_saved)) /\
  load64 (ram c) (SYSCALL_USER_RSP st) = rsp s /\
  callee_saved_snapshot st (ram c) = gpr s <$> [RBX; RBP; R12; R13; R14; R15] /\
  (cs c, ss c, cr2 c, cr3 c) = (cs s, ss s, cr2 s, cr3 s).
Proof.
  intros [Hap Hst Hlo Hhi] Hr Hsp HK c. unfold c, syscall_entry_head. clear c.
  assert (forall a, In a (static_cells st) -> a + 8 <= K - 104 \/ K <= a) as Hin by (by apply List.Forall_forall).
  unfold apart8, static_cells in Hap, Hst. repeat match goal with
    | H : ForallOrdPairs _ (_ :: _) |- _ => inversion_clear H
    | H : Forall _ (_ :: _) |- _ => apply Forall_cons_1 in H as [? ?]
    | H : Forall _ [] |- _ => clear H
    | H : ForallOrdPairs _ [] |- _ => clear H end.
  set (m1 := foldl (fun m '(a, v) => store64 m a v) (store64 (ram s) (SYSCALL_USER_RSP st) (rsp s))
    [(SYSCALL_USER_RBX st, gpr s RBX); (SYSCALL_USER_RBP st, gpr s RBP); (SYSCALL_USER_R12 st, gpr s R12);
     (SYSCALL_USER_R13 st, gpr s R13); (SYSCALL_USER_R14 st, gpr s R14); (SYSCALL_USER_R15 st, gpr s R15)]).
  assert (exec ([MOV_AT_RSP (SYSCALL_USER_RSP st); MOV_RSP_AT (SYSCALL_KERNEL_RSP st)] ++ syscall_snapshot st) s =
    set_rsp K (set_ram m1 s)) as E1.
  { unfold syscall_snapshot. cbn [exec foldl step app set_ram set_rsp gpr rsp ram].
    rewrite load64_store64_ne by lia. rewrite HK. done. }
  set (s1 := set_rsp K (set_ram m1 s)) in *.
  destruct (exec_pushes syscall_saved s1 []) as (m2 & E2 & Hs2 & Ho2); [done | cbn; lia | apply stack_has_nil |].
  change (8 * Z.of_nat (length syscall_saved)) with 64 in *. cbn [rsp s1 set_rsp] in E2, Hs2, Ho2.
  rewrite app_nil_r in Hs2.
  assert (forall a, In a (static_cells st) -> load64 m2 a = load64 m1 a) as Hcell.
  { intros a Ha. symmetry. apply load64_ext. intros x Hx. symmetry. apply Ho2. specialize (Hin a Ha). clear -Hin Hx. lia. }
  assert (load64 m2 (SYSCALL_USER_RSP st) = rsp s) as HU.
  { rewrite Hcell by in_cells. unfold m1. cbn [foldl]. do 6 other_cell. apply load64_store64_eq, Hsp. }
  assert (callee_saved_snapshot st m2 = gpr s <$> [RBX; RBP; R12; R13; R14; R15]) as Hsnap.
  { unfold callee_saved_snapshot. cbn [fmap list_fmap]. rewrite !Hcell by in_cells. unfold m1. cbn [foldl].
    do 5 other_cell. rewrite load64_store64_eq by apply Hr. do 4 other_cell. rewrite load64_store64_eq by apply Hr.
    do 3 other_cell. rewrite load64_store64_eq by apply Hr. do 2 other_cell. rewrite load64_store64_eq by apply Hr.
    other_cell. by rewrite !load64_store64_eq by apply Hr. }
  repeat match goal with H : _ + 8 <= _ \/ _ |- _ => clear H end.
  rewrite app_assoc, exec_app, E1. fold s1. rewrite exec_app, E2. set (s2 := set_rsp (K - 64) (set_ram m2 s1)).
  set (m3 := store64 (store64 (store64 m2 (K - 80) (rsp s)) (K - 88) (gpr s RCX)) (K - 96) (gpr s R9)).
  assert (exec [SUB_RSP 8; PUSH_AT (SYSCALL_USER_RSP st); PUSH RCX; PUSH R9] s2 = set_rsp (K - 96) (set_ram m3 s2)) as E3.
  { unfold s2, s1. rewrite exec_cons. cbn [step set_rsp set_ram rsp ram gpr]. rewrite usub_small by lia.
    rewrite exec_cons. cbn [step ram set_rsp set_ram]. rewrite HU, push_small by (cbn [rsp set_rsp set_ram]; lia).
    rewrite exec_cons. cbn [step gpr set_rsp set_ram rsp]. rewrite push_small by (cbn [rsp set_rsp set_ram]; lia).
    rewrite exec_cons. cbn [step gpr set_rsp set_ram rsp ram]. rewrite push_small by (cbn [rsp set_rsp set_ram]; lia).
    cbn [exec foldl gpr set_rsp set_ram rsp ram]. unfold m3.
    replace (K - 64 - 8 - 8) with (K - 80) by lia. replace (K - 80 - 8) with (K - 88) by lia. by replace (K - 88 - 8) with (K - 96) by lia. }
  change [SUB_RSP 8; PUSH_AT (SYSCALL_USER_RSP st); PUSH RCX; PUSH R9; MOV R9 R8; MOV R8 R10; MOV RCX RDX; MOV RDX RSI; MOV RSI RDI; MOV RDI RAX]
    with ([SUB_RSP 8; PUSH_AT (SYSCALL_USER_RSP st); PUSH RCX; PUSH R9] ++ [MOV R9 R8; MOV R8 R10; MOV RCX RDX; MOV RDX RSI; MOV RSI RDI; MOV RDI RAX]).
  rewrite exec_app, E3. cbn [exec foldl step set_gpr set_rsp set_ram gpr rsp ram s2 s1 cs ss cr2 cr3].
  assert (forall x, ~ K - 96 <= x < K - 72 -> m3 x = m2 x) as Ho3.
  { intros x Hx. unfold m3. rewrite !store64_out by lia. done. }
  assert (forall a, In a (static_cells st) -> load64 m3 a = load64 m2 a) as Hkeep.
  { intros a Ha. apply load64_ext. intros x Hx. apply Ho3. specialize (Hin a Ha). lia. }
  split_and!; try done.
  - by intros [].
  - rewrite !stack_has_cons. unfold m3. split_and!; try apply stack_has_nil.
    + apply load64_store64_eq, Hr.
    + replace (K - 96 + 8) with (K - 88) by lia. rewrite load64_store64_ne by lia. apply load64_store64_eq, Hr.
    + replace (K - 96 + 8 + 8) with (K - 80) by lia. do 2 (rewrite load64_store64_ne by lia). apply load64_store64_eq, Hsp.
  - eapply stack_has_ext; [|exact Hs2]. cbn. intros x Hx. apply Ho3. lia.
  - rewrite <- HU. apply Hkeep. in_cells.
  - rewrite <- Hsnap. unfold callee_saved_snapshot. cbn [fmap list_fmap]. by rewrite !Hkeep by in_cells.
Qed.

(** Where SYSRET goes: the saved place, unless execve asked for another. *)
Definition redirect_ip (ctx : exec_ctx) (ip : Z) : Z := match ctx with Some (ip', _, _) => ip' | None => ip end.
Definition redirect_sp (ctx : exec_ctx) (sp : Z) : Z := match ctx with Some (_, sp', _) => sp' | None => sp end.
Definition redirect_pt (ctx : exec_ctx) (pt : Z) : Z := match ctx with Some (_, _, pt') => pt' | None => pt end.
Definition ctx_ok (ctx : exec_ctx) : Prop := match ctx with Some (ip, sp, _) => u64 ip /\ u64 sp | None => True end.

(** From the return of the handler to ring 3. *)
Lemma syscall_tail_spec st ctx junk h K w10 w9 w8 wdx wsi wdi w11 wcx :
  statics_ok st K -> ctx_ok ctx -> regs_ok h -> rsp h = K - 96 ->
  stack_has (ram h) (K - 64) [w10; w9; w8; wdx; wsi; wdi; w11; wcx] ->
  let u := exec (syscall_entry_tail st (apply_exec_redirect_syscall st ctx junk)) h in
  rip u = redirect_ip ctx wcx /\ rsp u = redirect_sp ctx (load64 (ram h) (SYSCALL_USER_RSP st)) /\
  cr3 u = redirect_pt ctx (cr3 h) /\ cs u = 0x23 /\ ss u = 0x1B /\ rflags u = Z.lor w11 0x200 /\
  gpr u RAX = gpr h RAX /\ gpr u <$> [RDI; RSI; RDX; R10; R8; R9] = [wdi; wsi; wdx; w10; w8; w9] /\
  forall r, callee_saved r = true -> gpr u r = gpr h r.
Proof.
  intros [_ Hst Hlo Hhi] Hctx Hr Hsp Hs u.
  assert (SYSCALL_USER_RSP st + 8 <= K - 104 \/ K <= SYSCALL_USER_RSP st) as HU.
  { eapply (proj1 (List.Forall_forall _ _) Hst). in_cells. }
  set (redirect := apply_exec_redirect_syscall st ctx junk) in *.
  set (m1 := store64 (ram h) (K - 80) (gpr h RAX)).
  set (s1 := set_gpr RDI (K - 8) (set_rsp (K - 80) (set_ram m1 h))).
  assert (exec [ADD_RSP 32; SUB_RSP 8; PUSH RAX; LEA_STACK RDI 72] h = s1) as E1.
  { rewrite exec_cons. cbn [step]. rewrite Hsp, uadd_small by lia. rewrite exec_cons. cbn [step set_rsp set_ram rsp].
    rewrite usub_small by lia. rewrite exec_cons. cbn [step set_rsp set_ram rsp gpr]. rewrite push_small by (cbn [rsp set_rsp set_ram]; lia).
    rewrite exec_cons. cbn [step exec foldl gpr set_rsp set_ram rsp ram]. rewrite uadd_small by lia. unfold s1, m1.
    replace (K - 96 + 32 - 8 - 8) with (K - 80) by lia. by replace (K - 80 + 72) with (K - 8) by lia. }
  set (m2 := match ctx with Some (ip, sp, _) => store64 (store64 m1 (K - 8) ip) (SYSCALL_USER_RSP st) sp | None => m1 end).
  set (s2 := redirect s1).
  assert (rsp s2 = K - 80 /\ ram s2 = m2 /\ cr3 s2 = redirect_pt ctx (cr3 h)) as (Esp & Em & Ecr) by (by destruct ctx as [[[ip sp] pt]|]).
  assert (forall r, callee_saved r = true -> gpr s2 r = gpr h r) as Ecs.
  { intros r Hrs. unfold s2, redirect, apply_exec_redirect_syscall, clobber. cbn [gpr]. rewrite Hrs.
    destruct ctx as [[[ip sp] pt]|]; by destruct r. }
  assert (stack_has m2 (K - 80) [gpr h RAX] /\ stack_has m2 (K - 64) ([w10; w9; w8; wdx; wsi; wdi; w11] ++ [redirect_ip ctx wcx])) as [Hrax Hm2].
  { assert (stack_has m1 (K - 80) [gpr h RAX]) as Hr1 by (apply stack_has_cons; split; [apply load64_store64_eq, Hr | apply stack_has_nil]).
    assert (stack_has m1 (K - 64) [w10; w9; w8; wdx; wsi; wdi; w11; wcx]) as Hr2 by (apply store_stack; [lia | done]).
    unfold m2. destruct ctx as [[[ip sp] pt]|]; [|done]. destruct Hctx as [Hip _].
    change [w10; w9; w8; wdx; wsi; wdi; w11; wcx] with ([w10; w9; w8; wdx; wsi; wdi; w11] ++ [wcx]) in Hr2.
    apply stack_has_app in Hr2 as [Hr2 _]. change (8 * Z.of_nat (length [w10; w9; w8; wdx; wsi; wdi; w11])) with 56 in *.
    split; [|apply stack_has_app; split]; (apply store_stack; [cbn [length]; lia|]).
    - apply store_stack; [cbn [length]; lia | done].
    - apply store_stack; [cbn [length]; lia | done].
    - apply stack_has_cons. cbn [length redirect_ip]. split; [|apply stack_has_nil].
      replace (K - 64 + 8 * Z.of_nat 7) with (K - 8) by lia. by apply load64_store64_eq. }
  assert (load64 m2 (SYSCALL_USER_RSP st) = redirect_sp ctx (load64 (ram h) (SYSCALL_USER_RSP st))) as Hu.
  { unfold m2, m1. destruct ctx as [[[ip sp] pt]|]; cbn [redirect_sp]; [apply load64_store64_eq, Hctx|].
    by rewrite load64_store64_ne by lia. }
  assert (u = exec ([POP RAX; ADD_RSP 8] ++ (POP <$> [R10; R9; R8; RDX; RSI; RDI; R11]) ++ [OR_IMM R11 0x200; POP RCX; MOV_RSP_AT (SYSCALL_USER_RSP st); SYSRETQ]) s2) as Eu.
  { unfold u, syscall_entry_tail. fold redirect.
    change [ADD_RSP 32; SUB_RSP 8; PUSH RAX; LEA_STACK RDI 72; CALL redirect; POP RAX; ADD_RSP 8]
      with ([ADD_RSP 32; SUB_RSP 8; PUSH RAX; LEA_STACK RDI 72] ++ CALL redirect :: [POP RAX; ADD_RSP 8]).
    by rewrite <- app_assoc, exec_app, E1. }
  assert (exec [POP RAX; ADD_RSP 8] s2 = set_rsp (K - 64) (set_gpr RAX (gpr h RAX) s2)) as E3.
  { cbn [exec foldl step]. rewrite Esp, Em. apply stack_has_cons in Hrax as [-> _]. cbn [set_rsp set_gpr rsp].
    rewrite (uadd_small (K - 80)), uadd_small by lia. unfold set_rsp, set_gpr. f_equal. cbn. lia. }
  pose proof Hm2 as [Hw Hc]%stack_has_app. change (8 * Z.of_nat (length [w10; w9; w8; wdx; wsi; wdi; w11])) with 56 in Hc.
  replace (K - 64 + 56) with (K - 8) in Hc by lia. apply stack_has_cons in Hc as [Hc _].
  rewrite exec_app, E3, exec_app, (exec_pops _ _ [w10; w9; w8; wdx; wsi; wdi; w11] [redirect_ip ctx wcx]) in Eu
    by (done || (cbn [rsp set_rsp length]; lia) || (cbn [rsp ram set_rsp set_gpr]; rewrite Em; exact Hm2)).
  cbn [exec foldl step set_rsp set_gpr rsp ram gpr rip cs ss rflags cr2 cr3 length pop_regs] in Eu.
  change (8 * Z.of_nat 7) with 56 in Eu. replace (K - 64 + 56) with (K - 8) in Eu by lia. rewrite Em, Hc, Hu in Eu.
  rewrite Eu. cbn [rip rsp cr3 cs ss rflags gpr]. repeat (split; [done|]).
  intros [] Hcs; try done; by apply Ecs.
Qed.

(** A SYSCALL from state [s], on a kernel stack that ends at [K]. *)
Record syscall_from (st : syscall_statics) (s : cpu) (K : Z) (handler : cpu -> cpu) (ctx : exec_ctx) : Prop := {
  sf_statics : statics_ok st K;
  sf_regs : regs_ok s;
  sf_rsp : u64 (rsp s);
  sf_kernel : load64 (ram s) (SYSCALL_KERNEL_RSP st) = K;
  sf_ctx : ctx_ok ctx;
  sf_abi : abi handler (exec (syscall_entry_head st) s) (K - 64) K;
  sf_out : regs_ok (handler (exec (syscall_entry_head st) s))
}.

Lemma fmap_eq_at {A B} (f g : A -> B) l x : f <$> l = g <$> l -> In x l -> f x = g x.
Proof.
  induction l as [|y l IH]; intros H Hx; [done|]. destruct Hx as [->|Hx].
  - exact (f_equal (fun l => default (f x) (head l)) H).
  - apply IH; [exact (f_equal tail H) | done].
Qed.

Lemma syscall_asm_split st handler redirect s :
  exec (syscall_entry_asm st handler redirect) s =
  exec (syscall_entry_tail st redirect) (handler (exec (syscall_entry_head st) s)).
Proof. unfold syscall_entry_asm. by rewrite exec_app. Qed.

Lemma syscall_returns st s K handler ctx junk : syscall_from st s K handler ctx ->
  let h := handler (exec (syscall_entry_head st) s) in
  let s' := exec (syscall_entry_asm st handler (apply_exec_redirect_syscall st ctx junk)) s in
  rip s' = redirect_ip ctx (gpr s RCX) /\ rsp s' = redirect_sp ctx (load64 (ram h) (SYSCALL_USER_RSP st)) /\
  cr3 s' = redirect_pt ctx (cr3 h) /\ cs s' = 0x23 /\ ss s' = 0x1B /\ rflags s' = Z.lor (gpr s R11) 0x200 /\
  gpr s' RAX = gpr h RAX /\
  gpr s' <$> [RDI; RSI; RDX; R10; R8; R9] = gpr s <$> [RDI; RSI; RDX; R10; R8; R9] /\
  forall r, callee_saved r = true -> gpr s' r = gpr s r.
Proof.
  intros [Hst Hr Hsp HK Hctx [Ha1 Ha2 Ha3] Ho] h s'. unfold s'. rewrite syscall_asm_split. fold h.
  destruct (syscall_head_spec st s K Hst Hr Hsp HK) as (Hc & _ & Hcsp & _ & Hsaved & _).
  assert (rsp h = K - 96) as Hh by (unfold h; rewrite Ha1; exact Hcsp).
  assert (stack_has (ram h) (K - 64) [gpr s R10; gpr s R9; gpr s R8; gpr s RDX; gpr s RSI; gpr s RDI; gpr s R11; gpr s RCX]) as Hw.
  { eapply stack_has_ext; [|exact Hsaved]. intros x Hx. cbn in Hx. apply (Ha3 x). lia. }
  pose proof (syscall_tail_spec st ctx junk h K _ _ _ _ _ _ _ _ Hst Hctx Ho Hh Hw) as (H1 & H2 & H3 & H4 & H5 & H6 & H7 & H8 & H9).
  do 8 (split; [assumption|]). intros r Hrs. rewrite H9 by exact Hrs. unfold h. rewrite Ha2 by exact Hrs. exact (Hc r Hrs).
Qed.


(** The user stack pointer is kept in one static for all tasks: if while task A is in its handler
    (blocked in it, and switched away from) another task B enters the kernel by
    SYSCALL, A returns to its own code on B's stack. *)
Theorem syscall_user_rsp_shared (st : syscall_statics) (a b : cpu) (K K' : Z) (handler : cpu -> cpu) (junk : reg -> Z) :
  syscall_from st a K handler None ->
  statics_ok st K' -> regs_ok b -> u64 (rsp b) -> load64 (ram b) (SYSCALL_KERNEL_RSP st) = K' ->
  let h := handler (exec (syscall_entry_head st) a) in
  load64 (ram h) (SYSCALL_USER_RSP st) = load64 (ram (exec (syscall_entry_head st) b)) (SYSCALL_USER_RSP st) ->
  let a' := exec (syscall_entry_asm st handler (apply_exec_redirect_syscall st None junk)) a in
  rip a' = gpr a RCX /\ rsp a' = rsp b.
Proof.
  intros H Hst Hr Hsp HK h E a'.
  destruct (syscall_returns st a K handler None junk H) as (H1 & H2 & _).
  destruct (syscall_head_spec st b K' Hst Hr Hsp HK) as (_ & _ & _ & _ & _ & HU & _).
  split; [exact H1|]. unfold a'. rewrite H2. cbn [redirect_sp]. fold h. by rewrite E.
Qed.

(** ** Witnesses *)

Lemma abi_clobber junk s lo hi : abi (clobber junk) s lo hi.
Proof. split; [done | | done]. intros r Hr. unfold clobber. cbn [gpr]. by rewrite Hr. Qed.

(** Code at 0x4000 on the stack 0x7000, interrupted; the kernel stack at 0x8000. *)
Definition demo_irq : cpu :=
  mk_cpu (demo_gpr 1 2) 0x8000 (write_words (fun _ => 0) 0x8000 [0x4000; 0x23; 0x202; 0x7000; 0x1B]) 0 0x08 0x10 0x002 0x5000 0.
Definition demo_fault : cpu :=
  mk_cpu (demo_gpr 1 2) 0x8000 (write_words (fun _ => 0) 0x8000 [6; 0x4000; 0x23; 0x202; 0x7000; 0x1B]) 0 0x08 0x10 0x002 0x5000 0.

Lemma isr_transparent_witness :
  let s' := exec (make_isr (clobber (fun _ => 99)) 32) demo_irq in
  rip s' = 0x4000 /\ rsp s' = 0x7000 /\ gpr s' RAX = 7 /\ gpr s' R12 = 33.
Proof.
  destruct (isr_transparent (clobber (fun _ => 99)) 32 demo_irq 0x4000 0x23 0x202 0x7000 0x1B) as (_ & H1 & H2 & _ & _ & _ & H3).
  - by intros []; vm_compute.
  - by vm_compute.
  - by vm_compute.
  - apply write_words_has. words.
  - apply abi_clobber.
  - split; [exact H1|]. split; [exact H2|]. split; rewrite H3; reflexivity.
Defined.

Lemma isr14_clobbers_witness :
  let s' := exec (isr14 (clobber (fun _ => 99))) demo_fault in
  gpr demo_fault R14 = 55 /\ gpr s' R14 = 0x4000 /\ gpr demo_fault RCX = 7 /\ gpr s' RCX = 99 /\ gpr s' RBX = 11.
Proof.
  destruct (isr14_clobbers (clobber (fun _ => 99)) demo_fault 6 0x4000 0x23 0x202 0x7000 0x1B) as (_ & _ & _ & _ & _ & H1 & H2 & _ & H3).
  - by intros []; vm_compute.
  - by vm_compute.
  - by vm_compute.
  - by vm_compute.
  - by vm_compute.
  - by vm_compute.
  - apply write_words_has. words.
  - apply abi_clobber.
  - split; [reflexivity|]. split; [exact H1|]. split; [reflexivity|]. split; [rewrite H2; reflexivity | rewrite H3; done].
Defined.

Definition demo_statics : syscall_statics := mk_statics 0x1000 0x1008 0x1010 0x1018 0x1020 0x1028 0x1030 0x1038.
(** User code on the stack [sp], with the kernel stack of its task ending at [K]. *)
Definition demo_user (sp K : Z) : cpu :=
  mk_cpu (demo_gpr 1 2) sp (store64 (fun _ => 0) 0x1000 K) 0x4000 0x23 0x1B 0x202 0 0x3000.

Lemma demo_statics_ok K : 0x2000 <= K < 2 ^ 64 -> statics_ok demo_statics K.
Proof.
  intros. split; [| |lia | lia]; unfold apart8, static_cells, demo_statics; cbn.
  - repeat (apply FOP_cons; [repeat (apply Forall_cons_2; [lia|]); apply Forall_nil_2|]). apply FOP_nil.
  - repeat (apply Forall_cons_2; [lia|]). apply Forall_nil_2.
Qed.

Lemma demo_user_ok sp K : 0x2000 <= K < 2 ^ 64 -> u64 sp ->
  regs_ok (demo_user sp K) /\ load64 (ram (demo_user sp K)) (SYSCALL_KERNEL_RSP demo_statics) = K.
Proof.
  intros HK Hsp. split; [by intros []; vm_compute|]. cbn [demo_user ram demo_statics SYSCALL_KERNEL_RSP].
  apply load64_store64_eq. lia.
Qed.

(** A handler that returns 42 and, if [other] is given, was switched away from
    while another task with that stack pointer entered. *)
Definition demo_handler (other : option Z) (c : cpu) : cpu :=
  clobber (fun _ => 42)
    match other with Some sp => set_ram (store64 (ram c) (SYSCALL_USER_RSP demo_statics) sp) c | None => c end.

Lemma demo_handler_abi other c : abi (demo_handler other) c (0x9000 - 64) 0x9000.
Proof.
  split.
  - by destruct other.
  - intros r Hrs. unfold demo_handler, clobber. cbn [gpr]. rewrite Hrs. by destruct other.
  - intros x Hx. unfold demo_handler, clobber. cbn [ram]. destruct other; [|done]. cbn [set_ram ram].
    apply store64_out. cbn. lia.
Qed.

Lemma demo_handler_regs other c s : regs_ok s -> (forall r, callee_saved r = true -> gpr c r = gpr s r) -> regs_ok (demo_handler other c).
Proof.
  intros Hr Hc r. unfold demo_handler, clobber. cbn [gpr]. destruct (callee_saved r) eqn:Hrs; [|done].
  destruct other; cbn [set_ram gpr]; rewrite Hc by done; apply Hr.
Qed.

Lemma demo_handler_ram c : ram (demo_handler None c) = ram c.
Proof. done. Qed.

Lemma demo_syscall_from other ctx : ctx_ok ctx ->
  syscall_from demo_statics (demo_user 0x7000 0x9000) 0x9000 (demo_handler other) ctx.
Proof.
  intros Hctx. destruct (demo_user_ok 0x7000 0x9000 ltac:(lia) ltac:(by vm_compute)) as [Hr HK].
  assert (statics_ok demo_statics 0x9000) as Hst by (apply demo_statics_ok; lia).
  destruct (syscall_head_spec demo_statics (demo_user 0x7000 0x9000) 0x9000 Hst Hr ltac:(by vm_compute) HK) as (Hc & _).
  exact (Build_syscall_from demo_statics (demo_user 0x7000 0x9000) 0x9000 (demo_handler other) ctx Hst Hr ltac:(by vm_compute) HK Hctx
    (demo_handler_abi other _) (demo_handler_regs other _ _ Hr Hc)).
Qed.


Lemma syscall_user_rsp_shared_witness :
  let a := demo_user 0x7000 0x9000 in
  let a' := exec (syscall_entry_asm demo_statics (demo_handler (Some 0x7800))
      (apply_exec_redirect_syscall demo_statics None (fun _ => 5))) a in
  rip a' = gpr a RCX /\ rsp a = 0x7000 /\ rsp a' = 0x7800.
Proof.
  destruct (demo_user_ok 0x7800 0xA000 ltac:(lia) ltac:(by vm_compute)) as [Hr HK].
  pose proof (syscall_user_rsp_shared demo_statics (demo_user 0x7000 0x9000) (demo_user 0x7800 0xA000) 0x9000 0xA000
    (demo_handler (Some 0x7800)) (fun _ => 5) (demo_syscall_from _ None I) (demo_statics_ok 0xA000 ltac:(lia)) Hr
    ltac:(by vm_compute) HK ltac:(by vm_compute)) as [H1 H2].
  split; [exact H1|]. split; [reflexivity | exact H2].
Defined.
