(* ===== verification/PageTable.v ===== *)
(** Radix page tables in memory: the theory shared by the x86_64 and the RISC-V
    address spaces (Paging.v).

    [PtFormat] is what an architecture says about its entries; a table is a page
    of 512 of them.  [tbl] follows the tables along a path of indices, [xlate]
    is the hardware's walk.  An address space is well formed when its tables lie
    in pages owned by the allocator and no two paths share one. *)
From Stdlib Require Import ZArith Lia.
From stdpp Require Import base option list numbers.
From S2P Require Import Prelude Mmap Bitmap Pages.
Local Open Scope Z_scope.

(** Memory and the page allocator. *)
Record vm (A : Type) := mk_vm { vm_mem : mem; vm_pages : A }.
Arguments mk_vm {A}. Arguments vm_mem {A}. Arguments vm_pages {A}.

(** Entries of a page table; the level counts from the root. *)
Class PtFormat := {
  pt_present : Z -> bool;
  pt_leaf : nat -> Z -> bool;    (* a present entry that ends the walk early *)
  pt_next : Z -> Z;              (* the table a present entry points to *)
  pt_table : Z -> Z              (* the entry written for a new table *)
}.

Class PtFormatOk (F : PtFormat) := {
  pt_zero : pt_present 0 = false;
  pt_table_present t : t mod 4096 = 0 -> 0 <= t < 2 ^ 64 -> pt_present (pt_table t) = true;
  pt_table_leaf lv t : t mod 4096 = 0 -> 0 <= t < 2 ^ 64 -> pt_leaf lv (pt_table t) = false;
  pt_table_next t : t mod 4096 = 0 -> 0 <= t < 2 ^ 64 -> pt_next (pt_table t) = t;
  pt_table_range t : 0 <= t < 2 ^ 64 -> 0 <= pt_table t < 2 ^ 64
}.

Definition entry_addr (t i : Z) : Z := t + 8 * i.
Definition entry (m : mem) (t i : Z) : Z := load64 m (entry_addr t i).
Definition set_entry (m : mem) (t i e : Z) : mem := store64 m (entry_addr t i) e.

Section ops.
Context {A : Type} {ops : PageOps A} {F : PtFormat}.

(** The code's "walk or create" block: the table below entry [i] of [t], made on
    demand; [None] when the entry is a leaf ([check]) or memory is out. *)
Definition walk_or_create (check : bool) (lv : nat) (t i : Z) (s : vm A) : outcome (option Z * vm A) :=
  let e := entry (vm_mem s) t i in
  if pt_present e then
    if check && pt_leaf lv e then Done (None, s) else Done (Some (pt_next e), s)
  else
    '(r, p) ← alloc_pages (vm_pages s) 1;
    match r with
    | None => Done (None, mk_vm (vm_mem s) p)
    | Some new =>
        let m := write_bytes (vm_mem s) new 0 4096 in
        let m := set_entry m t i (pt_table new) in
        Done (Some new, mk_vm m p)
    end.
End ops.

Section walk.
Context {F : PtFormat}.

Definition is_table (lv : nat) (e : Z) : bool := pt_present e && negb (pt_leaf lv e).

Fixpoint tbl (lv : nat) (m : mem) (t : Z) (path : list Z) : option Z :=
  match path with
  | [] => Some t
  | i :: path =>
      let e := entry m t i in
      if is_table lv e then tbl (S lv) m (pt_next e) path else None
  end.

(** The hardware's walk: the entry it ends at, with its level. *)
Fixpoint xlate (lv : nat) (m : mem) (t : Z) (idxs : list Z) : option (nat * Z) :=
  match idxs with
  | [] => None
  | i :: rest =>
      let e := entry m t i in
      if negb (pt_present e) then None
      else match rest with
        | [] => Some (lv, e)
        | _ => if pt_leaf lv e then Some (lv, e) else xlate (S lv) m (pt_next e) rest
        end
  end.

Lemma tbl_app m path1 : forall lv t path2,
  tbl lv m t (path1 ++ path2) = tbl lv m t path1 ≫= fun a => tbl (lv + length path1) m a path2.
Proof.
  induction path1 as [|i path1 IH]; intros lv t path2; cbn [app tbl length].
  - cbn. by rewrite Nat.add_0_r.
  - destruct (is_table lv (entry m t i)); [|done]. rewrite IH. by rewrite <- Nat.add_succ_comm.
Qed.

Lemma tbl_snoc m t path i : tbl 0 m t (path ++ [i]) =
  tbl 0 m t path ≫= fun a => if is_table (length path) (entry m a i) then Some (pt_next (entry m a i)) else None.
Proof. rewrite tbl_app. destruct (tbl 0 m t path); [|done]. cbn. by destruct (is_table _ _). Qed.

(** A walk that starts with a path to a table goes on from that table. *)
Lemma xlate_app m ρ : forall lv t a k, k <> [] -> tbl lv m t ρ = Some a ->
  xlate lv m t (ρ ++ k) = xlate (lv + length ρ) m a k.
Proof.
  induction ρ as [|i ρ IH]; intros lv t a k Hk Hp; cbn [app xlate tbl length] in *.
  - done_inv. by rewrite Nat.add_0_r.
  - unfold is_table in Hp. destruct (pt_present (entry m t i)); cbn [andb negb] in *; [|done].
    destruct (pt_leaf lv (entry m t i)); cbn [negb] in *; [done|].
    rewrite <- Nat.add_succ_comm, <- (IH _ _ a k Hk Hp). by destruct ρ, k.
Qed.

(** Tables and walks depend on the entries on their way only. *)
Definition agree (m m' : mem) (root : Z) (idxs : list Z) : Prop :=
  forall ρ j k a, idxs = ρ ++ j :: k -> tbl 0 m root ρ = Some a -> entry m' a j = entry m a j.

Lemma tbl_ext m m' root path : agree m m' root path -> tbl 0 m' root path = tbl 0 m root path.
Proof.
  induction path as [|i path IH] using rev_ind; intros H; [done|].
  rewrite !tbl_snoc, IH by (intros ρ j k a -> Ha; apply (H ρ j (k ++ [i])); [by rewrite <- app_assoc | done]).
  destruct (tbl 0 m root path) as [a|] eqn:E; [|done]. cbn [mbind option_bind]. by rewrite (H path i [] a).
Qed.

Lemma xlate_ext m m' root idxs : agree m m' root idxs -> xlate 0 m' root idxs = xlate 0 m root idxs.
Proof.
  intros H. assert (forall k ρ a, idxs = ρ ++ k -> tbl 0 m root ρ = Some a ->
    xlate (length ρ) m' a k = xlate (length ρ) m a k) as G; [|by apply (G idxs [])].
  induction k as [|j k IH]; intros ρ a Hi Ha; cbn [xlate]; [done|]. rewrite (H ρ j k a Hi Ha).
  destruct (pt_present (entry m a j)) eqn:Ep; cbn [negb]; [|done]. destruct k as [|j' k]; [done|].
  destruct (pt_leaf (length ρ) (entry m a j)) eqn:El; [done|].
  specialize (IH (ρ ++ [j]) (pt_next (entry m a j))). rewrite length_app, Nat.add_1_r in IH. apply IH.
  - by rewrite <- app_assoc.
  - rewrite tbl_snoc, Ha. cbn [mbind option_bind]. unfold is_table. by rewrite Ep, El.
Qed.
End walk.

(** ** Well-formed address spaces *)

Section spaces.
Context {A : Type} {ops : PageOps A} {laws : PageLaws A ops} {F : PtFormat} {FO : PtFormatOk F}.
(** Number of levels, and the first index of the root that is the user's. *)
Variables (depth : nat) (lo : Z).

Definition user_path (path : list Z) : Prop :=
  Forall (fun i => 0 <= i < 512) path /\ match path with [] => True | i :: _ => lo <= i end.

(** The page at [t] is a page of ours. *)
Definition page_ok (p : A) (t : Z) : Prop :=
  t mod 4096 = 0 /\ 0 < t /\ t + 4096 <= 2 ^ 64 /\ forall x, t <= x < t + 4096 -> pa_owned p x.

Record space_wf (s : vm A) (root : Z) : Prop := {
  sw_pages : pa_inv (vm_pages s);
  sw_tables path t : user_path path -> (length path < depth)%nat -> tbl 0 (vm_mem s) root path = Some t ->
    page_ok (vm_pages s) t;
  sw_inj path path' t : user_path path -> user_path path' -> (length path < depth)%nat -> (length path' < depth)%nat ->
    tbl 0 (vm_mem s) root path = Some t -> tbl 0 (vm_mem s) root path' = Some t -> path = path'
}.

Lemma user_path_app path i : user_path (path ++ [i]) -> user_path path /\ 0 <= i < 512.
Proof.
  intros [Hf Hh]. apply Forall_app in Hf as [Hf Hi]. split; [split; [done|]|by inversion Hi].
  by destruct path.
Qed.

Lemma user_path_app' path k : user_path (path ++ k) -> user_path path.
Proof. intros [Hf Hh]. apply Forall_app in Hf as [Hf _]. split; [done|]. by destruct path. Qed.

Lemma page_disjoint p t t' : page_ok p t -> page_ok p t' -> t <> t' -> t + 4096 <= t' \/ t' + 4096 <= t.
Proof.
  intros (H1 & _) (H2 & _) Hne. pose proof (Z.div_mod t 4096). pose proof (Z.div_mod t' 4096). lia.
Qed.

(** Writing an entry changes that entry only. *)
Lemma entry_set_eq m t i e : 0 <= e < 2 ^ 64 -> entry (set_entry m t i e) t i = e.
Proof. apply load64_store64_eq. Qed.

Lemma entry_set_ne m t i e t' i' : 0 <= i < 512 -> 0 <= i' < 512 ->
  (t = t' /\ i <> i') \/ t + 4096 <= t' \/ t' + 4096 <= t -> entry (set_entry m t i e) t' i' = entry m t' i'.
Proof. intros Hi Hi' H. apply load64_store64_ne. unfold entry_addr. lia. Qed.

Lemma entry_zeroed m t i : 0 <= i < 512 -> entry (write_bytes m t 0 4096) t i = 0.
Proof. intros. apply load64_write_bytes_zero; unfold entry_addr; lia. Qed.

Lemma entry_zero_other m t t' i : 0 <= i < 512 -> t + 4096 <= t' \/ t' + 4096 <= t ->
  entry (write_bytes m t 0 4096) t' i = entry m t' i.
Proof. intros. apply load64_write_bytes_ne. unfold entry_addr. lia. Qed.

(** The slot of a user entry: 8 bytes of a table the walk can reach. *)
Definition user_slot (s : vm A) (root x : Z) : Prop :=
  exists path i t, user_path (path ++ [i]) /\ (length path < depth)%nat /\ tbl 0 (vm_mem s) root path = Some t /\
    entry_addr t i <= x < entry_addr t i + 8.

(** All user translations are the same. *)
Definition same_view (s s' : vm A) (root : Z) : Prop :=
  forall idxs, user_path idxs -> length idxs = depth -> xlate 0 (vm_mem s') root idxs = xlate 0 (vm_mem s) root idxs.

(** What every operation on the space at [root] leaves alone: the pages that
    were owned stay owned, and their bytes change in user entries only. *)
Record evolves (s s' : vm A) (root : Z) : Prop := {
  ev_owned x : pa_owned (vm_pages s) x -> pa_owned (vm_pages s') x;
  ev_slots x : pa_owned (vm_pages s) x -> user_slot s' root x -> user_slot s root x;
  ev_frame x : pa_owned (vm_pages s) x -> ~ user_slot s root x -> vm_mem s' x = vm_mem s x
}.

Lemma evolves_refl s root : evolves s s root.
Proof. by split. Qed.

Lemma evolves_trans s1 s2 s3 root : evolves s1 s2 root -> evolves s2 s3 root -> evolves s1 s3 root.
Proof.
  intros [O1 S1 F1] [O2 S2 F2]. split; intros x Hx; [by apply O2, O1 | intros Hs; apply S1; [done | by apply S2; [apply O1|]]|].
  intros Hns. rewrite F2; [by apply F1 | by apply O1 | intros Hs; by apply Hns, S1].
Qed.

(** *** A new table *)

Section new_table.
Variables (s : vm A) (root t i new : Z) (path : list Z) (p' : A).
Hypothesis Hwf : space_wf s root.
Hypothesis Hpath : user_path (path ++ [i]).
Hypothesis Hlen : (length path + 1 < depth)%nat.
Hypothesis Ht : tbl 0 (vm_mem s) root path = Some t.
Hypothesis Hnone : pt_present (entry (vm_mem s) t i) = false.
Hypothesis Hal : new mod 4096 = 0.
Hypothesis Hpos : 0 < new /\ new + 4096 <= 2 ^ 64.
Hypothesis Hfresh : forall x, new <= x < new + 4096 -> ~ pa_owned (vm_pages s) x.
Hypothesis Hown : forall x, new <= x < new + 4096 \/ pa_owned (vm_pages s) x -> pa_owned p' x.
Hypothesis Hinv : pa_inv p'.

Let m' : mem := set_entry (write_bytes (vm_mem s) new 0 4096) t i (pt_table new).
Let s' : vm A := mk_vm m' p'.

Lemma new_apart t' : page_ok (vm_pages s) t' -> new + 4096 <= t' \/ t' + 4096 <= new.
Proof.
  intros (Hm & _ & _ & Ho). destruct (Z.eq_dec t' new) as [->|Hne].
  - exfalso. apply (Hfresh new); [lia | apply Ho; lia].
  - pose proof (Z.div_mod t' 4096). pose proof (Z.div_mod new 4096). lia.
Qed.

Lemma Htok : page_ok (vm_pages s) t.
Proof. destruct (user_path_app _ _ Hpath). eapply sw_tables; [exact Hwf | done | lia | exact Ht]. Qed.

Lemma Hi : 0 <= i < 512.
Proof. by destruct (user_path_app _ _ Hpath). Qed.

(** Entries of old tables, and of the new one. *)
Lemma new_entry_old ρ t' j : user_path ρ -> (length ρ < depth)%nat -> tbl 0 (vm_mem s) root ρ = Some t' -> 0 <= j < 512 ->
  entry m' t' j = if decide (ρ = path /\ j = i) then pt_table new else entry (vm_mem s) t' j.
Proof.
  intros Hρ Hlρ Ht' Hj. pose proof (sw_tables _ _ Hwf ρ t' Hρ Hlρ Ht') as Hok. pose proof Hi. pose proof Htok as Htok.
  unfold m'. case_decide as E.
  - destruct E as [-> ->]. assert (t' = t) as -> by congruence. apply entry_set_eq, pt_table_range. lia.
  - rewrite entry_set_ne; [|done..|].
    + apply entry_zero_other; [done|]. by apply new_apart.
    + destruct (Z.eq_dec t' t) as [->|Hne].
      * left. split; [done|]. intros ->. apply E. split; [|done].
        destruct (user_path_app _ _ Hpath). eapply sw_inj; [exact Hwf | done | done | done | lia | done | done].
      * right. by eapply page_disjoint.
Qed.

Lemma new_entry_zero j : 0 <= j < 512 -> entry m' new j = 0.
Proof.
  intros Hj. unfold m'. rewrite entry_set_ne; [by apply entry_zeroed | apply Hi | done |].
  right. destruct (new_apart t Htok); lia.
Qed.

(** The tables of the new space: the old ones and [new] at the end of its path. *)
Lemma new_tbl ρ : user_path ρ -> (length ρ < depth)%nat ->
  tbl 0 m' root ρ = if decide (ρ = path ++ [i]) then Some new
                    else if decide (path ++ [i] `prefix_of` ρ) then None else tbl 0 (vm_mem s) root ρ.
Proof.
  induction ρ as [|j ρ IH] using rev_ind; intros Hρ Hlρ.
  - rewrite decide_False by (intros E; by apply (f_equal length) in E; rewrite length_app in E; cbn in E; lia).
    rewrite decide_False by (intros [k E]; apply (f_equal length) in E; rewrite !length_app in E; cbn in E; lia). done.
  - destruct (user_path_app _ _ Hρ) as [Hρ' Hj]. rewrite length_app in Hlρ. cbn in Hlρ.
    specialize (IH Hρ' ltac:(lia)). rewrite tbl_snoc, IH. destruct (decide (ρ = path ++ [i])) as [->|Hne].
    { cbn [mbind option_bind]. rewrite new_entry_zero by done. unfold is_table. rewrite pt_zero. cbn [andb].
      rewrite decide_False by (intros E; apply (f_equal length) in E; rewrite !length_app in E; cbn in E; lia).
      rewrite decide_True by (by exists [j]). done. }
    destruct (decide (path ++ [i] `prefix_of` ρ)) as [[k Hk]|Hnp].
    { cbn. rewrite decide_False, decide_True; [done | exists (k ++ [j]); by rewrite Hk, <- app_assoc |].
      intros E. apply (f_equal length) in E. rewrite Hk, !length_app in E. cbn in E.
      apply Hne. rewrite Hk. destruct k; [by rewrite app_nil_r | cbn in E; lia]. }
    destruct (tbl 0 (vm_mem s) root ρ) as [t'|] eqn:Et'; cbn [mbind option_bind].
    + rewrite (new_entry_old ρ t' j) by (done || lia). destruct (decide (ρ = path /\ j = i)) as [[-> ->]|Hd].
      * rewrite decide_True by done. unfold is_table.
        rewrite pt_table_present, pt_table_leaf by (done || lia). cbn [andb negb]. f_equal. apply pt_table_next; [done | lia].
      * rewrite decide_False by (intros [-> ->]%app_inj_tail; naive_solver).
        rewrite decide_False; [rewrite tbl_snoc, Et'; done|].
        intros [k Hk]. destruct k as [|k0 k _] using rev_ind; [rewrite app_nil_r in Hk; apply app_inj_tail in Hk as [-> ->]; naive_solver|].
        rewrite app_assoc in Hk. apply app_inj_tail in Hk as [-> _]. apply Hnp. by exists k.
    + rewrite decide_False by (intros [-> ->]%app_inj_tail; congruence).
      case_decide; [done|]. rewrite tbl_snoc, Et'. done.
Qed.

Lemma new_wf : space_wf s' root.
Proof.
  pose proof Htok as (Ha & _). split; [done | |]; cbn [vm_mem vm_pages s'].
  - intros ρ t' Hρ Hl Ht'. rewrite new_tbl in Ht' by done. repeat case_decide; done_inv.
    + split; [done|]. split; [lia|]. split; [lia|]. intros x Hx. apply Hown. by left.
    + destruct (sw_tables _ _ Hwf ρ t' Hρ Hl Ht') as (? & ? & ? & Ho). repeat split; try done.
      intros x Hx. apply Hown. right. by apply Ho.
  - intros ρ ρ' t' Hρ Hρ' Hl Hl' E E'. rewrite new_tbl in E, E' by done.
    assert (forall ρ, user_path ρ -> (length ρ < depth)%nat -> tbl 0 (vm_mem s) root ρ <> Some new) as Hno.
    { intros ρ0 H0 H1 H2. destruct (new_apart new); [|lia..]. by eapply sw_tables; [exact Hwf|..]. }
    repeat case_decide; done_inv; try done; try (exfalso; eapply Hno; [| |eassumption]; done).
    by eapply sw_inj; [exact Hwf|..].
Qed.

Lemma new_tbl_path : tbl 0 m' root path = Some t.
Proof.
  rewrite new_tbl; [|by destruct (user_path_app _ _ Hpath) | lia].
  rewrite decide_False by (intros E; apply (f_equal length) in E; rewrite length_app in E; cbn in E; lia).
  rewrite decide_False by (intros [k E]; apply (f_equal length) in E; rewrite !length_app in E; cbn in E; lia). done.
Qed.

Lemma new_view : same_view s s' root.
Proof.
  intros idxs Hu Hl. cbn [vm_mem s']. destruct (decide (path ++ [i] `prefix_of` idxs)) as [[k ->]|Hnp].
  - rewrite <- app_assoc. cbn [app]. rewrite (xlate_app m' path 0 root t) by (done || apply new_tbl_path).
    rewrite (xlate_app (vm_mem s) path 0 root t) by done. rewrite !length_app in Hl. cbn in Hl.
    pose proof (Hi) as Hi'. destruct (user_path_app _ _ Hpath) as [Hp _].
    cbn [xlate]. rewrite Hnone. cbn [negb].
    rewrite (new_entry_old path t i) by (done || lia). rewrite decide_True by done.
    destruct Hu as [Hu _]. apply Forall_app in Hu as [_ Hk].
    rewrite pt_table_present by (done || lia). destruct k as [|j k]; [cbn in Hl; lia|]. inversion_clear Hk.
    rewrite pt_table_leaf, pt_table_next by (done || lia). cbn [xlate].
    by rewrite new_entry_zero, pt_zero by done.
  - apply xlate_ext. intros ρ j k a -> Ha. destruct Hu as [Hu Hh].
    assert (user_path ρ /\ 0 <= j < 512) as [Hρ Hj].
    { apply user_path_app. apply (user_path_app' _ k). by rewrite <- app_assoc. }
    rewrite length_app in Hl. cbn in Hl. rewrite (new_entry_old ρ a j) by (done || lia).
    rewrite decide_False; [done|]. intros [-> ->]. apply Hnp. exists k. by rewrite <- app_assoc.
Qed.

Lemma new_evolves : evolves s s' root.
Proof.
  split; cbn [vm_mem vm_pages s'].
  - intros x Hx. apply Hown. by right.
  - intros x Hx (ρ & j & a & Hu & Hl & Ha & Hx'). destruct (user_path_app _ _ Hu) as [Hρ Hj].
    cbn [vm_mem s'] in Ha. rewrite new_tbl in Ha by done. repeat case_decide; done_inv.
    + exfalso. apply (Hfresh x); [unfold entry_addr in Hx'; lia | done].
    + by exists ρ, j, a.
  - intros x Hx Hns. unfold m', set_entry, store64, write_bytes.
    assert (~ entry_addr t i <= x < entry_addr t i + 8).
    { intros H. apply Hns. exists path, i, t. split_and!; (done || lia). }
    assert (~ new <= x < new + 4096) by (intros H0; by apply (Hfresh x)).
    destruct (Z.leb_spec (entry_addr t i) x), (Z.ltb_spec x (entry_addr t i + 8)),
      (Z.leb_spec new x), (Z.ltb_spec x (new + 4096)); cbn [andb]; done || lia.
Qed.
End new_table.

Definition keeps (s s' : vm A) (root : Z) : Prop :=
  space_wf s' root /\ evolves s s' root /\ same_view s s' root.

Lemma keeps_refl s root : space_wf s root -> keeps s s root.
Proof. intros. split_and!; [done | apply evolves_refl | by intros ???]. Qed.

Lemma keeps_trans s1 s2 s3 root : keeps s1 s2 root -> keeps s2 s3 root -> keeps s1 s3 root.
Proof.
  intros (_ & E1 & V1) (W & E2 & V2). split_and!; [done | by eapply evolves_trans|].
  intros idxs Hu Hl. by rewrite V2, V1.
Qed.

(** Why a mapping can fail: memory is out, or a large page is in the way. *)
Definition blocked (s s' : vm A) (root : Z) (idxs : list Z) : Prop :=
  (exists p, alloc_pages (vm_pages s') 1 = Done (None, p)) \/
  exists lv e, (S lv < depth)%nat /\ xlate 0 (vm_mem s) root idxs = Some (lv, e).

(** [walk_or_create] never panics, and changes no translation. *)
Lemma walk_or_create_spec check s root path i t :
  space_wf s root -> user_path (path ++ [i]) -> (length path + 1 < depth)%nat ->
  tbl 0 (vm_mem s) root path = Some t -> (check = false -> forall e, pt_leaf (length path) e = false) ->
  runs (walk_or_create check (length path) t i s) (fun x => keeps s x.2 root /\
    match x.1 with
    | Some t' => tbl 0 (vm_mem x.2) root (path ++ [i]) = Some t'
    | None => forall k, k <> [] -> blocked s x.2 root (path ++ i :: k)
    end).
Proof.
  intros Hwf Hp Hl Ht Hc. unfold walk_or_create. destruct (pt_present (entry (vm_mem s) t i)) eqn:Ep.
  - destruct (check && pt_leaf (length path) (entry (vm_mem s) t i)) eqn:El; cbn [runs fst snd].
    { split; [by apply keeps_refl|]. intros k Hk. right. exists (length path), (entry (vm_mem s) t i). split; [lia|].
      rewrite (xlate_app _ _ 0 _ t) by done. cbn [xlate Nat.add]. rewrite Ep. destruct k; [done|].
      apply andb_true_iff in El as [_ ->]. done. }
    split; [by apply keeps_refl|]. rewrite tbl_snoc, Ht. cbn [mbind option_bind]. unfold is_table.
    rewrite Ep. destruct check; cbn [andb] in El; [rewrite El | rewrite Hc by done]; done.
  - destruct (pa_alloc (vm_pages s) 1 (sw_pages _ _ Hwf) ltac:(lia)) as (r & p & Ha & Hinv & Hr). rewrite Ha. mred.
    destruct r as [new|]; cbn [runs fst snd].
    + destruct Hr as (Hal & Hpos & Hmax & Hfresh & Hown). unfold in_pages in *. clear Ha. split; [split_and!|].
      * eapply new_wf; eauto; lia.
      * eapply new_evolves; eauto; lia.
      * eapply new_view; eauto; lia.
      * cbn [vm_mem]. erewrite new_tbl by (eauto || (rewrite ?length_app; cbn; lia)). by rewrite decide_True.
    + subst p. split; [clear -Hwf; by destruct s; apply keeps_refl|]. intros k _. left. by exists (vm_pages s).
Qed.

(** *** A leaf entry *)

Section leaf.
Variables (s : vm A) (root t i e : Z) (path : list Z).
Hypothesis Hwf : space_wf s root.
Hypothesis Hpath : user_path (path ++ [i]).
Hypothesis Hlen : S (length path) = depth.
Hypothesis Ht : tbl 0 (vm_mem s) root path = Some t.
Hypothesis He : 0 <= e < 2 ^ 64.
Hypothesis Hpres : pt_present e = true.
Let s' : vm A := mk_vm (set_entry (vm_mem s) t i e) (vm_pages s).

Lemma leaf_entry ρ t' j : user_path ρ -> (length ρ < depth)%nat -> tbl 0 (vm_mem s) root ρ = Some t' ->
  0 <= j < 512 -> entry (vm_mem s') t' j = if decide (ρ = path /\ j = i) then e else entry (vm_mem s) t' j.
Proof.
  intros Hρ Hlρ Ht' Hj. destruct (user_path_app _ _ Hpath) as [Hp Hi]. cbn [vm_mem s']. case_decide as E.
  - destruct E as [-> ->]. assert (t' = t) as -> by congruence. by apply entry_set_eq.
  - apply entry_set_ne; [done..|]. destruct (Z.eq_dec t' t) as [->|Hne].
    + left. split; [done|]. intros ->. apply E. split; [|done]. eapply sw_inj; [exact Hwf | done | done | done | lia | done | done].
    + right. apply (page_disjoint (vm_pages s)); [| |by apply not_eq_sym].
      * apply (sw_tables _ _ Hwf path t); (done || lia).
      * by apply (sw_tables _ _ Hwf ρ t').
Qed.

Lemma leaf_agree idxs : user_path idxs -> (length idxs <= depth)%nat -> idxs <> path ++ [i] ->
  agree (vm_mem s) (vm_mem s') root idxs.
Proof.
  intros Hu Hl Hne ρ j k a -> Ha. rewrite length_app in Hl. cbn in Hl.
  assert (user_path ρ /\ 0 <= j < 512) as [Hρ Hj].
  { apply user_path_app, (user_path_app' _ k). by rewrite <- app_assoc. }
  rewrite (leaf_entry ρ a j) by (done || lia). rewrite decide_False; [done|]. intros [-> ->].
  destruct k; [done | cbn in Hl; lia].
Qed.

Lemma leaf_tbl ρ : user_path ρ -> (length ρ < depth)%nat -> tbl 0 (vm_mem s') root ρ = tbl 0 (vm_mem s) root ρ.
Proof.
  intros Hu Hl. apply tbl_ext, leaf_agree; [done | lia |]. intros ->. rewrite length_app in Hl. cbn in Hl. lia.
Qed.

Lemma leaf_wf : space_wf s' root.
Proof.
  split; cbn [vm_pages s']; [apply Hwf | |].
  - intros ρ t' Hu Hl. rewrite leaf_tbl by done. by apply Hwf.
  - intros ρ ρ' t' Hu Hu' Hl Hl'. rewrite !leaf_tbl by done. by apply Hwf.
Qed.

Lemma leaf_evolves : evolves s s' root.
Proof.
  split; [done | |].
  - intros x _ (ρ & j & a & Hu & Hl & Ha & Hx). destruct (user_path_app _ _ Hu) as [Hρ _].
    exists ρ, j, a. rewrite leaf_tbl in Ha by done. done.
  - intros x _ Hns. cbn [vm_mem s']. unfold set_entry, store64.
    assert (~ entry_addr t i <= x < entry_addr t i + 8).
    { intros H. apply Hns. exists path, i, t. split_and!; (done || lia). }
    ztest; try done; cbn; lia.
Qed.

Lemma leaf_xlate idxs : user_path idxs -> length idxs = depth ->
  xlate 0 (vm_mem s') root idxs = if decide (idxs = path ++ [i]) then Some (length path, e) else xlate 0 (vm_mem s) root idxs.
Proof.
  intros Hu Hl. destruct (user_path_app _ _ Hpath) as [Hp Hi]. case_decide as E.
  - rewrite E. rewrite (xlate_app (vm_mem s') path 0 root t); [|done|by rewrite leaf_tbl by (done || lia)].
    cbn [xlate]. rewrite (leaf_entry path t i) by (done || lia). rewrite decide_True by done. by rewrite Hpres.
  - apply xlate_ext, leaf_agree; [done | lia | done].
Qed.
End leaf.

(** What mapping one page does: the page at [idxs], and that page only, is now
    reached through the entry [e]; or nothing changed. *)
Definition mapped (s s' : vm A) (root : Z) (idxs : list Z) (e : Z) (ok : bool) : Prop :=
  space_wf s' root /\ evolves s s' root /\
  (forall idxs', user_path idxs' -> length idxs' = depth -> xlate 0 (vm_mem s') root idxs' =
    if decide (ok = true /\ idxs' = idxs) then Some (pred depth, e) else xlate 0 (vm_mem s) root idxs') /\
  (ok = false -> blocked s s' root idxs).

Lemma mapped_false s s' root idxs e : keeps s s' root -> blocked s s' root idxs -> mapped s s' root idxs e false.
Proof. intros (W & E & V) B. split_and!; [done..| |done]. intros. rewrite decide_False by (by intros []). by apply V. Qed.

Lemma blocked_trans s1 s2 s3 root idxs : keeps s1 s2 root -> user_path idxs -> length idxs = depth ->
  blocked s2 s3 root idxs -> blocked s1 s3 root idxs.
Proof. intros (_ & _ & V) Hu Hl [H|(lv & e & H & Hx)]; [by left | right]. exists lv, e. by rewrite <- V. Qed.

Lemma mapped_leaf s s1 root t i e path : keeps s s1 root -> user_path (path ++ [i]) -> S (length path) = depth ->
  tbl 0 (vm_mem s1) root path = Some t -> 0 <= e < 2 ^ 64 -> pt_present e = true ->
  mapped s (mk_vm (set_entry (vm_mem s1) t i e) (vm_pages s1)) root (path ++ [i]) e true.
Proof.
  intros (W & E & V) Hu Hl Ht He Hp. split_and!; [by eapply leaf_wf | | |done].
  - eapply evolves_trans; [exact E | by eapply leaf_evolves].
  - intros idxs Hi Hd. erewrite leaf_xlate by done. rewrite <- Hl. cbn [pred].
    destruct (decide (idxs = path ++ [i])) as [->|Hne]; [by rewrite decide_True|].
    rewrite decide_False by (by intros []). by apply V.
Qed.

(** *** A space without user mappings *)

Lemma empty_space_tbl m root path : 0 <= lo -> (forall i, lo <= i < 512 -> entry m root i = 0) -> user_path path ->
  tbl 0 m root path = match path with [] => Some root | _ => None end.
Proof.
  intros Hlo Hz [Hf Hh]. destruct path as [|i path]; [done|]. inversion Hf; subst. cbn [tbl]. rewrite Hz by lia.
  unfold is_table. by rewrite pt_zero.
Qed.

Lemma empty_space_wf s root : 0 <= lo -> pa_inv (vm_pages s) -> page_ok (vm_pages s) root ->
  (forall i, lo <= i < 512 -> entry (vm_mem s) root i = 0) -> space_wf s root.
Proof.
  intros Hlo Hinv Hok Hz. split; [done | |].
  - intros path t Hu _. rewrite empty_space_tbl by done. destruct path; intros; by done_inv.
  - intros path path' t Hu Hu' _ _. rewrite !empty_space_tbl by done. by destruct path, path'.
Qed.

Lemma empty_space_xlate m root idxs : 0 <= lo -> (forall i, lo <= i < 512 -> entry m root i = 0) -> user_path idxs ->
  xlate 0 m root idxs = None.
Proof.
  intros Hlo Hz [Hf Hh]. destruct idxs as [|i idxs]; [done|]. inversion Hf; subst. cbn [xlate]. rewrite Hz by lia.
  by rewrite pt_zero.
Qed.

(** *** Kernel entries and other spaces *)

(** The root entries below the user range never change. *)
Lemma kernel_entry_kept s s' root i : (0 < depth)%nat -> 0 <= lo < 512 -> space_wf s root -> evolves s s' root ->
  0 <= i < lo -> entry (vm_mem s') root i = entry (vm_mem s) root i.
Proof.
  intros Hd Hlo Hwf Hev Hi. assert (user_path []) as Hnil by (split; [constructor | done]).
  pose proof (sw_tables _ _ Hwf [] root Hnil Hd eq_refl) as Hok. destruct Hok as (Hal & _ & _ & Ho).
  apply load64_ext. unfold entry_addr. intros x Hx. apply Hev; [apply Ho; lia|].
  intros (ρ & j & a & Hu & Hl & Ha & Hx'). destruct (user_path_app _ _ Hu) as [Hρ Hj]. unfold entry_addr in Hx'.
  destruct (Z.eq_dec a root) as [->|Hne].
  - assert (ρ = []) as -> by (by eapply sw_inj; [exact Hwf|..]). destruct Hu as [_ Hu]. cbn in Hu. lia.
  - destruct (page_disjoint (vm_pages s) a root); [by apply (sw_tables _ _ Hwf ρ) | by apply (sw_tables _ _ Hwf []) | done | lia..].
Qed.

(** Two spaces that share no table of their user halves. *)
Definition apart (s : vm A) (root1 root2 : Z) : Prop :=
  forall path path' t, user_path path -> user_path path' -> (length path < depth)%nat -> (length path' < depth)%nat ->
    tbl 0 (vm_mem s) root1 path = Some t -> tbl 0 (vm_mem s) root2 path' = Some t -> False.

Lemma apart_sym s root1 root2 : apart s root1 root2 -> apart s root2 root1.
Proof. intros H ρ ρ' t ? ? ? ? E1 E2. by apply (H ρ' ρ t). Qed.

(** An operation that leaves every owned byte alone leaves every space alone. *)
Lemma frame_agree (s s' : vm A) root idxs : space_wf s root -> (forall x, pa_owned (vm_pages s) x -> vm_mem s' x = vm_mem s x) ->
  user_path idxs -> (length idxs <= depth)%nat -> agree (vm_mem s) (vm_mem s') root idxs.
Proof.
  intros Hwf Hfr Hu Hl ρ j k a -> Ha. rewrite length_app in Hl. cbn in Hl.
  assert (user_path ρ /\ 0 <= j < 512) as [Hρ Hj].
  { apply user_path_app, (user_path_app' _ k). by rewrite <- app_assoc. }
  destruct (sw_tables _ _ Hwf ρ a Hρ ltac:(lia) Ha) as (_ & _ & _ & Ho).
  apply load64_ext. unfold entry_addr. intros x Hx. apply Hfr, Ho. lia.
Qed.

(** A new space at [root] in a fresh page, the user's half empty. *)
Lemma fresh_space (s s' : vm A) root root2 : 0 <= lo -> space_wf s root2 -> pa_inv (vm_pages s') ->
  (forall x, pa_owned (vm_pages s) x -> pa_owned (vm_pages s') x /\ vm_mem s' x = vm_mem s x) ->
  (forall x, root <= x < root + 4096 -> ~ pa_owned (vm_pages s) x) ->
  (forall i, lo <= i < 512 -> entry (vm_mem s') root i = 0) ->
  space_wf s' root2 /\ same_view s s' root2 /\ apart s' root root2 /\ apart s' root2 root.
Proof.
  intros Hlo Hwf Hinv Hfr Hfresh Hz.
  assert (forall ρ, user_path ρ -> (length ρ < depth)%nat -> tbl 0 (vm_mem s') root2 ρ = tbl 0 (vm_mem s) root2 ρ) as Ht.
  { intros. apply tbl_ext, frame_agree; [done | intros; by apply Hfr | done | lia]. }
  assert (forall ρ, user_path ρ -> (length ρ < depth)%nat -> tbl 0 (vm_mem s') root2 ρ <> Some root) as Hne.
  { intros ρ Hu Hl. rewrite Ht by done. intros E. destruct (sw_tables _ _ Hwf ρ root Hu Hl E) as (_ & _ & _ & Ho).
    apply (Hfresh root); [lia | apply Ho; lia]. }
  split_and!.
  - split; [done | |].
    + intros ρ t Hu Hl. rewrite Ht by done. intros E. destruct (sw_tables _ _ Hwf ρ t Hu Hl E) as (? & ? & ? & Ho).
      repeat split; try done. intros x Hx. by apply Hfr, Ho.
    + intros ρ ρ' t Hu Hu' Hl Hl'. rewrite (Ht ρ), (Ht ρ') by done. by apply (sw_inj _ _ Hwf).
  - intros idxs Hu Hl. apply xlate_ext, frame_agree; [done | intros; by apply Hfr | done | lia].
  - intros ρ ρ' t Hu Hu' Hl Hl' E E'. rewrite empty_space_tbl in E by done. destruct ρ; done_inv. by apply (Hne ρ').
  - intros ρ ρ' t Hu Hu' Hl Hl' E E'. rewrite empty_space_tbl in E' by done. destruct ρ'; done_inv. by apply (Hne ρ).
Qed.

Section other_space.
Variables (s s' : vm A) (root1 root2 : Z).
Hypothesis Hwf1 : space_wf s root1.
Hypothesis Hwf2 : space_wf s root2.
Hypothesis Hev : evolves s s' root1.
Hypothesis Hap : apart s root1 root2.

Lemma other_entry ρ a j : user_path ρ -> (length ρ < depth)%nat -> tbl 0 (vm_mem s) root2 ρ = Some a -> 0 <= j < 512 ->
  entry (vm_mem s') a j = entry (vm_mem s) a j.
Proof.
  intros Hρ Hl Ha Hj. pose proof (sw_tables _ _ Hwf2 ρ a Hρ Hl Ha) as Hok. apply load64_ext. unfold entry_addr.
  intros x Hx. apply Hev; [apply Hok; lia|]. intros (ρ1 & j1 & a1 & Hu & Hl1 & Ha1 & Hx').
  destruct (user_path_app _ _ Hu) as [Hρ1 Hj1]. unfold entry_addr in Hx'.
  destruct (Z.eq_dec a a1) as [->|Hne]; [by apply (Hap ρ1 ρ a1)|].
  destruct (page_disjoint (vm_pages s) a a1); [done | by apply (sw_tables _ _ Hwf1 ρ1) | done | lia..].
Qed.

Lemma other_agree idxs : user_path idxs -> (length idxs <= depth)%nat -> agree (vm_mem s) (vm_mem s') root2 idxs.
Proof.
  intros Hu Hl ρ j k a -> Ha. rewrite length_app in Hl. cbn in Hl.
  assert (user_path ρ /\ 0 <= j < 512) as [Hρ Hj].
  { apply user_path_app, (user_path_app' _ k). by rewrite <- app_assoc. }
  apply (other_entry ρ); (done || lia).
Qed.

Lemma other_view : same_view s s' root2.
Proof. intros idxs Hu Hl. apply xlate_ext, other_agree; [done | lia]. Qed.

Lemma other_wf : pa_inv (vm_pages s') -> space_wf s' root2.
Proof.
  intros Hinv. split; [done | |].
  - intros ρ t Hu Hl. rewrite (tbl_ext (vm_mem s)) by (apply other_agree; [done | lia]). intros Ht.
    destruct (sw_tables _ _ Hwf2 ρ t Hu Hl Ht) as (? & ? & ? & Ho). repeat split; try done.
    intros x Hx. by apply Hev, Ho.
  - intros ρ ρ' t Hu Hu' Hl Hl'. rewrite (tbl_ext (vm_mem s) _ root2 ρ) by (apply other_agree; [done | lia]).
    rewrite (tbl_ext (vm_mem s) _ root2 ρ') by (apply other_agree; [done | lia]).
    by apply (sw_inj _ _ Hwf2).
Qed.

Lemma other_apart : lo < 512 -> space_wf s' root1 -> apart s' root1 root2.
Proof.
  intros Hlo Hwf1' ρ ρ' t Hu Hu' Hl Hl' E E'. rewrite (tbl_ext (vm_mem s)) in E' by (apply other_agree; [done | lia]).
  pose proof (sw_tables _ _ Hwf2 ρ' t Hu' Hl' E') as Hok. pose proof Hok as (Hal & _ & _ & Ho).
  destruct (ev_slots _ _ _ Hev (t + 8 * 511)) as (ρ1 & j1 & a1 & Hu1 & Hl1 & Ha1 & Hx); [apply Ho; lia | |].
  - exists ρ, 511, t. split_and!; try done; [|unfold entry_addr; lia].
    destruct Hu as [Hf Hh]. split; [apply Forall_app; split; [done | by repeat constructor] | destruct ρ; cbn; [lia | done]].
  - destruct (user_path_app _ _ Hu1) as [Hρ1 Hj1]. unfold entry_addr in Hx.
    destruct (Z.eq_dec t a1) as [->|Hne]; [by apply (Hap ρ1 ρ' a1)|].
    destruct (page_disjoint (vm_pages s) t a1); [done | by apply (sw_tables _ _ Hwf1 ρ1) | done | lia..].
Qed.
End other_space.
End spaces.
