(* ===== verification/Paging.v ===== *)
(** Per-process address spaces: src/kernel/src/arch/x86_64/paging.rs (4-level
    tables) and src/kernel/src/arch/riscv64/paging.rs (Sv39), with the
    dispatching wrappers of src/kernel/src/arch/mod.rs.

    The static tables of the kernel live at addresses the linker chooses: they are
    variables here.  Loading CR3 or satp and flushing the TLB are not modelled: a
    translation is what a walk of the tables in memory gives. *)
From Stdlib Require Import ZArith Lia.
From stdpp Require Import base option list numbers.
From S2P Require Import Prelude Mmap Bitmap Pages PageTable.
Local Open Scope Z_scope.

(** ** arch/mod.rs: protection flags *)

Definition PROT_READ : Z := Z.shiftl 1 0.
Definition PROT_WRITE : Z := Z.shiftl 1 1.
Definition PROT_EXEC : Z := Z.shiftl 1 2.
Definition PROT_USER : Z := Z.shiftl 1 3.

(** [e & mask != 0] *)
Definition has (e mask : Z) : bool := negb (Z.land e mask =? 0).

Section copying.
Context {A : Type} {ops : PageOps A}.

(** [alloc_pages(1)?] and [write_bytes(new, 0, 4096)]. *)
Definition alloc_table (s : vm A) : outcome (option Z * vm A) :=
  '(r, p) ← alloc_pages (vm_pages s) 1;
  match r with
  | None => Done (None, mk_vm (vm_mem s) p)
  | Some new => Done (Some new, mk_vm (write_bytes (vm_mem s) new 0 4096) p)
  end.

(** The loop of [clone_user_page_table] over the entries [idxs] of one table.
    [sub] makes the copy of one entry: nothing when it is not present, the entry to
    write otherwise; [None] is the early return when memory is out. *)
Fixpoint clone_entries (sub : Z -> vm A -> outcome (option (option Z) * vm A)) (src dst : Z) (idxs : list Z)
    (s : vm A) : outcome (bool * vm A) :=
  match idxs with
  | [] => Done (true, s)
  | i :: idxs =>
      '(r, s) ← sub (entry (vm_mem s) src i) s;
      match r with
      | None => Done (false, s)
      | Some None => clone_entries sub src dst idxs s
      | Some (Some e) => clone_entries sub src dst idxs (mk_vm (set_entry (vm_mem s) dst i e) (vm_pages s))
      end
  end.

(** A fresh table, filled from the table at [src]; [link] makes the entry for it. *)
Definition clone_table (sub : Z -> vm A -> outcome (option (option Z) * vm A)) (src : Z) (link : Z -> Z)
    (s : vm A) : outcome (option (option Z) * vm A) :=
  '(r, s) ← alloc_table s;
  match r with
  | None => Done (None, s)
  | Some new =>
      '(ok, s) ← clone_entries sub src new (seqZ 0 512) s;
      if ok : bool then Done (Some (Some (link new)), s) else Done (None, s)
  end.

(** A fresh data page with the contents of the page at [src]. *)
Definition clone_page (src : Z) (link : Z -> Z) (s : vm A) : outcome (option (option Z) * vm A) :=
  '(r, p) ← alloc_pages (vm_pages s) 1;
  match r with
  | None => Done (None, mk_vm (vm_mem s) p)
  | Some new =>
      let m := vm_mem s in
      Done (Some (Some (link new)), mk_vm (copy_bytes m new (fun o => m (src + o)) 4096) p)
  end.

End copying.

(** ** arch/x86_64/paging.rs *)
Module X86.

Definition PAGE_PRESENT : Z := Z.shiftl 1 0.
Definition PAGE_WRITABLE : Z := Z.shiftl 1 1.
Definition PAGE_USER : Z := Z.shiftl 1 2.
Definition PAGE_HUGE : Z := Z.shiftl 1 7.

Definition USER_CODE_VA : Z := 0x0000008000001000.
Definition USER_STACK_TOP : Z := 0x0000008000010000.
Definition USER_STACK_PAGE_VA : Z := USER_STACK_TOP - 4096.
Definition USER_CODE_PT_IDX : Z := Z.land (Z.shiftr USER_CODE_VA 12) 511.
Definition USER_STACK_PT_IDX : Z := Z.land (Z.shiftr USER_STACK_PAGE_VA 12) 511.
Definition USER_BASE_VA : Z := 0x0000008000000000.
Definition USER_ELF_STACK_TOP : Z := USER_BASE_VA + 0x10000000.

(** [x | PAGE_PRESENT | PAGE_WRITABLE | PAGE_USER] *)
Definition table_entry (x : Z) : Z := Z.lor (Z.lor (Z.lor x PAGE_PRESENT) PAGE_WRITABLE) PAGE_USER.

(** The processor ignores bit 7 in a PML4 entry, and so does the code. *)
#[export] Instance format : PtFormat := {
  pt_present e := has e PAGE_PRESENT;
  pt_leaf lv e := match lv with O => false | _ => has e PAGE_HUGE end;
  pt_next := align_down;
  pt_table := table_entry
}.

Section x86.
Context {A : Type} {ops : PageOps A}.
(** Addresses of the statics. *)
Variables (PML4 PDPT : Z) (PD : Z -> Z).

Definition init (m : mem) : mem :=
  let m := set_entry m PML4 0 (Z.lor (Z.lor PDPT PAGE_PRESENT) PAGE_WRITABLE) in
  let m := foldl (fun m i => set_entry m PDPT i (Z.lor (Z.lor (PD i) PAGE_PRESENT) PAGE_WRITABLE)) m (seqZ 0 4) in
  foldl (fun m gib => foldl (fun m mib =>
    let phys := Z.lor (Z.shiftl gib 30) (Z.shiftl mib 21) in
    set_entry m (PD gib) mib (Z.lor (Z.lor (Z.lor phys PAGE_PRESENT) PAGE_WRITABLE) PAGE_HUGE))
    m (seqZ 0 512)) m (seqZ 0 4).

Definition kernel_page_table_phys : Z := PML4.

Definition create_empty_process_page_table (s : vm A) : outcome (option Z * vm A) :=
  '(r, s) ← alloc_table s;
  match r with
  | None => Done (None, s)
  | Some pml4 =>
      let m := set_entry (vm_mem s) pml4 0 (Z.land (entry (vm_mem s) PML4 0) (Z.lnot PAGE_USER)) in
      Done (Some pml4, mk_vm m (vm_pages s))
  end.

Definition create_process_page_table (s : vm A) (code_phys stack_phys : Z) : outcome (option Z * vm A) :=
  let m := vm_mem s in
  '(r, p) ← alloc_pages (vm_pages s) 1;
  match r with None => Done (None, mk_vm m p) | Some pml4 =>
  '(r, p) ← alloc_pages p 1;
  match r with None => Done (None, mk_vm m p) | Some pdpt =>
  '(r, p) ← alloc_pages p 1;
  match r with None => Done (None, mk_vm m p) | Some pd =>
  '(r, p) ← alloc_pages p 1;
  match r with None => Done (None, mk_vm m p) | Some pt =>
    let m := write_bytes m pml4 0 4096 in
    let m := write_bytes m pdpt 0 4096 in
    let m := write_bytes m pd 0 4096 in
    let m := write_bytes m pt 0 4096 in
    let m := set_entry m pml4 0 (Z.land (entry m PML4 0) (Z.lnot PAGE_USER)) in
    let m := set_entry m pml4 1 (table_entry pdpt) in
    let m := set_entry m pdpt 0 (table_entry pd) in
    let m := set_entry m pd 0 (table_entry pt) in
    let m := set_entry m pt USER_CODE_PT_IDX (table_entry code_phys) in
    let m := set_entry m pt USER_STACK_PT_IDX (table_entry stack_phys) in
    Done (Some pml4, mk_vm m p)
  end end end end.

(** The flags of [map_user_page]. *)
Definition prot_flags (prot : Z) : Z :=
  let flags := PAGE_PRESENT in
  let flags := if has prot PROT_WRITE then Z.lor flags PAGE_WRITABLE else flags in
  if has prot PROT_USER then Z.lor flags PAGE_USER else flags.

Definition map_user_page (s : vm A) (pml4_phys va pa prot : Z) : outcome (bool * vm A) :=
  let pml4_idx := Z.land (Z.shiftr va 39) 511 in
  if pml4_idx =? 0 then Done (false, s) else
  let pdpt_idx := Z.land (Z.shiftr va 30) 511 in
  let pd_idx := Z.land (Z.shiftr va 21) 511 in
  let pt_idx := Z.land (Z.shiftr va 12) 511 in
  let flags := prot_flags prot in
  '(r, s) ← walk_or_create false 0 pml4_phys pml4_idx s;
  match r with None => Done (false, s) | Some pdpt_phys =>
  '(r, s) ← walk_or_create true 1 pdpt_phys pdpt_idx s;
  match r with None => Done (false, s) | Some pd_phys =>
  '(r, s) ← walk_or_create true 2 pd_phys pd_idx s;
  match r with None => Done (false, s) | Some pt_phys =>
    Done (true, mk_vm (set_entry (vm_mem s) pt_phys pt_idx (Z.lor (align_down pa) flags)) (vm_pages s))
  end end end.

(** The copy of a PT, PD, PDPT and PML4 entry. *)
Definition clone_pt_entry (e1 : Z) (s : vm A) : outcome (option (option Z) * vm A) :=
  if negb (has e1 PAGE_PRESENT) then Done (Some None, s)
  else clone_page (align_down e1) (fun new => Z.lor (align_down new) (Z.land e1 0xFFF)) s.

Definition clone_pd_entry (e2 : Z) (s : vm A) : outcome (option (option Z) * vm A) :=
  if negb (has e2 PAGE_PRESENT) then Done (Some None, s)
  else if has e2 PAGE_HUGE then Done (Some (Some e2), s)
  else clone_table clone_pt_entry (align_down e2) (fun new => Z.lor (align_down new) (Z.land e2 0xFFF)) s.

Definition clone_pdpt_entry (e3 : Z) (s : vm A) : outcome (option (option Z) * vm A) :=
  if negb (has e3 PAGE_PRESENT) then Done (Some None, s)
  else if has e3 PAGE_HUGE then Done (Some (Some e3), s)
  else clone_table clone_pd_entry (align_down e3) (fun new => Z.lor (align_down new) (Z.land e3 0xFFF)) s.

Definition clone_pml4_entry (e4 : Z) (s : vm A) : outcome (option (option Z) * vm A) :=
  if negb (has e4 PAGE_PRESENT) then Done (Some None, s)
  else clone_table clone_pdpt_entry (align_down e4) (fun new => Z.lor (align_down new) (Z.land e4 0xFFF)) s.

Definition clone_user_page_table (s : vm A) (src_pml4 : Z) : outcome (option Z * vm A) :=
  '(r, s) ← alloc_table s;
  match r with
  | None => Done (None, s)
  | Some new =>
      let s := mk_vm (set_entry (vm_mem s) new 0 (entry (vm_mem s) src_pml4 0)) (vm_pages s) in
      '(ok, s) ← clone_entries clone_pml4_entry src_pml4 new (seqZ 1 511) s;
      Done (if ok : bool then Some new else None, s)
  end.

Definition protect_guard_page (s : vm A) (phys : Z) : outcome (bool * vm A) :=
  if 4 * 1024 * 1024 * 1024 <=? phys then Done (false, s) else
  let gib := Z.land (Z.shiftr phys 30) 3 in
  let pd_idx := Z.land (Z.shiftr phys 21) 511 in
  let pt_idx := Z.land (Z.shiftr phys 12) 511 in
  let pd_entry := entry (vm_mem s) (PD gib) pd_idx in
  let finish (s : vm A) :=
    let pt_base := align_down (entry (vm_mem s) (PD gib) pd_idx) in
    Done (true, mk_vm (set_entry (vm_mem s) pt_base pt_idx 0) (vm_pages s)) in
  if has pd_entry PAGE_HUGE then
    '(r, p) ← alloc_pages (vm_pages s) 1;
    match r with
    | None => Done (false, mk_vm (vm_mem s) p)
    | Some pt =>
        let huge_base := Z.land phys (Z.lnot (Z.shiftl 2 20 - 1)) in
        let m := foldl (fun m i => set_entry m pt i (Z.lor (Z.lor (huge_base + i * 4096) PAGE_PRESENT) PAGE_WRITABLE))
          (vm_mem s) (seqZ 0 512) in
        let m := set_entry m (PD gib) pd_idx (Z.lor (Z.lor pt PAGE_PRESENT) PAGE_WRITABLE) in
        finish (mk_vm m p)
    end
  else finish s.
End x86.
End X86.

(** ** arch/riscv64/paging.rs *)
Module Sv39.

Definition PAGE_V : Z := Z.shiftl 1 0.
Definition PAGE_R : Z := Z.shiftl 1 1.
Definition PAGE_W : Z := Z.shiftl 1 2.
Definition PAGE_X : Z := Z.shiftl 1 3.
Definition PAGE_U : Z := Z.shiftl 1 4.
Definition PAGE_A : Z := Z.shiftl 1 6.
Definition PAGE_D : Z := Z.shiftl 1 7.

Definition USER_CODE_VA : Z := 0x100001000.
Definition USER_STACK_TOP : Z := 0x100010000.
Definition USER_STACK_PAGE_VA : Z := USER_STACK_TOP - 4096.
Definition USER_CODE_L0_IDX : Z := Z.land (Z.shiftr USER_CODE_VA 12) 511.
Definition USER_STACK_L0_IDX : Z := Z.land (Z.shiftr USER_STACK_PAGE_VA 12) 511.
Definition USER_BASE_VA : Z := 0x100000000.
Definition USER_ELF_STACK_TOP : Z := USER_BASE_VA + 0x10000000.

(** [PAGE_R | PAGE_W | PAGE_X]: such an entry is a leaf. *)
Definition PAGE_RWX : Z := Z.lor (Z.lor PAGE_R PAGE_W) PAGE_X.
(** [(phys >> 12 << 10)] and [((e >> 10) << 12)], shifts on u64. *)
Definition ppn_bits (phys : Z) : Z := wrap 64 (Z.shiftl (Z.shiftr phys 12) 10).
Definition entry_phys (e : Z) : Z := wrap 64 (Z.shiftl (Z.shiftr e 10) 12).
Definition table_entry (phys : Z) : Z := Z.lor (ppn_bits phys) PAGE_V.

#[export] Instance format : PtFormat := {
  pt_present e := has e PAGE_V;
  pt_leaf _ e := has e PAGE_RWX;
  pt_next := entry_phys;
  pt_table := table_entry
}.

Section sv39.
Context {A : Type} {ops : PageOps A}.
(** Address of the static. *)
Variable ROOT : Z.

Definition init (m : mem) : mem :=
  foldl (fun m i =>
    let ppn := Z.shiftl i 18 in
    set_entry m ROOT i (Z.lor (Z.lor (Z.lor (Z.lor (Z.lor (Z.lor
      (Z.shiftl ppn 10) PAGE_V) PAGE_R) PAGE_W) PAGE_X) PAGE_A) PAGE_D)) m (seqZ 0 4).

Definition kernel_page_table_phys : Z := ROOT.
Definition protect_guard_page (phys : Z) : bool := false.

(** [for i in 0..4 { *root.add(i) = from.entries[i] }] *)
Definition share_kernel (m : mem) (from root : Z) : mem :=
  foldl (fun m i => set_entry m root i (entry m from i)) m (seqZ 0 4).

Definition create_empty_process_page_table (s : vm A) : outcome (option Z * vm A) :=
  '(r, s) ← alloc_table s;
  match r with
  | None => Done (None, s)
  | Some root => Done (Some root, mk_vm (share_kernel (vm_mem s) ROOT root) (vm_pages s))
  end.

Definition create_process_page_table (s : vm A) (code_phys stack_phys : Z) : outcome (option Z * vm A) :=
  let m := vm_mem s in
  '(r, p) ← alloc_pages (vm_pages s) 1;
  match r with None => Done (None, mk_vm m p) | Some root =>
  '(r, p) ← alloc_pages p 1;
  match r with None => Done (None, mk_vm m p) | Some l1 =>
  '(r, p) ← alloc_pages p 1;
  match r with None => Done (None, mk_vm m p) | Some l0 =>
    let m := write_bytes m root 0 4096 in
    let m := write_bytes m l1 0 4096 in
    let m := write_bytes m l0 0 4096 in
    let m := share_kernel m ROOT root in
    let m := set_entry m root 4 (table_entry l1) in
    let m := set_entry m l1 0 (table_entry l0) in
    let m := set_entry m l0 USER_CODE_L0_IDX
      (Z.lor (Z.lor (Z.lor (Z.lor (Z.lor (Z.lor (table_entry code_phys) PAGE_R) PAGE_W) PAGE_X) PAGE_U) PAGE_A) PAGE_D) in
    let m := set_entry m l0 USER_STACK_L0_IDX
      (Z.lor (Z.lor (Z.lor (Z.lor (Z.lor (table_entry stack_phys) PAGE_R) PAGE_W) PAGE_U) PAGE_A) PAGE_D) in
    Done (Some root, mk_vm m p)
  end end end.

Definition prot_flags (prot : Z) : Z :=
  let flags := Z.lor (Z.lor PAGE_V PAGE_A) PAGE_D in
  let flags := if has prot PROT_READ then Z.lor flags PAGE_R else flags in
  let flags := if has prot PROT_WRITE then Z.lor flags PAGE_W else flags in
  let flags := if has prot PROT_EXEC then Z.lor flags PAGE_X else flags in
  if has prot PROT_USER then Z.lor flags PAGE_U else flags.

Definition map_user_page (s : vm A) (root_phys va pa prot : Z) : outcome (bool * vm A) :=
  let vpn2 := Z.land (Z.shiftr va 30) 0x1FF in
  if vpn2 <? 4 then Done (false, s) else
  let vpn1 := Z.land (Z.shiftr va 21) 0x1FF in
  let vpn0 := Z.land (Z.shiftr va 12) 0x1FF in
  let flags := prot_flags prot in
  '(r, s) ← walk_or_create true 0 root_phys vpn2 s;
  match r with None => Done (false, s) | Some l1_phys =>
  '(r, s) ← walk_or_create true 1 l1_phys vpn1 s;
  match r with None => Done (false, s) | Some l0_phys =>
    Done (true, mk_vm (set_entry (vm_mem s) l0_phys vpn0 (Z.lor (ppn_bits pa) flags)) (vm_pages s))
  end end.

(** The copy of an L0, L1 and L2 entry. *)
Definition clone_l0_entry (e0 : Z) (s : vm A) : outcome (option (option Z) * vm A) :=
  if negb (has e0 PAGE_V) then Done (Some None, s)
  else clone_page (entry_phys e0) (fun new => Z.lor (ppn_bits new) (Z.land e0 0x3FF)) s.

Definition clone_l1_entry (e1 : Z) (s : vm A) : outcome (option (option Z) * vm A) :=
  if negb (has e1 PAGE_V) then Done (Some None, s)
  else if has e1 PAGE_RWX then Done (Some (Some e1), s)
  else clone_table clone_l0_entry (entry_phys e1) table_entry s.

Definition clone_l2_entry (e2 : Z) (s : vm A) : outcome (option (option Z) * vm A) :=
  if negb (has e2 PAGE_V) then Done (Some None, s)
  else if has e2 PAGE_RWX then Done (Some (Some e2), s)
  else clone_table clone_l1_entry (entry_phys e2) table_entry s.

Definition clone_user_page_table (s : vm A) (src : Z) : outcome (option Z * vm A) :=
  '(r, s) ← alloc_table s;
  match r with
  | None => Done (None, s)
  | Some new =>
      let s := mk_vm (share_kernel (vm_mem s) src new) (vm_pages s) in
      '(ok, s) ← clone_entries clone_l2_entry src new (seqZ 4 508) s;
      Done (if ok : bool then Some new else None, s)
  end.
End sv39.
End Sv39.

(** ** arch/mod.rs: the operations on the current architecture *)
Class VmOps (A : Type) := {
  vm_create_process : vm A -> Z -> Z -> outcome (option Z * vm A);
  vm_create_empty : vm A -> outcome (option Z * vm A);
  vm_clone : vm A -> Z -> outcome (option Z * vm A);
  vm_map : vm A -> Z -> Z -> Z -> Z -> outcome (bool * vm A);
  vm_user_base : Z;
  vm_elf_stack_top : Z
}.

Definition x86_ops {A} {ops : PageOps A} (PML4 : Z) : VmOps A := {|
  vm_create_process := X86.create_process_page_table PML4;
  vm_create_empty := X86.create_empty_process_page_table PML4;
  vm_clone := X86.clone_user_page_table;
  vm_map := X86.map_user_page;
  vm_user_base := X86.USER_BASE_VA;
  vm_elf_stack_top := X86.USER_ELF_STACK_TOP
|}.

Definition sv39_ops {A} {ops : PageOps A} (ROOT : Z) : VmOps A := {|
  vm_create_process := Sv39.create_process_page_table ROOT;
  vm_create_empty := Sv39.create_empty_process_page_table ROOT;
  vm_clone := Sv39.clone_user_page_table;
  vm_map := Sv39.map_user_page;
  vm_user_base := Sv39.USER_BASE_VA;
  vm_elf_stack_top := Sv39.USER_ELF_STACK_TOP
|}.
