(* ===== verification/ArmPaging.v ===== *)
(** The static page table of AArch64 (src/kernel/src/arch/aarch64/paging.rs): an identity map in blocks of
    2 MiB, with the device ranges of the board (boards/qemu_virt_aarch64, boards/raspberrypi3), and the memory maps of the boards.

    The addresses of the two statics are variables; writing the registers and the barriers is not modelled,
    the values written are.  Per-process tables do not exist on this architecture. *)
From Stdlib Require Import ZArith Lia.
From stdpp Require Import base option list numbers.
From S2P Require Import Prelude Mmap PageTable Paging.
Local Open Scope Z_scope.

(** What a board says. *)
Record arm_board := mk_arm_board { MMIO_RANGES : list (Z * Z); MAPPED_END : Z; RAM_BASE : Z; RAM_FALLBACK_SIZE : Z }.
Definition qemu_virt_aarch64 : arm_board := mk_arm_board [(0, 0x40000000)] 0x100000000 0x40000000 (128 * 1024 * 1024).
Definition PERIPHERAL_BASE : Z := 0x3F000000.
Definition raspberrypi3 : arm_board := mk_arm_board [(PERIPHERAL_BASE, 0x01000000); (0x40000000, 0x1000)] 0x80000000 0 (128 * 1024 * 1024).
(** Both boards report one region. *)
Definition arm_memory_map (b : arm_board) : outcome MemoryMap := mmap_add mmap_empty (RAM_BASE b) (RAM_FALLBACK_SIZE b) Usable.

Definition ATTR_DEVICE : Z := 0.
Definition ATTR_NORMAL : Z := 1.
Definition BLOCK_AF : Z := Z.shiftl 1 10.
Definition BLOCK_SH_INNER : Z := Z.shiftl 3 8.
Definition BLOCK_VALID : Z := 1.
Definition TABLE_VALID : Z := 3.

Section init.
Variables (b : arm_board) (L1_TABLE L2_TABLES : Z).

Definition NUM_L1 : Z := MAPPED_END b / 2 ^ 30.
Definition is_device (addr : Z) : bool := existsb (fun '(base, size) => (base <=? addr) && (addr <? uadd base size)) (MMIO_RANGES b).
Definition l2_block_entry (addr : Z) : Z :=
  let attr_idx := if is_device addr then ATTR_DEVICE else ATTR_NORMAL in
  Z.lor (Z.lor (Z.lor (Z.lor addr BLOCK_AF) BLOCK_SH_INNER) (Z.shiftl attr_idx 2)) BLOCK_VALID.
(** The inner loop: the blocks of the table [l2]; then its entry in the root. *)
Definition fill_l2 (m : mem) (l1 l2 : Z) : mem :=
  foldl (fun m l2i => set_entry m l2 l2i (l2_block_entry (Z.lor (Z.shiftl l1 30) (Z.shiftl l2i 21)))) m (seqZ 0 512).
Definition init_l1 (m : mem) (l1 : Z) : mem :=
  let l2_phys := L2_TABLES + 4096 * l1 in
  set_entry (fill_l2 m l1 l2_phys) L1_TABLE l1 (Z.lor l2_phys TABLE_VALID).
Definition arm_paging_init (m : mem) : mem := foldl init_l1 m (seqZ 0 NUM_L1).

(** MAIR, TCR, TTBR0 and SCTLR, the last from its value before. *)
Definition arm_mmu_registers (sctlr : Z) : Z * Z * Z * Z :=
  (Z.lor (Z.shiftl 0xFF 8) 0,
   Z.lor (Z.lor (Z.lor 25 (Z.shiftl 1 8)) (Z.shiftl 1 10)) (Z.shiftl 3 12),
   L1_TABLE,
   Z.lor sctlr (Z.lor (Z.lor (Z.shiftl 1 0) (Z.shiftl 1 2)) (Z.shiftl 1 12))).
End init.

(** ** What the processor makes of it *)

#[local] Instance arm_format : PtFormat := {
  pt_present e := Z.testbit e 0;
  pt_leaf _ e := negb (Z.testbit e 1);
  pt_next e := Z.land e 0xFFFFFFFFF000;
  pt_table t := Z.lor t TABLE_VALID
}.
(** A walk of the two levels: the address, and the index of the memory attributes. *)
Definition arm_walk (m : mem) (root va : Z) : option (Z * Z) :=
  match xlate 0 m root [Z.land (Z.shiftr va 30) 511; Z.land (Z.shiftr va 21) 511] with
  | Some (1%nat, e) => Some (Z.land e 0xFFFFFFE00000 + Z.land va 0x1FFFFF, Z.land (Z.shiftr e 2) 7)
  | _ => None
  end.

(** A board whose ranges start at blocks, and where the tables are. *)
Record arm_tables_ok (b : arm_board) (l1 l2 : Z) : Prop := {
  ab_end : MAPPED_END b = NUM_L1 b * 2 ^ 30 /\ 0 <= NUM_L1 b <= 512;
  ab_ranges : Forall (fun r => 0 <= r.1 /\ r.1 mod 2 ^ 21 = 0 /\ 0 <= r.2 /\ r.1 + r.2 < 2 ^ 64) (MMIO_RANGES b);
  ab_l1 : 0 <= l1;
  ab_l2 : 0 <= l2 /\ l2 mod 4096 = 0 /\ l2 + 4096 * 512 < 2 ^ 48;
  ab_apart : l1 + 4096 <= l2 \/ l2 + 4096 * NUM_L1 b <= l1
}.
(** The blocks of 2 MiB that a device range meets. *)
Definition device_block (b : arm_board) (va : Z) : Prop :=
  exists base size a, (base, size) ∈ MMIO_RANGES b /\ base <= a < base + size /\ a / 2 ^ 21 = va / 2 ^ 21.

(** Filling a table with a function of the index. *)
Lemma fill_entries t (f : Z -> Z) n : (n <= 512)%nat -> (forall i, 0 <= i < Z.of_nat n -> 0 <= f i < 2 ^ 64) -> forall m,
  let m' := foldl (fun m i => set_entry m t i (f i)) m (seqZ 0 (Z.of_nat n)) in
  (forall i, 0 <= i < 512 -> entry m' t i = if decide (i < Z.of_nat n) then f i else entry m t i) /\
  (forall t' i, 0 <= i < 512 -> t + 4096 <= t' \/ t' + 4096 <= t -> entry m' t' i = entry m t' i).
Proof.
  induction n as [|n IH]; intros Hn Hf m; [split; [intros i Hi; by rewrite decide_False by lia | done]|].
  rewrite seqZ_S, foldl_app. cbn [foldl]. destruct (IH ltac:(lia) ltac:(intros; apply Hf; lia) m) as [H1 H2].
  set (m1 := foldl _ m _) in *. rewrite Z.add_0_l. split.
  - intros i Hi. destruct (decide (i = Z.of_nat n)) as [->|Hne].
    + rewrite entry_set_eq by (apply Hf; lia). by rewrite decide_True by lia.
    + rewrite entry_set_ne by (first [lia | by left]). rewrite H1 by done. repeat case_decide; first [done | lia].
  - intros t' i Hi Ht. rewrite entry_set_ne by (first [lia | by right]). by apply H2.
Qed.

Lemma block_addr l1 j : 0 <= l1 -> 0 <= j < 512 -> Z.lor (Z.shiftl l1 30) (Z.shiftl j 21) = l1 * 2 ^ 30 + j * 2 ^ 21.
Proof. intros H1 H2. rewrite !Z.shiftl_mul_pow2 by lia. apply (lor_low 30); [lia | by apply Z.mod_mul | lia]. Qed.
(** The attributes of a block: access flag, shareability, kind of memory. *)
Definition block_flags (dev : bool) : Z := if dev then 0x701 else 0x705.
Lemma block_entry_eq b k : l2_block_entry b (k * 2 ^ 21) = k * 2 ^ 21 + block_flags (is_device b (k * 2 ^ 21)).
Proof.
  unfold l2_block_entry. rewrite <- !Z.lor_assoc. rewrite (lor_low 21); [|lia | by apply Z.mod_mul | by destruct (is_device b _)]. by destruct (is_device b _).
Qed.

Section init_spec.
Context (b : arm_board) (l1t l2t : Z) (Hok : arm_tables_ok b l1t l2t).
Local Abbreviation l2_of i := (l2t + 4096 * i).

Lemma num_nat : NUM_L1 b = Z.of_nat (Z.to_nat (NUM_L1 b)) /\ (Z.to_nat (NUM_L1 b) <= 512)%nat.
Proof. destruct Hok as [[_ H] _ _ _ _]. lia. Qed.
Lemma fill_l2_spec m l1 t : 0 <= l1 < 512 -> let m' := fill_l2 b m l1 t in
  (forall j, 0 <= j < 512 -> entry m' t j = l2_block_entry b ((l1 * 512 + j) * 2 ^ 21)) /\
  (forall t' i, 0 <= i < 512 -> t + 4096 <= t' \/ t' + 4096 <= t -> entry m' t' i = entry m t' i).
Proof.
  intros Hl. destruct (fill_entries t (fun j => l2_block_entry b (Z.lor (Z.shiftl l1 30) (Z.shiftl j 21))) 512 ltac:(lia)) with (m := m) as [H1 H2].
  { intros i Hi. rewrite block_addr by lia. replace (l1 * 2 ^ 30 + i * 2 ^ 21) with ((l1 * 512 + i) * 2 ^ 21) by lia. rewrite block_entry_eq.
    unfold block_flags. destruct (is_device b _); lia. }
  split; [|exact H2]. intros j Hj. unfold fill_l2. rewrite H1 by done. rewrite decide_True by lia. rewrite block_addr by lia. f_equal. lia.
Qed.
Lemma table_entry_eq i : 0 <= i < NUM_L1 b -> Z.lor (l2_of i) TABLE_VALID = l2_of i + 3 /\ 0 <= l2_of i + 3 < 2 ^ 48 /\ l2_of i mod 4096 = 0.
Proof.
  destruct Hok as [[_ Hn] _ _ (H0 & Hm & Hr) _]. intros Hi.
  assert (l2_of i mod 4096 = 0) as Hm'. { rewrite Z.add_mod, (Z.mul_comm 4096), Z.mod_mul, Hm by lia. done. }
  split; [|split; [lia | done]]. apply (lor_low 12); [lia | done | done].
Qed.
Lemma init_loop n : (n <= Z.to_nat (NUM_L1 b))%nat -> forall m, let m' := foldl (init_l1 b l1t l2t) m (seqZ 0 (Z.of_nat n)) in
  forall i, 0 <= i < 512 -> entry m' l1t i = (if decide (i < Z.of_nat n) then l2_of i + 3 else entry m l1t i) /\
  (i < Z.of_nat n -> forall j, 0 <= j < 512 -> entry m' (l2_of i) j = l2_block_entry b ((i * 512 + j) * 2 ^ 21)).
Proof.
  pose proof num_nat as [En Hn512]. destruct Hok as [_ _ H1 (H20 & _) Hap].
  induction n as [|n IH]; intros Hn m; [intros m' i Hi; rewrite decide_False by lia; split; [done | lia]|].
  rewrite seqZ_S, foldl_app. cbn [foldl]. rewrite Z.add_0_l. specialize (IH ltac:(lia) m). set (m1 := foldl _ m _) in *. cbv zeta in *.
  destruct (fill_l2_spec m1 (Z.of_nat n) (l2_of (Z.of_nat n)) ltac:(lia)) as [F1 F2]. destruct (table_entry_eq (Z.of_nat n) ltac:(lia)) as (Et & Hr & _).
  unfold init_l1. rewrite Et. intros i Hi. destruct (IH i Hi) as [I1 I2]. split.
  - destruct (decide (i = Z.of_nat n)) as [->|Hne].
    + rewrite entry_set_eq by lia. by rewrite decide_True by lia.
    + rewrite entry_set_ne by (first [lia | by left]). rewrite F2 by lia. rewrite I1. repeat case_decide; first [done | lia].
  - intros Hin j Hj. rewrite entry_set_ne by lia. destruct (decide (i = Z.of_nat n)) as [->|Hne]; [by apply F1|]. rewrite F2 by lia. apply I2; lia.
Qed.
End init_spec.

Lemma land_field e lo n : 0 <= lo -> 0 <= n -> Z.land e (Z.shiftl (Z.ones n) lo) = e / 2 ^ lo mod 2 ^ n * 2 ^ lo.
Proof.
  intros Hl Hn. rewrite <- Z.land_ones, <- Z.shiftr_div_pow2, <- Z.shiftl_mul_pow2 by lia. apply Z.bits_inj'. intros k Hk.
  rewrite Z.land_spec, !Z.shiftl_spec by done. destruct (Z.lt_ge_cases k lo).
  - by rewrite !(Z.testbit_neg_r _ (k - lo)), andb_false_r by lia.
  - rewrite Z.land_spec, Z.shiftr_spec by lia. by replace (k - lo + lo) with k by lia.
Qed.
Lemma low_bit e v w i : 0 <= i < w -> 0 <= v < 2 ^ w -> e mod 2 ^ w = v -> Z.testbit e i = Z.testbit v i.
Proof. intros Hi Hv <-. by rewrite Z.mod_pow2_bits_low by lia. Qed.

Lemma block_decode k dev : 0 <= k < 2 ^ 18 -> let e := k * 2 ^ 21 + block_flags dev in
  Z.testbit e 0 = true /\ Z.land e 0xFFFFFFE00000 = k * 2 ^ 21 /\ Z.land (Z.shiftr e 2) 7 = (if dev then ATTR_DEVICE else ATTR_NORMAL).
Proof.
  intros Hk e. assert (0 <= block_flags dev < 2 ^ 21) as Hf by (by destruct dev).
  assert (e mod 2 ^ 21 = block_flags dev) as Em by (unfold e; rewrite Z.add_comm, Z.mod_add by lia; by apply Z.mod_small).
  split; [rewrite (low_bit e (block_flags dev) 21) by (done || lia); by destruct dev|]. split.
  - change 0xFFFFFFE00000 with (Z.shiftl (Z.ones 27) 21). rewrite land_field by lia. unfold e. rewrite Z.div_add_l, (Z.div_small (block_flags dev)), Z.add_0_r by lia.
    by rewrite Z.mod_small by lia.
  - change 7 with (Z.ones 3). rewrite Z.land_ones, Z.shiftr_div_pow2 by lia. unfold e. replace (k * 2 ^ 21) with (k * 2 ^ 19 * 2 ^ 2) by lia.
    rewrite Z.div_add_l by lia. replace (k * 2 ^ 19) with (k * 2 ^ 16 * 2 ^ 3) by lia. rewrite Z.add_comm, Z.mod_add by lia. by destruct dev.
Qed.
(** The start of a block is in a device range exactly when the block meets one. *)
Lemma is_device_block b l1 l2 va : arm_tables_ok b l1 l2 -> is_device b (va / 2 ^ 21 * 2 ^ 21) = true <-> device_block b va.
Proof.
  intros [_ Hr _ _ _]. unfold is_device. rewrite existsb_exists. rewrite Forall_forall in Hr. set (k := va / 2 ^ 21). split.
  - intros ([base size] & Hin & Hc). specialize (Hr _ Hin). cbn in Hr. unfold uadd in Hc. rewrite wrap_small in Hc by lia.
    exists base, size, (k * 2 ^ 21). split; [by apply list_elem_of_In|]. split; [lia | by apply Z.div_mul].
  - intros (base & size & a & Hin%list_elem_of_In & Ha & Hk). exists (base, size). split; [done|]. specialize (Hr _ Hin). cbn in Hr.
    unfold uadd. rewrite wrap_small by lia. fold k in Hk. pose proof (Z.div_mod a (2 ^ 21)). pose proof (Z.mod_pos_bound a (2 ^ 21)).
    pose proof (Z.div_mod base (2 ^ 21)). assert (base / 2 ^ 21 <= k) by (rewrite <- Hk; apply Z.div_le_mono; lia). lia.
Qed.

(** C36: the static table of AArch64, for any board whose device ranges start at blocks of 2 MiB, wherever the
    tables are: every address below the end of the map translates to itself, as device memory exactly in the
    blocks that a device range meets, so all device registers are device memory, and as normal memory
    elsewhere; addresses above it do not translate. *)
Theorem arm_identity_map (b : arm_board) (l1 l2 va : Z) (m : mem) : arm_tables_ok b l1 l2 ->
  (forall x, l1 <= x < l1 + 4096 -> m x = 0) -> 0 <= va < 2 ^ 39 ->
  let r := arm_walk (arm_paging_init b l1 l2 m) l1 va in
  (va < MAPPED_END b -> exists attr, r = Some (va, attr) /\ (device_block b va -> attr = ATTR_DEVICE) /\ (~ device_block b va -> attr = ATTR_NORMAL)) /\
  (MAPPED_END b <= va -> r = None).
Proof.
  intros Hok Hz Hva r. pose proof (num_nat b l1 l2 Hok) as [En Hn]. destruct (ab_end _ _ _ Hok) as [Eend _].
  set (i := va / 2 ^ 30). set (k := va / 2 ^ 21). assert (0 <= i < 512) as Hi by (unfold i; split; [apply Z.div_pos; lia | apply Z.div_lt_upper_bound; lia]).
  assert (k = i * 512 + k mod 512) as Ek.
  { assert (i = k / 512) as -> by (unfold i, k; by rewrite Z.div_div by lia). pose proof (Z.div_mod k 512). lia. }
  pose proof (Z.mod_pos_bound k 512 ltac:(lia)) as Hj.
  unfold r, arm_walk. change 511 with (Z.ones 9). rewrite !Z.land_ones, !Z.shiftr_div_pow2 by lia. fold i k. change (2 ^ 9) with 512. rewrite (Z.mod_small i) by lia.
  unfold arm_paging_init. rewrite En. destruct (init_loop b l1 l2 Hok (Z.to_nat (NUM_L1 b)) ltac:(lia) m i Hi) as [I1 I2].
  set (m' := foldl _ m _) in *. rewrite <- En in I1, I2. cbn [xlate]. rewrite I1. case_decide as Hlt.
  - destruct (table_entry_eq b l1 l2 Hok i ltac:(lia)) as (_ & Hr & Hm). set (t := l2 + 4096 * i) in *.
    assert ((t + 3) mod 2 ^ 12 = 3) as Hm3 by (change (2 ^ 12) with 4096; by rewrite <- Zplus_mod_idemp_l, Hm).
    cbn [pt_present pt_leaf pt_next arm_format]. rewrite !(low_bit (t + 3) 3 12) by lia. change (Z.testbit 3 0) with true. change (Z.testbit 3 1) with true. cbn [negb].
    change 0xFFFFFFFFF000 with (Z.shiftl (Z.ones 36) 12). rewrite land_field by lia.
    assert ((t + 3) / 2 ^ 12 mod 2 ^ 36 * 2 ^ 12 = t) as ->.
    { assert ((t + 3) / 2 ^ 12 = t / 2 ^ 12) as -> by (rewrite (Z.div_mod t (2 ^ 12)) at 1 by lia; change (2 ^ 12) with 4096; rewrite Hm, Z.add_0_r, Z.mul_comm, Z.div_add_l by lia; apply Z.add_0_r).
      pose proof (Z.div_mod t 4096). change (2 ^ 12) with 4096. rewrite Z.mod_small; [lia|]. split; [apply Z.div_pos; lia | apply Z.div_lt_upper_bound; lia]. }
    rewrite I2, <- Ek, block_entry_eq by lia.
    assert (0 <= k < 2 ^ 18) as Hk by lia. set (dev := is_device b (k * 2 ^ 21)). destruct (block_decode k dev Hk) as (Hp & Ha & Hattr).
    rewrite Hp. cbn [negb]. cbv iota. rewrite Ha, Hattr. change 0x1FFFFF with (Z.ones 21). rewrite Z.land_ones by lia.
    assert (k * 2 ^ 21 + va mod 2 ^ 21 = va) as -> by (unfold k; pose proof (Z.div_mod va (2 ^ 21)); lia).
    assert (va < MAPPED_END b) as Hend by (rewrite Eend; unfold i in Hlt; pose proof (Z.div_mod va (2 ^ 30)); pose proof (Z.mod_pos_bound va (2 ^ 30)); nia).
    split; [|lia]. intros _. eexists. split; [reflexivity|]. pose proof (is_device_block b l1 l2 va Hok) as Hd. fold k dev in Hd.
    destruct dev; split; intros H; try done; [by destruct H; apply Hd | by apply Hd in H].
  - assert (entry m l1 i = 0) as ->.
    { unfold entry, entry_addr. transitivity (load64 (fun _ => 0) (l1 + 8 * i)); [|reflexivity]. apply load64_ext. intros x Hx. apply Hz. lia. }
    split; [|done]. intros Hend. exfalso. apply Hlt. unfold i. rewrite Eend in Hend. apply Z.div_lt_upper_bound; lia.
Qed.

(** Both boards are such boards. *)
Lemma boards_ok l1 l2 : 0 <= l1 -> 0 <= l2 -> l2 mod 4096 = 0 -> l2 + 4096 * 512 < 2 ^ 48 -> l1 + 4096 <= l2 ->
  arm_tables_ok qemu_virt_aarch64 l1 l2 /\ arm_tables_ok raspberrypi3 l1 l2.
Proof.
  intros H1 H2 H3 H4 H5. split.
  - constructor; [split; [reflexivity | vm_compute; split; discriminate] | | exact H1 | by split_and! | by left]. repeat (apply Forall_cons_2; [by vm_compute|]). constructor.
  - constructor; [split; [reflexivity | vm_compute; split; discriminate] | | exact H1 | by split_and! | by left]. repeat (apply Forall_cons_2; [by vm_compute|]). constructor.
Qed.
(** On the Raspberry Pi the UART is device memory and the RAM beside it is not. *)
Lemma arm_identity_map_witness : let walk := arm_walk (arm_paging_init raspberrypi3 0x90000 0x91000 (fun _ => 0)) 0x90000 in
  walk 0x3F201000 = Some (0x3F201000, ATTR_DEVICE) /\ walk 0x3EFFF000 = Some (0x3EFFF000, ATTR_NORMAL) /\ walk 0x80000000 = None.
Proof.
  destruct (boards_ok 0x90000 0x91000) as [_ Hok]; [lia.. | done | lia | lia |]. split; [|split].
  - destruct (arm_identity_map raspberrypi3 0x90000 0x91000 0x3F201000 (fun _ => 0) Hok) as [H _]; [done | lia |].
    destruct H as (attr & -> & Hd & _); [reflexivity|]. rewrite Hd; [done|]. exists PERIPHERAL_BASE, 0x01000000, 0x3F201000. split; [left|]. by split.
  - destruct (arm_identity_map raspberrypi3 0x90000 0x91000 0x3EFFF000 (fun _ => 0) Hok) as [H _]; [done | lia |].
    destruct H as (attr & -> & _ & Hn); [reflexivity|]. rewrite Hn; [done|]. intros (base & size & a & Hin & Ha & Hk). change (0x3EFFF000 / 2 ^ 21) with 503 in Hk.
    pose proof (Z.div_mod a (2 ^ 21)). pose proof (Z.mod_pos_bound a (2 ^ 21)). apply elem_of_cons in Hin as [E|Hin%list_elem_of_singleton]; [injection E as -> -> | injection Hin as -> ->]; unfold PERIPHERAL_BASE in *; lia.
  - by apply (arm_identity_map raspberrypi3 0x90000 0x91000 0x80000000 (fun _ => 0) Hok); [|lia|].
Defined.
