(* ===== verification/PagingSpec.v ===== *)
(** What the address-space operations of Paging.v guarantee: a mapping shows up
    at its page and nowhere else, other spaces and the kernel's entries are not
    touched, and a new space starts with the kernel's entries only. *)
From Stdlib Require Import ZArith Lia.
From stdpp Require Import base option list numbers.
From S2P Require Import Prelude Mmap Bitmap Pages PageTable Paging.
Local Open Scope Z_scope.

(** ** Bits *)

Lemma align_down_add t f : t mod 4096 = 0 -> 0 <= f < 4096 -> align_down (t + f) = t.
Proof. intros. rewrite align_down_eq. pose proof (Z.div_mod t 4096). pose proof (Z.div_mod (t + f) 4096). pose proof (Z.mod_pos_bound (t + f) 4096). lia. Qed.

Lemma align_down_mod z : align_down z mod 4096 = 0.
Proof. rewrite align_down_eq, Z.mul_comm. by apply Z.mod_mul. Qed.

Lemma has_bit e b : 0 <= b -> has e (Z.shiftl 1 b) = Z.testbit e b.
Proof. intros. unfold has. rewrite land_bit_zero by done. by rewrite negb_involutive. Qed.

Lemma testbit_low n t f b : 0 <= b < n -> t mod 2 ^ n = 0 -> Z.testbit (t + f) b = Z.testbit f b.
Proof.
  intros Hb Ht. rewrite <- (Z.mod_pow2_bits_low (t + f) n b), <- (Z.mod_pow2_bits_low f n b) by lia.
  f_equal. rewrite <- Zplus_mod_idemp_l, Ht. done.
Qed.

Lemma page_below t : t mod 4096 = 0 -> 0 <= t < 2 ^ 64 -> t + 4096 <= 2 ^ 64.
Proof.
  intros Ht Hr. apply Z.mod_divide in Ht as [k ->]; [|done].
  change (2 ^ 64) with (4503599627370496 * 4096) in *. nia.
Qed.

Lemma idx_range va k : 0 <= Z.land (Z.shiftr va k) 511 < 512.
Proof. change 511 with (Z.ones 9). rewrite Z.land_ones by lia. by apply Z.mod_pos_bound. Qed.

(** ** What the rest of the kernel relies on *)

Class VmLaws {A} {ops : PageOps A} {laws : PageLaws A ops} (vops : VmOps A) := {
  vl_format : PtFormat;
  vl_format_ok : PtFormatOk vl_format;
  vl_depth : nat;
  vl_lo : Z;
  vl_lo_range : 0 <= vl_lo < 512;
  vl_depth_pos : (0 < vl_depth)%nat;
  (** The page of the kernel's root table, and its entry as processes see it. *)
  vl_kroot : Z;
  vl_kentry : Z -> Z;
  vl_user : Z -> bool;
  vl_idxs : Z -> list Z;
  vl_leaf : Z -> Z -> Z;    (* physical address, protection *)
  vl_path va : vl_user va = true -> user_path vl_lo (vl_idxs va);
  vl_length va : length (vl_idxs va) = vl_depth;
  vl_map_kernel s root va pa prot : vl_user va = false -> vm_map s root va pa prot = Done (false, s);
  vl_map s root va pa prot : space_wf (F := vl_format) vl_depth vl_lo s root -> 0 <= pa < 2 ^ 64 -> vl_user va = true ->
    runs (vm_map s root va pa prot) (fun '(ok, s') =>
      mapped (F := vl_format) vl_depth vl_lo s s' root (vl_idxs va) (vl_leaf pa prot) ok);
  vl_create s : pa_inv (vm_pages s) -> (forall x, vl_kroot <= x < vl_kroot + 4096 -> pa_owned (vm_pages s) x) ->
    runs (vm_create_empty s) (fun '(r, s') =>
      match r with
      | Some root =>
          pa_inv (vm_pages s') /\ page_ok (vm_pages s') root /\
          (forall x, pa_owned (vm_pages s) x -> pa_owned (vm_pages s') x /\ vm_mem s' x = vm_mem s x) /\
          (forall x, root <= x < root + 4096 -> ~ pa_owned (vm_pages s) x) /\
          (forall i, vl_lo <= i < 512 -> entry (vm_mem s') root i = 0) /\
          (forall i, 0 <= i < vl_lo -> entry (vm_mem s') root i = vl_kentry (entry (vm_mem s) vl_kroot i))
      | None => s' = s
      end)
}.

(** ** A new table *)

Section fresh_table.
Context {A : Type} {ops : PageOps A} {laws : PageLaws A ops}.

Lemma alloc_table_spec (s : vm A) : pa_inv (vm_pages s) ->
  runs (alloc_table s) (fun '(r, s') =>
    match r with
    | Some t =>
        pa_inv (vm_pages s') /\ page_ok (vm_pages s') t /\
        (forall x, pa_owned (vm_pages s) x -> pa_owned (vm_pages s') x) /\
        (forall x, t <= x < t + 4096 -> ~ pa_owned (vm_pages s) x) /\
        vm_mem s' = write_bytes (vm_mem s) t 0 4096
    | None => s' = s
    end).
Proof.
  intros Hinv. unfold alloc_table. destruct (pa_alloc (vm_pages s) 1 Hinv ltac:(lia)) as (r & p & -> & Hinv' & Hr). mred.
  destruct r as [t|]; cbn [runs vm_mem vm_pages].
  - destruct Hr as (Hal & Hpos & Hmax & Hfresh & Hown). unfold in_pages in *.
    split_and!; [done | split_and!; [done | done | lia | intros x Hx; apply Hown; left; lia] | | | done].
    + intros x Hx. apply Hown. by right.
    + intros x Hx. apply Hfresh. lia.
  - subst p. by destruct s.
Qed.

(** Bytes outside an interval written by [write_bytes] or [set_entry]. *)
Lemma write_bytes_out m t v n x : ~ t <= x < t + n -> write_bytes m t v n x = m x.
Proof. intros. unfold write_bytes. destruct (Z.leb_spec t x), (Z.ltb_spec x (t + n)); cbn; done || lia. Qed.
Lemma set_entry_out m t i e x : 0 <= i < 512 -> ~ t <= x < t + 4096 -> set_entry m t i e x = m x.
Proof.
  intros. unfold set_entry, store64, entry_addr.
  destruct (Z.leb_spec (t + 8 * i) x), (Z.ltb_spec x (t + 8 * i + 8)); cbn; done || lia.
Qed.
Lemma entry_off_page m m' t t' i : 0 <= i < 512 -> (forall x, t <= x < t + 4096 -> m' x = m x) -> t' = t ->
  entry m' t' i = entry m t i.
Proof. intros Hi H ->. apply load64_ext. unfold entry_addr. intros. apply H. lia. Qed.
End fresh_table.

(** ** x86_64 *)

Section x86.
#[local] Existing Instance X86.format.
Context {A : Type} {ops : PageOps A} {laws : PageLaws A ops}.

Lemma x86_table_entry x : X86.table_entry x = Z.lor x 7.
Proof. unfold X86.table_entry. by rewrite <- !Z.lor_assoc. Qed.

#[export] Instance x86_format_ok : PtFormatOk X86.format.
Proof.
  assert (forall t, t mod 4096 = 0 -> 0 <= t < 2 ^ 64 -> X86.table_entry t = t + 7) as E.
  { intros. rewrite x86_table_entry. apply (lor_low 12); [done..|lia]. }
  split; cbn [pt_present pt_leaf pt_next pt_table X86.format].
  - done.
  - intros t Ht Hr. rewrite E by done. unfold X86.PAGE_PRESENT. rewrite has_bit by done. by rewrite (testbit_low 12) by (done || lia).
  - intros [|lv] t Ht Hr; [done|]. rewrite E by done. unfold X86.PAGE_HUGE. rewrite has_bit by done.
    by rewrite (testbit_low 12) by (done || lia).
  - intros t Ht Hr. rewrite E by done. by apply align_down_add.
  - intros t Hr. rewrite x86_table_entry. by apply lor_range.
Qed.

(** The indices of an address, from the PML4 down; the user's half starts at 1. *)
Definition x86_idxs (va : Z) : list Z :=
  [Z.land (Z.shiftr va 39) 511; Z.land (Z.shiftr va 30) 511; Z.land (Z.shiftr va 21) 511; Z.land (Z.shiftr va 12) 511].
Definition x86_translate (s : vm A) (root va : Z) : option (nat * Z) := xlate 0 (vm_mem s) root (x86_idxs va).
Definition x86_wf (s : vm A) (root : Z) : Prop := space_wf 4 1 s root.
Definition x86_user (va : Z) : bool := negb (Z.land (Z.shiftr va 39) 511 =? 0).

Lemma x86_user_path va : x86_user va = true -> user_path 1 (x86_idxs va).
Proof.
  intros H. pose proof (idx_range va) as Hr. unfold x86_user in H. pose proof (Hr 39).
  split; [repeat constructor; apply Hr | cbn; ztest; [done | lia]].
Qed.

Lemma x86_prot_range prot : 0 <= X86.prot_flags prot < 8.
Proof. unfold X86.prot_flags. by repeat case_match. Qed.

Lemma x86_leaf pa prot : 0 <= pa < 2 ^ 64 -> Z.lor (align_down pa) (X86.prot_flags prot) = align_down pa + X86.prot_flags prot.
Proof. intros. pose proof (x86_prot_range prot). apply (lor_low 12); [done | apply align_down_mod | lia]. Qed.

Lemma x86_prot_present prot : Z.testbit (X86.prot_flags prot) 0 = true.
Proof. unfold X86.prot_flags. by repeat case_match. Qed.

Lemma x86_map_spec s root va pa prot : x86_wf s root -> 0 <= pa < 2 ^ 64 -> x86_user va = true ->
  runs (X86.map_user_page s root va pa prot)
    (fun '(ok, s') => mapped 4 1 s s' root (x86_idxs va) (Z.lor (align_down pa) (X86.prot_flags prot)) ok).
Proof.
  intros Hwf Hpa Hu. pose proof (x86_user_path va Hu) as Hup. unfold X86.map_user_page.
  unfold x86_user in Hu. destruct (Z.land (Z.shiftr va 39) 511 =? 0); [done|]. clear Hu.
  unfold x86_idxs in *. set (i0 := Z.land (Z.shiftr va 39) 511) in *. set (i1 := Z.land (Z.shiftr va 30) 511) in *.
  set (i2 := Z.land (Z.shiftr va 21) 511) in *. set (i3 := Z.land (Z.shiftr va 12) 511) in *.
  rstep. eapply runs_mono;
    [apply (walk_or_create_spec 4 1 false s root [] i0 root Hwf); [by apply (user_path_app' 1 [i0] [i1; i2; i3]) | cbn; lia | done..]|].
  intros [[t1|] s1] [K1 P1]; cbn [fst snd runs] in *; [|apply mapped_false; [done | by apply (P1 [i1; i2; i3])]].
  rstep. eapply runs_mono; [apply (walk_or_create_spec 4 1 true s1 root [i0] i1 t1);
    [apply K1 | by apply (user_path_app' 1 [i0; i1] [i2; i3]) | cbn; lia | done..]|].
  intros [[t2|] s2] [K2 P2]; cbn [fst snd runs] in *.
  2: { apply mapped_false; [by eapply keeps_trans | eapply blocked_trans; [done..|]; by apply (P2 [i2; i3])]. }
  rstep. eapply runs_mono; [apply (walk_or_create_spec 4 1 true s2 root [i0; i1] i2 t2);
    [apply K2 | by apply (user_path_app' 1 [i0; i1; i2] [i3]) | cbn; lia | done..]|].
  assert (keeps 4 1 s s2 root) as K12 by (by eapply keeps_trans).
  intros [[t3|] s3] [K3 P3]; cbn [fst snd runs] in *.
  2: { apply mapped_false; [by eapply keeps_trans | eapply (blocked_trans 4 1 s s2); [done..|]; by apply (P3 [i3])]. }
  apply (mapped_leaf 4 1 s s3 root t3 i3 _ [i0; i1; i2]); try done; [by eapply keeps_trans | |].
  - apply lor_range; [done | | pose proof (x86_prot_range prot); lia].
    pose proof (align_down_bounds pa). rewrite align_down_eq in *. lia.
  - cbn [pt_present X86.format]. rewrite x86_leaf by done. unfold X86.PAGE_PRESENT. rewrite has_bit by done.
    rewrite (testbit_low 12); [apply x86_prot_present | lia | apply align_down_mod].
Qed.

Lemma x86_create_spec PML4 s : pa_inv (vm_pages s) -> (forall x, PML4 <= x < PML4 + 4096 -> pa_owned (vm_pages s) x) ->
  runs (X86.create_empty_process_page_table PML4 s) (fun '(r, s') =>
    match r with
    | Some root =>
        pa_inv (vm_pages s') /\ page_ok (vm_pages s') root /\
        (forall x, pa_owned (vm_pages s) x -> pa_owned (vm_pages s') x /\ vm_mem s' x = vm_mem s x) /\
        (forall x, root <= x < root + 4096 -> ~ pa_owned (vm_pages s) x) /\
        (forall i, 1 <= i < 512 -> entry (vm_mem s') root i = 0) /\
        (forall i, 0 <= i < 1 -> entry (vm_mem s') root i = wrap 64 (Z.land (entry (vm_mem s) PML4 i) (Z.lnot X86.PAGE_USER)))
    | None => s' = s
    end).
Proof.
  intros Hinv Hk. unfold X86.create_empty_process_page_table. rstep.
  eapply runs_mono; [by apply alloc_table_spec|]. intros [[root|] s'] Hr; [|done].
  destruct Hr as (Hinv' & Hok & Hown & Hfresh & ->). cbn [runs vm_mem vm_pages].
  assert (forall x, pa_owned (vm_pages s) x -> ~ root <= x < root + 4096) as Hout by (intros x Hx Hr; by apply (Hfresh x)).
  rewrite (entry_off_page (vm_mem s) _ PML4 PML4 0);
    [|lia | intros x Hx; apply write_bytes_out, Hout, Hk; lia | done].
  split_and!; try done.
  - intros x Hx. split; [by apply Hown|]. rewrite set_entry_out; [apply write_bytes_out, Hout, Hx | lia | by apply Hout].
  - intros i Hi. rewrite entry_set_ne by lia. apply entry_zeroed. lia.
  - intros i Hi. assert (i = 0) as -> by lia. apply load64_store64_wrap.
Qed.

Lemma x86_map_kernel s root va pa prot : x86_user va = false -> X86.map_user_page s root va pa prot = Done (false, s).
Proof. unfold x86_user, X86.map_user_page. by destruct (Z.land (Z.shiftr va 39) 511 =? 0). Qed.

#[export] Program Instance x86_laws PML4 : VmLaws (x86_ops PML4) := {|
  vl_format := X86.format; vl_format_ok := x86_format_ok; vl_depth := 4; vl_lo := 1; vl_kroot := PML4;
  vl_kentry e := wrap 64 (Z.land e (Z.lnot X86.PAGE_USER));
  vl_user := x86_user; vl_idxs := x86_idxs;
  vl_leaf pa prot := Z.lor (align_down pa) (X86.prot_flags prot);
  vl_path := x86_user_path; vl_map_kernel := x86_map_kernel; vl_map := x86_map_spec; vl_create := x86_create_spec PML4
|}.
Solve All Obligations with (done || lia).
End x86.

(** ** RISC-V Sv39 *)

Section sv39.
#[local] Existing Instance Sv39.format.
Context {A : Type} {ops : PageOps A} {laws : PageLaws A ops}.

Lemma ppn_bits_eq t : 0 <= t < 2 ^ 64 -> Sv39.ppn_bits t = t / 4096 * 1024.
Proof.
  intros. unfold Sv39.ppn_bits. rewrite Z.shiftl_mul_pow2, Z.shiftr_div_pow2 by lia. change (2 ^ 12) with 4096.
  change (2 ^ 10) with 1024. apply wrap_small. pose proof (Z.div_mod t 4096). pose proof (Z.mod_pos_bound t 4096).
  pose proof (Z.div_pos t 4096). lia.
Qed.

Lemma ppn_bits_low t f : 0 <= t < 2 ^ 64 -> 0 <= f < 1024 -> Z.lor (Sv39.ppn_bits t) f = t / 4096 * 1024 + f.
Proof. intros Ht Hf. rewrite ppn_bits_eq by done. apply (lor_low 10); [done | by apply Z.mod_mul | done]. Qed.

Lemma ppn_bits_range t f : 0 <= t < 2 ^ 64 -> 0 <= f < 1024 -> 0 <= Z.lor (Sv39.ppn_bits t) f < 2 ^ 64.
Proof.
  intros. rewrite ppn_bits_low by done. pose proof (Z.div_mod t 4096). pose proof (Z.mod_pos_bound t 4096).
  pose proof (Z.div_pos t 4096). lia.
Qed.

Lemma ppn_bits_testbit t f b : 0 <= t < 2 ^ 64 -> 0 <= f < 1024 -> 0 <= b < 10 ->
  Z.testbit (Z.lor (Sv39.ppn_bits t) f) b = Z.testbit f b.
Proof. intros. rewrite ppn_bits_low by done. apply (testbit_low 10); [done | by apply Z.mod_mul]. Qed.

#[export] Instance sv39_format_ok : PtFormatOk Sv39.format.
Proof.
  split; cbn [pt_present pt_leaf pt_next pt_table Sv39.format]; unfold Sv39.table_entry.
  - done.
  - intros t Ht Hr. unfold Sv39.PAGE_V at 2. rewrite has_bit by done. by rewrite ppn_bits_testbit.
  - intros _ t Ht Hr. unfold has. apply negb_false_iff, Z.eqb_eq, Z.bits_inj'. intros b Hb.
    rewrite Z.land_spec, Z.bits_0. destruct (Z.lt_ge_cases b 10).
    + rewrite ppn_bits_testbit by (done || lia). by rewrite <- Z.land_spec, Z.bits_0.
    + rewrite (Z.bits_above_log2 Sv39.PAGE_RWX); [by rewrite andb_false_r | done |]. change (Z.log2 Sv39.PAGE_RWX) with 3. lia.
  - intros t Ht Hr. rewrite ppn_bits_low by done. unfold Sv39.entry_phys.
    rewrite Z.shiftl_mul_pow2, Z.shiftr_div_pow2 by lia. change (2 ^ 12) with 4096. change (2 ^ 10) with 1024.
    rewrite Z.div_add_l by lia. change (Sv39.PAGE_V / 1024) with 0. rewrite Z.add_0_r, wrap_small;
      pose proof (Z.div_mod t 4096); lia.
  - intros t Hr. by apply ppn_bits_range.
Qed.

Definition sv39_idxs (va : Z) : list Z :=
  [Z.land (Z.shiftr va 30) 0x1FF; Z.land (Z.shiftr va 21) 0x1FF; Z.land (Z.shiftr va 12) 0x1FF].
Definition sv39_user (va : Z) : bool := negb (Z.land (Z.shiftr va 30) 0x1FF <? 4).

Lemma sv39_user_path va : sv39_user va = true -> user_path 4 (sv39_idxs va).
Proof.
  intros H. pose proof (idx_range va) as Hr. unfold sv39_user in H. change 0x1FF with 511 in *. pose proof (Hr 30).
  split; [repeat constructor; apply Hr | cbn; ztest; [done | lia]].
Qed.

Lemma sv39_prot_range prot : 0 <= Sv39.prot_flags prot < 1024.
Proof. unfold Sv39.prot_flags. by repeat case_match. Qed.

Lemma sv39_prot_present prot : Z.testbit (Sv39.prot_flags prot) 0 = true.
Proof. unfold Sv39.prot_flags. by repeat case_match. Qed.

Lemma sv39_map_spec s root va pa prot : space_wf 3 4 s root -> 0 <= pa < 2 ^ 64 -> sv39_user va = true ->
  runs (Sv39.map_user_page s root va pa prot)
    (fun '(ok, s') => mapped 3 4 s s' root (sv39_idxs va) (Z.lor (Sv39.ppn_bits pa) (Sv39.prot_flags prot)) ok).
Proof.
  intros Hwf Hpa Hu. pose proof (sv39_user_path va Hu) as Hup. unfold Sv39.map_user_page.
  unfold sv39_user in Hu. destruct (Z.land (Z.shiftr va 30) 0x1FF <? 4); [done|]. clear Hu.
  unfold sv39_idxs in *. set (i0 := Z.land (Z.shiftr va 30) 0x1FF) in *.
  set (i1 := Z.land (Z.shiftr va 21) 0x1FF) in *. set (i2 := Z.land (Z.shiftr va 12) 0x1FF) in *.
  rstep. eapply runs_mono;
    [apply (walk_or_create_spec 3 4 true s root [] i0 root Hwf); [by apply (user_path_app' 4 [i0] [i1; i2]) | cbn; lia | done..]|].
  intros [[t1|] s1] [K1 P1]; cbn [fst snd runs] in *; [|apply mapped_false; [done | by apply (P1 [i1; i2])]].
  rstep. eapply runs_mono; [apply (walk_or_create_spec 3 4 true s1 root [i0] i1 t1);
    [apply K1 | by apply (user_path_app' 4 [i0; i1] [i2]) | cbn; lia | done..]|].
  intros [[t2|] s2] [K2 P2]; cbn [fst snd runs] in *.
  2: { apply mapped_false; [by eapply keeps_trans | eapply blocked_trans; [done..|]; by apply (P2 [i2])]. }
  pose proof (sv39_prot_range prot).
  apply (mapped_leaf 3 4 s s2 root t2 i2 _ [i0; i1]); try done; [by eapply keeps_trans | by apply ppn_bits_range |].
  cbn [pt_present Sv39.format]. unfold Sv39.PAGE_V. rewrite has_bit by done.
  rewrite ppn_bits_testbit by (done || lia). apply sv39_prot_present.
Qed.

Lemma sv39_map_kernel s root va pa prot : sv39_user va = false -> Sv39.map_user_page s root va pa prot = Done (false, s).
Proof. unfold sv39_user, Sv39.map_user_page. by destruct (Z.land (Z.shiftr va 30) 0x1FF <? 4). Qed.

Lemma sv39_create_spec ROOT s : pa_inv (vm_pages s) -> (forall x, ROOT <= x < ROOT + 4096 -> pa_owned (vm_pages s) x) ->
  runs (Sv39.create_empty_process_page_table ROOT s) (fun '(r, s') =>
    match r with
    | Some root =>
        pa_inv (vm_pages s') /\ page_ok (vm_pages s') root /\
        (forall x, pa_owned (vm_pages s) x -> pa_owned (vm_pages s') x /\ vm_mem s' x = vm_mem s x) /\
        (forall x, root <= x < root + 4096 -> ~ pa_owned (vm_pages s) x) /\
        (forall i, 4 <= i < 512 -> entry (vm_mem s') root i = 0) /\
        (forall i, 0 <= i < 4 -> entry (vm_mem s') root i = wrap 64 (entry (vm_mem s) ROOT i))
    | None => s' = s
    end).
Proof.
  intros Hinv Hk. unfold Sv39.create_empty_process_page_table. rstep.
  eapply runs_mono; [by apply alloc_table_spec|]. intros [[root|] s'] Hr; [|done].
  destruct Hr as (Hinv' & Hok & Hown & Hfresh & ->). cbn [runs vm_mem vm_pages].
  assert (forall x, pa_owned (vm_pages s) x -> ~ root <= x < root + 4096) as Hout by (intros x Hx Hr; by apply (Hfresh x)).
  assert (ROOT + 4096 <= root \/ root + 4096 <= ROOT) as Hap.
  { destruct (Z.le_gt_cases (ROOT + 4096) root); [by left|]. destruct (Z.le_gt_cases (root + 4096) ROOT); [by right|].
    exfalso. apply (Hout (Z.max ROOT root)); [apply Hk|]; lia. }
  unfold Sv39.share_kernel. change (seqZ 0 4) with [0; 1; 2; 3]. cbn [foldl].
  repeat match goal with |- context [entry (set_entry ?m root ?i ?e) ROOT ?j] =>
    rewrite (entry_set_ne m root i e ROOT j) by lia end.
  rewrite !(entry_zero_other (vm_mem s) root ROOT) by lia.
  split_and!; try done.
  - intros x Hx. split; [by apply Hown|]. pose proof (Hout x Hx).
    rewrite !set_entry_out by lia. by apply write_bytes_out.
  - intros i Hi. rewrite !entry_set_ne by lia. apply entry_zeroed. lia.
  - intros i Hi. assert (i = 0 \/ i = 1 \/ i = 2 \/ i = 3) as [->|[->|[->| ->]]] by lia;
      rewrite ?(entry_set_ne _ root _ _ root) by lia; apply load64_store64_wrap.
Qed.

#[export] Program Instance sv39_laws ROOT : VmLaws (sv39_ops ROOT) := {|
  vl_format := Sv39.format; vl_format_ok := sv39_format_ok; vl_depth := 3; vl_lo := 4; vl_kroot := ROOT;
  vl_kentry e := wrap 64 e;
  vl_user := sv39_user; vl_idxs := sv39_idxs;
  vl_leaf pa prot := Z.lor (Sv39.ppn_bits pa) (Sv39.prot_flags prot);
  vl_path := sv39_user_path; vl_map_kernel := sv39_map_kernel; vl_map := sv39_map_spec; vl_create := sv39_create_spec ROOT
|}.
Solve All Obligations with (done || lia).
End sv39.

(** ** Histories of address-space operations *)

Section address_spaces.
Context {A : Type} {ops : PageOps A} {laws : PageLaws A ops} {vops : VmOps A} {vlaws : VmLaws vops}.
#[local] Existing Instance vl_format.
#[local] Existing Instance vl_format_ok.

Definition translate (s : vm A) (root va : Z) : option (nat * Z) := xlate 0 (vm_mem s) root (vl_idxs va).
Local Abbreviation wf := (space_wf vl_depth vl_lo).
Local Abbreviation disj := (apart vl_depth vl_lo).

Definition kernel_owned (s : vm A) : Prop := forall x, vl_kroot <= x < vl_kroot + 4096 -> pa_owned (vm_pages s) x.

(** What the kernel does between boot and now: it creates spaces, maps pages in
    them, allocates pages for other uses, and it and the processes write to memory
    that is no page table of a space. *)
Inductive spaces : vm A -> list Z -> Prop :=
| sp_boot s : pa_inv (vm_pages s) -> kernel_owned s -> spaces s []
| sp_create s roots root s' : spaces s roots -> vm_create_empty s = Done (Some root, s') -> spaces s' (root :: roots)
| sp_create_oom s roots s' : spaces s roots -> vm_create_empty s = Done (None, s') -> spaces s' roots
| sp_map s roots root va pa prot ok s' : spaces s roots -> root ∈ roots -> 0 <= pa < 2 ^ 64 ->
    vm_map s root va pa prot = Done (ok, s') -> spaces s' roots
| sp_alloc s roots n r p : spaces s roots -> 0 < n < 2 ^ 52 -> alloc_pages (vm_pages s) n = Done (r, p) ->
    spaces (mk_vm (vm_mem s) p) roots
| sp_write s roots m : spaces s roots ->
    (forall root path t x, root ∈ roots -> user_path vl_lo path -> (length path < vl_depth)%nat ->
       tbl 0 (vm_mem s) root path = Some t -> t <= x < t + 4096 -> m x = vm_mem s x) ->
    spaces (mk_vm m (vm_pages s)) roots.

Record spaces_ok (s : vm A) (roots : list Z) : Prop := {
  so_inv : pa_inv (vm_pages s);
  so_kernel : kernel_owned s;
  so_wf root : root ∈ roots -> wf s root;
  so_apart root1 root2 : root1 ∈ roots -> root2 ∈ roots -> root1 <> root2 -> disj s root1 root2
}.

Lemma spaces_ok_create s roots root s' : spaces_ok s roots -> vm_create_empty s = Done (Some root, s') ->
  spaces_ok s' (root :: roots) /\ (root ∉ roots) /\
  (forall va, vl_user va = true -> translate s' root va = None) /\
  (forall i, 0 <= i < vl_lo -> entry (vm_mem s') root i = vl_kentry (entry (vm_mem s) vl_kroot i)) /\
  (forall root2, root2 ∈ roots -> same_view vl_depth vl_lo s s' root2).
Proof.
  intros [Hinv Hk Hwf Hap] E. pose proof (vl_create s Hinv Hk) as Hc. rewrite E in Hc. cbn [runs] in Hc.
  destruct Hc as (Hinv' & Hok & Hfr & Hfresh & Hz & Hke). pose proof vl_lo_range.
  assert (forall root2, root2 ∈ roots -> wf s' root2 /\ same_view vl_depth vl_lo s s' root2 /\ disj s' root root2 /\ disj s' root2 root)
    as Hold by (intros root2 Hin; apply fresh_space; (done || auto || lia)).
  split_and!; [split | | | done | intros root2 Hin; by apply Hold].
  - done.
  - intros x Hx. by apply Hfr, Hk.
  - intros root2 [->|Hin]%elem_of_cons; [by apply empty_space_wf; try lia | by apply Hold].
  - intros root1 root2 [->|H1]%elem_of_cons [->|H2]%elem_of_cons Hne; [done | by apply Hold | by apply Hold |].
    intros ρ ρ' t Hu Hu' Hl Hl' E1 E2. apply (Hap root1 root2 H1 H2 Hne ρ ρ' t Hu Hu' Hl Hl').
    + rewrite <- E1. symmetry. apply tbl_ext. eapply frame_agree; [by apply Hwf | intros; by apply Hfr | done | lia].
    + rewrite <- E2. symmetry. apply tbl_ext. eapply frame_agree; [by apply Hwf | intros; by apply Hfr | done | lia].
  - intros Hin. destruct (sw_tables _ _ _ _ (Hwf root Hin) [] root) as (_ & _ & _ & Ho); [by split | apply vl_depth_pos | done |].
    apply (Hfresh root); [lia | apply Ho; lia].
  - intros va Hu. apply (empty_space_xlate vl_lo); [lia | done | by apply vl_path].
Qed.

Lemma spaces_ok_map s roots root va pa prot ok s' : spaces_ok s roots -> root ∈ roots -> 0 <= pa < 2 ^ 64 ->
  vm_map s root va pa prot = Done (ok, s') ->
  spaces_ok s' roots /\ (forall root2, root2 ∈ roots -> root2 <> root -> same_view vl_depth vl_lo s s' root2).
Proof.
  intros Hs Hin Hpa E. destruct (vl_user va) eqn:Hu; [|rewrite vl_map_kernel in E by done; by done_inv].
  destruct Hs as [Hinv Hk Hwf Hap]. pose proof (vl_map s root va pa prot (Hwf _ Hin) Hpa Hu) as Hm.
  rewrite E in Hm. destruct Hm as (W & Ev & _). pose proof vl_lo_range. split; [split|].
  - apply W.
  - intros x Hx. by apply Ev, Hk.
  - intros root2 H2. destruct (decide (root2 = root)) as [->|Hne]; [done|].
    eapply other_wf; [by apply Hwf, Hin | by apply Hwf | done | by apply Hap; auto | apply W].
  - assert (forall r, r ∈ roots -> r <> root -> disj s' root r) as Hr.
    { intros r H2 Hne. apply (other_apart vl_depth vl_lo s s'); auto; lia. }
    intros root1 root2 H1 H2 Hne.
    destruct (decide (root1 = root)) as [->|N1]; [by apply Hr; auto|].
    destruct (decide (root2 = root)) as [->|N2]; [by apply apart_sym, Hr|].
    intros ρ ρ' t Hu1 Hu2 Hl1 Hl2 E1 E2. apply (Hap root1 root2 H1 H2 Hne ρ ρ' t Hu1 Hu2 Hl1 Hl2).
    + rewrite <- E1. symmetry. apply tbl_ext. apply (other_agree vl_depth vl_lo s s' root root1); auto. lia.
    + rewrite <- E2. symmetry. apply tbl_ext. apply (other_agree vl_depth vl_lo s s' root root2); auto. lia.
  - intros root2 H2 Hne. apply (other_view vl_depth vl_lo s s' root root2); auto.
Qed.

Lemma spaces_ok_write s roots m : spaces_ok s roots ->
  (forall root path t x, root ∈ roots -> user_path vl_lo path -> (length path < vl_depth)%nat ->
     tbl 0 (vm_mem s) root path = Some t -> t <= x < t + 4096 -> m x = vm_mem s x) ->
  spaces_ok (mk_vm m (vm_pages s)) roots.
Proof.
  intros [Hinv Hk Hwf Hap] Hw.
  assert (forall root path, root ∈ roots -> user_path vl_lo path -> (length path < vl_depth)%nat ->
    tbl 0 m root path = tbl 0 (vm_mem s) root path) as Ht.
  { intros root path Hin Hu Hl. apply tbl_ext. intros ρ j k a -> Ha. rewrite length_app in Hl. cbn in Hl.
    destruct (user_path_app vl_lo ρ j) as [Hρ Hj]; [apply (user_path_app' _ _ k); by rewrite <- app_assoc|].
    apply load64_ext. unfold entry_addr. intros x Hx. apply (Hw root ρ a); try done; lia. }
  split; [done | done | |].
  - intros root Hin. split; cbn [vm_mem vm_pages]; [done | |].
    + intros path t Hu Hl. rewrite Ht by done. by apply (Hwf root).
    + intros path path' t Hu Hu' Hl Hl'. rewrite (Ht root path), (Ht root path') by done. by apply (Hwf root).
  - intros root1 root2 H1 H2 Hne ρ ρ' t Hu Hu' Hl Hl'. cbn [vm_mem]. rewrite (Ht root1), (Ht root2) by done.
    by apply (Hap root1 root2).
Qed.

Lemma spaces_ok_alloc s roots n r p : spaces_ok s roots -> 0 < n < 2 ^ 52 -> alloc_pages (vm_pages s) n = Done (r, p) ->
  spaces_ok (mk_vm (vm_mem s) p) roots.
Proof.
  intros [Hinv Hk Hwf Hap] Hn E. destruct (pa_alloc (vm_pages s) n Hinv Hn) as (r' & p' & E' & Hinv' & Hr).
  rewrite E in E'. done_inv.
  assert (forall x, pa_owned (vm_pages s) x -> pa_owned p' x) as Hown.
  { intros x Hx. destruct r'; [|by subst]. destruct Hr as (_ & _ & _ & _ & Ho). apply Ho. by right. }
  split; cbn [vm_pages vm_mem]; [done | intros x Hx; by apply Hown, Hk | | done].
  intros root Hin. destruct (Hwf root Hin) as [_ Ht Hi]. split; [done | | done].
  intros path t Hu Hl E1. destruct (Ht path t Hu Hl E1) as (? & ? & ? & Ho). repeat split; try done. intros x Hx. by apply Hown, Ho.
Qed.

Lemma spaces_reach_ok s roots : spaces s roots -> spaces_ok s roots.
Proof.
  induction 1 as [s Hinv Hk|s roots root s' _ IH E|s roots s' _ IH E|s roots root va pa prot ok s' _ IH Hin Hpa E|s roots n r p _ IH Hn E|s roots m _ IH Hw].
  - split; [done | done | by intros root ?%elem_of_nil | by intros root1 root2 ?%elem_of_nil].
  - by eapply spaces_ok_create.
  - destruct IH as [Hinv Hk Hwf Hap]. pose proof (vl_create s Hinv Hk) as Hc. rewrite E in Hc. cbn in Hc. by subst.
  - by eapply spaces_ok_map.
  - by eapply spaces_ok_alloc.
  - by apply spaces_ok_write.
Qed.

(** The whole guarantee, for any architecture. *)
Lemma spaces_isolated s roots root va pa prot : spaces s roots -> root ∈ roots -> 0 <= pa < 2 ^ 64 ->
  runs (vm_map s root va pa prot) (fun '(ok, s') =>
    spaces s' roots /\
    (forall va', vl_user va' = true -> translate s' root va' =
       if decide (ok = true /\ vl_idxs va' = vl_idxs va) then Some (pred vl_depth, vl_leaf pa prot) else translate s root va') /\
    (forall i, 0 <= i < vl_lo -> entry (vm_mem s') root i = entry (vm_mem s) root i) /\
    (forall root2 va', root2 ∈ roots -> root2 <> root -> vl_user va' = true -> translate s' root2 va' = translate s root2 va') /\
    (ok = true -> vl_user va = true) /\
    (ok = false -> vl_user va = false \/ blocked vl_depth s s' root (vl_idxs va))).
Proof.
  intros Hs Hin Hpa. pose proof (spaces_reach_ok _ _ Hs) as Hok. pose proof vl_lo_range. pose proof vl_depth_pos.
  destruct (vm_map s root va pa prot) as [[ok s']|] eqn:E; cbn [runs].
  - pose proof (sp_map _ _ _ _ _ _ _ _ Hs Hin Hpa E) as Hs'. split; [done|].
    pose proof (spaces_ok_map _ _ _ _ _ _ _ _ Hok Hin Hpa E) as [_ Hview].
    destruct (vl_user va) eqn:Hu.
    + pose proof (vl_map s root va pa prot (so_wf _ _ Hok _ Hin) Hpa Hu) as Hm.
      rewrite E in Hm. destruct Hm as (W & Ev & V & B). split_and!; [| | |done|by right; apply B].
      * intros va' Hu'. apply V; [by apply vl_path | apply vl_length].
      * intros i Hi. eapply kernel_entry_kept; [done | done | by apply (so_wf _ _ Hok) | done | done].
      * intros root2 va' H2 Hne Hu'. apply Hview; [done | done | by apply vl_path | apply vl_length].
    + rewrite vl_map_kernel in E by done. done_inv. split_and!; try done; try (by left).
  - destruct (vl_user va) eqn:Hu; [|by rewrite vl_map_kernel in E].
    pose proof (vl_map s root va pa prot (so_wf _ _ Hok _ Hin) Hpa Hu) as Hm. by rewrite E in Hm.
Qed.
End address_spaces.

(** ** The two architectures *)

Lemma idx_eq va k : 0 <= k -> Z.land (Z.shiftr va k) 511 = va / 2 ^ k mod 512.
Proof. intros. change 511 with (Z.ones 9). by rewrite Z.land_ones, Z.shiftr_div_pow2 by lia. Qed.

Lemma page_digits va : va / 2 ^ 21 = va / 4096 / 512 /\ va / 2 ^ 30 = va / 4096 / 512 / 512 /\
  va / 2 ^ 39 = va / 4096 / 512 / 512 / 512.
Proof. rewrite !Z.div_div by lia. done. Qed.

Lemma x86_same_page va va' : 0 <= va < 2 ^ 48 -> 0 <= va' < 2 ^ 48 -> x86_idxs va' = x86_idxs va <-> va' / 4096 = va / 4096.
Proof.
  intros H H'. unfold x86_idxs. rewrite !idx_eq by lia. change (2 ^ 12) with 4096.
  destruct (page_digits va) as (-> & -> & ->), (page_digits va') as (-> & -> & ->).
  assert (forall z, 0 <= z < 2 ^ 48 -> 0 <= z / 4096 < 512 * (512 * (512 * 512))) as Hq.
  { intros. split; [apply Z.div_pos; lia | apply Z.div_lt_upper_bound; lia]. }
  apply Hq in H, H'. split; [|by intros ->].
  generalize dependent (va / 4096). generalize dependent (va' / 4096). clear. intros q' Hq' q Hq [= E0 E1 E2 E3].
  revert E0 E1 E2 E3. Z.to_euclidean_division_equations. lia.
Qed.

Lemma sv39_same_page va va' : 0 <= va < 2 ^ 39 -> 0 <= va' < 2 ^ 39 -> sv39_idxs va' = sv39_idxs va <-> va' / 4096 = va / 4096.
Proof.
  intros H H'. unfold sv39_idxs. change 0x1FF with 511. rewrite !idx_eq by lia. change (2 ^ 12) with 4096.
  destruct (page_digits va) as (-> & -> & _), (page_digits va') as (-> & -> & _).
  assert (forall z, 0 <= z < 2 ^ 39 -> 0 <= z / 4096 < 512 * (512 * 512)) as Hq.
  { intros. split; [apply Z.div_pos; lia | apply Z.div_lt_upper_bound; lia]. }
  apply Hq in H, H'. split; [|by intros ->].
  generalize dependent (va / 4096). generalize dependent (va' / 4096). clear. intros q' Hq' q Hq [= E0 E1 E2].
  revert E0 E1 E2. Z.to_euclidean_division_equations. lia.
Qed.

Definition sv39_translate {A} (s : vm A) (root va : Z) : option (nat * Z) :=
  xlate (F := Sv39.format) 0 (vm_mem s) root (sv39_idxs va).

Lemma x86_user_range va : 2 ^ 39 <= va < 2 ^ 48 -> x86_user va = true.
Proof.
  intros H. unfold x86_user. rewrite idx_eq by lia. apply negb_true_iff, Z.eqb_neq.
  assert (1 <= va / 2 ^ 39 < 512) by (split; [apply Z.div_le_lower_bound; lia | apply Z.div_lt_upper_bound; lia]).
  rewrite Z.mod_small; lia.
Qed.

Lemma sv39_user_range va : 2 ^ 32 <= va < 2 ^ 39 -> sv39_user va = true.
Proof.
  intros H. unfold sv39_user. change 0x1FF with 511. rewrite idx_eq by lia. apply negb_true_iff, Z.ltb_ge.
  assert (4 <= va / 2 ^ 30 < 512) by (split; [apply Z.div_le_lower_bound; lia | apply Z.div_lt_upper_bound; lia]).
  rewrite Z.mod_small; lia.
Qed.

(** C6: On x86_64, whatever spaces were created and mappings made before (and
    whatever else memory was used for): [map_user_page] never panics; when it
    returns true, the 4 KiB page of [va] and no other page of the space is
    translated to [pa] with the requested rights; when it returns false no
    translation changed, and [va] was the kernel's, or memory is out, or a large
    page was in the way; the kernel's PML4 entry of the space and all translations of all
    other spaces are as before. *)
Theorem x86_map_user_page_exact PML4 (s : vm pages) roots root va pa prot :
  spaces (vops := x86_ops PML4) (vlaws := x86_laws PML4) s roots -> root ∈ roots -> 0 <= pa < 2 ^ 64 -> 0 <= va < 2 ^ 48 ->
  exists ok s', X86.map_user_page s root va pa prot = Done (ok, s') /\
    (forall va', 2 ^ 39 <= va' < 2 ^ 48 -> x86_translate s' root va' =
       if ok && (va' / 4096 =? va / 4096) then Some (3%nat, Z.lor (align_down pa) (X86.prot_flags prot))
       else x86_translate s root va') /\
    entry (vm_mem s') root 0 = entry (vm_mem s) root 0 /\
    (forall root2 va', root2 ∈ roots -> root2 <> root -> 2 ^ 39 <= va' < 2 ^ 48 ->
       x86_translate s' root2 va' = x86_translate s root2 va') /\
    (ok = true -> 2 ^ 39 <= va) /\
    (ok = false -> va < 2 ^ 39 \/ (exists p, alloc_pages (vm_pages s') 1 = Done (None, p)) \/
       exists lv e, (lv < 3)%nat /\ x86_translate s root va = Some (lv, e)).
Proof.
  intros Hs Hin Hpa Hva. pose proof (spaces_isolated s roots root va pa prot Hs Hin Hpa) as Hm.
  cbn [vm_map x86_ops] in Hm. apply runs_Done in Hm as ((ok & s') & E & _ & T & K & O & Y & N).
  exists ok, s'. split; [done|]. split_and!.
  - intros va' Hv. pose proof (x86_same_page va va' Hva ltac:(lia)) as Hp.
    pose proof (T va' (x86_user_range va' Hv)) as Tv. cbn [vl_idxs x86_laws] in Tv. unfold translate in Tv.
    unfold x86_translate. etransitivity; [exact Tv|]. destruct ok; cbn [andb].
    + destruct (Z.eqb_spec (va' / 4096) (va / 4096)) as [E'|E']; [by rewrite decide_True by tauto | by rewrite decide_False by tauto].
    + by rewrite decide_False by (by intros []).
  - by apply (K 0).
  - intros root2 va' H2 Hne Hv. apply (O root2 va' H2 Hne). by apply x86_user_range.
  - intros Hok. specialize (Y Hok). cbn [vl_user x86_laws] in Y. unfold x86_user in Y. rewrite idx_eq in Y by lia.
    destruct (Z.le_gt_cases (2 ^ 39) va) as [|Hlt]; [done|]. by rewrite (Z.div_small va) in Y by lia.
  - intros Hok. destruct (N Hok) as [Hu|[B|(lv & e & B)]]; [left | right; by left | right; right; exists lv, e].
    + destruct (Z.lt_ge_cases va (2 ^ 39)) as [|Hge]; [done|]. cbn [vl_user x86_laws] in Hu.
      by rewrite x86_user_range in Hu by lia.
    + cbn in B. split; [lia | apply B].
Qed.

(** A machine after boot, the kernel's PML4 in the page at 0x100000. *)
Definition demo_vm : vm pages := mk_vm (fun _ => 0) demo_pages.
Definition demo_x86 : vm pages :=
  match X86.create_empty_process_page_table 0x100000 demo_vm with Done (_, s) => s | Panic => demo_vm end.
Definition demo_x86' : vm pages :=
  match X86.create_empty_process_page_table 0x100000 demo_x86 with Done (_, s) => s | Panic => demo_vm end.

Definition demo_sv39 : vm pages :=
  match Sv39.create_empty_process_page_table 0x100000 demo_vm with Done (_, s) => s | Panic => demo_vm end.

Lemma demo_kernel_owned x : 0x100000 <= x < 0x100000 + 4096 -> pa_owned (PageLaws := pages_laws) (vm_pages demo_vm) x.
Proof.
  intros Hx. cbn [pa_owned pages_laws vm_pages demo_vm].
  assert (demo_pages = mk_pages demo_bitmap true (bump_new 0x103000 0x200000)) as -> by (vm_compute; reflexivity).
  unfold pages_owned. cbn [pg_ready pg_bm]. unfold bm_owned.
  assert (bm_base demo_bitmap = 0x100000 /\ bm_total demo_bitmap = 256) as [-> ->] by (vm_compute; done).
  split; [lia|]. replace ((x - 0x100000) / 4096) with 0 by (symmetry; apply Z.div_small; lia). by vm_compute.
Qed.

Lemma demo_vm_inv : pa_inv (PageLaws := pages_laws) (vm_pages demo_vm).
Proof. cbn [pa_inv pages_laws vm_pages demo_vm]. exact demo_pages_inv. Qed.

Lemma demo_created {A} (m : outcome (option A * vm pages)) root d :
  match m with Done (Some _, _) => true | _ => false end = true ->
  match m with Done (Some r, _) => r | _ => root end = root ->
  m = Done (Some root, match m with Done (_, s) => s | Panic => d end).
Proof. destruct m as [[[r|] s]|]; [by intros _ -> | done | done]. Qed.

Lemma demo_x86_spaces : spaces (vops := x86_ops 0x100000) (vlaws := x86_laws 0x100000) demo_x86' [0x104000; 0x103000].
Proof.
  apply (sp_create (vops := x86_ops 0x100000) demo_x86 [0x103000]);
    [apply (sp_create (vops := x86_ops 0x100000) demo_vm []); [apply (sp_boot demo_vm)|]|].
  - exact demo_vm_inv.
  - exact demo_kernel_owned.
  - by apply (demo_created _ 0x103000); vm_compute.
  - by apply (demo_created _ 0x104000); vm_compute.
Qed.

Lemma x86_map_user_page_exact_witness :
  exists s', X86.map_user_page demo_x86' 0x103000 0x8000001000 0x200000 (PROT_WRITE + PROT_USER) = Done (true, s') /\
    x86_translate s' 0x103000 0x8000001ABC = Some (3%nat, 0x200007) /\
    x86_translate s' 0x103000 0x8000002000 = x86_translate demo_x86' 0x103000 0x8000002000 /\
    x86_translate s' 0x104000 0x8000001ABC = x86_translate demo_x86' 0x104000 0x8000001ABC.
Proof.
  destruct (x86_map_user_page_exact 0x100000 demo_x86' [0x104000; 0x103000] 0x103000 0x8000001000 0x200000 (PROT_WRITE + PROT_USER))
    as (ok & s' & E & T & _ & O & _); [apply demo_x86_spaces | by rewrite !elem_of_cons; auto | lia | lia |].
  assert (match X86.map_user_page demo_x86' 0x103000 0x8000001000 0x200000 (PROT_WRITE + PROT_USER) with
    | Done (ok, _) => ok | Panic => false end = true) as Hok by (vm_compute; reflexivity).
  rewrite E in Hok. subst ok. exists s'. split; [exact E|]. split; [|split].
  - by rewrite T by lia.
  - by rewrite T by lia.
  - apply O; [by apply elem_of_cons; left | done | lia].
Defined.

(** C32: The same on RISC-V: with Sv39 tables, [map_user_page] maps exactly the page of
    [va], leaves the four kernel entries of the space and every translation of the
    other spaces alone, and can fail only for a kernel address, for lack of
    memory, or because of a large page. *)
Theorem sv39_map_user_page_exact ROOT (s : vm pages) roots root va pa prot :
  spaces (vops := sv39_ops ROOT) (vlaws := sv39_laws ROOT) s roots -> root ∈ roots -> 0 <= pa < 2 ^ 64 -> 0 <= va < 2 ^ 39 ->
  exists ok s', Sv39.map_user_page s root va pa prot = Done (ok, s') /\
    (forall va', 2 ^ 32 <= va' < 2 ^ 39 -> sv39_translate s' root va' =
       if ok && (va' / 4096 =? va / 4096) then Some (2%nat, Z.lor (Sv39.ppn_bits pa) (Sv39.prot_flags prot))
       else sv39_translate s root va') /\
    (forall i, 0 <= i < 4 -> entry (vm_mem s') root i = entry (vm_mem s) root i) /\
    (forall root2 va', root2 ∈ roots -> root2 <> root -> 2 ^ 32 <= va' < 2 ^ 39 ->
       sv39_translate s' root2 va' = sv39_translate s root2 va') /\
    (ok = true -> 2 ^ 32 <= va) /\
    (ok = false -> va < 2 ^ 32 \/ (exists p, alloc_pages (vm_pages s') 1 = Done (None, p)) \/
       exists lv e, (lv < 2)%nat /\ sv39_translate s root va = Some (lv, e)).
Proof.
  intros Hs Hin Hpa Hva. pose proof (spaces_isolated s roots root va pa prot Hs Hin Hpa) as Hm.
  cbn [vm_map sv39_ops] in Hm. apply runs_Done in Hm as ((ok & s') & E & _ & T & K & O & Y & N).
  exists ok, s'. split; [done|]. split_and!.
  - intros va' Hv. pose proof (sv39_same_page va va' Hva ltac:(lia)) as Hp.
    pose proof (T va' (sv39_user_range va' Hv)) as Tv. cbn [vl_idxs sv39_laws] in Tv. unfold translate in Tv.
    unfold sv39_translate. etransitivity; [exact Tv|]. destruct ok; cbn [andb].
    + destruct (Z.eqb_spec (va' / 4096) (va / 4096)) as [E'|E']; [by rewrite decide_True by tauto | by rewrite decide_False by tauto].
    + by rewrite decide_False by (by intros []).
  - exact K.
  - intros root2 va' H2 Hne Hv. apply (O root2 va' H2 Hne). by apply sv39_user_range.
  - intros Hok. specialize (Y Hok). cbn [vl_user sv39_laws] in Y. unfold sv39_user in Y. change 0x1FF with 511 in Y.
    rewrite idx_eq in Y by lia. destruct (Z.le_gt_cases (2 ^ 32) va) as [|Hlt]; [done|].
    apply negb_true_iff, Z.ltb_ge in Y. assert (va / 2 ^ 30 < 4) by (apply Z.div_lt_upper_bound; lia).
    assert (0 <= va / 2 ^ 30) by (apply Z.div_pos; lia). rewrite Z.mod_small in Y; lia.
  - intros Hok. destruct (N Hok) as [Hu|[B|(lv & e & B)]]; [left | right; by left | right; right; exists lv, e].
    + destruct (Z.lt_ge_cases va (2 ^ 32)) as [|Hge]; [done|]. cbn [vl_user sv39_laws] in Hu.
      by rewrite sv39_user_range in Hu by lia.
    + cbn in B. split; [lia | apply B].
Qed.

Lemma demo_sv39_spaces : spaces (vops := sv39_ops 0x100000) (vlaws := sv39_laws 0x100000) demo_sv39 [0x103000].
Proof.
  apply (sp_create (vops := sv39_ops 0x100000) demo_vm []); [apply (sp_boot demo_vm)|].
  - exact demo_vm_inv.
  - exact demo_kernel_owned.
  - by apply (demo_created _ 0x103000); vm_compute.
Qed.

Lemma sv39_map_user_page_exact_witness :
  exists s', Sv39.map_user_page demo_sv39 0x103000 0x100001000 0x200000 (PROT_READ + PROT_USER) = Done (true, s') /\
    sv39_translate s' 0x103000 0x100001ABC = Some (2%nat, 0x800D3) /\
    sv39_translate s' 0x103000 0x100002000 = sv39_translate demo_sv39 0x103000 0x100002000.
Proof.
  destruct (sv39_map_user_page_exact 0x100000 demo_sv39 [0x103000] 0x103000 0x100001000 0x200000 (PROT_READ + PROT_USER))
    as (ok & s' & E & T & _); [apply demo_sv39_spaces | by apply elem_of_cons; left | lia | lia |].
  assert (match Sv39.map_user_page demo_sv39 0x103000 0x100001000 0x200000 (PROT_READ + PROT_USER) with
    | Done (ok, _) => ok | Panic => false end = true) as Hok by (vm_compute; reflexivity).
  rewrite E in Hok. subst ok. exists s'. split; [exact E|]. split; by rewrite T by lia.
Defined.

(** A new address space never panics and never disturbs an existing one: on x86_64
    [create_empty_process_page_table] returns a root that is not in use, with no
    user page mapped, with the kernel's PML4 entry less the user bit, and all
    translations of all other spaces are as before. *)
Theorem x86_create_empty_fresh PML4 (s : vm pages) roots :
  spaces (vops := x86_ops PML4) (vlaws := x86_laws PML4) s roots ->
  exists r s', X86.create_empty_process_page_table PML4 s = Done (r, s') /\
    match r with
    | None => s' = s
    | Some root =>
        (root ∉ roots) /\ spaces (vops := x86_ops PML4) (vlaws := x86_laws PML4) s' (root :: roots) /\
        (forall va, 2 ^ 39 <= va < 2 ^ 48 -> x86_translate s' root va = None) /\
        entry (vm_mem s') root 0 = wrap 64 (Z.land (entry (vm_mem s) PML4 0) (Z.lnot X86.PAGE_USER)) /\
        (forall root2 va, root2 ∈ roots -> 2 ^ 39 <= va < 2 ^ 48 -> x86_translate s' root2 va = x86_translate s root2 va)
    end.
Proof.
  intros Hs. pose proof (spaces_reach_ok _ _ Hs) as Hok. destruct Hok as [Hinv Hk Hwf Hap].
  pose proof (vl_create (VmLaws := x86_laws PML4) s Hinv Hk) as Hc. cbn [vm_create_empty x86_ops] in Hc.
  apply runs_Done in Hc as ([[root|] s'] & E & Hc); [exists (Some root), s' | exists None, s']; (split; [exact E|]); [|exact Hc].
  destruct (spaces_ok_create s roots root s' (spaces_reach_ok _ _ Hs) E) as (_ & Hnew & Hnone & Hke & Hview).
  split_and!; [done | by apply (sp_create (vops := x86_ops PML4) s) | | by apply (Hke 0) |].
  - intros va Hva. apply (Hnone va). by apply x86_user_range.
  - intros root2 va H2 Hva. apply (Hview root2 H2); [by apply x86_user_path, x86_user_range | done].
Qed.

Lemma x86_create_empty_fresh_witness :
  exists r s', X86.create_empty_process_page_table 0x100000 demo_x86' = Done (r, s') /\
    match r with
    | None => s' = demo_x86'
    | Some root => (root ∉ [0x104000; 0x103000]) /\ forall va, 2 ^ 39 <= va < 2 ^ 48 -> x86_translate s' root va = None
    end.
Proof.
  destruct (x86_create_empty_fresh 0x100000 demo_x86' [0x104000; 0x103000] demo_x86_spaces) as (r & s' & E & H).
  exists r, s'. split; [exact E|]. destruct r as [root|]; [|exact H]. destruct H as (H1 & _ & H2 & _). by split.
Defined.
