(* ===== verification/Elf.v ===== *)
(** The ELF64 loader (src/kernel/src/elf/mod.rs): definitions.  What it does to an
    address space is proved in ElfSpec.v. *)
From Stdlib Require Import ZArith Lia.
From stdpp Require Import base option list numbers.
From S2P Require Import Prelude Mmap Bitmap Pages PageTable Paging.
Local Open Scope Z_scope.

Definition ELFMAG : bytes := [0x7f; 0x45; 0x4c; 0x46].
Definition ELFCLASS64 : Z := 2.
Definition ELFDATA2LSB : Z := 1.
Definition ET_DYN : Z := 3.
Definition PT_LOAD : Z := 1.
Definition PT_PHDR : Z := 6.
Definition PF_X : Z := 1.
Definition PF_W : Z := 2.
Definition PF_R : Z := 4.

Definition EI_CLASS : Z := 4.
Definition EI_DATA : Z := 5.
Definition E_TYPE_OFF : Z := 16.
Definition E_ENTRY_OFF : Z := 24.
Definition E_PHOFF_OFF : Z := 32.
Definition E_PHENTSIZE_OFF : Z := 54.
Definition E_PHNUM_OFF : Z := 56.
Definition EHDR_MIN_SIZE : Z := 64.

Definition PH_TYPE_OFF : Z := 0.
Definition PH_FLAGS_OFF : Z := 4.
Definition PH_OFFSET_OFF : Z := 8.
Definition PH_VADDR_OFF : Z := 16.
Definition PH_FILESZ_OFF : Z := 32.
Definition PH_MEMSZ_OFF : Z := 40.
Definition PHDR_MIN_SIZE : Z := 56.

(** [data.len()], and [d[o]] for an index of type usize. *)
Definition len (d : bytes) : Z := Z.of_nat (length d).
Definition at_ (d : bytes) (o : Z) : outcome Z := get d (Z.to_nat o).

(** The bytes [d[o], d[o+1], ..] of a [from_le_bytes]. *)
Fixpoint rd (n : nat) (d : bytes) (o : Z) : outcome bytes :=
  match n with
  | O => Done []
  | S n => b ← at_ d o; l ← rd n d (uadd o 1); Done (b :: l)
  end.
Definition rd16 (d : bytes) (o : Z) : outcome Z := from_le <$> rd 2 d o.
Definition rd32 (d : bytes) (o : Z) : outcome Z := from_le <$> rd 4 d o.
Definition rd64 (d : bytes) (o : Z) : outcome Z := from_le <$> rd 8 d o.

Definition is_elf (data : bytes) : outcome bool :=
  if negb (EHDR_MIN_SIZE <=? len data) then Done false else
  magic ← slice data 0 4;
  if negb (bool_decide (magic = ELFMAG)) then Done false else
  class ← at_ data EI_CLASS;
  if negb (class =? ELFCLASS64) then Done false else
  enc ← at_ data EI_DATA;
  Done (enc =? ELFDATA2LSB).

Definition pf_to_prot (pf : Z) : Z :=
  let p := PROT_USER in
  let p := if has pf PF_R then Z.lor p PROT_READ else p in
  let p := if has pf PF_W then Z.lor p PROT_WRITE else p in
  if has pf PF_X then Z.lor p PROT_EXEC else p.

(** The fields of a program header the loader reads. *)
Record segment := mk_segment { p_vaddr : Z; p_filesz : Z; p_memsz : Z; p_offset : Z; p_flags : Z }.

Definition read_segment (data : bytes) (ph : Z) : outcome segment :=
  p_vaddr ← rd64 data (uadd ph PH_VADDR_OFF);
  p_filesz ← rd64 data (uadd ph PH_FILESZ_OFF);
  p_memsz ← rd64 data (uadd ph PH_MEMSZ_OFF);
  p_offset ← rd64 data (uadd ph PH_OFFSET_OFF);
  p_flags ← rd32 data (uadd ph PH_FLAGS_OFF);
  Done (mk_segment p_vaddr p_filesz p_memsz p_offset p_flags).

(** The lowest page of a PT_LOAD header, [usize::MAX] when there is none. *)
Definition min_va_step (data : bytes) (phoff phentsize : Z) (min_va i : Z) : outcome Z :=
  let ph := uadd phoff (umul i phentsize) in
  ty ← rd32 data (uadd ph PH_TYPE_OFF);
  if ty =? PT_LOAD then
    va ← rd64 data (uadd ph PH_VADDR_OFF);
    let va := align_down va in
    Done (if va <? min_va then va else min_va)
  else Done min_va.

(** The loop that looks for PT_PHDR, up to its [break]. *)
Fixpoint find_phdr (data : bytes) (phoff phentsize bias phdr_va : Z) (idxs : list Z) : outcome Z :=
  match idxs with
  | [] => Done phdr_va
  | i :: idxs =>
      let ph := uadd phoff (umul i phentsize) in
      ty ← rd32 data (uadd ph PH_TYPE_OFF);
      if ty =? PT_PHDR then va ← rd64 data (uadd ph PH_VADDR_OFF); Done (uadd va bias)
      else find_phdr data phoff phentsize bias phdr_va idxs
  end.

Section load.
Context {A : Type} {ops : PageOps A} {vops : VmOps A}.

(** One page of a segment: a fresh zeroed page, the part of the file that falls
    in it, and its mapping.  A read of [data] outside its bounds is a [Panic] here. *)
Definition load_page (data : bytes) (pt_phys seg_va : Z) (g : segment) (page_va : Z) (s : vm A) : outcome (bool * vm A) :=
  '(r, p) ← alloc_pages (vm_pages s) 1;
  match r with
  | None => Done (false, mk_vm (vm_mem s) p)
  | Some page_phys =>
      let m := write_bytes (vm_mem s) page_phys 0 4096 in
      let copy_va_lo := Z.max page_va seg_va in
      let copy_va_hi := Z.min (uadd page_va 4096) (uadd seg_va (p_filesz g)) in
      m ← (if copy_va_lo <? copy_va_hi then
             let dst_byte_off := usub copy_va_lo page_va in
             let src_byte_off := uadd (p_offset g) (usub copy_va_lo seg_va) in
             let n := usub copy_va_hi copy_va_lo in
             src ← slice data (Z.to_nat src_byte_off) (Z.to_nat (src_byte_off + n));
             Done (copy_bytes m (uadd page_phys dst_byte_off) (fun o => nth (Z.to_nat o) src 0) n)
           else Done m);
      vm_map (mk_vm m p) pt_phys page_va page_phys (pf_to_prot (p_flags g))
  end.

Fixpoint load_pages (data : bytes) (pt_phys seg_va : Z) (g : segment) (page_start : Z) (pis : list Z) (s : vm A)
    : outcome (bool * vm A) :=
  match pis with
  | [] => Done (true, s)
  | pi :: pis =>
      '(ok, s) ← load_page data pt_phys seg_va g (uadd page_start (umul pi 4096)) s;
      if ok : bool then load_pages data pt_phys seg_va g page_start pis s else Done (false, s)
  end.

(** The loop over the program headers; [None] is a [return None]. *)
Fixpoint load_segments (data : bytes) (pt_phys phoff phentsize bias max_va : Z) (idxs : list Z) (s : vm A)
    : outcome (option Z * vm A) :=
  match idxs with
  | [] => Done (Some max_va, s)
  | i :: idxs =>
      let ph := uadd phoff (umul i phentsize) in
      ty ← rd32 data (uadd ph PH_TYPE_OFF);
      if negb (ty =? PT_LOAD) then load_segments data pt_phys phoff phentsize bias max_va idxs s else
      g ← read_segment data ph;
      if p_memsz g =? 0 then load_segments data pt_phys phoff phentsize bias max_va idxs s else
      if len data <? saturating_add (p_offset g) (p_filesz g) then Done (None, s) else
      let seg_va := uadd (p_vaddr g) bias in
      let page_start := align_down seg_va in
      match checked_add seg_va (p_memsz g) ≫= fun e => checked_add e 0xFFF with
      | None => Done (None, s)
      | Some e =>
          let page_end := align_down e in
          let n_pages := usub page_end page_start / 4096 in
          let max_va := if max_va <? page_end then page_end else max_va in
          '(ok, s) ← load_pages data pt_phys seg_va g page_start (seqZ 0 n_pages) s;
          if ok : bool then load_segments data pt_phys phoff phentsize bias max_va idxs s else Done (None, s)
      end
  end.

Definition load (data : bytes) (pt_phys : Z) (s : vm A) : outcome (option (Z * Z * Z * Z * Z) * vm A) :=
  elf ← is_elf data;
  if negb elf then Done (None, s) else
  etype ← rd16 data E_TYPE_OFF;
  entry ← rd64 data E_ENTRY_OFF;
  phoff ← rd64 data E_PHOFF_OFF;
  phentsize ← rd16 data E_PHENTSIZE_OFF;
  phnum ← rd16 data E_PHNUM_OFF;
  if (phentsize <? PHDR_MIN_SIZE) || (phnum =? 0) then Done (None, s) else
  match checked_mul phnum phentsize ≫= fun n => checked_add phoff n with
  | None => Done (None, s)
  | Some phend =>
      if len data <? phend then Done (None, s) else
      min_va ← foldM (min_va_step data phoff phentsize) usize_max (seqZ 0 phnum);
      if min_va =? usize_max then Done (None, s) else
      let bias := if etype =? ET_DYN then usub vm_user_base min_va else 0 in
      phdr_va ← find_phdr data phoff phentsize bias (uadd phoff bias) (seqZ 0 phnum);
      '(r, s) ← load_segments data pt_phys phoff phentsize bias 0 (seqZ 0 phnum) s;
      match r with
      | None => Done (None, s)
      | Some max_va => Done (Some (uadd entry bias, max_va, phdr_va, phnum, phentsize), s)
      end
  end.
End load.
