(* ===== verification/ElfSpec.v ===== *)
(** What the ELF loader does to an address space: the pages of the image, and the
    proof that [load] never reads outside the file and maps exactly those. *)
From Stdlib Require Import ZArith Lia.
From stdpp Require Import base option list numbers.
From S2P Require Import Prelude Userspace Mmap Bitmap Pages PageTable Paging PagingSpec Elf.
Local Open Scope Z_scope.

(** ** The file as data *)

(** [n] bytes at [o], little-endian. *)
Definition le (n : nat) (d : bytes) (o : Z) : Z := from_le (take n (drop (Z.to_nat o) d)).

Definition ph_segment (d : bytes) (ph : Z) : segment :=
  mk_segment (le 8 d (ph + 16)) (le 8 d (ph + 32)) (le 8 d (ph + 40)) (le 8 d (ph + 8)) (le 4 d (ph + 4)).

(** The program headers of type PT_LOAD, in file order. *)
Definition load_headers (d : bytes) (phoff phentsize : Z) (idxs : list Z) : list segment :=
  omap (fun i => let ph := phoff + i * phentsize in if le 4 d ph =? 1 then Some (ph_segment d ph) else None) idxs.

Section reading.
Variable data : bytes.
Hypothesis Hlen : len data < 2 ^ 63.

Lemma rd_eq n : forall o, 0 <= o -> o + Z.of_nat n <= len data -> rd n data o = Done (take n (drop (Z.to_nat o) data)).
Proof using Hlen.
  unfold len in *. induction n as [|n IH]; intros o Ho Hn; cbn [rd]; [done|]. unfold at_.
  destruct (get_lt data (Z.to_nat o)) as (b & -> & Hb); [lia|]. mred.
  unfold uadd. rewrite wrap_small, IH by lia. mred. f_equal.
  rewrite (drop_S data b (Z.to_nat o) Hb). cbn [take]. do 3 f_equal. lia.
Qed.

Lemma rd16_eq o : 0 <= o -> o + 2 <= len data -> rd16 data o = Done (le 2 data o).
Proof using Hlen. intros. unfold rd16. by rewrite rd_eq. Qed.
Lemma rd32_eq o : 0 <= o -> o + 4 <= len data -> rd32 data o = Done (le 4 data o).
Proof using Hlen. intros. unfold rd32. by rewrite rd_eq. Qed.
Lemma rd64_eq o : 0 <= o -> o + 8 <= len data -> rd64 data o = Done (le 8 data o).
Proof using Hlen. intros. unfold rd64. by rewrite rd_eq. Qed.

Lemma from_le_range l : Forall byte_ok l -> 0 <= from_le l < 2 ^ (8 * Z.of_nat (length l)).
Proof.
  induction 1 as [|b l Hb _ IH]; cbn [from_le length]; [lia|]. unfold byte_ok in Hb.
  replace (8 * Z.of_nat (S (length l))) with (8 + 8 * Z.of_nat (length l)) by lia. rewrite Z.pow_add_r by lia.
  change (2 ^ 8) with 256. lia.
Qed.

Hypothesis Hbytes : Forall byte_ok data.

Lemma le_range n o : 0 <= le n data o < 2 ^ (8 * Z.of_nat n).
Proof using Hbytes.
  unfold le. pose proof (from_le_range (take n (drop (Z.to_nat o) data))) as H.
  assert (Forall byte_ok (take n (drop (Z.to_nat o) data))) as Hf by (by apply Forall_take, Forall_drop).
  specialize (H Hf). rewrite length_take in H. split; [lia|]. eapply Z.lt_le_trans; [apply H|].
  apply Z.pow_le_mono_r; lia.
Qed.

Lemma is_elf_runs : runs (is_elf data) (fun r => r = true -> 64 <= len data).
Proof using Hlen.
  unfold is_elf, len in *. destruct (Z.leb_spec EHDR_MIN_SIZE (Z.of_nat (length data))) as [Hl|]; cbn [negb]; [|done].
  change EHDR_MIN_SIZE with 64 in Hl. rstep. rstep; [lia|]. case_match; [done|].
  rstep. unfold at_. rstep; [unfold EI_CLASS; lia|]. case_match; [done|]. rstep. rstep; [unfold EI_DATA; lia|]. by intros _.
Qed.

(** A program header inside the file. *)
Section header.
Variables (phoff phentsize phnum i : Z).
Hypothesis Hpe : 56 <= phentsize.
Hypothesis Hoff : 0 <= phoff /\ phoff + phnum * phentsize <= len data.
Hypothesis Hi : 0 <= i < phnum.

Lemma ph_eq : uadd phoff (umul i phentsize) = phoff + i * phentsize /\
  0 <= phoff + i * phentsize /\ phoff + i * phentsize + 56 <= len data.
Proof using Hlen Hpe Hoff Hi.
  assert (0 <= i * phentsize /\ i * phentsize + phentsize <= phnum * phentsize) by nia.
  unfold uadd, umul. rewrite (wrap_small 64 (i * phentsize)) by lia. rewrite wrap_small by lia. lia.
Qed.

Lemma read_segment_eq : read_segment data (phoff + i * phentsize) = Done (ph_segment data (phoff + i * phentsize)).
Proof using Hlen Hpe Hoff Hi.
  destruct ph_eq as (_ & H0 & H1). unfold read_segment, uadd, PH_VADDR_OFF, PH_FILESZ_OFF, PH_MEMSZ_OFF, PH_OFFSET_OFF, PH_FLAGS_OFF.
  rewrite !wrap_small by lia. rewrite !rd64_eq, rd32_eq by lia. done.
Qed.

Lemma read_type_eq : rd32 data (uadd (phoff + i * phentsize) PH_TYPE_OFF) = Done (le 4 data (phoff + i * phentsize)).
Proof using Hlen Hpe Hoff Hi.
  destruct ph_eq as (_ & H0 & H1). unfold uadd, PH_TYPE_OFF. rewrite wrap_small by lia. rewrite rd32_eq by lia.
  by rewrite Z.add_0_r.
Qed.

Lemma read_vaddr_eq : rd64 data (uadd (phoff + i * phentsize) PH_VADDR_OFF) = Done (p_vaddr (ph_segment data (phoff + i * phentsize))).
Proof using Hlen Hpe Hoff Hi.
  destruct ph_eq as (_ & H0 & H1). unfold uadd, PH_VADDR_OFF. rewrite wrap_small by lia. by rewrite rd64_eq by lia.
Qed.
End header.

Lemma load_headers_app phoff phentsize l l' :
  load_headers data phoff phentsize (l ++ l') = load_headers data phoff phentsize l ++ load_headers data phoff phentsize l'.
Proof. unfold load_headers. induction l as [|i l IH]; [done|]. cbn. rewrite IH. by destruct (le 4 data (phoff + i * phentsize) =? 1). Qed.

(** The lowest page, as the loader computes it. *)
Definition lowest (gs : list segment) (m : Z) : Prop :=
  m ∈ usize_max :: ((fun g => align_down (p_vaddr g)) <$> gs) /\ m <= usize_max /\
  forall g, g ∈ gs -> m <= align_down (p_vaddr g).

Lemma min_va_runs phoff phentsize phnum : 56 <= phentsize -> 0 <= phoff -> phoff + phnum * phentsize <= len data -> 0 <= phnum ->
  runs (foldM (min_va_step data phoff phentsize) usize_max (seqZ 0 phnum))
    (lowest (load_headers data phoff phentsize (seqZ 0 phnum))).
Proof using Hlen.
  intros Hpe Ho Hoff Hn.
  apply (runs_foldM (fun k m => lowest (load_headers data phoff phentsize (take k (seqZ 0 phnum))) m)).
  - split; [by apply elem_of_cons; left|]. split; [done|]. by intros g ?%elem_of_nil.
  - intros k i m Hk (Hin & Hmax & Hmin). pose proof Hk as Hk'. apply lookup_seqZ in Hk' as [-> Hlt].
    unfold min_va_step. destruct (ph_eq phoff phentsize phnum (0 + Z.of_nat k)) as (-> & _); [lia..|].
    rewrite (read_type_eq phoff phentsize phnum) by lia. mred. change PT_LOAD with 1.
    rewrite (take_S_r _ _ _ Hk), load_headers_app. cbn [load_headers omap list_omap].
    set (ph := phoff + (0 + Z.of_nat k) * phentsize) in *. destruct (le 4 data ph =? 1).
    + subst ph. rewrite (read_vaddr_eq phoff phentsize phnum) by lia. mred. cbn [runs].
      set (g := ph_segment data _). set (v := align_down (p_vaddr g)). unfold lowest.
      rewrite fmap_app. cbn [fmap list_fmap]. destruct (Z.ltb_spec v m).
      * split; [apply elem_of_cons; right; apply elem_of_app; right; by apply elem_of_cons; left|]. split; [lia|].
        intros g' [Hg| ->%list_elem_of_singleton]%elem_of_app; [specialize (Hmin g' Hg); lia | done].
      * split; [|split; [done|]].
        -- apply elem_of_cons. apply elem_of_cons in Hin as [?|?]; [by left | right; apply elem_of_app; by left].
        -- intros g' [Hg| ->%list_elem_of_singleton]%elem_of_app; [by apply Hmin | done].
    + cbn [runs]. by rewrite app_nil_r.
  - intros m. by rewrite firstn_all.
Qed.

Lemma find_phdr_runs phoff phentsize phnum bias v : 56 <= phentsize -> 0 <= phoff -> phoff + phnum * phentsize <= len data ->
  forall idxs, Forall (fun i => 0 <= i < phnum) idxs -> runs (find_phdr data phoff phentsize bias v idxs) (fun _ => True).
Proof using Hlen.
  intros Hpe Ho Hoff. induction 1 as [|i idxs Hi _ IH]; cbn [find_phdr]; [done|].
  destruct (ph_eq phoff phentsize phnum i) as (-> & _); [lia..|].
  rewrite (read_type_eq phoff phentsize phnum) by lia. mred. case_match; [|done].
  by rewrite (read_vaddr_eq phoff phentsize phnum) by lia.
Qed.
End reading.

(** ** The pages of an image *)

Record elf_page := mk_page { ep_va : Z; ep_prot : Z; ep_byte : Z -> Z }.

(** Byte [o] of the page at [page_va] of segment [g], loaded at [seg_va]. *)
Definition file_byte (data : bytes) (g : segment) (seg_va page_va o : Z) : Z :=
  let a := page_va + o in
  if (seg_va <=? a) && (a <? uadd seg_va (p_filesz g)) then nth (Z.to_nat (p_offset g + (a - seg_va))) data 0 else 0.

Definition seg_pages (data : bytes) (bias : Z) (g : segment) : list elf_page :=
  let seg_va := uadd (p_vaddr g) bias in
  let first := align_down seg_va in
  let past := align_down (seg_va + p_memsz g + 0xFFF) in
  (fun pi => let va := first + pi * 4096 in mk_page va (pf_to_prot (p_flags g)) (file_byte data g seg_va va))
    <$> seqZ 0 ((past - first) / 4096).

(** Segments of no memory have no pages. *)
Definition elf_pages (data : bytes) (bias : Z) (gs : list segment) : list elf_page :=
  gs ≫= fun g => if p_memsz g =? 0 then [] else seg_pages data bias g.

(** The end of the highest page. *)
Definition image_end (m : Z) (bias : Z) (gs : list segment) : Z :=
  foldl (fun m g => if p_memsz g =? 0 then m else Z.max m (align_down (uadd (p_vaddr g) bias + p_memsz g + 0xFFF))) m gs.

Section loader.
Context {A : Type} {ops : PageOps A} {laws : PageLaws A ops} {vops : VmOps A} {vlaws : VmLaws vops}.
#[local] Existing Instance vl_format.
#[local] Existing Instance vl_format_ok.
Local Abbreviation slot := (user_slot vl_depth vl_lo).

(** The page that the image puts at the indices [ix]: the last one loaded there. *)
Definition page_for (l : list elf_page) (ix : list Z) : option elf_page :=
  foldl (fun acc p => if decide (vl_idxs (ep_va p) = ix) then Some p else acc) None l.

Lemma page_for_snoc l p ix : page_for (l ++ [p]) ix = if decide (vl_idxs (ep_va p) = ix) then Some p else page_for l ix.
Proof. unfold page_for. by rewrite foldl_app. Qed.

Section space.
Variables (s0 : vm A) (root : Z) (roots : list Z).

(** What loading leaves alone. *)
Record kept (s : vm A) : Prop := {
  kp_spaces : spaces s roots;
  kp_evolves : evolves vl_depth vl_lo s0 s root;
  kp_others root2 : root2 ∈ roots -> root2 <> root -> same_view vl_depth vl_lo s0 s root2
}.

(** The page [p] is in memory at [pa], in a page nothing else uses. *)
Record placed (s : vm A) (p : elf_page) (pa : Z) : Prop := {
  pl_ok : page_ok (vm_pages s) pa;
  pl_slot x : pa <= x < pa + 4096 -> ~ slot s root x;
  pl_new x : pa <= x < pa + 4096 -> ~ pa_owned (vm_pages s0) x;
  pl_bytes o : 0 <= o < 4096 -> vm_mem s (pa + o) = ep_byte p o
}.

Definition shows (s : vm A) (l : list elf_page) : Prop :=
  forall va, vl_user va = true ->
    match page_for l (vl_idxs va) with
    | None => translate s root va = translate s0 root va
    | Some p => exists pa, translate s root va = Some (pred vl_depth, vl_leaf pa (ep_prot p)) /\ placed s p pa
    end.

Record loaded (s : vm A) (l : list elf_page) : Prop := {
  ld_kept : kept s;
  ld_shows : shows s l;
  ld_user : Forall (fun p => vl_user (ep_va p) = true) l
}.

Hypothesis Hroot : root ∈ roots.

(** A step that keeps owned bytes outside user entries keeps placed pages. *)
Lemma placed_evolves s s' p pa : evolves vl_depth vl_lo s s' root -> placed s p pa -> placed s' p pa.
Proof using.
  intros [O S F] [(Ha & Hp & Hm & Ho) Hs Hn Hb]. split; [| |done|].
  - split_and!; try done. intros x Hx. by apply O, Ho.
  - intros x Hx H. apply (Hs x Hx), S; [by apply Ho | done].
  - intros o Hx. rewrite <- Hb by done. apply F; [apply Ho; lia | apply Hs; lia].
Qed.

(** A fresh page with new contents. *)
Lemma fresh_page_step s pa p m : kept s -> alloc_pages (vm_pages s) 1 = Done (Some pa, p) ->
  (forall x, ~ pa <= x < pa + 4096 -> m x = vm_mem s x) ->
  let s' := mk_vm m p in
  kept s' /\ evolves vl_depth vl_lo s s' root /\ same_view vl_depth vl_lo s s' root /\ page_ok p pa /\
  (forall x, pa <= x < pa + 4096 -> ~ slot s' root x /\ ~ pa_owned (vm_pages s0) x).
Proof using Hroot.
  intros [Hs Hev Hoth] E Hm s'. pose proof (spaces_reach_ok _ _ Hs) as [Hinv Hk Hwf Hap].
  destruct (pa_alloc (vm_pages s) 1 Hinv ltac:(lia)) as (r & p' & E' & Hinv' & Hr). rewrite E in E'. done_inv.
  destruct Hr as (Hal & Hpos & Hmax & Hfresh & Hown). unfold in_pages in *.
  assert (forall x, pa_owned (vm_pages s) x -> pa_owned p' x) as Hmono by (intros x Hx; apply Hown; by right).
  assert (forall x, pa_owned (vm_pages s) x -> m x = vm_mem s x) as Hfr by (intros x Hx; apply Hm; intros H; apply (Hfresh x); [lia | done]).
  assert (forall root2, root2 ∈ roots -> same_view vl_depth vl_lo s s' root2) as Hview.
  { intros root2 H2 idxs Hu Hl. apply xlate_ext. eapply frame_agree; [by apply Hwf | done | done | lia]. }
  assert (forall root2 path, root2 ∈ roots -> user_path vl_lo path -> (length path < vl_depth)%nat ->
    tbl 0 m root2 path = tbl 0 (vm_mem s) root2 path) as Ht.
  { intros root2 path H2 Hu Hl. apply tbl_ext. eapply (frame_agree vl_depth vl_lo s s'); [by apply Hwf | done | done | lia]. }
  assert (forall x, slot s' root x -> slot s root x) as Hslot.
  { intros x (ρ & j & a & Hu & Hl & Ha & Hx). exists ρ, j, a. destruct (user_path_app vl_lo ρ j Hu) as [Hρ _].
    cbn [vm_mem s'] in Ha. rewrite Ht in Ha by done. done. }
  assert (evolves vl_depth vl_lo s s' root) as Hev'.
  { split; [exact Hmono | by auto | intros x Hx _; by apply Hfr]. }
  split_and!; [split | done | by apply Hview | split_and!; [done | done | lia | intros x Hx; apply Hown; left; lia] |].
  - apply (sp_write (mk_vm (vm_mem s) p')); [by eapply sp_alloc; [done | |exact E]|].
    intros root2 path t x H2 Hu Hl Ht' Hx. apply Hfr. cbn [vm_mem] in Ht'.
    destruct (sw_tables _ _ _ _ (Hwf root2 H2) path t Hu Hl Ht') as (_ & _ & _ & Ho). by apply Ho.
  - by eapply evolves_trans.
  - intros root2 H2 Hne idxs Hu Hl. rewrite (Hview root2) by done. by apply Hoth.
  - intros x Hx. split; [|intros Hx0; apply (Hfresh x); [lia | by apply Hev]].
    intros (ρ & j & a & Hu & Hl & Ha & Hx')%Hslot. destruct (user_path_app vl_lo ρ j Hu) as [Hρ Hj].
    destruct (sw_tables _ _ _ _ (Hwf root Hroot) ρ a Hρ Hl Ha) as (_ & _ & _ & Ho). unfold entry_addr in Hx'.
    apply (Hfresh x); [lia | apply Ho; lia].
Qed.

(** Mapping a page that was just filled. *)
Lemma map_page_step s s1 l (pg : elf_page) pa :
  loaded s l -> kept s1 -> evolves vl_depth vl_lo s s1 root -> same_view vl_depth vl_lo s s1 root -> placed s1 pg pa ->
  runs (vm_map s1 root (ep_va pg) pa (ep_prot pg)) (fun '(ok, s') =>
    kept s' /\ (ok = true -> loaded s' (l ++ [pg]))).
Proof using Hroot.
  intros [_ Hsh Huser] [Hs1 Hev1 Hoth1] Hev Hview Hpl.
  destruct (vl_user (ep_va pg)) eqn:Hu; [|rewrite vl_map_kernel by done; cbn; by split; [split|]].
  assert (0 <= pa < 2 ^ 64) as Hpa by (destruct (pl_ok _ _ _ Hpl) as (_ & ? & ? & _); lia).
  pose proof (spaces_reach_ok _ _ Hs1) as Hok1.
  pose proof (vl_map s1 root (ep_va pg) pa (ep_prot pg) (so_wf _ _ Hok1 _ Hroot) Hpa Hu) as Hm.
  destruct (vm_map s1 root (ep_va pg) pa (ep_prot pg)) as [[ok s']|] eqn:E; [|done]. cbn [runs] in *.
  destruct Hm as (W & Ev & V & _).
  assert (kept s') as Hk.
  { split; [by eapply sp_map | by eapply evolves_trans|]. intros root2 H2 Hne idxs Hi Hl.
    pose proof (spaces_ok_map _ _ _ _ _ _ _ _ Hok1 Hroot Hpa E) as [_ Hv]. rewrite (Hv root2) by done. by apply Hoth1. }
  split; [done|]. intros ->. split; [done | | by apply Forall_app; split; [|constructor]].
  intros va Hva. rewrite page_for_snoc.
  assert (translate s' root va = if decide (vl_idxs va = vl_idxs (ep_va pg)) then Some (pred vl_depth, vl_leaf pa (ep_prot pg)) else translate s root va) as Htr.
  { unfold translate. rewrite V by (by apply vl_path || apply vl_length). destruct (decide (vl_idxs va = vl_idxs (ep_va pg))).
    - by rewrite decide_True.
    - rewrite decide_False by tauto. apply Hview; [by apply vl_path | apply vl_length]. }
  rewrite Htr. destruct (decide (vl_idxs (ep_va pg) = vl_idxs va)) as [E1|E1].
  - rewrite decide_True by done. exists pa. split; [done|]. by eapply placed_evolves.
  - rewrite decide_False by congruence. specialize (Hsh va Hva). destruct (page_for l (vl_idxs va)) as [p|]; [|done].
    destruct Hsh as (pa' & T & P). exists pa'. split; [done|]. eapply placed_evolves; [|exact P]. by eapply evolves_trans.
Qed.

Section file.
Variable data : bytes.
Hypothesis Hlen : len data < 2 ^ 63.
Hypothesis Hbytes : Forall byte_ok data.

(** A segment whose file part is inside the file. *)
Definition segment_ok (g : segment) : Prop :=
  0 <= p_vaddr g < 2 ^ 64 /\ 0 <= p_filesz g < 2 ^ 64 /\ 0 <= p_memsz g < 2 ^ 64 /\ 0 <= p_offset g /\
  p_offset g + p_filesz g <= len data.

(** Filling one page: the copy stays inside the file and inside the page. *)
Lemma fill_page m pa g seg_va page_va :
  segment_ok g -> 0 <= seg_va < 2 ^ 64 -> 0 <= page_va -> page_va + 8192 <= 2 ^ 64 -> 0 <= pa -> pa + 4096 <= 2 ^ 64 ->
  let lo := Z.max page_va seg_va in
  let hi := Z.min (uadd page_va 4096) (uadd seg_va (p_filesz g)) in
  runs (if lo <? hi then
          let src_byte_off := uadd (p_offset g) (usub lo seg_va) in
          src ← slice data (Z.to_nat src_byte_off) (Z.to_nat (src_byte_off + usub hi lo));
          Done (copy_bytes (write_bytes m pa 0 4096) (uadd pa (usub lo page_va)) (fun o => nth (Z.to_nat o) src 0) (usub hi lo))
        else Done (write_bytes m pa 0 4096))
    (fun m' => (forall x, ~ pa <= x < pa + 4096 -> m' x = m x) /\
               forall o, 0 <= o < 4096 -> m' (pa + o) = file_byte data g seg_va page_va o).
Proof using Hlen.
  intros (_ & Hf & _ & Ho & Hfo) Hs Hp Hp' Hpa Hpa' lo hi. unfold file_byte.
  assert (uadd page_va 4096 = page_va + 4096) as E by (apply wrap_small; lia).
  pose proof (wrap_range 64 (seg_va + p_filesz g) ltac:(lia)) as Hw. fold (uadd seg_va (p_filesz g)) in Hw.
  assert (seg_va < uadd seg_va (p_filesz g) -> uadd seg_va (p_filesz g) = seg_va + p_filesz g) as Hnw.
  { unfold uadd, wrap in *. destruct (Z.lt_ge_cases (seg_va + p_filesz g) (2 ^ 64)).
    - intros _. apply Z.mod_small. lia.
    - rewrite <- (Z.mod_add _ (-1)) by lia. rewrite Z.mod_small by lia. lia. }
  assert (forall x, ~ pa <= x < pa + 4096 -> write_bytes m pa 0 4096 x = m x) as Hout by (intros; by apply write_bytes_out).
  assert (forall o, 0 <= o < 4096 -> write_bytes m pa 0 4096 (pa + o) = 0) as Hin.
  { intros o Hr. unfold write_bytes. destruct (Z.leb_spec pa (pa + o)), (Z.ltb_spec (pa + o) (pa + 4096)); cbn; done || lia. }
  unfold len in *. destruct (Z.ltb_spec lo hi) as [Hlh|Hlh].
  - assert (usub hi lo = hi - lo) as -> by (apply wrap_small; lia).
    assert (usub lo page_va = lo - page_va) as -> by (apply wrap_small; lia).
    assert (usub lo seg_va = lo - seg_va) as -> by (apply wrap_small; lia).
    assert (uadd (p_offset g) (lo - seg_va) = p_offset g + (lo - seg_va)) as -> by (apply wrap_small; lia).
    assert (uadd pa (lo - page_va) = pa + (lo - page_va)) as -> by (apply wrap_small; lia).
    rewrite slice_ok by lia. mred. cbn [runs]. split.
    + intros x Hx. unfold copy_bytes. rewrite Hout by done. ztest; cbn; done || lia.
    + intros o Hr. unfold copy_bytes.
      destruct (Z.leb_spec seg_va (page_va + o)), (Z.ltb_spec (page_va + o) (uadd seg_va (p_filesz g))); cbn [andb].
      * rewrite (proj2 (Z.leb_le _ _)), (proj2 (Z.ltb_lt _ _)) by lia. cbn [andb].
        rewrite nth_lookup, lookup_take_lt, lookup_drop by lia. rewrite nth_lookup. do 2 f_equal. lia.
      * rewrite (proj2 (Z.ltb_ge _ (_ + (hi - lo)))) by lia. rewrite andb_false_r. by apply Hin.
      * rewrite (proj2 (Z.leb_gt (pa + (lo - page_va)) _)) by lia. cbn. by apply Hin.
      * lia.
  - cbn [runs]. split; [done|]. intros o Hr. rewrite Hin by done.
    destruct (Z.leb_spec seg_va (page_va + o)), (Z.ltb_spec (page_va + o) (uadd seg_va (p_filesz g))); cbn [andb]; try done. lia.
Qed.

Lemma load_page_runs s l g seg_va page_va : loaded s l -> segment_ok g -> 0 <= seg_va < 2 ^ 64 -> 0 <= page_va -> page_va + 8192 <= 2 ^ 64 ->
  runs (load_page data root seg_va g page_va s) (fun '(ok, s') =>
    kept s' /\ (ok = true -> loaded s' (l ++ [mk_page page_va (pf_to_prot (p_flags g)) (file_byte data g seg_va page_va)]))).
Proof using Hroot Hlen.
  intros Hld Hg Hs Hp Hp'. pose proof (ld_kept _ _ Hld) as Hk. unfold load_page.
  pose proof (spaces_reach_ok _ _ (kp_spaces _ Hk)) as Hok.
  destruct (pa_alloc (vm_pages s) 1 (so_inv _ _ Hok) ltac:(lia)) as ([pa|] & p & E & _ & Hr).
  2: { rewrite E. mred. cbn [runs]. subst p. split; [by destruct s | done]. }
  destruct (fresh_page_step s pa p (vm_mem s) Hk E ltac:(done)) as (_ & _ & _ & (_ & Hpa & Hpa' & _) & _).
  pose proof (fill_page (vm_mem s) pa g seg_va page_va Hg Hs Hp Hp' ltac:(lia) Hpa') as Hfill. cbn zeta in Hfill.
  rewrite E. mred. rstep. eapply runs_mono; [exact Hfill|]. intros m [Hout Hin].
  destruct (fresh_page_step s pa p m Hk E Hout) as (Hk1 & Hev & Hview & Hpok & Hnew).
  apply (map_page_step s _ l (mk_page page_va (pf_to_prot (p_flags g)) (file_byte data g seg_va page_va)) pa); try done.
  split; [done | by intros x Hx; apply Hnew | by intros x Hx; apply Hnew | exact Hin].
Qed.

Lemma load_pages_runs g seg_va first : segment_ok g -> 0 <= seg_va < 2 ^ 64 -> 0 <= first ->
  forall pis s l, Forall (fun pi => 0 <= pi < 2 ^ 52 /\ first + pi * 4096 + 8192 <= 2 ^ 64) pis -> loaded s l ->
  runs (load_pages data root seg_va g first pis s) (fun '(ok, s') =>
    kept s' /\ (ok = true -> loaded s' (l ++ ((fun pi =>
      let va := first + pi * 4096 in mk_page va (pf_to_prot (p_flags g)) (file_byte data g seg_va va)) <$> pis)))).
Proof using Hroot Hlen.
  intros Hg Hs Hfirst. induction pis as [|pi pis IH]; intros s l Hpis Hld; cbn [load_pages].
  - cbn [runs fmap list_fmap]. rewrite app_nil_r. split; [apply Hld | done].
  - inversion_clear Hpis as [|? ? [Hpi Hpi'] Hrest].
    assert (uadd first (umul pi 4096) = first + pi * 4096) as ->.
    { unfold uadd, umul. rewrite (wrap_small 64 (pi * 4096)) by lia. apply wrap_small. lia. }
    rstep. eapply runs_mono; [apply (load_page_runs s l); (done || lia)|].
    intros [[] s'] [Hk Hl]; [|by cbn [runs]; split].
    eapply runs_mono; [apply (IH s' _ Hrest (Hl eq_refl))|]. intros [ok s''] [Hk' Hl']. split; [done|].
    intros Hok. specialize (Hl' Hok). by rewrite <- app_assoc in Hl'.
Qed.

Lemma seg_geometry v sz : 0 <= v < 2 ^ 64 -> 0 < sz -> v + sz + 0xFFF <= usize_max ->
  let first := align_down v in let past := align_down (v + sz + 0xFFF) in
  0 <= first /\ first <= past /\ past + 4096 <= 2 ^ 64 /\ usub past first / 4096 = (past - first) / 4096 /\
  (past - first) / 4096 < 2 ^ 52 /\ first + (past - first) / 4096 * 4096 = past.
Proof using.
  intros Hv Hsz Hm first past. subst first past. unfold usize_max in Hm. rewrite !align_down_eq.
  assert (0 <= v / 4096 <= (v + sz + 0xFFF) / 4096) as [H0 H1] by (split; [apply Z.div_pos; lia | apply Z.div_le_mono; lia]).
  assert ((v + sz + 0xFFF) / 4096 < 4503599627370496) as H2 by (apply Z.div_lt_upper_bound; lia).
  unfold usub. rewrite wrap_small by lia.
  replace (4096 * ((v + sz + 4095) / 4096) - 4096 * (v / 4096)) with (((v + sz + 4095) / 4096 - v / 4096) * 4096) by lia.
  rewrite Z.div_mul by lia. lia.
Qed.

Lemma load_segments_runs phoff phentsize phnum bias :
  56 <= phentsize -> 0 <= phoff -> phoff + phnum * phentsize <= len data -> 0 <= bias < 2 ^ 64 ->
  forall idxs max_va s l, Forall (fun i => 0 <= i < phnum) idxs -> loaded s l ->
  runs (load_segments data root phoff phentsize bias max_va idxs s) (fun '(r, s') =>
    kept s' /\ forall m, r = Some m ->
      loaded s' (l ++ elf_pages data bias (load_headers data phoff phentsize idxs)) /\
      m = image_end max_va bias (load_headers data phoff phentsize idxs)).
Proof using Hroot Hlen Hbytes.
  intros Hpe Ho Hoff Hb. induction idxs as [|i idxs IH]; intros max_va s l Hi Hld; cbn [load_segments].
  { cbn [runs load_headers omap list_omap elf_pages]. split; [apply Hld|]. intros m [= <-]. cbn. by rewrite app_nil_r. }
  inversion_clear Hi as [|? ? Hi0 Hrest]. pose proof (ld_kept _ _ Hld) as Hk.
  destruct (ph_eq data Hlen phoff phentsize phnum i) as (-> & _); [lia..|].
  rewrite (read_type_eq data Hlen phoff phentsize phnum) by lia. mred. change PT_LOAD with 1.
  cbn [load_headers omap list_omap]. fold (load_headers data phoff phentsize idxs).
  destruct (le 4 data (phoff + i * phentsize) =? 1); cbn [negb]; [|by apply IH].
  rewrite (read_segment_eq data Hlen phoff phentsize phnum) by lia. mred.
  set (g := ph_segment data (phoff + i * phentsize)).
  assert (elf_pages data bias (g :: load_headers data phoff phentsize idxs) =
    (if p_memsz g =? 0 then [] else seg_pages data bias g) ++ elf_pages data bias (load_headers data phoff phentsize idxs)) as Ep by done.
  assert (image_end max_va bias (g :: load_headers data phoff phentsize idxs) =
    image_end (if p_memsz g =? 0 then max_va else Z.max max_va (align_down (uadd (p_vaddr g) bias + p_memsz g + 0xFFF)))
      bias (load_headers data phoff phentsize idxs)) as Ee by done.
  cbn [omap list_omap] in *. rewrite Ep, Ee. destruct (Z.eqb_spec (p_memsz g) 0) as [Ez|Ez]; [by apply IH|].
  destruct (Z.ltb_spec (len data) (saturating_add (p_offset g) (p_filesz g))) as [Hs|Hs]; [by cbn [runs]; split|].
  assert (0 <= p_vaddr g < 2 ^ 64 /\ 0 <= p_filesz g < 2 ^ 64 /\ 0 <= p_memsz g < 2 ^ 64 /\ 0 <= p_offset g) as (Hv & Hf & Hm & Hof)
    by (subst g; cbn [p_vaddr p_filesz p_memsz p_offset ph_segment]; split_and!; apply (le_range data Hbytes 8)).
  assert (segment_ok g) as Hg by (unfold segment_ok, saturating_add, usize_max in *; split_and!; (done || lia)).
  set (sv := uadd (p_vaddr g) bias) in *. assert (0 <= sv < 2 ^ 64) as Hsv by (apply wrap_range; lia).
  unfold checked_add. destruct (Z.leb_spec (sv + p_memsz g) usize_max); cbn [mbind option_bind]; [|by cbn [runs]; split].
  destruct (Z.leb_spec (sv + p_memsz g + 0xFFF) usize_max); [|by cbn [runs]; split].
  destruct (seg_geometry sv (p_memsz g)) as (G0 & G1 & G2 & G3 & G4 & G5); [done | lia | done |].
  rewrite G3. rstep. eapply runs_mono; [apply (load_pages_runs g sv (align_down sv) Hg Hsv G0 _ s l); [|done]|].
  { apply Forall_seqZ. intros pi Hpi. split; [lia|]. nia. }
  intros [[] s'] [Hk' Hl]; [|by cbn [runs]; split].
  assert ((if max_va <? align_down (sv + p_memsz g + 0xFFF) then align_down (sv + p_memsz g + 0xFFF) else max_va) =
    Z.max max_va (align_down (sv + p_memsz g + 0xFFF))) as -> by (ztest; lia).
  eapply runs_mono; [apply (IH _ s' _ Hrest (Hl eq_refl))|]. intros [r s''] [Hk'' Hr]. split; [done|].
  intros m Hm'. destruct (Hr m Hm') as [Hl2 He]. split; [|exact He]. by rewrite <- app_assoc in Hl2.
Qed.
End file.
End space.
End loader.

(** ** The loader *)

Section theorem.
Context {A : Type} {ops : PageOps A} {laws : PageLaws A ops} {vops : VmOps A} {vlaws : VmLaws vops}.
#[local] Existing Instance vl_format.
#[local] Existing Instance vl_format_ok.

Lemma loaded_nil s roots root : spaces s roots -> loaded s root roots s [].
Proof.
  intros Hs. split; [split | by intros va _ | constructor]; [done | apply evolves_refl | by intros root2 _ _ idxs].
Qed.

(** What the loader leaves, on success and on failure. *)
Definition load_outcome (data : bytes) (root : Z) (roots : list Z) (s : vm A)
  (out : option (Z * Z * Z * Z * Z) * vm A) : Prop :=
  let '(r, s') := out in
  kept s root roots s' /\
  match r with
  | None => True
  | Some (entry, heap_start, _, phnum, phentsize) =>
      phnum = le 2 data 56 /\ phentsize = le 2 data 54 /\
      exists lowest_va bias,
        let segments := load_headers data (le 8 data 32) phentsize (seqZ 0 phnum) in
        lowest segments lowest_va /\ bias = (if le 2 data 16 =? 3 then usub vm_user_base lowest_va else 0) /\
        entry = uadd (le 8 data 24) bias /\ heap_start = image_end 0 bias segments /\
        loaded s root roots s' (elf_pages data bias segments)
  end.

Lemma load_runs (data : bytes) (root : Z) (roots : list Z) (s : vm A) :
  Forall byte_ok data -> len data < 2 ^ 63 -> spaces s roots -> root ∈ roots -> 0 <= vm_user_base < 2 ^ 64 ->
  runs (load data root s) (load_outcome data root roots s).
Proof.
  intros Hbytes Hlen Hs Hroot Hbase.
  assert (kept s root roots s) as Hk0 by apply (loaded_nil s roots root Hs).
  unfold load. rstep. eapply runs_mono; [by apply is_elf_runs|]. intros [] H64; cbn [negb]; [|by cbn [runs]].
  specialize (H64 eq_refl).
  change E_TYPE_OFF with 16. change E_ENTRY_OFF with 24. change E_PHOFF_OFF with 32. change E_PHENTSIZE_OFF with 54.
  change E_PHNUM_OFF with 56. rewrite !rd16_eq, !rd64_eq by lia. mred.
  pose proof (le_range data Hbytes 8 32) as H32. pose proof (le_range data Hbytes 2 54) as H54. pose proof (le_range data Hbytes 2 56) as H56.
  destruct (Z.ltb_spec (le 2 data 54) PHDR_MIN_SIZE) as [|Hpe]; cbn [orb]; [by cbn [runs]|]. change PHDR_MIN_SIZE with 56 in Hpe.
  case_match; [by cbn [runs]|]. unfold checked_mul, checked_add.
  destruct (Z.leb_spec (le 2 data 56 * le 2 data 54) usize_max); cbn [mbind option_bind]; [|by cbn [runs]].
  destruct (Z.leb_spec (le 8 data 32 + le 2 data 56 * le 2 data 54) usize_max); [|by cbn [runs]].
  case_match; [by cbn [runs]|]. match goal with H : (len data <? _) = false |- _ => apply Z.ltb_ge in H as Hoff end.
  rstep. eapply runs_mono; [apply (min_va_runs data Hlen _ _ (le 2 data 56)); lia|]. intros lo Hlo.
  case_match; [by cbn [runs]|]. change ET_DYN with 3.
  set (bias := if le 2 data 16 =? 3 then usub vm_user_base lo else 0).
  assert (0 <= bias < 2 ^ 64) by (unfold bias; case_match; [by apply wrap_range | lia]).
  rstep. eapply runs_mono; [apply (find_phdr_runs data Hlen _ _ (le 2 data 56)); [lia..|apply Forall_seqZ; lia]|]. intros phdr _.
  rstep. eapply runs_mono;
    [apply (load_segments_runs s root roots Hroot data Hlen Hbytes _ _ (le 2 data 56) bias) with (l := []);
      [lia..| apply Forall_seqZ; lia | by apply loaded_nil]|].
  intros [[m|] s'] [Hk Hm]; cbn [runs]; [|by split]. split; [done|]. split; [done|]. split; [done|].
  exists lo, bias. destruct (Hm m eq_refl) as [Hl ->]. done.
Qed.

(** C5: For every file, well formed or not, and every address space the kernel made:
    [load] does not panic and reads no byte outside the file; it leaves the
    translations of all other spaces and all memory in use, user page tables of
    this space apart, as they were; and when it succeeds the space shows exactly
    the image: the page of a user address is the last page a PT_LOAD segment puts
    there, with its rights, the file's bytes and zeros around them, in a page of
    memory nothing else used, and other addresses are translated as before.
    The lowest segment of a position-independent file lands on the user base, and
    the entry point and the start of the heap are where the file says. *)
Theorem elf_load_exact (data : bytes) (root : Z) (roots : list Z) (s : vm A) :
  Forall byte_ok data -> len data < 2 ^ 63 -> spaces s roots -> root ∈ roots -> 0 <= vm_user_base < 2 ^ 64 ->
  exists r s', load data root s = Done (r, s') /\ spaces s' roots /\
    (forall root2 va, root2 ∈ roots -> root2 <> root -> vl_user va = true -> translate s' root2 va = translate s root2 va) /\
    (forall x, pa_owned (vm_pages s) x -> ~ user_slot vl_depth vl_lo s root x -> vm_mem s' x = vm_mem s x) /\
    match r with
    | None => True
    | Some (entry, heap_start, _, phnum, phentsize) =>
        phnum = le 2 data 56 /\ phentsize = le 2 data 54 /\
        exists lowest_va bias,
          let segments := load_headers data (le 8 data 32) phentsize (seqZ 0 phnum) in
          lowest segments lowest_va /\ bias = (if le 2 data 16 =? 3 then usub vm_user_base lowest_va else 0) /\
          entry = uadd (le 8 data 24) bias /\ heap_start = image_end 0 bias segments /\
          forall va, vl_user va = true ->
            match page_for (elf_pages data bias segments) (vl_idxs va) with
            | None => translate s' root va = translate s root va
            | Some p => exists pa, translate s' root va = Some (pred vl_depth, vl_leaf pa (ep_prot p)) /\
                (forall x, pa <= x < pa + 4096 -> pa_owned (vm_pages s') x /\ ~ pa_owned (vm_pages s) x) /\
                forall o, 0 <= o < 4096 -> vm_mem s' (pa + o) = ep_byte p o
            end
    end.
Proof.
  intros Hbytes Hlen Hs Hroot Hbase.
  pose proof (load_runs data root roots s Hbytes Hlen Hs Hroot Hbase) as G.
  apply runs_Done in G as ([r s'] & E & Hk & Hr). exists r, s'. split; [done|]. split_and!.
  - apply Hk.
  - intros root2 va H2 Hne Hva. apply (kp_others _ _ _ _ Hk root2 H2 Hne); [by apply vl_path | apply vl_length].
  - intros x Hx Hns. by apply (kp_evolves _ _ _ _ Hk).
  - destruct r as [[[[[entry heap] phdr] phnum] phentsize]|]; [|done].
    destruct Hr as (-> & -> & lo & bias & Hlo & Hb & He & Hh & Hl). split; [done|]. split; [done|].
    exists lo, bias. do 4 (split; [done|]). intros va Hva. pose proof (ld_shows _ _ _ _ _ Hl va Hva) as Hp.
    destruct (page_for _ _) as [p|]; [|done]. destruct Hp as (pa & T & [Hok _ Hn Hb']). exists pa. split; [done|].
    split; [|done]. intros x Hx. split; [by apply Hok | by apply Hn]. 
Qed.
End theorem.

(** The [/bin/hello] of x86_64, loaded into a new space. *)
Lemma elf_load_exact_witness :
  exists s' pa, load (vops := x86_ops 0x100000) HELLO_ELF_X86 0x103000 demo_x86' =
      Done (Some (0x8000000000, 0x8000001000, 0x8000000040, 1, 56), s') /\
    x86_translate s' 0x103000 0x8000000000 = Some (3%nat, Z.lor (align_down pa) 5) /\
    (forall o, 0 <= o < 68 -> vm_mem s' (pa + o) = nth (Z.to_nat (120 + o)) HELLO_ELF_X86 0) /\
    x86_translate s' 0x104000 0x8000000000 = x86_translate demo_x86' 0x104000 0x8000000000.
Proof.
  destruct (elf_load_exact (vops := x86_ops 0x100000) (vlaws := x86_laws 0x100000) HELLO_ELF_X86 0x103000 [0x104000; 0x103000] demo_x86')
    as (r & s' & E & _ & Oth & _ & Hr).
  { repeat (constructor; [unfold byte_ok; lia|]). constructor. }
  { by vm_compute. }
  { exact demo_x86_spaces. }
  { by rewrite !elem_of_cons; auto. }
  { cbn. unfold X86.USER_BASE_VA. lia. }
  assert (match load (vops := x86_ops 0x100000) HELLO_ELF_X86 0x103000 demo_x86' with
    | Done (Some (a, b, c, d, e), _) => (a, b, c, d, e) | _ => (0, 0, 0, 0, 0) end =
    (0x8000000000, 0x8000001000, 0x8000000040, 1, 56)) as Hv by (vm_compute; reflexivity).
  rewrite E in Hv. destruct r as [[[[[a b] c] d] e]|]; [|done]. injection Hv as -> -> -> -> ->.
  destruct Hr as (_ & _ & lo & bias & (Hlo & _ & Hlo') & -> & _ & _ & Hview).
  assert (load_headers HELLO_ELF_X86 (le 8 HELLO_ELF_X86 32) 56 (seqZ 0 1) = [mk_segment 0 68 68 120 5]) as Eh by (vm_compute; reflexivity).
  rewrite Eh in Hlo, Hlo', Hview. assert (lo = 0) as ->.
  { assert (lo <= 0) as H0 by apply (Hlo' (mk_segment 0 68 68 120 5)), list_elem_of_singleton, eq_refl.
    apply elem_of_cons in Hlo as [->|Hlo]; [by exfalso; unfold usize_max in H0; lia|].
    apply list_elem_of_singleton in Hlo. exact Hlo. }
  specialize (Hview 0x8000000000 eq_refl).
  set (p := mk_page 0x8000000000 13 (file_byte HELLO_ELF_X86 (mk_segment 0 68 68 120 5) 0x8000000000 0x8000000000)).
  assert (elf_pages HELLO_ELF_X86 0x8000000000 [mk_segment 0 68 68 120 5] = [p]) as Ep by reflexivity.
  replace (if le 2 HELLO_ELF_X86 16 =? 3 then _ else _) with 0x8000000000 in Hview by (vm_compute; reflexivity).
  rewrite Ep in Hview. unfold page_for in Hview. cbn [foldl] in Hview. rewrite decide_True in Hview by done.
  destruct Hview as (pa & T & _ & B).
  exists s', pa. split; [exact E|]. split; [exact T|]. split.
  - intros o Ho. rewrite B by lia. unfold p, file_byte. cbn [ep_byte p_filesz p_offset].
    change (uadd 0x8000000000 68) with 0x8000000044.
    replace ((0x8000000000 <=? 0x8000000000 + o) && (0x8000000000 + o <? 0x8000000044)) with true by (symmetry; apply andb_true_intro; ztest; lia). do 2 f_equal. lia.
  - apply (Oth 0x104000 0x8000000000); [by apply elem_of_cons; left | done | reflexivity].
Defined.
