(* ===== verification/RamFs.v ===== *)
(** The RAM filesystem (src/kernel/src/vfs/ramfs.rs) behind the [FileSystem]
    trait of src/kernel/src/vfs/mod.rs.

    Paths and names are the bytes of Rust's [&str].  A table of 64 inodes, each
    with its name, its parent's index and 4096 bytes of data. *)
From Stdlib Require Import ZArith Lia.
From stdpp Require Import base option list numbers.
From S2P Require Import Prelude.
Local Open Scope Z_scope.

Definition MAX_INODES : nat := 64.
Definition MAX_NAME : nat := 64.
Definition MAX_DATA : nat := Z.to_nat 4096.

(** ** Strings, as the code uses them *)

Definition slash : Z := 47.
Definition dot : Z := 46.

Definition bytes_eqb (a b : bytes) : bool := bool_decide (a = b).
(** [s.trim_start_matches('/')], [s.trim_end_matches('/')]. *)
Fixpoint trim_start (l : bytes) : bytes :=
  match l with c :: l' => if c =? slash then trim_start l' else l | [] => [] end.
Definition trim_end (l : bytes) : bytes := reverse (trim_start (reverse l)).
(** [s.split(sep)]: always at least one part. *)
Fixpoint split_on (sep : Z) (l : bytes) : list bytes :=
  match l with
  | [] => [[]]
  | c :: l =>
      if c =? sep then [] :: split_on sep l
      else match split_on sep l with p :: ps => (c :: p) :: ps | [] => [[c]] end
  end.
(** [s.rfind(c)] *)
Definition rfind (c : Z) (l : bytes) : option nat :=
  match list_find (eq c) (reverse l) with
  | Some (i, _) => Some (length l - 1 - i)%nat
  | None => None
  end.
Definition starts_with (c : Z) (l : bytes) : bool :=
  match l with x :: _ => x =? c | [] => false end.

(** ** State *)

Inductive InodeKind := File | Dir.
#[export] Instance InodeKind_eq_dec : EqDecision InodeKind.
Proof. solve_decision. Defined.

Record Inode := mk_inode {
  used : bool;
  kind : InodeKind;
  name : bytes;        (* [u8; MAX_NAME] *)
  name_len : nat;
  parent : nat;
  uid : Z;
  gid : Z;
  mode : Z;
  data : bytes;        (* [u8; MAX_DATA] *)
  size : nat
}.

(** Modes are octal in the source: 420 is 0o644, 493 is 0o755, 511 is 0o777. *)
Definition Inode_empty : Inode :=
  mk_inode false File (replicate MAX_NAME 0) 0 0 0 0 420 (replicate MAX_DATA 0) 0.

Definition set_name (n : Inode) (s : bytes) : outcome Inode :=
  let k := Nat.min (length s) MAX_NAME in
  src ← slice s 0 k;
  nm ← blit (name n) 0 k src;
  Done (mk_inode (used n) (kind n) nm k (parent n) (uid n) (gid n) (mode n) (data n) (size n)).

Definition name_eq (n : Inode) (s : bytes) : outcome bool :=
  if (name_len n =? length s)%nat then
    nm ← slice (name n) 0 (name_len n);
    Done (bytes_eqb nm s)
  else Done false.

Abbreviation RamFs := (list Inode).
Definition ramfs_new : RamFs := replicate MAX_INODES Inode_empty.

Definition init_root (fs : RamFs) : outcome RamFs :=
  r ← get fs 0;
  nm ← set (name r) 0 slash;
  set fs 0 (mk_inode true Dir nm 1 0 0 0 493 (data r) (size r)).

(** The loop of [alloc] over [1..MAX_INODES]. *)
Fixpoint alloc_inode_loop (fs : RamFs) (l : list nat) : outcome (option nat * RamFs) :=
  match l with
  | [] => Done (None, fs)
  | i :: l =>
      n ← get fs i;
      if negb (used n) then
        fs ← set fs i Inode_empty;
        fs ← set fs i (mk_inode true File (name Inode_empty) 0 0 0 0 420 (data Inode_empty) 0);
        Done (Some i, fs)
      else alloc_inode_loop fs l
  end.
Definition alloc_inode (fs : RamFs) : outcome (option nat * RamFs) :=
  alloc_inode_loop fs (seq 1 (MAX_INODES - 1)).

(** ** Lookup *)

Fixpoint lookup_loop (fs : RamFs) (p : nat) (nm : bytes) (l : list nat) : outcome (option nat) :=
  match l with
  | [] => Done None
  | i :: l =>
      n ← get fs i;
      if used n && (parent n =? p)%nat && negb (i =? p)%nat then
        b ← name_eq n nm;
        if b : bool then Done (Some i) else lookup_loop fs p nm l
      else lookup_loop fs p nm l
  end.
Definition lookup_in (fs : RamFs) (p : nat) (nm : bytes) : outcome (option nat) :=
  if bytes_eqb nm [dot] then Done (Some p)
  else if bytes_eqb nm [dot; dot] then n ← get fs p; Done (Some (parent n))
  else lookup_loop fs p nm (seq 0 MAX_INODES).

Fixpoint walk (fs : RamFs) (cur : nat) (parts : list bytes) : outcome (option nat) :=
  match parts with
  | [] => Done (Some cur)
  | part :: parts =>
      if bytes_eqb part [] || bytes_eqb part [dot] then walk fs cur parts
      else
        r ← lookup_in fs cur part;
        match r with
        | None => Done None
        | Some cur => walk fs cur parts
        end
  end.
Definition resolve (fs : RamFs) (path : bytes) (cwd : nat) : outcome (option nat) :=
  let cur := if starts_with slash path then 0%nat else cwd in
  let stripped := trim_start path in
  if bytes_eqb stripped [] then Done (Some cur)
  else walk fs cur (split_on slash stripped).

Definition split_parent (path : bytes) : bytes * bytes :=
  let path := trim_end path in
  match rfind slash path with
  | Some sep =>
      let p := if (sep =? 0)%nat then [slash] else take sep path in
      (p, drop (sep + 1) path)
  | None => ([], path)
  end.

(** [self.resolve(if pp.is_empty() { "." } else { pp }, cwd)] *)
Definition resolve_parent (fs : RamFs) (pp : bytes) (cwd : nat) : outcome (option nat) :=
  resolve fs (if bytes_eqb pp [] then [dot] else pp) cwd.

Definition perm (fs : RamFs) (idx : nat) (u g op : Z) : outcome bool :=
  if u =? 0 then Done true
  else
    n ← get fs idx;
    let bits := if uid n =? u then Z.shiftr (mode n) 6
                else if gid n =? g then Z.shiftr (mode n) 3
                else mode n in
    Done (negb (Z.land bits op =? 0)).

(** Assignments to the fields of [self.inodes[i]]. *)
Definition modify (fs : RamFs) (i : nat) (f : Inode -> Inode) : outcome RamFs :=
  n ← get fs i; set fs i (f n).
Definition with_meta (k : InodeKind) (p : nat) (u g m : Z) (n : Inode) : Inode :=
  mk_inode (used n) k (name n) (name_len n) p u g m (data n) (size n).
Definition with_used (b : bool) (n : Inode) : Inode :=
  mk_inode b (kind n) (name n) (name_len n) (parent n) (uid n) (gid n) (mode n) (data n) (size n).
Definition with_mode (m : Z) (n : Inode) : Inode :=
  mk_inode (used n) (kind n) (name n) (name_len n) (parent n) (uid n) (gid n) m (data n) (size n).
Definition with_owner (u g : Z) (n : Inode) : Inode :=
  mk_inode (used n) (kind n) (name n) (name_len n) (parent n) u g (mode n) (data n) (size n).
Definition with_data (d : bytes) (s : nat) (n : Inode) : Inode :=
  mk_inode (used n) (kind n) (name n) (name_len n) (parent n) (uid n) (gid n) (mode n) d s.
Definition with_parent (p : nat) (n : Inode) : Inode :=
  mk_inode (used n) (kind n) (name n) (name_len n) p (uid n) (gid n) (mode n) (data n) (size n).

(** The part [write], [mkdir] and [touch] share: a new inode with its fields set
    (the calls to [alloc] and [set_name] included). *)
Definition create_in (fs : RamFs) (k : InodeKind) (p : nat) (u g m : Z) (nm : bytes) : outcome (option nat * RamFs) :=
  '(r, fs) ← alloc_inode fs;
  match r with
  | None => Done (None, fs)
  | Some i =>
      fs ← modify fs i (with_meta k p u g m);
      n ← get fs i;
      n ← set_name n nm;
      fs ← set fs i n;
      Done (Some i, fs)
  end.

(** ** Files *)

Definition ramfs_write (fs : RamFs) (path : bytes) (cwd : nat) (dat : bytes) (u g : Z) : outcome (bool * RamFs) :=
  existing ← resolve fs path cwd;
  '(target, fs) ← match existing with
    | Some i =>
        n ← get fs i;
        if decide (kind n = Dir) then Done (None, fs)
        else
          ok ← perm fs i u g 2;
          Done (if ok : bool then Some i else None, fs)
    | None =>
        let '(pp, nm) := split_parent path in
        r ← resolve_parent fs pp cwd;
        match r with
        | None => Done (None, fs)
        | Some p =>
            ok ← perm fs p u g 2;
            if ok : bool then create_in fs File p u g 420 nm else Done (None, fs)
        end
    end;
  match target with
  | None => Done (false, fs)
  | Some idx =>
      let len := Nat.min (length dat) MAX_DATA in
      n ← get fs idx;
      src ← slice dat 0 len;
      d ← blit (data n) 0 len src;
      fs ← set fs idx (with_data d len n);
      Done (true, fs)
  end.

Definition ramfs_read_at (fs : RamFs) (path : bytes) (cwd : nat) (u g : Z) : outcome (option bytes) :=
  r ← resolve fs path cwd;
  match r with
  | None => Done None
  | Some idx =>
      n ← get fs idx;
      if decide (kind n = Dir) then Done None
      else
        ok ← perm fs idx u g 4;
        if ok : bool then d ← slice (data n) 0 (size n); Done (Some d) else Done None
  end.

Definition read_bytes (fs : RamFs) (inode : nat) : outcome bytes :=
  n ← get fs inode; slice (data n) 0 (size n).

(** ** Directories *)

Definition ramfs_mkdir (fs : RamFs) (path : bytes) (cwd : nat) (u g m : Z) : outcome (bool * RamFs) :=
  let '(pp, nm) := split_parent path in
  r ← resolve_parent fs pp cwd;
  match r with
  | None => Done (false, fs)
  | Some p =>
      n ← get fs p;
      if negb (bool_decide (kind n = Dir)) then Done (false, fs)
      else
        ok ← perm fs p u g 2;
        if negb ok then Done (false, fs)
        else
          ex ← lookup_in fs p nm;
          match ex with
          | Some _ => Done (false, fs)
          | None =>
              '(i, fs) ← create_in fs Dir p u g (Z.land m 511) nm;
              Done (match i with Some _ => true | None => false end, fs)
          end
  end.

(** The emptiness loop of [rmdir]. *)
Fixpoint has_child (fs : RamFs) (idx : nat) (l : list nat) : outcome bool :=
  match l with
  | [] => Done false
  | i :: l =>
      if negb (i =? idx)%nat then
        n ← get fs i;
        if used n && (parent n =? idx)%nat then Done true else has_child fs idx l
      else has_child fs idx l
  end.

Definition ramfs_rmdir (fs : RamFs) (path : bytes) (cwd : nat) (u g : Z) : outcome (bool * RamFs) :=
  r ← resolve fs path cwd;
  match r with
  | None => Done (false, fs)
  | Some idx =>
      if (idx =? 0)%nat then Done (false, fs)
      else
        n ← get fs idx;
        if negb (bool_decide (kind n = Dir)) then Done (false, fs)
        else
          child ← has_child fs idx (seq 0 MAX_INODES);
          if child : bool then Done (false, fs)
          else
            ok ← perm fs (parent n) u g 2;
            if negb ok then Done (false, fs)
            else fs ← modify fs idx (with_used false); Done (true, fs)
  end.

Definition ramfs_touch (fs : RamFs) (path : bytes) (cwd : nat) (u g : Z) : outcome (bool * RamFs) :=
  existing ← resolve fs path cwd;
  match existing with
  | Some _ => Done (true, fs)
  | None =>
      let '(pp, nm) := split_parent path in
      r ← resolve_parent fs pp cwd;
      match r with
      | None => Done (false, fs)
      | Some p =>
          ok ← perm fs p u g 2;
          if negb ok then Done (false, fs)
          else
            '(i, fs) ← create_in fs File p u g 420 nm;
            Done (match i with Some _ => true | None => false end, fs)
      end
  end.

Definition ramfs_unlink (fs : RamFs) (path : bytes) (cwd : nat) (u g : Z) : outcome (bool * RamFs) :=
  r ← resolve fs path cwd;
  match r with
  | None => Done (false, fs)
  | Some idx =>
      if (idx =? 0)%nat then Done (false, fs)
      else
        n ← get fs idx;
        if decide (kind n = Dir) then Done (false, fs)
        else
          deny ← (if negb (u =? 0) && negb (uid n =? u)
                  then ok ← perm fs (parent n) u g 2; Done (negb ok) else Done false);
          if deny : bool then Done (false, fs)
          else fs ← modify fs idx (with_used false); Done (true, fs)
  end.

(** ** Permissions *)

Definition ramfs_chmod (fs : RamFs) (path : bytes) (cwd : nat) (m caller_uid : Z) : outcome (bool * RamFs) :=
  r ← resolve fs path cwd;
  match r with
  | None => Done (false, fs)
  | Some idx =>
      n ← get fs idx;
      if negb (caller_uid =? 0) && negb (uid n =? caller_uid) then Done (false, fs)
      else fs ← modify fs idx (with_mode (Z.land m 511)); Done (true, fs)
  end.

Definition ramfs_chown (fs : RamFs) (path : bytes) (cwd : nat) (new_uid new_gid caller_uid : Z) : outcome (bool * RamFs) :=
  if negb (caller_uid =? 0) then Done (false, fs)
  else
    r ← resolve fs path cwd;
    match r with
    | None => Done (false, fs)
    | Some idx => fs ← modify fs idx (with_owner new_uid new_gid); Done (true, fs)
    end.

(** ** Listing; the callback's calls, in order *)

Fixpoint children_loop (fs : RamFs) (dir_idx : nat) (l : list nat) : outcome (list (nat * Inode)) :=
  match l with
  | [] => Done []
  | i :: l =>
      n ← get fs i;
      rest ← children_loop fs dir_idx l;
      Done (if used n && (parent n =? dir_idx)%nat && negb (i =? dir_idx)%nat then (i, n) :: rest else rest)
  end.
Definition ramfs_list_dir_indexed (fs : RamFs) (dir_idx : nat) : outcome (list (nat * Inode)) :=
  if (MAX_INODES <=? dir_idx)%nat then Done []
  else
    n ← get fs dir_idx;
    if negb (used n) || negb (bool_decide (kind n = Dir)) then Done []
    else children_loop fs dir_idx (seq 0 MAX_INODES).
Definition ramfs_list_dir (fs : RamFs) (path : bytes) (cwd : nat) : outcome (list Inode) :=
  r ← resolve fs path cwd;
  match r with
  | None => Done []
  | Some dir_idx =>
      n ← get fs dir_idx;
      if negb (bool_decide (kind n = Dir)) then Done []
      else l ← children_loop fs dir_idx (seq 0 MAX_INODES); Done (map snd l)
  end.

(** ** Path reconstruction *)

(** The walk up; [stack] lists [stack[0..depth]]. *)
Fixpoint path_stack (fuel : nat) (fs : RamFs) (idx : nat) (stack : list nat) : outcome (list nat) :=
  match fuel with
  | O => Done stack
  | S fuel =>
      if (idx =? 0)%nat then Done stack
      else
        n ← get fs idx;
        if negb (used n) then Done stack
        else
          let stack := stack ++ [idx] in
          if (parent n =? idx)%nat then Done stack else path_stack fuel fs (parent n) stack
  end.
(** One round of the loop that emits a component; the state is the buffer and [pos]. *)
Definition path_step (fs : RamFs) (s : bytes * nat) (i : nat) : outcome (bytes * nat) :=
  let '(buf, pos) := s in
  n ← get fs i;
  '(buf, pos) ← (if (pos <? length buf)%nat then buf ← set buf pos slash; Done (buf, (pos + 1)%nat) else Done (buf, pos));
  let clen := Nat.min (name_len n) (length buf - pos) in
  src ← slice (name n) 0 clen;
  buf ← blit buf pos (pos + clen) src;
  Done (buf, (pos + clen)%nat).
Definition ramfs_inode_path (fs : RamFs) (idx : nat) (buf : bytes) : outcome (nat * bytes) :=
  if (idx =? 0)%nat then
    buf ← (match buf with [] => Done buf | _ => set buf 0 slash end);
    Done (1%nat, buf)
  else
    stack ← path_stack 16 fs idx [];
    '(buf, pos) ← foldM (path_step fs) (buf, 0%nat) (reverse stack);
    Done (pos, buf).

Definition ramfs_is_dir (fs : RamFs) (path : bytes) (cwd : nat) : outcome (option bool) :=
  r ← resolve fs path cwd;
  match r with
  | None => Done None
  | Some idx => n ← get fs idx; Done (Some (bool_decide (kind n = Dir)))
  end.

Definition ramfs_get_inode (fs : RamFs) (idx : nat) : outcome (option Inode) :=
  if (idx <? MAX_INODES)%nat then n ← get fs idx; Done (if used n then Some n else None) else Done None.

Definition open_check (fs : RamFs) (path : bytes) (cwd : nat) (u g : Z) (write : bool) : outcome (option nat) :=
  r ← resolve fs path cwd;
  match r with
  | None => Done None
  | Some idx =>
      n ← get fs idx;
      if decide (kind n = Dir) then Done None
      else
        let op := if write then 2 else 4 in
        ok ← perm fs idx u g op;
        Done (if ok : bool then Some idx else None)
  end.

(** ** Access by inode, for file descriptors *)

Definition inode_read (fs : RamFs) (idx : nat) (offset : Z) (buf : bytes) : outcome (nat * bytes) :=
  if (MAX_INODES <=? idx)%nat then Done (0%nat, buf)
  else
    nd ← get fs idx;
    if negb (used nd) || bool_decide (kind nd = Dir) then Done (0%nat, buf)
    else
      let start := Z.to_nat (Z.min offset (Z.of_nat (size nd))) in
      let avail := (size nd - start)%nat in
      let n := Nat.min (length buf) avail in
      src ← slice (data nd) start (start + n);
      buf ← blit buf 0 n src;
      Done (n, buf).

Definition inode_write (fs : RamFs) (idx : nat) (offset : Z) (dat : bytes) : outcome (nat * RamFs) :=
  if (MAX_INODES <=? idx)%nat then Done (0%nat, fs)
  else
    nd ← get fs idx;
    if negb (used nd) || bool_decide (kind nd = Dir) then Done (0%nat, fs)
    else
      let e := Z.min (uadd offset (Z.of_nat (length dat))) (Z.of_nat MAX_DATA) in
      let n := Z.to_nat (saturating_sub e offset) in
      if (n =? 0)%nat then Done (0%nat, fs)
      else
        let off := Z.to_nat offset in
        src ← slice dat 0 n;
        d ← blit (data nd) off (off + n) src;
        let sz := if Z.of_nat (size nd) <? e then Z.to_nat e else size nd in
        fs ← set fs idx (with_data d sz nd);
        Done (n, fs).

Definition ramfs_rename (fs : RamFs) (src dst : bytes) (cwd : nat) (u g : Z) : outcome (bool * RamFs) :=
  r ← resolve fs src cwd;
  match r with
  | None => Done (false, fs)
  | Some src_idx =>
      if (src_idx =? 0)%nat then Done (false, fs)
      else
        sn ← get fs src_idx;
        ok ← perm fs (parent sn) u g 2;
        if negb ok then Done (false, fs)
        else
          let '(dst_pp, dst_name) := split_parent dst in
          r ← resolve_parent fs dst_pp cwd;
          match r with
          | None => Done (false, fs)
          | Some dst_parent =>
              ok ← perm fs dst_parent u g 2;
              if negb ok then Done (false, fs)
              else
                ex ← lookup_in fs dst_parent dst_name;
                (* [None]: go on; [Some b]: return b *)
                '(ret, fs) ← match ex with
                  | Some dst_idx =>
                      if (dst_idx =? src_idx)%nat then Done (Some true, fs)
                      else
                        dn ← get fs dst_idx;
                        if decide (kind dn = Dir) then Done (Some false, fs)
                        else fs ← modify fs dst_idx (with_used false); Done (None, fs)
                  | None => Done (None, fs)
                  end;
                match ret with
                | Some b => Done (b, fs)
                | None =>
                    fs ← modify fs src_idx (with_parent dst_parent);
                    n ← get fs src_idx;
                    n ← set_name n dst_name;
                    fs ← set fs src_idx n;
                    Done (true, fs)
                end
          end
  end.

(** ** The trait (vfs/mod.rs) *)

Inductive SeekFrom := SeekStart (n : Z) | SeekCurrent (n : Z) | SeekEnd (n : Z).

Record FileHandle := mk_handle { fh_inode : nat; fh_offset : Z; fh_size : Z }.
Definition FileHandle_new (inode : nat) (sz : Z) : FileHandle := mk_handle inode 0 sz.

(** A method on [&mut self] returns the new filesystem; [list_dir] returns the
    inodes the callback is given. *)
Class FileSystem (F : Type) := {
  fs_name : bytes;
  fs_open : F -> bytes -> outcome (option FileHandle);
  fs_create : F -> bytes -> option FileHandle;
  fs_remove : F -> bytes -> bool;
  fs_list_names : F -> bytes -> list bytes;
  fs_init_root : F -> outcome F;
  fs_resolve : F -> bytes -> nat -> outcome (option nat);
  fs_is_dir : F -> bytes -> nat -> outcome (option bool);
  fs_inode_path : F -> nat -> bytes -> outcome (nat * bytes);
  fs_get_inode : F -> nat -> outcome (option Inode);
  fs_write_file : F -> bytes -> nat -> bytes -> Z -> Z -> outcome (bool * F);
  fs_read_file : F -> bytes -> nat -> Z -> Z -> outcome (option bytes);
  fs_mkdir : F -> bytes -> nat -> Z -> Z -> Z -> outcome (bool * F);
  fs_rmdir : F -> bytes -> nat -> Z -> Z -> outcome (bool * F);
  fs_list_dir : F -> bytes -> nat -> outcome (list Inode);
  fs_touch : F -> bytes -> nat -> Z -> Z -> outcome (bool * F);
  fs_unlink : F -> bytes -> nat -> Z -> Z -> outcome (bool * F);
  fs_rename : F -> bytes -> bytes -> nat -> Z -> Z -> outcome (bool * F);
  fs_chmod : F -> bytes -> nat -> Z -> Z -> outcome (bool * F);
  fs_chown : F -> bytes -> nat -> Z -> Z -> Z -> outcome (bool * F)
}.

(** [RamFs::open] of the trait. *)
Definition ramfs_open (fs : RamFs) (path : bytes) : outcome (option FileHandle) :=
  r ← resolve fs path 0;
  match r with
  | None => Done None
  | Some idx => n ← get fs idx; Done (Some (FileHandle_new idx (Z.of_nat (size n))))
  end.

(** [impl FileSystem for RamFs]; the methods it does not define are the trait's
    defaults. *)
#[export] Instance ramfs_filesystem : FileSystem RamFs := {
  fs_name := str "ramfs";
  fs_open := ramfs_open;
  fs_create _ _ := None;
  fs_remove _ _ := false;
  fs_list_names _ _ := [];
  fs_init_root := init_root;
  fs_resolve := resolve;
  fs_is_dir := ramfs_is_dir;
  fs_inode_path := ramfs_inode_path;
  fs_get_inode := ramfs_get_inode;
  fs_write_file := ramfs_write;
  fs_read_file := ramfs_read_at;
  fs_mkdir := ramfs_mkdir;
  fs_rmdir := ramfs_rmdir;
  fs_list_dir := ramfs_list_dir;
  fs_touch := ramfs_touch;
  fs_unlink := ramfs_unlink;
  fs_rename := ramfs_rename;
  fs_chmod := ramfs_chmod;
  fs_chown := ramfs_chown
}.
