(* ===== verification/RamFsPaths.v ===== *)
(** Paths of the RAM filesystem: how [split], [trim] and [rfind] relate, and the
    lookup of names.  The file supports RamFsSpec. *)
From Stdlib Require Import ZArith Lia.
From stdpp Require Import base option list numbers.
From S2P Require Import Prelude RamFs.
Local Open Scope Z_scope.

(** ** Components of a path *)

Definition component (p : bytes) : Prop := p <> [] /\ p <> [dot].
#[export] Instance component_dec p : Decision (component p).
Proof. unfold component. solve_decision. Defined.

(** The components the walk looks up. *)
Definition parts (path : bytes) : list bytes := filter component (split_on slash path).

Lemma split_on_nonempty sep l : split_on sep l <> [].
Proof. destruct l as [|c l]; cbn; [done|]. destruct (c =? sep); [done|]. by destruct (split_on sep l). Qed.

Lemma split_on_app sep a b : split_on sep (a ++ sep :: b) = split_on sep a ++ split_on sep b.
Proof.
  induction a as [|c a IH]; cbn [app split_on].
  - by rewrite Z.eqb_refl.
  - rewrite IH. destruct (c =? sep); [done|].
    pose proof (split_on_nonempty sep a). by destruct (split_on sep a).
Qed.

Lemma split_on_none sep a : sep ∉ a -> split_on sep a = [a].
Proof.
  induction a as [|c a IH]; intros H; cbn [split_on]; [done|].
  apply not_elem_of_cons in H as [Hc Ha]. rewrite IH by done.
  by rewrite (proj2 (Z.eqb_neq c sep)) by done.
Qed.

Lemma parts_app a b : parts (a ++ slash :: b) = parts a ++ parts b.
Proof. unfold parts. by rewrite split_on_app, list.filter_app. Qed.

Lemma parts_nil : parts [] = [].
Proof. reflexivity. Qed.

Lemma parts_dot : parts [dot] = [].
Proof. reflexivity. Qed.

Lemma parts_slash l : parts (slash :: l) = parts l.
Proof. exact (parts_app [] l). Qed.

Lemma parts_component nm : slash ∉ nm -> component nm -> parts nm = [nm].
Proof. intros Hs Hc. unfold parts. rewrite split_on_none by done. by rewrite filter_cons_True. Qed.

(** ** Trimming *)

Lemma trim_start_spec l : exists k, l = replicate k slash ++ trim_start l /\
  starts_with slash (trim_start l) = false.
Proof.
  induction l as [|c l IH]; [by exists O|]. cbn [trim_start]. destruct (Z.eqb_spec c slash) as [->|Hc].
  - destruct IH as (k & Hk & Hs). exists (S k). cbn. by rewrite <- Hk.
  - exists O. split; [done|]. cbn. by apply Z.eqb_neq.
Qed.

Lemma trim_start_noop l : starts_with slash l = false -> trim_start l = l.
Proof. destruct l as [|c l]; [done|]. cbn. by intros ->. Qed.

Lemma parts_trim_start l : parts (trim_start l) = parts l.
Proof.
  destruct (trim_start_spec l) as (k & Hk & _). rewrite Hk at 2. clear.
  induction k as [|k IH]; [done|]. cbn [replicate app]. by rewrite parts_slash.
Qed.

Lemma trim_end_spec l : exists k, l = trim_end l ++ replicate k slash /\
  (trim_end l = [] \/ exists l' c, trim_end l = l' ++ [c] /\ c <> slash).
Proof.
  unfold trim_end. destruct (trim_start_spec (reverse l)) as (k & Hk & Hs). exists k. split.
  - rewrite <- (reverse_involutive l) at 1. rewrite Hk at 1. by rewrite reverse_app, reverse_replicate.
  - destruct (trim_start (reverse l)) as [|c r]; [by left|]. right. exists (reverse r), c.
    rewrite reverse_cons. split; [done|]. cbn in Hs. by apply Z.eqb_neq.
Qed.

Lemma parts_slashes_end l k : parts (l ++ replicate k slash) = parts l.
Proof.
  revert l. induction k as [|k IH]; intros l; [by rewrite app_nil_r|].
  cbn [replicate]. replace (l ++ slash :: replicate k slash) with ((l ++ [slash]) ++ replicate k slash) by by rewrite <- app_assoc.
  rewrite IH, parts_app, parts_nil. by rewrite app_nil_r.
Qed.

Lemma parts_trim_end l : parts (trim_end l) = parts l.
Proof. destruct (trim_end_spec l) as (k & Hk & _). rewrite Hk at 2. by rewrite parts_slashes_end. Qed.

(** ** The last separator *)

Lemma rfind_spec c l :
  match rfind c l with
  | Some i => (i < length l)%nat /\ l = take i l ++ c :: drop (i + 1) l /\ c ∉ drop (i + 1) l
  | None => c ∉ l
  end.
Proof.
  unfold rfind. destruct (list_find (eq c) (reverse l)) as [[j x]|] eqn:E.
  - apply list_find_Some in E as (Hj & <- & Hmin). apply reverse_lookup_Some in Hj as [Hj Hlt].
    set (i := (length l - 1 - j)%nat). replace (length l - S j)%nat with i in Hj by (unfold i; lia).
    assert (i < length l)%nat as Hi by (unfold i; lia). split; [done|]. split.
    + rewrite <- (take_drop i l) at 1. f_equal. rewrite (drop_S l c i) by done. by rewrite Nat.add_1_r.
    + intros Hin. apply list_elem_of_lookup in Hin as [k Hk]. rewrite lookup_drop in Hk.
      pose proof (lookup_lt_Some _ _ _ Hk) as Hk'.
      apply (Hmin (length l - S (i + 1 + k))%nat c); [|unfold i in *; lia | done].
      apply reverse_lookup_Some. split; [|lia]. rewrite <- Hk. f_equal. lia.
  - apply list_find_None in E. intros Hin. rewrite Forall_reverse in E.
    apply list_elem_of_In in Hin. by apply (proj1 (List.Forall_forall _ _) E c Hin).
Qed.

(** Where a walk starts. *)
Definition start (path : bytes) (cwd : nat) : nat := if starts_with slash path then 0%nat else cwd.
(** What the callers of [split_parent] resolve for the parent. *)
Definition parent_path (pp : bytes) : bytes := if bytes_eqb pp [] then [dot] else pp.

Lemma starts_with_app c a b : a <> [] -> starts_with c (a ++ b) = starts_with c a.
Proof. by destruct a. Qed.

Lemma last_slash_free (nm : bytes) l c : l ++ [c] = nm -> slash ∉ nm -> c <> slash.
Proof. intros <- H. intros ->. apply H. apply elem_of_app. right. by left. Qed.

(** [split_parent] cuts off the last component: walking to the parent and then
    looking up the name is walking the path. *)
Lemma split_parent_spec path pp nm cwd : split_parent path = (pp, nm) ->
  (slash ∉ nm) /\ parts path = parts (parent_path pp) ++ parts nm /\
  (nm <> [] -> start path cwd = start (parent_path pp) cwd).
Proof.
  unfold split_parent. destruct (trim_end_spec path) as (k & Hk & Hlast).
  rewrite <- (parts_trim_end path). set (t := trim_end path) in *.
  pose proof (rfind_spec slash t) as Hr. destruct (rfind slash t) as [sep|]; intros E.
  - destruct Hr as (Hlt & Hsplit & Hfree). injection E as Epp Enm. rewrite Enm in Hsplit, Hfree. split; [done|].
    assert (t <> []) as Ht by (intros H0; rewrite H0 in Hlt; cbn in Hlt; lia).
    assert (start path cwd = start t cwd) as Hst.
    { unfold start. rewrite Hk. by rewrite starts_with_app. }
    destruct (Nat.eqb_spec sep 0) as [->|Hs0]; subst pp.
    + change (t = slash :: nm) in Hsplit. split; [rewrite Hsplit, parts_slash; done|]. intros _. rewrite Hst, Hsplit. done.
    + assert (take sep t <> []) as Htake by (intros H0; apply (f_equal length) in H0; rewrite length_take in H0; cbn in H0; lia).
      assert (parent_path (take sep t) = take sep t) as Hpp.
      { unfold parent_path, bytes_eqb. by rewrite bool_decide_false. }
      rewrite Hpp. split; [rewrite Hsplit at 1; by rewrite parts_app|]. intros _.
      rewrite Hst. unfold start. rewrite Hsplit at 1. by rewrite starts_with_app.
  - injection E as <- <-. split; [done|]. split; [done|]. intros Hne.
    unfold start. rewrite Hk, starts_with_app by done. cbn.
    assert (starts_with slash t = false) as ->; [|done]. destruct t as [|c t']; [done|]. cbn.
    apply Z.eqb_neq. intros ->. apply Hr. by left.
Qed.
