(* ===== verification/RamFsSpec.v ===== *)
(** The theorems on the RAM filesystem: the invariant every operation keeps,
    what lookups find, that what is written is what is read back, and that
    permissions are enforced. *)
From Stdlib Require Import ZArith Lia.
From stdpp Require Import base option list numbers.
From S2P Require Import Prelude RamFs RamFsPaths.
Local Open Scope Z_scope.

(** ** The invariant *)

Definition inode_wf (n : Inode) : Prop :=
  length (name n) = MAX_NAME /\ (name_len n <= MAX_NAME)%nat /\
  length (data n) = MAX_DATA /\ (size n <= MAX_DATA)%nat /\ (parent n < MAX_INODES)%nat.

Record fs_wf (fs : RamFs) : Prop := {
  wf_length : length fs = MAX_INODES;
  wf_inodes : Forall inode_wf fs;
  wf_root : exists r, fs !! 0%nat = Some r /\ used r = true /\ kind r = Dir /\ parent r = 0%nat
}.

(** The name an inode goes by. *)
Definition iname (n : Inode) : bytes := take (name_len n) (name n).

(** Inode [i] is the entry [nm] of directory [p]. *)
Definition entry (fs : RamFs) (p : nat) (nm : bytes) (i : nat) : Prop :=
  exists n, fs !! i = Some n /\ used n = true /\ parent n = p /\ i <> p /\ iname n = nm.

Lemma wf_get fs i : fs_wf fs -> (i < MAX_INODES)%nat -> exists n, fs !! i = Some n /\ get fs i = Done n /\ inode_wf n.
Proof.
  intros Hwf Hi. destruct (get_lt fs i) as (n & Hg & Hl); [by rewrite (wf_length fs Hwf)|].
  exists n. split; [done|]. split; [done|]. eapply Forall_lookup_1; [by apply wf_inodes | done].
Qed.

Lemma wf_lookup fs i n : fs_wf fs -> fs !! i = Some n -> inode_wf n /\ (i < MAX_INODES)%nat.
Proof.
  intros Hwf Hn. split; [eapply Forall_lookup_1; [by apply wf_inodes | done]|].
  rewrite <- (wf_length fs Hwf). by apply lookup_lt_Some in Hn.
Qed.

(** Any inode but the root may be replaced by a well-formed one. *)
Lemma wf_insert fs i n : fs_wf fs -> i <> 0%nat -> inode_wf n -> fs_wf (<[i := n]> fs).
Proof.
  intros [Hl Hf (r & Hr & ?)] Hi Hn. split.
  - by rewrite length_insert.
  - by apply Forall_insert.
  - exists r. by rewrite list_lookup_insert_ne.
Qed.

(** The root too, when it stays a directory at its place. *)
Lemma wf_modify fs i n f : fs_wf fs -> fs !! i = Some n -> inode_wf (f n) ->
  (i = 0%nat -> used (f n) = used n /\ kind (f n) = kind n /\ parent (f n) = parent n) -> fs_wf (<[i := f n]> fs).
Proof.
  intros Hwf Hn Hf H0. destruct (decide (i = 0%nat)) as [->|Hi]; [|by apply wf_insert].
  destruct Hwf as [Hl HF (r & Hr & Hu & Hk & Hp)]. simplify_eq. destruct (H0 eq_refl) as (E1 & E2 & E3).
  split; [by rewrite length_insert | by apply Forall_insert|].
  exists (f r). rewrite list_lookup_insert_eq by (rewrite Hl; unfold MAX_INODES; lia). by rewrite E1, E2, E3.
Qed.

(** ** Lookup *)

Lemma name_eq_spec n nm : inode_wf n -> name_eq n nm = Done (bool_decide (iname n = nm)).
Proof.
  intros (Hl & Hn & _). unfold name_eq, iname. destruct (Nat.eqb_spec (name_len n) (length nm)) as [E|E].
  - rewrite slice_0 by lia. mred. done.
  - f_equal. symmetry. apply bool_decide_false. intros <-. rewrite length_take in E. lia.
Qed.

Lemma lookup_loop_spec fs p nm (m : nat) : forall k, fs_wf fs -> (k + m = MAX_INODES)%nat ->
  runs (lookup_loop fs p nm (seq k m)) (fun r => match r with
    | Some i => (k <= i < MAX_INODES)%nat /\ entry fs p nm i /\ forall j, (k <= j < i)%nat -> ~ entry fs p nm j
    | None => forall j, (k <= j)%nat -> ~ entry fs p nm j
    end).
Proof.
  induction m as [|m IH]; intros k Hwf Hk; cbn [seq lookup_loop].
  - intros j Hj (n & Hn & _). apply wf_lookup in Hn as [_ ?]; [lia | done].
  - destruct (wf_get fs k Hwf ltac:(lia)) as (n & Hn & Hg & Hnwf). rewrite Hg; mred.
    assert (~ entry fs p nm k -> runs (lookup_loop fs p nm (seq (S k) m)) (fun r => match r with
      | Some i => (k <= i < MAX_INODES)%nat /\ entry fs p nm i /\ forall j, (k <= j < i)%nat -> ~ entry fs p nm j
      | None => forall j, (k <= j)%nat -> ~ entry fs p nm j
      end)) as Hnext.
    { intros Hno. eapply runs_mono; [apply (IH (S k)); [done | lia]|]. intros [i|].
      - intros (Hr & He & Hmin). split; [lia|]. split; [done|]. intros j Hj.
        destruct (decide (j = k)) as [->|]; [done | apply Hmin; lia].
      - intros Hmin j Hj. destruct (decide (j = k)) as [->|]; [done | apply Hmin; lia]. }
    destruct (used n) eqn:Hu; cbn [andb]; [|apply Hnext; intros (? & ? & ? & _); congruence].
    destruct (Nat.eqb_spec (parent n) p) as [Hp|Hp]; cbn [andb]; [|apply Hnext; intros (? & ? & _ & ? & _); congruence].
    destruct (Nat.eqb_spec k p) as [Hkp|Hkp]; cbn [negb]; [apply Hnext; intros (? & ? & _ & _ & ? & _); congruence|].
    rewrite name_eq_spec by done; mred. case_bool_decide as Hnm.
    + cbn. split; [lia|]. split; [by exists n | lia].
    + apply Hnext. intros (? & ? & _ & _ & _ & ?). congruence.
Qed.

Definition proper_name (nm : bytes) : Prop := nm <> [dot] /\ nm <> [dot; dot].

(** What [lookup_in] finds. *)
Definition lookup_result (fs : RamFs) (p : nat) (nm : bytes) (r : option nat) : Prop :=
  match r with
  | Some i => (nm = [dot] /\ i = p) \/
      (nm = [dot; dot] /\ exists n, fs !! p = Some n /\ i = parent n) \/
      (proper_name nm /\ (i < MAX_INODES)%nat /\ entry fs p nm i /\ forall j, (j < i)%nat -> ~ entry fs p nm j)
  | None => proper_name nm /\ forall j, ~ entry fs p nm j
  end.

Lemma lookup_in_spec fs p nm : fs_wf fs -> (p < MAX_INODES)%nat ->
  runs (lookup_in fs p nm) (lookup_result fs p nm).
Proof.
  intros Hwf Hp. unfold lookup_in, bytes_eqb. case_bool_decide as H1; [by left|].
  case_bool_decide as H2.
  - destruct (wf_get fs p Hwf Hp) as (n & Hn & -> & _). mred. right. left. by eauto.
  - eapply runs_mono; [by apply (lookup_loop_spec fs p nm MAX_INODES 0)|]. intros [i|].
    + intros (Hi & He & Hmin). right. right. split; [done|]. split; [lia|]. split; [done|]. intros j Hj. apply Hmin. lia.
    + intros Hmin. split; [done|]. intros j. apply Hmin. lia.
Qed.

Lemma lookup_result_bound fs p nm i : fs_wf fs -> (p < MAX_INODES)%nat -> lookup_result fs p nm (Some i) -> (i < MAX_INODES)%nat.
Proof.
  intros Hwf Hp [[_ ->]|[(_ & n & Hn & ->)|(_ & Hi & _)]]; [done| |done].
  apply wf_lookup in Hn as [(_ & _ & _ & _ & ?) _]; done.
Qed.

(** The result of a lookup is determined. *)
Lemma lookup_in_Done fs p nm r : fs_wf fs -> (p < MAX_INODES)%nat -> lookup_result fs p nm r -> lookup_in fs p nm = Done r.
Proof.
  intros Hwf Hp Hr. pose proof (lookup_in_spec fs p nm Hwf Hp) as Hs. apply runs_Done in Hs as (r' & -> & Hr'). f_equal.
  destruct r as [i|], r' as [j|]; cbn in *.
  - f_equal. unfold proper_name in *.
    destruct Hr as [[E1 ->]|[(E1 & n & Hn & ->)|(E1 & _ & He & Hmin)]], Hr' as [[E2 ->]|[(E2 & n' & Hn' & ->)|(E2 & _ & He' & Hmin')]];
      subst; try done; try (exfalso; naive_solver congruence).
    + congruence.
    + destruct (Nat.lt_total i j) as [H|[H|H]]; [by destruct (Hmin' i H) | done | by destruct (Hmin j H)].
  - exfalso. unfold proper_name in *. destruct Hr' as [Hp' Hno].
    destruct Hr as [[E1 ->]|[(E1 & n & Hn & ->)|(E1 & _ & He & Hmin)]]; naive_solver.
  - exfalso. unfold proper_name in *. destruct Hr as [Hp' Hno].
    destruct Hr' as [[E1 ->]|[(E1 & n & Hn & ->)|(E1 & _ & He & Hmin)]]; naive_solver.
  - done.
Qed.

(** ** The walk *)

(** Walking [ps] from [cur] leads to [r]. *)
Inductive walks (fs : RamFs) : nat -> list bytes -> option nat -> Prop :=
| walks_nil cur : walks fs cur [] (Some cur)
| walks_step cur p ps next r : lookup_result fs cur p (Some next) -> walks fs next ps r -> walks fs cur (p :: ps) r
| walks_fail cur p ps : lookup_result fs cur p None -> walks fs cur (p :: ps) None.

Lemma walk_spec fs ps : fs_wf fs -> forall cur, (cur < MAX_INODES)%nat ->
  runs (walk fs cur ps) (fun r => walks fs cur (filter component ps) r /\
    match r with Some i => (i < MAX_INODES)%nat | None => True end).
Proof.
  intros Hwf. induction ps as [|p ps IH]; intros cur Hcur; cbn [walk].
  - split; [constructor | done].
  - unfold bytes_eqb. case_bool_decide as H1; cbn [orb].
    { rewrite filter_cons_False by (intros [? _]; done). by apply IH. }
    case_bool_decide as H2.
    { rewrite filter_cons_False by (intros [_ ?]; done). by apply IH. }
    rewrite filter_cons_True by done. rstep. eapply runs_mono; [by apply lookup_in_spec|].
    intros [next|] Hr.
    + pose proof (lookup_result_bound _ _ _ _ Hwf Hcur Hr) as Hb.
      eapply runs_mono; [by apply IH|]. intros r [Hw ?]. split; [by econstructor | done].
    + cbn. split; [by constructor | done].
Qed.

Lemma start_bound cwd : (cwd < MAX_INODES)%nat -> forall path, (start path cwd < MAX_INODES)%nat.
Proof. intros Hc path. unfold start. destruct (starts_with slash path); [unfold MAX_INODES; lia | done]. Qed.

Lemma resolve_spec fs path cwd : fs_wf fs -> (cwd < MAX_INODES)%nat ->
  runs (resolve fs path cwd) (fun r => walks fs (start path cwd) (parts path) r /\
    match r with Some i => (i < MAX_INODES)%nat | None => True end).
Proof.
  intros Hwf Hcwd. unfold resolve. fold (start path cwd).
  pose proof (start_bound cwd Hcwd path) as Hs.
  rewrite <- (parts_trim_start path). unfold bytes_eqb. case_bool_decide as H.
  - rewrite H. split; [constructor | done].
  - by apply walk_spec.
Qed.

Lemma lookup_result_det fs p nm r r' : fs_wf fs -> (p < MAX_INODES)%nat ->
  lookup_result fs p nm r -> lookup_result fs p nm r' -> r = r'.
Proof.
  intros Hwf Hp H1 H2. apply lookup_in_Done in H1, H2; [|done..]. rewrite H1 in H2. by injection H2.
Qed.

Lemma walks_det fs ps : fs_wf fs -> forall cur r r', (cur < MAX_INODES)%nat -> walks fs cur ps r -> walks fs cur ps r' -> r = r'.
Proof.
  intros Hwf. induction ps as [|p ps IH]; intros cur r r' Hc H1 H2; inversion H1; subst; inversion H2; subst; try done.
  - match goal with A : lookup_result fs cur p (Some ?x), B : lookup_result fs cur p (Some ?y) |- _ =>
      pose proof (lookup_result_det _ _ _ _ _ Hwf Hc A B); pose proof (lookup_result_bound _ _ _ _ Hwf Hc A) end.
    simplify_eq. by eapply IH.
  - match goal with A : lookup_result fs cur p ?x, B : lookup_result fs cur p ?y |- _ =>
      by pose proof (lookup_result_det _ _ _ _ _ Hwf Hc A B) end.
  - match goal with A : lookup_result fs cur p ?x, B : lookup_result fs cur p ?y |- _ =>
      by pose proof (lookup_result_det _ _ _ _ _ Hwf Hc A B) end.
Qed.

Lemma resolve_Done fs path cwd r : fs_wf fs -> (cwd < MAX_INODES)%nat ->
  resolve fs path cwd = Done r <-> walks fs (start path cwd) (parts path) r.
Proof.
  intros Hwf Hcwd. pose proof (resolve_spec fs path cwd Hwf Hcwd) as Hs. apply runs_Done in Hs as (r' & Hr' & Hw & _).
  pose proof (start_bound cwd Hcwd path) as Hb.
  rewrite Hr'. split; [by intros [= <-]|]. intros H. f_equal. by eapply walks_det.
Qed.

Lemma walks_app fs cur ps qs mid r : walks fs cur ps (Some mid) -> walks fs mid qs r -> walks fs cur (ps ++ qs) r.
Proof.
  intros H. remember (Some mid) as o eqn:E. induction H; simplify_eq; cbn; [done|].
  intros. econstructor; eauto.
Qed.

(** ** New inodes *)

Definition is_used (fs : RamFs) (i : nat) : Prop := exists n, fs !! i = Some n /\ used n = true.
(** The parent of every inode in use is in use. *)
Definition tree_ok (fs : RamFs) : Prop := forall i n, fs !! i = Some n -> used n = true -> is_used fs (parent n).

(** What [create_in] leaves at a fresh index. *)
Definition created (k : InodeKind) (p : nat) (u g m : Z) (nm : bytes) (n : Inode) : Prop :=
  inode_wf n /\ used n = true /\ kind n = k /\ parent n = p /\ uid n = u /\ gid n = g /\ mode n = m /\
  iname n = take MAX_NAME nm /\ data n = replicate MAX_DATA 0 /\ size n = 0%nat.

Lemma set_name_spec n nm : inode_wf n -> runs (set_name n nm) (fun n' =>
  inode_wf n' /\ iname n' = take MAX_NAME nm /\ used n' = used n /\ kind n' = kind n /\ parent n' = parent n /\
  uid n' = uid n /\ gid n' = gid n /\ mode n' = mode n /\ data n' = data n /\ size n' = size n).
Proof.
  intros (Hl & Hn & Hrest). unfold set_name. set (k := Nat.min (length nm) MAX_NAME).
  assert (k <= length nm /\ k <= MAX_NAME /\ take k nm = take MAX_NAME nm)%nat as (Hk1 & Hk2 & Hk3).
  { split; [unfold k; lia|]. split; [unfold k; lia|]. unfold k. destruct (Nat.le_ge_cases (length nm) MAX_NAME).
    - rewrite !firstn_all2 by lia. done.
    - f_equal. lia. }
  clearbody k. rstep. rewrite slice_0 by lia. cbn [runs]. rstep. rstep; [lia | rewrite length_take; lia |].
  cbn [runs used kind parent uid gid mode data size]. unfold inode_wf, iname. cbn.
  rewrite !length_app, !length_take, length_drop.
  split; [split; [lia | split; [lia | done]]|]. split; [|done].
  change (take k (take k nm ++ drop k (name n)) = take MAX_NAME nm). rewrite take_app_length'; [done|].
  rewrite length_take. lia.
Qed.

Lemma alloc_inode_loop_spec fs (m : nat) : forall k, length fs = MAX_INODES -> (k + m = MAX_INODES)%nat -> (0 < k)%nat ->
  runs (alloc_inode_loop fs (seq k m)) (fun '(r, fs') => match r with
    | Some i => (k <= i < MAX_INODES)%nat /\ (exists n, fs !! i = Some n /\ used n = false) /\
        fs' = <[i := with_used true Inode_empty]> fs
    | None => fs' = fs /\ forall i n, (k <= i)%nat -> fs !! i = Some n -> used n = true
    end).
Proof.
  induction m as [|m IH]; intros k Hl Hk H0; cbn [seq alloc_inode_loop].
  - split; [done|]. intros i n Hi Hn. apply lookup_lt_Some in Hn. lia.
  - rstep. rstep; [lia|]. match goal with H : fs !! k = Some ?y |- _ => rename y into n; rename H into Hn end.
    destruct (used n) eqn:Hu; cbn [negb].
    + eapply runs_mono; [apply (IH (S k)); [done | lia | lia]|]. intros [[i|] fs'].
      * intros (? & ? & ?). split; [lia | done].
      * intros (? & Hall). split; [done|]. intros i n' Hi Hn'.
        destruct (decide (i = k)) as [->|]; [congruence | eapply Hall; [|done]; lia].
    + rstep. rstep; [lia|]. rstep. rstep; [by rewrite length_insert; lia|]. cbn [runs].
      split; [lia|]. split; [by exists n|]. by rewrite list_insert_insert_eq.
Qed.

Lemma create_in_spec fs k p u g m nm : fs_wf fs -> (p < MAX_INODES)%nat ->
  runs (create_in fs k p u g m nm) (fun '(r, fs') => match r with
    | Some i => (0 < i < MAX_INODES)%nat /\ (exists n, fs !! i = Some n /\ used n = false) /\
        exists n, created k p u g m nm n /\ fs' = <[i := n]> fs
    | None => fs' = fs /\ forall i n, (0 < i)%nat -> fs !! i = Some n -> used n = true
    end).
Proof.
  intros Hwf Hp. pose proof (wf_length fs Hwf) as Hl. unfold create_in. rstep.
  eapply runs_mono; [apply (alloc_inode_loop_spec fs (MAX_INODES - 1) 1); [done | done | lia]|].
  intros [[i|] fs']; [|intros [-> Hall]; cbn; split; [done|]; intros j n Hj; apply Hall; lia].
  intros (Hi & Hfree & ->). unfold modify. rstep. rstep. rstep; [by rewrite length_insert; lia|].
  rewrite list_lookup_insert_eq in * by lia. simplify_eq. rstep; [by rewrite length_insert; lia|].
  rewrite list_insert_insert_eq. rstep. rstep; [by rewrite length_insert; lia|].
  rewrite list_lookup_insert_eq in * by lia. simplify_eq. rstep. eapply runs_mono; [apply set_name_spec|].
  - split; cbn; [done|]. unfold MAX_NAME. split; [lia|]. split; [by rewrite length_replicate|]. split; [lia | done].
  - intros n (Hnwf & Hin & Hu & Hk & Hpa & Hui & Hgi & Hmo & Hda & Hsi). rstep. rstep; [by rewrite length_insert; lia|].
    cbn [runs]. split; [lia|]. split; [done|]. exists n. rewrite list_insert_insert_eq. split; [|done].
    cbn in *. by repeat (split; [done|]).
Qed.

(** Adding an entry leaves all others as they are. *)
Lemma entry_insert fs i n0 n' q x j : fs !! i = Some n0 -> used n0 = false -> used n' = true ->
  entry (<[i := n']> fs) q x j <-> (j <> i /\ entry fs q x j) \/ (j = i /\ q = parent n' /\ x = iname n' /\ i <> q).
Proof.
  intros Hn0 Hu0 Hu'. unfold entry. destruct (decide (j = i)) as [->|Hj].
  - rewrite list_lookup_insert_eq by (by eapply lookup_lt_Some). naive_solver congruence.
  - rewrite list_lookup_insert_ne by done. naive_solver.
Qed.

Lemma entry_used fs q x j : entry fs q x j -> is_used fs j.
Proof. intros (n & ? & ? & _). by exists n. Qed.

Lemma is_used_ne fs i n0 j : fs !! i = Some n0 -> used n0 = false -> is_used fs j -> j <> i.
Proof. intros H0 Hu (n & Hn & Hun) ->. congruence. Qed.

(** A walk is not disturbed by a new entry that was not there before. *)
Lemma walks_create fs i n0 n' cur ps r : tree_ok fs -> fs !! i = Some n0 -> used n0 = false -> used n' = true ->
  (forall j, ~ entry fs (parent n') (iname n') j) ->
  walks fs cur ps (Some r) -> is_used fs cur -> walks (<[i := n']> fs) cur ps (Some r) /\ is_used fs r.
Proof.
  intros Htree Hn0 Hu0 Hu' Hnew Hw. remember (Some r) as o eqn:E. induction Hw as [cur|cur p ps next r' Hl Hw IH|]; simplify_eq.
  - intros Hc. split; [constructor | done].
  - intros Hc. specialize (IH eq_refl).
    assert (lookup_result (<[i := n']> fs) cur p (Some next) /\ is_used fs next) as [Hl' Hnext].
    { destruct Hl as [[-> ->]|[(-> & n & Hn & ->)|(Hp & Hb & He & Hmin)]].
      - split; [by left | done].
      - split; [|destruct Hc as (nc & Hnc & Huc); simplify_eq; by eapply Htree].
        right. left. split; [done|]. exists n. split; [|done].
        rewrite list_lookup_insert_ne; [done|]. apply not_eq_sym. by eapply is_used_ne.
      - split; [|by eapply entry_used]. right. right. split; [done|]. split; [done|]. split.
        + eapply entry_insert; [done..|]. left. split; [|done]. eapply is_used_ne; [done.. | by eapply entry_used].
        + intros j Hj Hj'. eapply entry_insert in Hj'; [|done..]. destruct Hj' as [[_ Hj']|(-> & -> & -> & _)].
          * by apply (Hmin j).
          * by apply (Hnew next). }
    destruct (IH Hnext). split; [by econstructor | done].
Qed.

(** ** Permissions *)

(** The class of bits that applies to the caller, and the test on it. *)
Definition allowed (n : Inode) (u g op : Z) : bool :=
  (u =? 0) || negb (Z.land (if uid n =? u then Z.shiftr (mode n) 6
    else if gid n =? g then Z.shiftr (mode n) 3 else mode n) op =? 0).

Lemma perm_spec fs i n u g op : fs !! i = Some n -> perm fs i u g op = Done (allowed n u g op).
Proof.
  intros Hn. unfold perm, allowed. destruct (u =? 0); [done|]. rewrite (get_Some _ _ _ Hn). done.
Qed.

Lemma wf_with_data n d s : inode_wf n -> length d = MAX_DATA -> (s <= MAX_DATA)%nat -> inode_wf (with_data d s n).
Proof. intros (? & ? & _ & _ & ?) ? ?. by repeat split. Qed.

Lemma created_wf k p u g m nm n : created k p u g m nm n -> inode_wf n.
Proof. by intros [? _]. Qed.

(** The data an inode holds after [write]. *)
Definition written (dat : bytes) (n : Inode) : Inode :=
  with_data (take MAX_DATA dat ++ drop (Nat.min (length dat) MAX_DATA) (data n)) (Nat.min (length dat) MAX_DATA) n.

Lemma written_wf dat n : inode_wf n -> inode_wf (written dat n).
Proof.
  intros Hn. pose proof Hn as (_ & _ & Hd & _). apply wf_with_data; [done | |lia].
  rewrite length_app, length_take, length_drop. lia.
Qed.

Lemma written_contents dat n : take (size (written dat n)) (data (written dat n)) = take MAX_DATA dat.
Proof. cbn [written size data with_data]. apply take_app_length'. rewrite length_take. lia. Qed.

(** What a call of [write] does. *)
Inductive write_outcome (fs : RamFs) (path : bytes) (cwd : nat) (dat : bytes) (u g : Z) : bool -> RamFs -> Prop :=
| wo_refused : write_outcome fs path cwd dat u g false fs
| wo_existing i n : walks fs (start path cwd) (parts path) (Some i) -> (i < MAX_INODES)%nat -> fs !! i = Some n ->
    kind n = File -> allowed n u g 2 = true ->
    write_outcome fs path cwd dat u g true (<[i := written dat n]> fs)
| wo_created pp nm p pn i n0 n : split_parent path = (pp, nm) ->
    walks fs (start path cwd) (parts path) None ->
    walks fs (start (parent_path pp) cwd) (parts (parent_path pp)) (Some p) -> (p < MAX_INODES)%nat ->
    fs !! p = Some pn -> allowed pn u g 2 = true ->
    (0 < i < MAX_INODES)%nat -> fs !! i = Some n0 -> used n0 = false -> created File p u g 420 nm n ->
    write_outcome fs path cwd dat u g true (<[i := written dat n]> fs).

Lemma ramfs_write_spec fs path cwd dat u g : fs_wf fs -> (cwd < MAX_INODES)%nat ->
  runs (ramfs_write fs path cwd dat u g) (fun '(b, fs') => write_outcome fs path cwd dat u g b fs').
Proof.
  intros Hwf Hcwd. pose proof (wf_length fs Hwf) as Hl.
  assert (forall fs1 i n, length fs1 = MAX_INODES -> fs1 !! i = Some n -> inode_wf n ->
    (n0 ← get fs1 i; src ← slice dat 0 (Nat.min (length dat) MAX_DATA);
     d ← blit (data n0) 0 (Nat.min (length dat) MAX_DATA) src;
     fs2 ← set fs1 i (with_data d (Nat.min (length dat) MAX_DATA) n0); Done (true, fs2))
    = Done (true, <[i := written dat n]> fs1)) as Hstore.
  { intros fs1 i n Hl1 Hn (_ & _ & Hd & _). rewrite (get_Some _ _ _ Hn); mred. rewrite slice_0 by lia; mred.
    assert (take (Nat.min (length dat) MAX_DATA) dat = take MAX_DATA dat) as Ht.
    { destruct (Nat.le_ge_cases (length dat) MAX_DATA); [rewrite !firstn_all2 by lia; done | f_equal; lia]. }
    rewrite blit_ok by (try rewrite length_take; lia). mred.
    rewrite set_lt by (by eapply lookup_lt_Some). mred. by rewrite Ht. }
  unfold ramfs_write. rstep. eapply runs_mono; [by apply resolve_spec|]. intros [i|] [Hw Hi].
  - rstep. rstep. rstep; [lia|]. destruct (decide (kind x = Dir)) as [Hk|Hk]; [constructor|].
    rewrite (perm_spec _ _ _ _ _ _ H); mred. destruct (allowed x u g 2) eqn:Ha; [|constructor].
    cbn [runs]. rewrite (Hstore fs i x); [|done..| by apply (wf_lookup fs i x)]. econstructor; try done. by destruct (kind x).
  - rstep. destruct (split_parent path) as [pp nm] eqn:Esp. rstep.
    unfold resolve_parent. fold (parent_path pp). eapply runs_mono; [by apply resolve_spec|]. intros [p|] [Hwp Hp]; [|constructor].
    destruct (wf_get fs p Hwf Hp) as (pn & Hpn & _ & _). rewrite (perm_spec _ _ _ _ _ _ Hpn); mred.
    destruct (allowed pn u g 2) eqn:Ha; [|constructor].
    eapply runs_mono; [by apply create_in_spec|]. intros [[i|] fs']; [|intros [-> _]; constructor].
    intros (Hir & (n0 & Hn0 & Hu0) & n & Hc & ->).
    rewrite (Hstore (<[i := n]> fs) i n); [|by rewrite length_insert | by rewrite list_lookup_insert_eq by lia | by eapply created_wf].
    rewrite list_insert_insert_eq. by econstructor.
Qed.

Lemma write_outcome_wf fs path cwd dat u g b fs' : fs_wf fs -> write_outcome fs path cwd dat u g b fs' -> fs_wf fs'.
Proof.
  intros Hwf [|i n Hw Hi Hn Hk Ha|pp nm p pn i n0 n Es Hw Hwp Hp Hpn Ha Hi Hn0 Hu0 Hc]; [done| |].
  - apply (wf_modify fs i n (written dat)); [done | done | apply written_wf; by eapply wf_lookup | done].
  - apply wf_insert; [done | lia | apply written_wf; by eapply created_wf].
Qed.

Lemma parts_unresolvable nm : slash ∉ nm -> ~ component nm -> parts nm = [].
Proof.
  intros Hs Hc. unfold parts. rewrite split_on_none by done. by rewrite filter_cons_False.
Qed.

(** When the path does not resolve but its parent does, the last component is a
    proper name that the parent does not have. *)
Lemma missing_entry fs path cwd pp nm p : fs_wf fs -> (cwd < MAX_INODES)%nat -> split_parent path = (pp, nm) ->
  walks fs (start path cwd) (parts path) None ->
  walks fs (start (parent_path pp) cwd) (parts (parent_path pp)) (Some p) -> (p < MAX_INODES)%nat ->
  parts path = parts (parent_path pp) ++ [nm] /\ start path cwd = start (parent_path pp) cwd /\
  proper_name nm /\ forall j, ~ entry fs p nm j.
Proof.
  intros Hwf Hcwd Es Hw Hwp Hp. destruct (split_parent_spec path pp nm cwd Es) as (Hs & Hparts & Hst).
  pose proof (start_bound cwd Hcwd) as Hb.
  destruct (decide (component nm)) as [Hc|Hc].
  - rewrite (parts_component nm Hs Hc) in Hparts. destruct Hc as [Hne _]. specialize (Hst Hne).
    split; [done|]. split; [done|]. rewrite Hst, Hparts in Hw.
    pose proof (lookup_in_spec fs p nm Hwf Hp) as Hl. apply runs_Done in Hl as ([j|] & _ & Hj); [|done].
    exfalso. assert (Some j = None) as ?; [|done].
    eapply (walks_det fs _ Hwf); [apply Hb | | exact Hw]. eapply walks_app; [done|]. econstructor; [done|]. constructor.
  - exfalso. rewrite (parts_unresolvable nm Hs Hc), app_nil_r in Hparts.
    destruct (decide (nm = [])) as [->|Hne].
    + (* only slashes, or nothing: both resolve *)
      assert (parts path = [] \/ start path cwd = start (parent_path pp) cwd) as [H|H].
      { unfold split_parent in Es. destruct (trim_end_spec path) as (k & Hk & [Ht|(l & c & Ht & Hcs)]).
        - left. rewrite <- parts_trim_end, Ht. done.
        - right. rewrite Ht in Es. pose proof (rfind_spec slash (l ++ [c])) as Hr.
          destruct (rfind slash (l ++ [c])) as [sep|].
          + destruct Hr as (Hlt & Hsp & _). injection Es as _ Es. rewrite Es in Hsp.
            exfalso. apply Hcs. change (slash :: []) with ([] ++ [slash]) in Hsp.
            rewrite app_assoc in Hsp. by apply app_inj_tail in Hsp as [_ ?].
          + injection Es as _ Es. by destruct l. }
      * rewrite H in Hw. inversion Hw.
      * rewrite H, Hparts in Hw. pose proof (walks_det fs _ Hwf _ _ _ (Hb _) Hw Hwp). done.
    + rewrite (Hst Hne), Hparts in Hw. pose proof (walks_det fs _ Hwf _ _ _ (Hb _) Hw Hwp). done.
Qed.

(** ** Operations that leave the tree alone *)

Definition links (n : Inode) : bool * nat * bytes := (used n, parent n, iname n).
Definition same_tree (fs fs' : RamFs) : Prop := forall i, links <$> fs !! i = links <$> fs' !! i.

Lemma same_tree_insert fs i n n' : fs !! i = Some n -> links n' = links n -> same_tree fs (<[i := n']> fs).
Proof.
  intros Hn Hl j. destruct (decide (i = j)) as [<-|Hne].
  - rewrite list_lookup_insert_eq by (by eapply lookup_lt_Some). rewrite Hn. cbn. by rewrite Hl.
  - by rewrite list_lookup_insert_ne.
Qed.

Lemma same_tree_sym fs fs' : same_tree fs fs' -> same_tree fs' fs.
Proof. intros H i. symmetry. apply H. Qed.

Lemma same_tree_lookup fs fs' i n : same_tree fs fs' -> fs !! i = Some n ->
  exists n', fs' !! i = Some n' /\ links n' = links n.
Proof.
  intros H Hn. specialize (H i). rewrite Hn in H. destruct (fs' !! i) as [n'|]; [|done].
  exists n'. split; [done|]. cbn in H. congruence.
Qed.

Lemma same_tree_entry fs fs' p nm i : same_tree fs fs' -> entry fs p nm i -> entry fs' p nm i.
Proof.
  intros H (n & Hn & Hu & Hp & Hi & Hnm). destruct (same_tree_lookup _ _ _ _ H Hn) as (n' & Hn' & E).
  unfold links in E. injection E as E1 E2 E3. exists n'. split_and!; congruence.
Qed.

Lemma same_tree_walks fs fs' cur ps r : same_tree fs fs' -> walks fs cur ps r -> walks fs' cur ps r.
Proof.
  intros H. pose proof (same_tree_sym _ _ H) as H'.
  induction 1 as [cur|cur p ps next r Hl Hw IH|cur p ps Hl].
  - constructor.
  - econstructor; [|exact IH]. destruct Hl as [?|[(-> & n & Hn & ->)|(Hp & Hb & He & Hmin)]]; [by left | right; left | right; right].
    + destruct (same_tree_lookup _ _ _ _ H Hn) as (n' & Hn' & E). split; [done|]. exists n'. split; [done|].
      unfold links in E. congruence.
    + split; [done|]. split; [done|]. split; [by eapply same_tree_entry|]. intros j Hj He'. apply (Hmin j Hj).
      by eapply same_tree_entry.
  - constructor. destruct Hl as [Hp Hno]. split; [done|]. intros j He. apply (Hno j). by eapply same_tree_entry.
Qed.

Lemma iname_written dat n : links (written dat n) = links n.
Proof. reflexivity. Qed.

(** ** Reading *)

Lemma read_root fs path cwd i n : fs_wf fs -> (cwd < MAX_INODES)%nat ->
  walks fs (start path cwd) (parts path) (Some i) -> fs !! i = Some n -> kind n = File -> (size n <= length (data n))%nat ->
  ramfs_read_at fs path cwd 0 0 = Done (Some (take (size n) (data n))).
Proof.
  intros Hwf Hcwd Hw Hn Hk Hs. unfold ramfs_read_at. apply resolve_Done in Hw; [|done..]. rewrite Hw; mred.
  rewrite (get_Some _ _ _ Hn); mred. rewrite decide_False by congruence. rewrite (perm_spec _ _ _ _ _ _ Hn); mred.
  by rewrite slice_0.
Qed.

Lemma is_used_bound fs i : fs_wf fs -> is_used fs i -> (i < MAX_INODES)%nat.
Proof. intros Hwf (n & Hn & _). by apply (wf_lookup fs i n). Qed.

Lemma written_size dat n : inode_wf n -> (size (written dat n) <= length (data (written dat n)))%nat.
Proof. intros H. destruct (written_wf dat n H) as (_ & _ & Hd & Hs & _). rewrite Hd. done. Qed.

Lemma is_used_start fs path cwd : fs_wf fs -> is_used fs cwd -> is_used fs (start path cwd).
Proof.
  intros [_ _ (r & Hr & Hu & _)] Hc. unfold start. destruct (starts_with slash path); [by exists r | done].
Qed.

(** Where a successful [write] puts the data: a file the path then leads to. *)
Lemma write_lands fs fs' path cwd dat u g : fs_wf fs -> tree_ok fs -> is_used fs cwd ->
  (length (snd (split_parent path)) <= MAX_NAME)%nat -> ramfs_write fs path cwd dat u g = Done (true, fs') ->
  fs_wf fs' /\ exists i n, inode_wf n /\ kind n = File /\ fs' = <[i := written dat n]> fs /\
    (i < length fs)%nat /\ walks fs' (start path cwd) (parts path) (Some i).
Proof.
  intros Hwf Htree Hc Hlen Hw. pose proof (is_used_bound fs cwd Hwf Hc) as Hcwd.
  pose proof (runs_eq _ _ _ Hw (ramfs_write_spec fs path cwd dat u g Hwf Hcwd)) as Ho. cbn in Ho.
  split; [exact (write_outcome_wf _ _ _ _ _ _ _ _ Hwf Ho)|].
  inversion Ho as [|i n Hwk Hi Hn Hk Ha|pp nm p pn i n0 n Es Hwk Hwp Hp Hpn Ha Hi Hn0 Hu0 Hcr]; subst; exists i, n.
  - split; [by apply (wf_lookup fs i n Hwf Hn)|]. split; [done|]. split; [done|]. split; [by eapply lookup_lt_Some|].
    eapply same_tree_walks; [|done]. by eapply same_tree_insert.
  - destruct (missing_entry fs path cwd pp nm p Hwf Hcwd Es Hwk Hwp Hp) as (Hparts & Hst & Hproper & Hno).
    rewrite Es in Hlen. cbn in Hlen. destruct Hcr as (Hnwf & Hu & Hk & Hpar & _ & _ & _ & Hnm & _).
    rewrite firstn_all2 in Hnm by done.
    split; [done|]. split; [done|]. split; [done|]. split; [by eapply lookup_lt_Some|].
    destruct (walks_create fs i n0 (written dat n) (start (parent_path pp) cwd) (parts (parent_path pp)) p Htree Hn0 Hu0 Hu) as [Hwp' Hpu]; [ | exact Hwp | by apply is_used_start |].
    { cbn [written parent iname with_data]. rewrite Hpar. change (iname (written dat n)) with (iname n). by rewrite Hnm. }
    assert (i <> p) as Hip by (apply not_eq_sym; by eapply is_used_ne).
    rewrite Hparts, Hst. eapply walks_app; [exact Hwp'|]. econstructor; [|constructor]. right. right.
    split; [done|]. split; [lia|]. split.
    + exists (written dat n). rewrite list_lookup_insert_eq by (by eapply lookup_lt_Some). done.
    + intros j Hj Hj'. eapply entry_insert in Hj'; [|done..]. destruct Hj' as [[_ Hj']|(-> & _)]; [by apply (Hno j) | lia].
Qed.
Lemma written_read fs i n path cwd dat : fs_wf (<[i := written dat n]> fs) -> (cwd < MAX_INODES)%nat -> inode_wf n -> kind n = File ->
  (i < length fs)%nat -> walks (<[i := written dat n]> fs) (start path cwd) (parts path) (Some i) ->
  ramfs_read_at (<[i := written dat n]> fs) path cwd 0 0 = Done (Some (take MAX_DATA dat)).
Proof.
  intros Hwf Hcwd Hn Hk Hi Hw. rewrite (read_root _ path cwd i (written dat n) Hwf Hcwd Hw); [by rewrite written_contents | | done | by apply written_size].
  by apply list_lookup_insert_eq.
Qed.


(** ** Every operation: no panic, invariant, access control *)

(** Who may change inode [n]: nobody minds when it is free; its owner; whoever
    may write it; whoever may write the directory it is in. *)
Definition authorised (fs : RamFs) (u g : Z) (n : Inode) : Prop :=
  used n = false \/ uid n = u \/ allowed n u g 2 = true \/
  exists pn, fs !! parent n = Some pn /\ allowed pn u g 2 = true.

Definition authorised_change (fs fs' : RamFs) (u g : Z) : Prop :=
  forall j n, fs !! j = Some n -> fs' !! j = Some n \/ authorised fs u g n.

Definition step_ok (fs : RamFs) (u g : Z) (r : bool * RamFs) : Prop :=
  fs_wf (snd r) /\ authorised_change fs (snd r) u g /\ (fst r = false -> snd r = fs).

Lemma step_refused fs u g : fs_wf fs -> step_ok fs u g (false, fs).
Proof. intros Hwf. split; [done|]. split; [|done]. intros j n Hn. by left. Qed.

Lemma step_unchanged fs u g b : fs_wf fs -> step_ok fs u g (b, fs).
Proof. intros Hwf. split; [done|]. split; [|done]. intros j n Hn. by left. Qed.

Lemma step_insert fs u g i n n' : fs_wf fs -> fs_wf (<[i := n']> fs) -> fs !! i = Some n -> authorised fs u g n ->
  step_ok fs u g (true, <[i := n']> fs).
Proof.
  intros Hwf Hwf' Hn Ha. split; [done|]. split; [|done]. intros j m Hm. cbn.
  destruct (decide (i = j)) as [<-|Hne]; [right; congruence | left; by rewrite list_lookup_insert_ne].
Qed.

Lemma runs_modify fs i f (Q : RamFs -> Prop) n : fs !! i = Some n -> Q (<[i := f n]> fs) -> runs (modify fs i f) Q.
Proof.
  intros Hn HQ. unfold modify. rewrite (get_Some _ _ _ Hn); mred. rewrite set_lt by (by eapply lookup_lt_Some). done.
Qed.

(** Fields [wf_modify] does not look at may change freely. *)
Lemma write_step fs path cwd dat u g : fs_wf fs -> (cwd < MAX_INODES)%nat ->
  runs (ramfs_write fs path cwd dat u g) (step_ok fs u g).
Proof.
  intros Hwf Hcwd. eapply runs_mono; [by apply ramfs_write_spec|]. intros [b fs'] Ho.
  pose proof (write_outcome_wf _ _ _ _ _ _ _ _ Hwf Ho) as Hwf'.
  inversion Ho as [|i n Hw Hi Hn Hk Ha|pp nm p pn i n0 n Es Hw Hwp Hp Hpn Ha Hi Hn0 Hu0 Hc]; subst.
  - by apply step_refused.
  - eapply step_insert; [done | done | exact Hn | right; right; by left].
  - eapply step_insert; [done | done | exact Hn0 | by left].
Qed.

Lemma create_step fs k p u g m nm : fs_wf fs -> (p < MAX_INODES)%nat ->
  runs ('(i, fs) ← create_in fs k p u g m nm; Done (match i with Some _ => true | None => false end, fs)) (step_ok fs u g).
Proof.
  intros Hwf Hp. rstep. eapply runs_mono; [by apply create_in_spec|]. intros [[i|] fs'].
  - intros (Hi & (n0 & Hn0 & Hu0) & n & Hc & ->). cbn [runs].
    eapply step_insert; [done | | exact Hn0 | by left]. apply wf_insert; [done | lia | by eapply created_wf].
  - intros [-> _]. by apply step_refused.
Qed.

(** The parent a new entry goes to. *)
Lemma resolve_parent_spec fs pp cwd : fs_wf fs -> (cwd < MAX_INODES)%nat ->
  runs (resolve_parent fs pp cwd) (fun r => match r with
    | Some p => (p < MAX_INODES)%nat /\ exists n, fs !! p = Some n /\ get fs p = Done n
    | None => True end).
Proof.
  intros Hwf Hcwd. eapply runs_mono; [by apply resolve_spec|]. intros [p|]; [|done]. intros [_ Hp].
  split; [done|]. destruct (wf_get fs p Hwf Hp) as (n & ? & ? & _). by exists n.
Qed.

Lemma resolve_bound fs path cwd : fs_wf fs -> (cwd < MAX_INODES)%nat ->
  runs (resolve fs path cwd) (fun r => match r with
    | Some p => (p < MAX_INODES)%nat /\ exists n, fs !! p = Some n /\ get fs p = Done n /\ inode_wf n
    | None => True end).
Proof.
  intros Hwf Hcwd. eapply runs_mono; [by apply resolve_spec|]. intros [p|]; [|done]. intros [_ Hp].
  split; [done|]. by apply wf_get.
Qed.

Lemma mkdir_step fs path cwd u g m : fs_wf fs -> (cwd < MAX_INODES)%nat ->
  runs (ramfs_mkdir fs path cwd u g m) (step_ok fs u g).
Proof.
  intros Hwf Hcwd. unfold ramfs_mkdir. destruct (split_parent path) as [pp nm]. rstep.
  eapply runs_mono; [by apply resolve_parent_spec|]. intros [p|]; [|intros _; by apply step_refused].
  intros (Hp & n & Hn & Hg). rewrite Hg; mred. case_bool_decide; cbn [negb]; [|by apply step_refused].
  rewrite (perm_spec _ _ _ _ _ _ Hn); mred. destruct (allowed n u g 2); cbn [negb]; [|by apply step_refused].
  rstep. eapply runs_mono; [by apply lookup_in_spec|]. intros [i|] _; [by apply step_refused|]. by apply create_step.
Qed.

Lemma touch_step fs path cwd u g : fs_wf fs -> (cwd < MAX_INODES)%nat ->
  runs (ramfs_touch fs path cwd u g) (step_ok fs u g).
Proof.
  intros Hwf Hcwd. unfold ramfs_touch. rstep. eapply runs_mono; [by apply resolve_bound|].
  intros [i|]; [intros _; by apply step_unchanged|]. intros _. destruct (split_parent path) as [pp nm]. rstep.
  eapply runs_mono; [by apply resolve_parent_spec|]. intros [p|]; [|intros _; by apply step_refused].
  intros (Hp & n & Hn & Hg). rewrite (perm_spec _ _ _ _ _ _ Hn); mred.
  destruct (allowed n u g 2); cbn [negb]; [|by apply step_refused]. by apply create_step.
Qed.

Lemma has_child_spec fs idx (m : nat) : forall k, fs_wf fs -> (k + m = MAX_INODES)%nat ->
  runs (has_child fs idx (seq k m)) (fun b => b = false ->
    forall i n, (k <= i)%nat -> fs !! i = Some n -> used n = true -> parent n = idx -> i = idx).
Proof.
  induction m as [|m IH]; intros k Hwf Hk; cbn [seq has_child].
  - intros _ i n Hi Hn. apply (wf_lookup fs i n Hwf) in Hn as [_ ?]. lia.
  - assert (forall n, fs !! k = Some n -> (used n = true -> parent n = idx -> k = idx) ->
      runs (has_child fs idx (seq (S k) m)) (fun b => b = false ->
        forall i n, (k <= i)%nat -> fs !! i = Some n -> used n = true -> parent n = idx -> i = idx)) as Hnext.
    { intros n Hn Hno. eapply runs_mono; [apply (IH (S k)); [done | lia]|]. intros b Hall Hb i n' Hi Hn' Hu Hp.
      destruct (decide (i = k)) as [->|]; [naive_solver | eapply Hall; [done | | done..]; lia]. }
    destruct (wf_get fs k Hwf ltac:(lia)) as (n & Hn & Hg & _).
    destruct (Nat.eqb_spec k idx) as [->|Hne]; cbn [negb]; [by eapply Hnext|].
    rewrite Hg; mred. destruct (used n) eqn:Hu; cbn [andb]; [|eapply Hnext; [done|]; congruence].
    destruct (Nat.eqb_spec (parent n) idx) as [Hp|Hp]; [done | eapply Hnext; [done|]; congruence].
Qed.

Lemma rmdir_step fs path cwd u g : fs_wf fs -> (cwd < MAX_INODES)%nat ->
  runs (ramfs_rmdir fs path cwd u g) (step_ok fs u g).
Proof.
  intros Hwf Hcwd. unfold ramfs_rmdir. rstep. eapply runs_mono; [by apply resolve_bound|].
  intros [i|]; [|intros _; by apply step_refused]. intros (Hi & n & Hn & Hg & Hnwf).
  destruct (Nat.eqb_spec i 0); [by apply step_refused|]. rewrite Hg; mred.
  case_bool_decide; cbn [negb]; [|by apply step_refused].
  rstep. eapply runs_mono; [by apply (has_child_spec fs i MAX_INODES 0)|]. intros [|] _; [by apply step_refused|].
  destruct (wf_get fs (parent n) Hwf) as (pn & Hpn & _); [apply Hnwf|]. rewrite (perm_spec _ _ _ _ _ _ Hpn); mred.
  destruct (allowed pn u g 2) eqn:Ha; cbn [negb]; [|by apply step_refused].
  rstep. eapply runs_modify; [exact Hn|]. cbn [runs]. eapply step_insert; [done | | exact Hn | do 3 right; by exists pn].
  apply wf_insert; [done | done | exact Hnwf].
Qed.

Lemma unlink_step fs path cwd u g : fs_wf fs -> (cwd < MAX_INODES)%nat ->
  runs (ramfs_unlink fs path cwd u g) (step_ok fs u g).
Proof.
  intros Hwf Hcwd. unfold ramfs_unlink. rstep. eapply runs_mono; [by apply resolve_bound|].
  intros [i|]; [|intros _; by apply step_refused]. intros (Hi & n & Hn & Hg & Hnwf).
  destruct (Nat.eqb_spec i 0); [by apply step_refused|]. rewrite Hg; mred.
  case_decide; [by apply step_refused|].
  destruct (wf_get fs (parent n) Hwf) as (pn & Hpn & _); [apply Hnwf|].
  assert (authorised fs u g n -> runs (fs' ← modify fs i (with_used false); Done (true, fs')) (step_ok fs u g)) as Hok.
  { intros Ha. rstep. eapply runs_modify; [exact Hn|]. cbn [runs]. eapply step_insert; [done | | exact Hn | done].
    apply wf_insert; [done | done | exact Hnwf]. }
  destruct (Z.eqb_spec u 0) as [->|Hu]; cbn [negb andb]; [mred; apply Hok; right; right; by left|].
  destruct (Z.eqb_spec (uid n) u) as [<-|Hn2]; cbn [negb]; [mred; apply Hok; right; by left|].
  rewrite (perm_spec _ _ _ _ _ _ Hpn); mred.
  destruct (allowed pn u g 2) eqn:Ha; cbn [negb]; [|by apply step_refused]. apply Hok. do 3 right. by exists pn.
Qed.

(** [chmod] and [chown] have no group argument: it does not matter. *)
Lemma chmod_step fs path cwd m u g : fs_wf fs -> (cwd < MAX_INODES)%nat ->
  runs (ramfs_chmod fs path cwd m u) (step_ok fs u g).
Proof.
  intros Hwf Hcwd. unfold ramfs_chmod. rstep. eapply runs_mono; [by apply resolve_bound|].
  intros [i|]; [|intros _; by apply step_refused]. intros (Hi & n & Hn & Hg & Hnwf). rewrite Hg; mred.
  destruct (negb (u =? 0) && negb (uid n =? u)) eqn:E; [by apply step_refused|].
  rstep. eapply runs_modify; [exact Hn|]. cbn [runs]. eapply step_insert; [done | | exact Hn |].
  - by apply wf_modify with (f := with_mode (Z.land m 511)).
  - unfold authorised, allowed. destruct (Z.eqb_spec u 0); [right; right; by left|].
    destruct (Z.eqb_spec (uid n) u); [right; by left | done].
Qed.

Lemma chown_step fs path cwd nu ng u g : fs_wf fs -> (cwd < MAX_INODES)%nat ->
  runs (ramfs_chown fs path cwd nu ng u) (step_ok fs u g).
Proof.
  intros Hwf Hcwd. unfold ramfs_chown. destruct (Z.eqb_spec u 0) as [->|]; cbn [negb]; [|by apply step_refused].
  rstep. eapply runs_mono; [by apply resolve_bound|].
  intros [i|]; [|intros _; by apply step_refused]. intros (Hi & n & Hn & Hg & Hnwf).
  rstep. eapply runs_modify; [exact Hn|]. cbn [runs]. eapply step_insert; [done | | exact Hn | right; right; by left].
  by apply wf_modify with (f := with_owner nu ng).
Qed.

Lemma wf_not_root fs i n : fs_wf fs -> fs !! i = Some n -> kind n = File -> i <> 0%nat.
Proof. intros [_ _ (r & Hr & _ & Hk & _)] Hn Hf ->. congruence. Qed.

(** The end of [rename]: the inode gets its new place and name. *)
Definition rename_end (fs : RamFs) (i p : nat) (nm : bytes) : outcome (bool * RamFs) :=
  fs ← modify fs i (with_parent p);
  n ← get fs i;
  n ← set_name n nm;
  fs ← set fs i n;
  Done (true, fs).

Lemma rename_end_spec fs i n p nm : fs_wf fs -> fs !! i = Some n -> i <> 0%nat -> (p < MAX_INODES)%nat ->
  runs (rename_end fs i p nm) (fun '(b, fs') => b = true /\ exists n', fs' = <[i := n']> fs /\ fs_wf fs' /\
    used n' = used n /\ kind n' = kind n /\ parent n' = p /\ iname n' = take MAX_NAME nm /\
    data n' = data n /\ size n' = size n).
Proof.
  intros Hwf Hn Hi Hp. pose proof (wf_lookup fs i n Hwf Hn) as [Hnwf Hb]. pose proof (wf_length fs Hwf) as Hl.
  unfold rename_end. rstep. eapply runs_modify; [exact Hn|]. rstep. rstep; [by rewrite length_insert; lia|].
  rewrite list_lookup_insert_eq in * by lia. simplify_eq. rstep. eapply runs_mono; [apply set_name_spec|].
  - destruct Hnwf as (? & ? & ? & ? & _). by repeat split.
  - intros n' (Hwf' & Hnm & Hu & Hk & Hpar & _ & _ & _ & Hd & Hs). rstep. rstep; [by rewrite length_insert; lia|]. cbn [runs].
    split; [done|]. exists n'. rewrite list_insert_insert_eq. split; [done|]. split; [by apply wf_insert|].
    by repeat (split; [done|]).
Qed.

(** A rename to [..] may remove the file above; else only inodes the caller may change do. *)
Definition step_if (P : Prop) (fs : RamFs) (u g : Z) (r : bool * RamFs) : Prop :=
  fs_wf (snd r) /\ (P -> authorised_change fs (snd r) u g) /\ (fst r = false -> snd r = fs).
Lemma if_unchanged P fs u g b : fs_wf fs -> step_if P fs u g (b, fs).
Proof. intros Hwf. split; [done|]. split; [|done]. intros _ j n Hn. by left. Qed.

Lemma rename_run fs src dst cwd u g : fs_wf fs -> (cwd < MAX_INODES)%nat ->
  runs (ramfs_rename fs src dst cwd u g) (step_if (snd (split_parent dst) <> [dot; dot]) fs u g).
Proof.
  intros Hwf Hcwd. unfold ramfs_rename. rstep. eapply runs_mono; [by apply resolve_bound|].
  intros [i|]; [|intros _; by apply if_unchanged]. intros (Hi & n & Hn & Hg & Hnwf).
  destruct (Nat.eqb_spec i 0); [by apply if_unchanged|]. rewrite Hg; mred.
  destruct (wf_get fs (parent n) Hwf) as (pn & Hpn & _); [apply Hnwf|]. rewrite (perm_spec _ _ _ _ _ _ Hpn); mred.
  destruct (allowed pn u g 2) eqn:Ha; cbn [negb]; [|by apply if_unchanged].
  destruct (split_parent dst) as [pp nm]. cbn [snd]. rstep.
  eapply runs_mono; [by apply resolve_parent_spec|]. intros [p|]; [|intros _; by apply if_unchanged].
  intros (Hp & dpn & Hdpn & Hdg). rewrite (perm_spec _ _ _ _ _ _ Hdpn); mred.
  destruct (allowed dpn u g 2) eqn:Hda; cbn [negb]; [|by apply if_unchanged].
  assert (forall fs1, fs_wf fs1 -> (exists n1, fs1 !! i = Some n1) ->
    (nm <> [dot; dot] -> forall j m, fs !! j = Some m -> fs1 !! j = Some m \/ authorised fs u g m) ->
    runs (rename_end fs1 i p nm) (step_if (nm <> [dot; dot]) fs u g)) as Hend.
  { intros fs1 Hwf1 (n1 & Hn1) Hch. eapply runs_mono; [by apply (rename_end_spec fs1 i n1)|].
    intros [b fs'] (-> & n' & -> & Hwf' & _). split; [done|]. split; [|done]. intros Hdd j m Hm. cbn.
    destruct (decide (i = j)) as [<-|Hne].
    - right. simplify_eq. do 3 right. by exists pn.
    - rewrite list_lookup_insert_ne by done. by apply Hch. }
  rstep. eapply runs_mono; [by apply lookup_in_spec|]. intros [d|] Hl.
  - rstep. destruct (Nat.eqb_spec d i) as [->|Hne]; [by apply if_unchanged|].
    pose proof (lookup_result_bound _ _ _ _ Hwf Hp Hl) as Hd.
    destruct (wf_get fs d Hwf Hd) as (dn & Hdn & Hdg' & Hdwf). rewrite Hdg'; mred.
    case_decide as Hk; [by apply if_unchanged|]. rstep. eapply runs_modify; [exact Hdn|]. cbn [runs].
    apply Hend.
    + apply wf_insert; [done | | exact Hdwf]. eapply wf_not_root; [done | exact Hdn | by destruct (kind dn)].
    + exists n. by rewrite list_lookup_insert_ne.
    + intros Hdd j m Hm. destruct (decide (d = j)) as [<-|]; [|left; by rewrite list_lookup_insert_ne]. right.
      simplify_eq. destruct Hl as [[_ ->]|[(? & _)|(_ & _ & (dn' & Hdn' & _ & Hpar & _) & _)]]; [ | done | ].
      * right; right; left. congruence.
      * do 3 right. exists dpn. simplify_eq. done.
  - rstep. apply Hend; [done | by exists n | intros; by left].
Qed.

Lemma rename_step fs src dst cwd u g : fs_wf fs -> (cwd < MAX_INODES)%nat -> snd (split_parent dst) <> [dot; dot] ->
  runs (ramfs_rename fs src dst cwd u g) (step_ok fs u g).
Proof.
  intros Hwf Hcwd Hdd. eapply runs_mono; [by apply rename_run|]. intros r (? & H & ?). split; [done|]. split; [by apply H | done].
Qed.

(** ** All mutating calls *)

Inductive fs_op :=
| OpWrite (path : bytes) (cwd : nat) (dat : bytes)
| OpMkdir (path : bytes) (cwd : nat) (m : Z)
| OpRmdir (path : bytes) (cwd : nat)
| OpTouch (path : bytes) (cwd : nat)
| OpUnlink (path : bytes) (cwd : nat)
| OpChmod (path : bytes) (cwd : nat) (m : Z)
| OpChown (path : bytes) (cwd : nat) (nu ng : Z)
| OpRename (src dst : bytes) (cwd : nat).

(** [op], called by user [u] of group [g]. *)
Definition fs_step (fs : RamFs) (u g : Z) (op : fs_op) : outcome (bool * RamFs) :=
  match op with
  | OpWrite path cwd dat => ramfs_write fs path cwd dat u g
  | OpMkdir path cwd m => ramfs_mkdir fs path cwd u g m
  | OpRmdir path cwd => ramfs_rmdir fs path cwd u g
  | OpTouch path cwd => ramfs_touch fs path cwd u g
  | OpUnlink path cwd => ramfs_unlink fs path cwd u g
  | OpChmod path cwd m => ramfs_chmod fs path cwd m u
  | OpChown path cwd nu ng => ramfs_chown fs path cwd nu ng u
  | OpRename src dst cwd => ramfs_rename fs src dst cwd u g
  end.
Definition op_cwd (op : fs_op) : nat :=
  match op with
  | OpWrite _ c _ | OpMkdir _ c _ | OpRmdir _ c | OpTouch _ c | OpUnlink _ c | OpChmod _ c _ | OpChown _ c _ _ | OpRename _ _ c => c
  end.
(** The working directory is an inode index, and [rename]'s target does not end in [..]. *)
Definition op_ok (op : fs_op) : Prop :=
  (op_cwd op < MAX_INODES)%nat /\
  match op with OpRename _ dst _ => snd (split_parent dst) <> [dot; dot] | _ => True end.

Lemma fs_step_ok fs u g op : fs_wf fs -> op_ok op -> runs (fs_step fs u g op) (step_ok fs u g).
Proof.
  intros Hwf [Hc Ho]. destruct op; cbn [fs_step op_cwd] in *.
  - by apply write_step.
  - by apply mkdir_step.
  - by apply rmdir_step.
  - by apply touch_step.
  - by apply unlink_step.
  - by apply chmod_step.
  - by apply chown_step.
  - by apply rename_step.
Qed.


(** ** Access through file descriptors *)

(** Bytes a write at [off] of [len] bytes can store. *)
Definition fits (off : Z) (len : nat) : nat := Nat.min len (Z.to_nat (4096 - off)).

Lemma write_extent off len : 0 <= off < 2 ^ 64 -> Z.of_nat len < 2 ^ 63 ->
  let e := Z.min (uadd off (Z.of_nat len)) (Z.of_nat MAX_DATA) in
  Z.to_nat (saturating_sub e off) = fits off len /\ ((0 < fits off len)%nat -> e = off + Z.of_nat (fits off len)).
Proof.
  intros Ho Hl. cbn zeta. unfold fits, saturating_sub, uadd, MAX_DATA. rewrite Z2Nat.id by lia.
  destruct (Z.le_gt_cases (2 ^ 64) (off + Z.of_nat len)) as [Hw|Hw].
  - assert (wrap 64 (off + Z.of_nat len) = off + Z.of_nat len - 2 ^ 64) as ->; [|lia].
    unfold wrap. symmetry. apply (Z.mod_unique _ _ 1); lia.
  - rewrite wrap_small by lia. lia.
Qed.

Lemma inode_write_spec fs idx nd off dat : fs_wf fs -> fs !! idx = Some nd -> used nd = true -> kind nd = File ->
  0 <= off < 2 ^ 64 -> Z.of_nat (length dat) < 2 ^ 63 ->
  let n := fits off (length dat) in
  runs (inode_write fs idx off dat) (fun '(n', fs') => n' = n /\
    fs' = (if (n =? 0)%nat then fs else
      <[idx := with_data (take (Z.to_nat off) (data nd) ++ take n dat ++ drop (Z.to_nat off + n) (data nd))
         (Nat.max (size nd) (Z.to_nat off + n)) nd]> fs)).
Proof.
  intros Hwf Hnd Hu Hk Ho Hl n. pose proof (wf_lookup fs idx nd Hwf Hnd) as [(_ & _ & Hd & Hs & _) Hi].
  unfold inode_write. destruct (Nat.leb_spec MAX_INODES idx); [lia|]. rewrite (get_Some _ _ _ Hnd); mred.
  rewrite Hu, bool_decide_false by congruence. cbn [negb orb].
  destruct (write_extent off (length dat) Ho Hl) as [-> He]. fold n in He |- *.
  destruct (Nat.eqb_spec n 0) as [H0|H0]; [done|]. specialize (He ltac:(lia)).
  assert (Z.to_nat off + n <= MAX_DATA)%nat as Hb by (unfold n, fits, MAX_DATA in *; lia).
  assert (n <= length dat)%nat by (unfold n, fits; lia).
  rstep. rewrite slice_0 by lia. cbn [runs]. rstep. rstep; [lia | rewrite length_take; lia|]. rstep. rstep; [by eapply lookup_lt_Some|].
  cbn [runs]. split; [done|]. do 2 f_equal. rewrite He. clear He. destruct (Z.ltb_spec (Z.of_nat (size nd)) (off + Z.of_nat n)); lia.
Qed.

(** Writing through a descriptor at any 64-bit offset (wrap-around of the
    end included) never panics, stores exactly the bytes that fit below 4096,
    leaves every other byte and every other file alone, extends the size just as
    far as needed, and reading back at that offset returns those bytes. *)
Theorem inode_write_read (fs : RamFs) (idx : nat) (nd : Inode) (off : Z) (dat buf : bytes) :
  fs_wf fs -> fs !! idx = Some nd -> used nd = true -> kind nd = File ->
  0 <= off < 2 ^ 64 -> Z.of_nat (length dat) < 2 ^ 63 -> length buf = fits off (length dat) ->
  exists fs' nd', inode_write fs idx off dat = Done (fits off (length dat), fs') /\ fs_wf fs' /\
    (forall j, j <> idx -> fs' !! j = fs !! j) /\ fs' !! idx = Some nd' /\
    (forall k, (k < Z.to_nat off \/ Z.to_nat off + fits off (length dat) <= k)%nat -> data nd' !! k = data nd !! k) /\
    size nd' = (if (fits off (length dat) =? 0)%nat then size nd
                else Nat.max (size nd) (Z.to_nat off + fits off (length dat))) /\
    inode_read fs' idx off buf = Done (fits off (length dat), take (fits off (length dat)) dat).
Proof.
  intros Hwf Hnd Hu Hk Ho Hl Hbuf. pose proof (inode_write_spec fs idx nd off dat Hwf Hnd Hu Hk Ho Hl) as Hw.
  cbn zeta in Hw. apply runs_Done in Hw as ([n' fs'] & Hw & -> & Hfs').
  pose proof (wf_lookup fs idx nd Hwf Hnd) as [Hnwf Hi]. pose proof Hnwf as (_ & _ & Hd & Hs & _).
  set (n := fits off (length dat)) in *.
  assert (n <= length dat /\ (n <> 0 -> Z.to_nat off + n <= MAX_DATA))%nat as [Hn1 Hn2] by (unfold n, fits, MAX_DATA; lia).
  assert (exists nd', fs' !! idx = Some nd' /\ used nd' = true /\ kind nd' = File /\ fs_wf fs' /\
    (forall j, j <> idx -> fs' !! j = fs !! j) /\
    (forall k, (k < Z.to_nat off \/ Z.to_nat off + n <= k)%nat -> data nd' !! k = data nd !! k) /\
    size nd' = (if (n =? 0)%nat then size nd else Nat.max (size nd) (Z.to_nat off + n)) /\
    (n <> 0%nat -> take n (drop (Z.to_nat off) (data nd')) = take n dat) /\ length (data nd') = MAX_DATA)
    as (nd' & Hnd' & Hu' & Hk' & Hwf' & Hother & Hbytes & Hsize & Hback & Hd').
  { destruct (Nat.eqb_spec n 0) as [H0|H0]; subst fs'; [by exists nd|].
    specialize (Hn2 H0). eexists. rewrite list_lookup_insert_eq by (by eapply lookup_lt_Some). split; [done|].
    split; [done|]. split; [done|]. assert (length (take (Z.to_nat off) (data nd)) = Z.to_nat off) as Hl1 by (rewrite length_take; lia).
    assert (length (take n dat) = n) as Hl2 by (rewrite length_take; lia).
    split; [|split; [|split; [|split; [done|split]]]].
    - apply wf_insert; [done | by eapply wf_not_root|]. apply wf_with_data; [done | |lia].
      rewrite !length_app, Hl1, Hl2, length_drop. lia.
    - intros j Hj. by rewrite list_lookup_insert_ne.
    - intros k Hkk. cbn [data with_data]. destruct Hkk as [Hkk|Hkk].
      + rewrite lookup_app_l by lia. by rewrite lookup_take_lt.
      + rewrite lookup_app_r, lookup_app_r by lia. rewrite Hl1, Hl2, lookup_drop. f_equal. lia.
    - intros _. cbn [data with_data]. rewrite drop_app_length' by done. by rewrite take_app_length'.
    - cbn [data with_data]. rewrite !length_app, Hl1, Hl2, length_drop. lia. }
  exists fs', nd'. do 6 (split; [done|]). unfold inode_read.
  destruct (Nat.leb_spec MAX_INODES idx); [lia|]. rewrite (get_Some _ _ _ Hnd'); mred.
  rewrite Hu', bool_decide_false by congruence. cbn [negb orb].
  destruct (Nat.eqb_spec n 0) as [H0|H0].
  - rewrite H0 in *. destruct buf; [|done]. cbn [length Nat.min].
    rewrite slice_ok by (rewrite Nat.add_0_r, Hd'; destruct Hwf' as [_ HF _]; pose proof (Forall_lookup_1 _ _ _ _ HF Hnd') as (_ & _ & _ & ? & _); lia).
    mred. rewrite Nat.add_0_r, Nat.sub_diag. cbn. done.
  - assert (Z.to_nat (Z.min off (Z.of_nat (size nd'))) = Z.to_nat off) as -> by (rewrite Hsize; lia).
    assert (Nat.min (length buf) (size nd' - Z.to_nat off) = n) as -> by (rewrite Hsize; lia).
    rewrite slice_ok by (rewrite Hd'; lia). mred.
    replace (Z.to_nat off + n - Z.to_nat off)%nat with n by lia. rewrite Hback by done.
    rewrite blit_ok by (try rewrite length_take; lia). mred. do 2 f_equal.
    rewrite skipn_all2 by lia. by rewrite app_nil_r.
Qed.

(** ** Deciding the invariants, for concrete filesystems *)

#[export] Instance inode_wf_dec n : Decision (inode_wf n).
Proof. unfold inode_wf. solve_decision. Defined.

Definition fs_wfb (fs : RamFs) : bool :=
  (length fs =? MAX_INODES)%nat && forallb (fun n => bool_decide (inode_wf n)) fs &&
  match fs !! 0%nat with Some r => used r && bool_decide (kind r = Dir) && (parent r =? 0)%nat | None => false end.
Definition tree_okb (fs : RamFs) : bool :=
  forallb (fun n => negb (used n) || match fs !! parent n with Some p => used p | None => false end) fs.

Lemma fs_wfb_ok fs : fs_wfb fs = true -> fs_wf fs.
Proof.
  unfold fs_wfb. rewrite !andb_true_iff. intros [[Hl Hf] Hr]. split.
  - by apply Nat.eqb_eq.
  - apply List.Forall_forall. rewrite forallb_forall in Hf. intros n Hn. by apply (bool_decide_unpack _), Is_true_true, Hf.
  - destruct (fs !! 0%nat) as [r|]; [|done]. exists r. rewrite !andb_true_iff in Hr. destruct Hr as [[? Hk] Hp].
    split; [done|]. split; [done|]. split; [by apply bool_decide_eq_true in Hk | by apply Nat.eqb_eq].
Qed.

Lemma tree_okb_ok fs : tree_okb fs = true -> tree_ok fs.
Proof.
  unfold tree_okb. rewrite forallb_forall. intros H i n Hn Hu.
  specialize (H n (proj1 (list_elem_of_In _ _) (list_elem_of_lookup_2 _ _ _ Hn))). rewrite Hu in H. cbn in H.
  destruct (fs !! parent n) as [p|] eqn:E; [by exists p | done].
Qed.

(** *** Witnesses *)

(** A root with [/tmp] (open to all) and [/tmp/a], owned by user 1000. *)
Definition demo_fs : RamFs :=
  match
    fs ← init_root ramfs_new;
    '(_, fs) ← ramfs_mkdir fs (str "/tmp") 0 0 0 511;
    '(_, fs) ← ramfs_write fs (str "/tmp/a") 0 (str "hello") 1000 1000; Done fs
  with Done fs => fs | Panic => [] end.

Lemma demo_fs_wf : fs_wf demo_fs.
Proof. apply fs_wfb_ok. vm_compute. reflexivity. Qed.
Lemma demo_fs_tree : tree_ok demo_fs.
Proof. apply tree_okb_ok. vm_compute. reflexivity. Qed.
Lemma demo_fs_root : is_used demo_fs 0.
Proof. destruct (wf_root _ demo_fs_wf) as (r & ? & ? & _). by exists r. Qed.

(** The state an operation leaves, in witnesses. *)
Definition result_fs (m : outcome (bool * RamFs)) : RamFs := match m with Done (_, fs) => fs | Panic => [] end.
Lemma result_fs_true m : match m with Done (b, _) => b | Panic => false end = true -> m = Done (true, result_fs m).
Proof. destruct m as [[[|] fs]|]; done. Qed.



Definition demo_inode : Inode := match demo_fs !! 2%nat with Some n => n | None => Inode_empty end.

Lemma inode_write_read_witness : exists fs' nd',
  inode_write demo_fs 2 5 (str " world") = Done (fits 5 6, fs') /\ fs_wf fs' /\
  (forall j, j <> 2%nat -> fs' !! j = demo_fs !! j) /\ fs' !! 2%nat = Some nd' /\
  (forall k, (k < Z.to_nat 5 \/ Z.to_nat 5 + fits 5 6 <= k)%nat -> data nd' !! k = data demo_inode !! k) /\
  size nd' = (if (fits 5 6 =? 0)%nat then size demo_inode else Nat.max (size demo_inode) (Z.to_nat 5 + fits 5 6)) /\
  inode_read fs' 2 5 (replicate 6 0) = Done (fits 5 6, take (fits 5 6) (str " world")).
Proof.
  apply (inode_write_read demo_fs 2 demo_inode 5 (str " world") (replicate 6 0));
    [apply demo_fs_wf | by vm_compute | by vm_compute | by vm_compute | lia | cbn; lia | by vm_compute].
Defined.

(** ** Two places where the code does not do what it means to *)

(** A name of 65 bytes. *)
Definition long_path : bytes := str "/tmp/" ++ replicate 65 97.

(** The 64-byte bound of [set_name] is not checked by its callers: writing
    to a path whose last component is longer succeeds, but the file can not be
    read back, and writing again makes a second inode of the same name. *)
Theorem long_name_write_lost :
  let w1 := ramfs_write demo_fs long_path 0 (str "x") 1000 1000 in
  let w2 := ramfs_write (result_fs w1) long_path 0 (str "x") 1000 1000 in
  w1 = Done (true, result_fs w1) /\ ramfs_read_at (result_fs w1) long_path 0 0 0 = Done None /\
  w2 = Done (true, result_fs w2) /\
  exists n1 n2, result_fs w2 !! 3%nat = Some n1 /\ result_fs w2 !! 4%nat = Some n2 /\
    links n1 = links n2 /\ used n1 = true.
Proof.
  cbn zeta. split; [by vm_compute|]. split; [by vm_compute|]. split; [by vm_compute|].
  eexists _, _. split; [by vm_compute|]. split; [by vm_compute|]. by vm_compute.
Qed.

(** [touch] (like [write] and [rename]) does not check that the parent it
    resolves is a directory: it creates an entry inside the regular file
    [/tmp/a]; unlinking that file then leaves the entry in use under a free
    inode, which breaks the tree. *)
Theorem touch_under_file_orphans :
  let t := ramfs_touch demo_fs (str "/tmp/a/b") 0 1000 1000 in
  let u := ramfs_unlink (result_fs t) (str "/tmp/a") 0 1000 1000 in
  tree_ok demo_fs /\ t = Done (true, result_fs t) /\ u = Done (true, result_fs u) /\ ~ tree_ok (result_fs u).
Proof.
  cbn zeta. split; [apply demo_fs_tree|]. split; [by vm_compute|]. split; [by vm_compute|].
  set (fs := result_fs _). assert (exists n p, fs !! 3%nat = Some n /\ used n = true /\ fs !! parent n = Some p /\ used p = false)
    as (n & p & Hn & Hu & Hp & Hup).
  { eexists _, _. split; [by vm_compute|]. split; [by vm_compute|]. split; [by vm_compute|]. by vm_compute. }
  intros Htree. destruct (Htree 3%nat n Hn Hu) as (p' & Hp' & Hup'). congruence.
Qed.
