(* ===== verification/Fs.v ===== *)
(** The kernel's filesystem layer (src/kernel/src/fs/mod.rs): the functions the
    system calls and the shell use on [ROOT_FS], and the tree made at boot. *)
From Stdlib Require Import ZArith Lia.
From stdpp Require Import base option list numbers.
From S2P Require Import Prelude Bitmap RamFs RamFsPaths RamFsSpec Userspace.
Local Open Scope Z_scope.

(** [ROOT_FS] is passed along; modes are octal in the source: 493 is 0o755, 511
    is 0o777. *)
Definition hello_elf (t : target) : option bytes :=
  match t with Riscv64 => Some HELLO_ELF_RV64 | X86_64 => Some HELLO_ELF_X86 | Aarch64 _ _ => None end.

Definition fs_init (t : target) (fs : RamFs) : outcome RamFs :=
  fs ← fs_init_root fs;
  '(_, fs) ← fs_mkdir fs (str "/etc") 0 0 0 493;
  '(_, fs) ← fs_mkdir fs (str "/home") 0 0 0 493;
  '(_, fs) ← fs_mkdir fs (str "/tmp") 0 0 0 511;
  '(_, fs) ← fs_write_file fs (str "/etc/hostname") 0 (str "ferrugem" ++ [10]) 0 0;
  '(_, fs) ← fs_write_file fs (str "/etc/motd") 0 (str "Welcome to Ferrugem!" ++ [10]) 0 0;
  '(_, fs) ← fs_mkdir fs (str "/home/ferrugem") 0 1000 1000 493;
  '(_, fs) ← fs_mkdir fs (str "/bin") 0 0 0 493;
  match hello_elf t with
  | Some elf => '(_, fs) ← fs_write_file fs (str "/bin/hello") 0 elf 0 0; Done fs
  | None => Done fs
  end.

Definition vfs_write (fs : RamFs) (path dat : bytes) : outcome (bool * RamFs) := fs_write_file fs path 0 dat 0 0.
Definition vfs_read (fs : RamFs) (path : bytes) : outcome (option bytes) := fs_read_file fs path 0 0 0.
Definition vfs_mkdir (fs : RamFs) (path : bytes) (cwd : nat) (u g m : Z) := fs_mkdir fs path cwd u g m.
Definition vfs_rmdir (fs : RamFs) (path : bytes) (cwd : nat) (u g : Z) := fs_rmdir fs path cwd u g.
Definition vfs_touch (fs : RamFs) (path : bytes) (cwd : nat) (u g : Z) := fs_touch fs path cwd u g.
Definition vfs_unlink (fs : RamFs) (path : bytes) (cwd : nat) (u g : Z) := fs_unlink fs path cwd u g.
Definition write_as (fs : RamFs) (path : bytes) (cwd : nat) (dat : bytes) (u g : Z) := fs_write_file fs path cwd dat u g.
Definition read_as (fs : RamFs) (path : bytes) (cwd : nat) (u g : Z) := fs_read_file fs path cwd u g.
Definition vfs_chmod (fs : RamFs) (path : bytes) (cwd : nat) (m u : Z) := fs_chmod fs path cwd m u.
Definition vfs_chown (fs : RamFs) (path : bytes) (cwd : nat) (nu ng u : Z) := fs_chown fs path cwd nu ng u.
Definition vfs_resolve (fs : RamFs) (path : bytes) (cwd : nat) := fs_resolve fs path cwd.
Definition vfs_inode_path (fs : RamFs) (idx : nat) (buf : bytes) := fs_inode_path fs idx buf.
Definition vfs_is_dir (fs : RamFs) (path : bytes) (cwd : nat) := fs_is_dir fs path cwd.
Definition vfs_list_dir (fs : RamFs) (path : bytes) (cwd : nat) := fs_list_dir fs path cwd.

(** The inode [stat_at] hands to its callback. *)
Definition stat_at (fs : RamFs) (path : bytes) (cwd : nat) : outcome (option Inode) :=
  r ← fs_resolve fs path cwd;
  match r with
  | Some idx => fs_get_inode fs idx
  | None => Done None
  end.
Definition vfs_rename (fs : RamFs) (src dst : bytes) (cwd : nat) (u g : Z) := fs_rename fs src dst cwd u g.
Definition open_dir (fs : RamFs) (path : bytes) (cwd : nat) : outcome (option nat) :=
  d ← vfs_is_dir fs path cwd;
  match d with Some true => vfs_resolve fs path cwd | _ => Done None end.
Definition stat_inode_by_idx (fs : RamFs) (idx : nat) : outcome (option Inode) := fs_get_inode fs idx.
Definition list_dir_indexed (fs : RamFs) (dir_inode : nat) := ramfs_list_dir_indexed fs dir_inode.
Definition open_inode (fs : RamFs) (path : bytes) (cwd : nat) (u g : Z) (writable : bool) :=
  open_check fs path cwd u g writable.
Definition inode_size (fs : RamFs) (idx : nat) : outcome nat :=
  n ← fs_get_inode fs idx; Done (match n with Some n => size n | None => 0%nat end).
Definition read_inode (fs : RamFs) (idx : nat) (offset : Z) (buf : bytes) := inode_read fs idx offset buf.
Definition write_inode (fs : RamFs) (idx : nat) (offset : Z) (dat : bytes) := inode_write fs idx offset dat.

(** ** Witnesses and findings, on the tree made at boot *)

Definition boot_fs : RamFs := match fs_init X86_64 ramfs_new with Done fs => fs | Panic => ramfs_new end.

Lemma boot_fs_wf : fs_wf boot_fs.
Proof. apply fs_wfb_ok. vm_compute. reflexivity. Qed.
Lemma boot_fs_tree : tree_ok boot_fs.
Proof. apply tree_okb_ok. vm_compute. reflexivity. Qed.
Lemma boot_fs_root : is_used boot_fs 0.
Proof. destruct (wf_root _ boot_fs_wf) as (r & ? & ? & _). by exists r. Qed.
