(* ===== verification/AbiStack.v ===== *)
(** The initial stack of a process (src/kernel/src/scheduler/mod.rs,
    [setup_abi_stack]): the System V layout of argc, argv, envp and the auxiliary
    vector on a region of physical memory. *)
From Stdlib Require Import ZArith Lia.
From stdpp Require Import base option list numbers.
From S2P Require Import Prelude X86Asm Context.
Local Open Scope Z_scope.

Definition MAX_EXEC_VEC : nat := 64.
Definition MAX_ARG_LEN : Z := 4096.

(** [x & !7] and [x & !15] *)
Definition down8 (x : Z) : Z := Z.land x (Z.lnot 7).
Definition down16 (x : Z) : Z := Z.land x (Z.lnot 15).

(** A string and its NUL. *)
Definition put_string (m : mem) (dst : Z) (s : bytes) : mem :=
  write_bytes (copy_bytes m dst (fun o => nth (Z.to_nat o) s 0) (Z.of_nat (length s))) (dst + Z.of_nat (length s)) 0 1.

Section abi.
Variables (region_phys region_va : Z).

(** The loop over argv, and over envp: offsets go down from [off].  [None] is the
    early return of [checked_sub]. *)
Fixpoint push_strings (m : mem) (off : Z) (ss : list bytes) : option (Z * list Z) * mem :=
  match ss with
  | [] => (Some (off, []), m)
  | s :: ss =>
      match checked_sub off (uadd (Z.of_nat (length s)) 1) with
      | None => (None, m)
      | Some o =>
          let off := down8 o in
          let m := put_string m (region_phys + off) s in
          match push_strings m off ss with
          | (Some (off', vas), m) => (Some (off', uadd region_va off :: vas), m)
          | (None, m) => (None, m)
          end
      end
  end.
End abi.

Definition auxv (phdr_va phnum phentsize rand_va : Z) : list Z :=
  [3; phdr_va; 4; phentsize; 5; phnum; 6; 4096; 11; 0; 12; 0; 13; 0; 14; 0; 23; 0; 25; rand_va; 0; 0].

Definition setup_abi_stack (m : mem) (seed region_phys region_size stack_top_va : Z) (argv0 : bytes) (argv envp : list bytes)
    (phdr_va phnum phentsize : Z) : option Z * mem :=
  let region_va := usub stack_top_va region_size in
  let argv := match argv with [] => [argv0] | _ => argv end in
  let rand_off := usub region_size 16 in
  let rand_va := uadd region_va rand_off in
  let m := store64 m (region_phys + rand_off) seed in
  let m := store64 m (region_phys + rand_off + 8) (Z.lxor seed 0xDEADBEEFCAFE1234) in
  match push_strings region_phys region_va m rand_off (take MAX_EXEC_VEC argv) with
  | (None, m) => (None, m)
  | (Some (off, argv_va), m) =>
      match push_strings region_phys region_va m off (take MAX_EXEC_VEC envp) with
      | (None, m) => (None, m)
      | (Some (off, envp_va), m) =>
          let argc := Nat.min (length argv) MAX_EXEC_VEC in
          let envc := Nat.min (length envp) MAX_EXEC_VEC in
          let table_size := 8 + (Z.of_nat argc + 1) * 8 + (Z.of_nat envc + 1) * 8 + 176 in
          match checked_sub off table_size with
          | None => (None, m)
          | Some o =>
              let rsp_off := down16 o in
              (Some (uadd region_va rsp_off),
               write_words m (region_phys + rsp_off)
                 ([Z.of_nat argc] ++ argv_va ++ [0] ++ envp_va ++ [0] ++ auxv phdr_va phnum phentsize rand_va))
          end
      end
  end.

(** ** Properties *)

(** Bytes from an address on. *)
Definition bytes_at (m : mem) (a : Z) (l : bytes) : Prop := forall j b, l !! j = Some b -> m (a + Z.of_nat j) = b.

(** What a string takes. *)
Definition need1 (s : bytes) : Z := Z.of_nat (length s) + 1 + (- (Z.of_nat (length s) + 1)) mod 8.
Definition need (ss : list bytes) : Z := foldr (fun s n => need1 s + n) 0 ss.

Lemma down8_eq x : down8 x = x - x mod 8.
Proof.
  unfold down8. rewrite <- Z.ldiff_land. change 7 with (Z.ones 3). rewrite Z.ldiff_ones_r by lia.
  rewrite Z.shiftr_div_pow2, Z.shiftl_mul_pow2 by lia. change (2 ^ 3) with 8. pose proof (Z.div_mod x 8). lia.
Qed.
Lemma down16_eq x : down16 x = x - x mod 16.
Proof.
  unfold down16. rewrite <- Z.ldiff_land. change 15 with (Z.ones 4). rewrite Z.ldiff_ones_r by lia.
  rewrite Z.shiftr_div_pow2, Z.shiftl_mul_pow2 by lia. change (2 ^ 4) with 16. pose proof (Z.div_mod x 16). lia.
Qed.

Lemma need1_bounds s : Z.of_nat (length s) + 1 <= need1 s <= Z.of_nat (length s) + 8.
Proof. unfold need1. pose proof (Z.mod_pos_bound (- (Z.of_nat (length s) + 1)) 8). lia. Qed.
Lemma need_pos ss : 0 <= need ss.
Proof. induction ss as [|s ss IH]; cbn [need foldr]; [lia|]. pose proof (need1_bounds s). fold (need ss). lia. Qed.

Lemma down8_need off s : off mod 8 = 0 -> down8 (off - (Z.of_nat (length s) + 1)) = off - need1 s.
Proof.
  intros H. rewrite down8_eq. unfold need1.
  rewrite <- (Z.add_opp_r off), <- Zplus_mod_idemp_l, H, Z.add_0_l. lia.
Qed.
Lemma need1_mod s : need1 s mod 8 = 0.
Proof. unfold need1. rewrite Zplus_mod_idemp_r, Z.add_opp_diag_r. done. Qed.

Lemma put_string_at m dst s : bytes_at (put_string m dst s) dst (s ++ [0]).
Proof.
  intros j b Hj. unfold put_string, write_bytes, copy_bytes. apply lookup_app_Some in Hj as [Hj|[Hl Hj]].
  - pose proof (lookup_lt_Some _ _ _ Hj). ztest; cbn; try lia. rewrite Z.add_simpl_l, Nat2Z.id. by apply nth_lookup_Some.
  - apply list_lookup_singleton_Some in Hj as [Hj <-]. ztest; cbn; done || lia.
Qed.
Lemma put_string_out m dst s x : ~ dst <= x < dst + Z.of_nat (length s) + 1 -> put_string m dst s x = m x.
Proof. intros. unfold put_string, write_bytes, copy_bytes. ztest; cbn; done || lia. Qed.
Lemma bytes_at_ext m m' a l : (forall x, a <= x < a + Z.of_nat (length l) -> m' x = m x) -> bytes_at m a l -> bytes_at m' a l.
Proof. intros H Hl j b Hj. rewrite H; [by apply Hl|]. apply lookup_lt_Some in Hj. lia. Qed.

(** A string of the vector is where its pointer says, NUL-terminated, between [lo] and [hi]. *)
Definition placed (m : mem) (region_phys region_va lo hi : Z) (s : bytes) (va : Z) : Prop :=
  exists o, va = uadd region_va o /\ lo <= o /\ o + Z.of_nat (length s) + 1 <= hi /\ bytes_at m (region_phys + o) (s ++ [0]).

Lemma placed_ext m m' P V lo lo' hi hi' s va : (forall x, P + lo <= x < P + hi -> m' x = m x) -> lo' <= lo -> hi <= hi' ->
  placed m P V lo hi s va -> placed m' P V lo' hi' s va.
Proof.
  intros H Hlo Hhi (o & -> & H1 & H2 & H3). exists o. split; [done|]. split; [lia|]. split; [lia|].
  eapply bytes_at_ext; [|exact H3]. rewrite length_app. cbn. intros x Hx. apply H. lia.
Qed.

Lemma push_strings_spec P V ss : forall m off, 0 <= off < 2 ^ 64 -> off mod 8 = 0 ->
  Forall (fun s => Z.of_nat (length s) < 2 ^ 63) ss ->
  let '(r, m') := push_strings P V m off ss in
  (forall x, ~ P <= x < P + off -> m' x = m x) /\
  match r with
  | Some (off', vas) => off' = off - need ss /\ 0 <= off' /\ off' mod 8 = 0 /\
      (forall x, ~ P + off' <= x < P + off -> m' x = m x) /\ Forall2 (placed m' P V off' off) ss vas
  | None => off < need ss
  end.
Proof.
  induction ss as [|s ss IH]; intros m off Hoff Hmod Hlen; cbn [push_strings need foldr].
  - split; [done|]. split_and!; try done; try lia.
  - apply Forall_cons_1 in Hlen as [Hs Hlen]. fold (need ss). pose proof (need1_bounds s) as Hb. pose proof (need_pos ss).
    rewrite uadd_small by lia. unfold checked_sub. ztest.
    2: { split; [done | lia]. }
    rewrite down8_need by done.
    assert (need1 s <= off) as Hn.
    { pose proof (need1_mod s) as Hm. apply Z.mod_divide in Hm as [a Ha]; [|lia]. apply Z.mod_divide in Hmod as [b Hb']; [|lia]. lia. }
    specialize (IH (put_string m (P + (off - need1 s)) s) (off - need1 s) ltac:(lia)).
    assert ((off - need1 s) mod 8 = 0) as Hm' by (by rewrite Zminus_mod, Hmod, need1_mod).
    specialize (IH Hm' Hlen). destruct (push_strings P V _ (off - need1 s) ss) as [[[off' vas]|] m'].
    + destruct IH as (Ho & -> & Hge & H8 & Hfr & HF). split.
      { intros x Hx. rewrite Ho by lia. apply put_string_out. lia. }
      split; [lia|]. split; [lia|]. split; [done|]. split.
      { intros x Hx. rewrite Hfr by lia. apply put_string_out. lia. }
      constructor.
      * exists (off - need1 s). split; [done|]. split; [lia|]. split; [lia|].
        eapply bytes_at_ext; [|apply put_string_at]. rewrite length_app. cbn. intros x Hx. apply Ho. lia.
      * eapply Forall2_impl; [|exact HF]. intros s' va'. apply placed_ext; [done | lia | lia].
    + destruct IH as (Ho & Hlt). split; [|lia]. intros x Hx. rewrite Ho by lia. apply put_string_out. lia.
Qed.

Lemma u64_take l : Forall u64 l -> forall n, Forall u64 (take n l).
Proof. intros H n. by apply Forall_take. Qed.

Definition argv_or (argv0 : bytes) (argv : list bytes) : list bytes := match argv with [] => [argv0] | _ => argv end.
(** The size of the whole frame, up to the 16-byte alignment of its start. *)
Definition frame_size (argv envp : list bytes) : Z :=
  16 + need argv + need envp + (8 + (Z.of_nat (length argv) + 1) * 8 + (Z.of_nat (length envp) + 1) * 8 + 176).

(** The region: where it is in memory and in the new address space. *)
Record abi_region (region_phys region_size stack_top_va : Z) : Prop := {
  rg_phys : 0 <= region_phys;
  rg_end : region_phys + region_size < 2 ^ 64;
  rg_size : 16 <= region_size;
  rg_size_mod : region_size mod 16 = 0;
  rg_top : region_size <= stack_top_va < 2 ^ 64;
  rg_top_mod : stack_top_va mod 16 = 0
}.

Lemma abi_vas P V lo hi m ss vas : Forall2 (placed m P V lo hi) ss vas -> Forall u64 vas.
Proof.
  induction 1 as [|s va ss vas (o & -> & _) _ IH]; constructor; [|done].
  unfold u64, uadd, wrap. apply Z.mod_pos_bound. lia.
Qed.

Lemma take_min {B} (l : list B) n : length (take n l) = Nat.min (length l) n.
Proof. rewrite length_take. lia. Qed.

Lemma argv_or_short argv0 argv envp :
  Forall (fun s => Z.of_nat (length s) < 2 ^ 63) (argv0 :: argv ++ envp) ->
  Forall (fun s => Z.of_nat (length s) < 2 ^ 63) (take MAX_EXEC_VEC (argv_or argv0 argv)) /\
  Forall (fun s => Z.of_nat (length s) < 2 ^ 63) (take MAX_EXEC_VEC envp).
Proof.
  intros Hlen. apply Forall_cons_1 in Hlen as [H0 Hlen]. apply Forall_app in Hlen as [H1 H2].
  split; apply Forall_take; [|done]. unfold argv_or. destruct argv; [by repeat constructor | done].
Qed.

(** Rounding an offset down keeps it in the region and aligns the address. *)
Lemma down16_bounds o : 0 <= o -> 0 <= down16 o <= o /\ o < down16 o + 16.
Proof.
  intros Ho. rewrite down16_eq. pose proof (Z.mod_pos_bound o 16 ltac:(lia)). pose proof (Z.mod_le o 16 Ho ltac:(lia)). lia.
Qed.

Lemma down16_aligned top size o : top mod 16 = 0 -> size mod 16 = 0 -> (top - size + down16 o) mod 16 = 0.
Proof.
  intros Ht Hs. rewrite down16_eq. apply Z.mod_divide; [lia|].
  apply Z.mod_divide in Hs as [a Ha]; [|lia]. apply Z.mod_divide in Ht as [b Hb]; [|lia].
  exists (b - a + o / 16). pose proof (Z.div_mod o 16 ltac:(lia)). lia.
Qed.

Lemma mod16_sub16 n : n mod 16 = 0 -> (n - 16) mod 8 = 0.
Proof. intros H. apply Z.mod_divide in H as [a Ha]; [|lia]. apply Z.mod_divide; [lia|]. exists (2 * a - 2). lia. Qed.

(** C21: The initial stack of a process: when [setup_abi_stack] succeeds, the new
    stack pointer is 16-byte aligned and inside the region, and the words from there up are argc, the argv
    pointers, a null, the envp pointers, a null and the auxiliary vector ending in AT_NULL;
    every pointer is the address of its string, which lies NUL-terminated in the region
    above the table; nothing outside the region is written.  It fails exactly
    when the frame does not fit. *)
Theorem abi_stack_layout (m : mem) (seed region_phys region_size stack_top_va : Z) (argv0 : bytes) (argv envp : list bytes)
    (phdr_va phnum phentsize : Z) :
  abi_region region_phys region_size stack_top_va -> u64 seed -> u64 phdr_va -> u64 phnum -> u64 phentsize ->
  Forall (fun s => Z.of_nat (length s) < 2 ^ 63) (argv0 :: argv ++ envp) ->
  let '(r, m') := setup_abi_stack m seed region_phys region_size stack_top_va argv0 argv envp phdr_va phnum phentsize in
  let av := take MAX_EXEC_VEC (argv_or argv0 argv) in
  let ev := take MAX_EXEC_VEC envp in
  let region_va := stack_top_va - region_size in
  (forall x, ~ region_phys <= x < region_phys + region_size -> m' x = m x) /\
  match r with
  | None => region_size < frame_size av ev
  | Some rsp =>
      frame_size av ev <= region_size /\
      exists off argv_va envp_va,
        rsp = region_va + off /\ 0 <= off < region_size /\ rsp mod 16 = 0 /\
        let words := [Z.of_nat (length av)] ++ argv_va ++ [0] ++ envp_va ++ [0] ++
          auxv phdr_va phnum phentsize (stack_top_va - 16) in
        stack_has m' (region_phys + off) words /\
        let top := off + 8 * Z.of_nat (length words) in
        Forall2 (placed m' region_phys region_va top (region_size - 16)) av argv_va /\
        Forall2 (placed m' region_phys region_va top (region_size - 16)) ev envp_va /\
        load64 m' (region_phys + region_size - 16) = seed
  end.
Proof.
  intros [Hp He Hs Hsm Ht Htm] Hseed Hph Hpn Hpe Hlen. unfold setup_abi_stack. fold (argv_or argv0 argv).
  set (av := take MAX_EXEC_VEC (argv_or argv0 argv)). set (ev := take MAX_EXEC_VEC envp).
  destruct (argv_or_short _ _ _ Hlen) as [Hav Hev]. fold av ev in Hav, Hev.
  rewrite !usub_small by lia. rewrite uadd_small by lia.
  replace (stack_top_va - region_size + (region_size - 16)) with (stack_top_va - 16) by lia.
  set (m0 := store64 (store64 m (region_phys + (region_size - 16)) seed) (region_phys + (region_size - 16) + 8) _).
  assert (forall x, ~ region_phys <= x < region_phys + region_size -> m0 x = m x) as Hm0.
  { intros x Hx. unfold m0. rewrite !store64_out by lia. done. }
  pose proof (mod16_sub16 _ Hsm) as Hmod.
  pose proof (push_strings_spec region_phys (stack_top_va - region_size) av m0 (region_size - 16) ltac:(lia) Hmod Hav) as H1.
  unfold frame_size. pose proof (need_pos ev) as Hne.
  destruct (push_strings _ _ m0 _ av) as [[[off1 argv_va]|] m1].
  2: { destruct H1 as [H1 H2]. split; [|lia]. intros x Hx. rewrite H1 by lia. by apply Hm0. }
  destruct H1 as (_ & Eo1 & Hg1 & Hm1 & Hf1 & HF1).
  pose proof (push_strings_spec region_phys (stack_top_va - region_size) ev m1 off1 ltac:(pose proof (need_pos av); lia) Hm1 Hev) as H2.
  pose proof (need_pos av) as Hna.
  destruct (push_strings _ _ m1 off1 ev) as [[[off2 envp_va]|] m2].
  2: { destruct H2 as [H1 H2]. split; [|lia]. intros x Hx. rewrite H1, Hf1 by lia. by apply Hm0. }
  destruct H2 as (_ & Eo2 & Hg2 & Hm2 & Hf2 & HF2).
  unfold checked_sub. rewrite <- !take_min. fold av ev. ztest.
  2: { split; [|lia]. intros x Hx. rewrite Hf2, Hf1 by lia. by apply Hm0. }
  pose proof (Forall2_length HF1) as Hl1. pose proof (Forall2_length HF2) as Hl2.
  set (o := off2 - (8 + (Z.of_nat (length av) + 1) * 8 + (Z.of_nat (length ev) + 1) * 8 + 176)) in *.
  set (words := [Z.of_nat (length av)] ++ argv_va ++ [0] ++ envp_va ++ [0] ++ auxv phdr_va phnum phentsize (stack_top_va - 16)).
  assert (8 * Z.of_nat (length words) = off2 - o) as Hw.
  { unfold words, o. rewrite !length_app, Hl1, Hl2. cbn [length auxv]. lia. }
  destruct (down16_bounds o ltac:(lia)) as [Hoff Hoff']. pose proof (down16_aligned _ _ o Htm Hsm) as Hal.
  set (off := down16 o) in *.
  assert (forall x, region_phys + off2 <= x \/ x < region_phys + off -> write_words m2 (region_phys + off) words x = m2 x) as Hww.
  { intros x Hx. apply write_words_out. lia. }
  split.
  { intros x Hx. rewrite Hww, Hf2, Hf1 by lia. by apply Hm0. }
  split; [lia|]. exists off, argv_va, envp_va. rewrite uadd_small by lia.
  split; [done|]. split; [lia|]. split; [done|].
  cbn zeta. fold words. rewrite Hw. split; [|split; [|split]].
  - apply write_words_has. unfold words. repeat first [apply Forall_app_2 | apply Forall_cons_2 | apply Forall_nil_2]; try done;
      try (by eapply abi_vas); unfold u64; lia.
  - eapply Forall2_impl; [|exact HF1]. intros s va. apply placed_ext; [|lia | lia].
    intros x Hx. rewrite Hww, Hf2 by lia. done.
  - eapply Forall2_impl; [|exact HF2]. intros s va. apply placed_ext; [|lia | lia].
    intros x Hx. rewrite Hww by lia. done.
  - transitivity (load64 m0 (region_phys + (region_size - 16))).
    { replace (region_phys + region_size - 16) with (region_phys + (region_size - 16)) by lia.
      apply load64_ext. intros x Hx. rewrite Hww, Hf2, Hf1 by lia. done. }
    unfold m0. rewrite load64_store64_ne by lia. by apply load64_store64_eq.
Qed.

Lemma abi_stack_layout_witness :
  let '(r, m') := setup_abi_stack (fun _ => 0) 5 0x10000 0x8000 0x90000000 (str "init") [str "sh"; str "-c"] [] 1 2 56 in
  r = Some 0x8FFFFF00 /\ load64 m' (0x10000 + 0x7F00) = 2.
Proof.
  pose proof (abi_stack_layout (fun _ => 0) 5 0x10000 0x8000 0x90000000 (str "init") [str "sh"; str "-c"] [] 1 2 56) as H.
  destruct (setup_abi_stack _ _ _ _ _ _ _ _ _ _ _) as [r m'] eqn:E.
  assert (r = Some 0x8FFFFF00) as -> by (change r with (fst (r, m')); rewrite <- E; by vm_compute).
  split; [done|].
  destruct H as (_ & _ & off & argv_va & envp_va & Hr & _ & _ & Hw & _); [by split | by vm_compute.. | repeat constructor |].
  assert (off = 0x7F00) as -> by lia. apply stack_has_cons in Hw as [Hw _]. exact Hw.
Defined.
