(* ===== verification/Kernel.v ===== *)
(** The state of the whole kernel, and the monad its upper layers are written in.

    The statics of the scheduler, of the pipe pool, of the file system, of the
    drivers and of the system-call layer, the memory with its page allocator, and
    the registers of the processor that the kernel reads and writes.  A function
    of the kernel is a state transformer that can panic ([KM]).

    User memory is reached through the page table in use, as the processor does
    it: an address that is not mapped faults in kernel mode, where the handler
    halts (idt.rs, [pagefault_handler_x86]), so it is a [Panic] here. *)
From Stdlib Require Import ZArith Lia.
From stdpp Require Import base option list numbers.
From S2P Require Import Prelude Console RingBuf Ipc Process PageTable Pages Paging RamFs.
Local Open Scope Z_scope.

(** scheduler/mod.rs: the statics.  [parked] is what the suspended calls of
    [schedule] hold in their locals: [next] and [irqs_on], on each task's own stack. *)
Record sched := mk_sched {
  tasks : list (option Task);
  guard_phys : list Z;
  cur : nat;
  tick_count : Z;
  tty_waiter : option nat;
  pipe_waiters : list (option nat);
  next_pid : Z;               (* process/mod.rs, NEXT_PID *)
  parked : list (option (nat * bool))
}.

(** Registers: FS.base, the page table root, the stack for entries from user
    mode, the interrupt flag, the stack pointer; and how many random words were drawn. *)
Record cpu_state := mk_cpu_state {
  fs_reg : Z; page_root : Z; entry_sp : Z; irqs : bool; sp_reg : Z; draws : nat
}.

(** drivers/ and boards/: the input buffers, the bytes sent to the serial line, the screen, and
    the (port, value) writes to the interrupt controller. *)
Record tty := mk_tty { serial_in : ringbuf; kbd_in : ringbuf; serial_out : bytes; vga : screen; pic_writes : list (Z * Z) }.

(** syscall/mod.rs: the saved user context and the pending execve. *)
Record sysctx := mk_sysctx { user_ip : Z; user_sp : Z; user_regs : list Z; exec_request : option (Z * Z * Z) }.

Record kernel (A : Type) := mk_kernel {
  k_sched : sched; k_cpu : cpu_state; k_tty : tty; k_sys : sysctx;
  k_pool : pool; k_fs : RamFs; k_vm : vm A
}.
Arguments mk_kernel {A}. Arguments k_sched {A}. Arguments k_cpu {A}. Arguments k_tty {A}. Arguments k_sys {A}.
Arguments k_pool {A}. Arguments k_fs {A}. Arguments k_vm {A}.

(** ** Field updates *)

Section setters.
Context {A : Type}.
Implicit Types k : kernel A.
Definition put_sched (x : sched) k := mk_kernel x (k_cpu k) (k_tty k) (k_sys k) (k_pool k) (k_fs k) (k_vm k).
Definition put_cpu (x : cpu_state) k := mk_kernel (k_sched k) x (k_tty k) (k_sys k) (k_pool k) (k_fs k) (k_vm k).
Definition put_tty (x : tty) k := mk_kernel (k_sched k) (k_cpu k) x (k_sys k) (k_pool k) (k_fs k) (k_vm k).
Definition put_sys (x : sysctx) k := mk_kernel (k_sched k) (k_cpu k) (k_tty k) x (k_pool k) (k_fs k) (k_vm k).
Definition put_pool (x : pool) k := mk_kernel (k_sched k) (k_cpu k) (k_tty k) (k_sys k) x (k_fs k) (k_vm k).
Definition put_fs (x : RamFs) k := mk_kernel (k_sched k) (k_cpu k) (k_tty k) (k_sys k) (k_pool k) x (k_vm k).
Definition put_vm (x : vm A) k := mk_kernel (k_sched k) (k_cpu k) (k_tty k) (k_sys k) (k_pool k) (k_fs k) x.
End setters.

Definition with_tasks (x : list (option Task)) (s : sched) := mk_sched x (guard_phys s) (cur s) (tick_count s) (tty_waiter s) (pipe_waiters s) (next_pid s) (parked s).
Definition with_guards (x : list Z) (s : sched) := mk_sched (tasks s) x (cur s) (tick_count s) (tty_waiter s) (pipe_waiters s) (next_pid s) (parked s).
Definition with_cur (x : nat) (s : sched) := mk_sched (tasks s) (guard_phys s) x (tick_count s) (tty_waiter s) (pipe_waiters s) (next_pid s) (parked s).
Definition with_ticks (x : Z) (s : sched) := mk_sched (tasks s) (guard_phys s) (cur s) x (tty_waiter s) (pipe_waiters s) (next_pid s) (parked s).
Definition with_tty_waiter (x : option nat) (s : sched) := mk_sched (tasks s) (guard_phys s) (cur s) (tick_count s) x (pipe_waiters s) (next_pid s) (parked s).
Definition with_pipe_waiters (x : list (option nat)) (s : sched) := mk_sched (tasks s) (guard_phys s) (cur s) (tick_count s) (tty_waiter s) x (next_pid s) (parked s).
Definition with_next_pid (x : Z) (s : sched) := mk_sched (tasks s) (guard_phys s) (cur s) (tick_count s) (tty_waiter s) (pipe_waiters s) x (parked s).
Definition with_parked (x : list (option (nat * bool))) (s : sched) := mk_sched (tasks s) (guard_phys s) (cur s) (tick_count s) (tty_waiter s) (pipe_waiters s) (next_pid s) x.

Definition with_fs_reg (x : Z) (c : cpu_state) := mk_cpu_state x (page_root c) (entry_sp c) (irqs c) (sp_reg c) (draws c).
Definition with_page_root (x : Z) (c : cpu_state) := mk_cpu_state (fs_reg c) x (entry_sp c) (irqs c) (sp_reg c) (draws c).
Definition with_entry_sp (x : Z) (c : cpu_state) := mk_cpu_state (fs_reg c) (page_root c) x (irqs c) (sp_reg c) (draws c).
Definition with_irqs (x : bool) (c : cpu_state) := mk_cpu_state (fs_reg c) (page_root c) (entry_sp c) x (sp_reg c) (draws c).
Definition with_sp (x : Z) (c : cpu_state) := mk_cpu_state (fs_reg c) (page_root c) (entry_sp c) (irqs c) x (draws c).
Definition with_draws (x : nat) (c : cpu_state) := mk_cpu_state (fs_reg c) (page_root c) (entry_sp c) (irqs c) (sp_reg c) x.

(** ** The monad *)

Definition KM (A X : Type) : Type := kernel A -> outcome (X * kernel A).

Section monad.
Context {A : Type}.

#[export] Instance km_ret : MRet (KM A) := fun X x k => Done (x, k).
#[export] Instance km_bind : MBind (KM A) := fun X Y f m k =>
  match m k with Done (x, k) => f x k | Panic => Panic end.

Definition gets {X} (f : kernel A -> X) : KM A X := fun k => Done (f k, k).
Definition modify (f : kernel A -> kernel A) : KM A unit := fun k => Done (tt, f k).
Definition lift {X} (m : outcome X) : KM A X := fun k => match m with Done x => Done (x, k) | Panic => Panic end.
Definition panic {X} : KM A X := fun _ => Panic.

Definition mod_sched (f : sched -> sched) : KM A unit := modify (fun k => put_sched (f (k_sched k)) k).
Definition mod_cpu (f : cpu_state -> cpu_state) : KM A unit := modify (fun k => put_cpu (f (k_cpu k)) k).

(** An operation of a lower layer, on its part of the state. *)
Definition on_vm {X} (f : vm A -> outcome (X * vm A)) : KM A X := fun k =>
  match f (k_vm k) with Done (x, v) => Done (x, put_vm v k) | Panic => Panic end.
Definition on_mem (f : mem -> mem) : KM A unit := modify (fun k => put_vm (mk_vm (f (vm_mem (k_vm k))) (vm_pages (k_vm k))) k).
Definition on_pool {X} (f : pool -> outcome (X * pool)) : KM A X := fun k =>
  match f (k_pool k) with Done (x, p) => Done (x, put_pool p k) | Panic => Panic end.
Definition on_pool' (f : pool -> outcome pool) : KM A unit := on_pool (fun P => P ← f P; Done (tt, P)).
Definition on_fs {X} (f : RamFs -> outcome (X * RamFs)) : KM A X := fun k =>
  match f (k_fs k) with Done (x, s) => Done (x, put_fs s k) | Panic => Panic end.

(** [for x in xs { body(x) }] *)
Fixpoint forM {X} (xs : list X) (body : X -> KM A unit) : KM A unit :=
  match xs with
  | [] => mret tt
  | x :: xs => _ ← body x; forM xs body
  end.
End monad.

(** [let x = m?;] in a function that returns an option. *)
Notation "x ←? m ; k" := (mbind (fun o => match o with Some x => k | None => mret None end) m)
  (at level 20, m at level 100, k at level 200, only parsing) : kernel_scope.
Notation "' p ←? m ; k" := (mbind (fun o => match o with Some p => k | None => mret None end) m)
  (at level 20, p pattern, m at level 100, k at level 200, only parsing) : kernel_scope.

(** ** arch/mod.rs: what the upper layers use of the architecture *)

Class ArchOps (A : Type) := {
  arch_protect_guard : vm A -> Z -> outcome (bool * vm A);
  arch_kernel_root : Z;
  arch_user_code_va : Z;
  arch_user_stack_top : Z;
  arch_init_stack : mem -> Z -> Z -> Z -> Z * mem;
  arch_init_user_stack : mem -> Z -> Z -> Z -> Z -> Z * mem;
  arch_init_fork_stack : mem -> Z -> Z -> Z -> Z -> list Z -> list Z -> outcome (Z * mem);
  arch_callee_saved : mem -> list Z;
  arch_has_fs : bool;             (* FS.base exists *)
  arch_seed : nat -> Z;           (* the n-th value of [entropy_seed] *)
  arch_walk : mem -> Z -> Z -> option Z  (* the processor's translation *)
}.

Section cpu.
Context {A : Type} {arch : ArchOps A}.

Definition save_and_disable_interrupts : KM A bool :=
  b ← gets (fun k => irqs (k_cpu k)); mod_cpu (with_irqs false);; mret b.
Definition restore_interrupt_state (was_enabled : bool) : KM A unit :=
  if was_enabled then mod_cpu (with_irqs true) else mret tt.
Definition set_kernel_stack (sp : Z) : KM A unit := mod_cpu (with_entry_sp sp).
Definition switch_address_space (root : Z) : KM A unit := mod_cpu (with_page_root root).
Definition read_fs_base : KM A Z := gets (fun k => if arch_has_fs then fs_reg (k_cpu k) else 0).
Definition write_fs_base (v : Z) : KM A unit := if arch_has_fs then mod_cpu (with_fs_reg v) else mret tt.
Definition entropy_seed : KM A Z :=
  n ← gets (fun k => draws (k_cpu k)); mod_cpu (with_draws (S n));; mret (arch_seed n).

(** ** User memory *)

Definition user_addr (va : Z) : KM A Z :=
  o ← gets (fun k => arch_walk (vm_mem (k_vm k)) (page_root (k_cpu k)) (wrap 64 va));
  lift (unwrap o).
Definition user_read8 (va : Z) : KM A Z := pa ← user_addr va; gets (fun k => vm_mem (k_vm k) pa).
Definition user_write8 (va b : Z) : KM A unit := pa ← user_addr va; on_mem (fun m => write_bytes m pa b 1).

(** [n] bytes from [va]. *)
Fixpoint user_read (va : Z) (n : nat) : KM A bytes :=
  match n with
  | O => mret []
  | S n => b ← user_read8 va; l ← user_read (va + 1) n; mret (b :: l)
  end.
Fixpoint user_write (va : Z) (l : bytes) : KM A unit :=
  match l with
  | [] => mret tt
  | b :: l => user_write8 va b;; user_write (va + 1) l
  end.
Definition user_read_le (va : Z) (n : nat) : KM A Z := l ← user_read va n; mret (from_le l).
Definition user_write_le (va : Z) (n : nat) (v : Z) : KM A unit := user_write va (to_le n v).
End cpu.

(** ** Runs of the monad *)

(** [m] does not panic from [k], and what it returns and leaves satisfies [Q]. *)
Definition kruns {A X} (m : KM A X) (k : kernel A) (Q : X -> kernel A -> Prop) : Prop :=
  match m k with Done (x, k') => Q x k' | Panic => False end.

Lemma kruns_ret {A X} (x : X) (k : kernel A) (Q : X -> kernel A -> Prop) : Q x k -> kruns (mret x) k Q.
Proof. done. Qed.
Lemma kruns_bind {A X Y} (m : KM A X) (f : X -> KM A Y) k (Q : Y -> kernel A -> Prop) :
  kruns m k (fun x k' => kruns (f x) k' Q) -> kruns (m ≫= f) k Q.
Proof. unfold kruns, mbind, km_bind. destruct (m k) as [[x k']|]; done. Qed.
Lemma kruns_mono {A X} (m : KM A X) k (P Q : X -> kernel A -> Prop) :
  kruns m k P -> (forall x k', P x k' -> Q x k') -> kruns m k Q.
Proof. unfold kruns. destruct (m k) as [[x k']|]; [|done]. eauto. Qed.
Lemma bind_run {A X Y} (m : KM A X) (f : X -> KM A Y) k x k' : m k = Done (x, k') -> (m ≫= f) k = f x k'.
Proof. unfold mbind, km_bind. by intros ->. Qed.
Lemma bind_inv {A X Y} (m : KM A X) (f : X -> KM A Y) k y k' : (m ≫= f) k = Done (y, k') ->
  exists x k1, m k = Done (x, k1) /\ f x k1 = Done (y, k').
Proof. unfold mbind, km_bind. destruct (m k) as [[x k1]|]; [|done]. eauto. Qed.

(** Unfold the outermost bind, and reduce the operations of the monad and the field updates. *)
Ltac kproj := cbn [negb km_ret outcome_bind outcome_ret option_bind option_ret unwrap
  gets modify lift panic mod_sched mod_cpu on_vm on_mem on_pool on_fs
  put_sched put_cpu put_tty put_sys put_pool put_fs put_vm
  k_sched k_cpu k_tty k_sys k_pool k_fs k_vm
  with_tasks with_guards with_cur with_ticks with_tty_waiter with_pipe_waiters with_next_pid with_parked
  tasks guard_phys cur tick_count tty_waiter pipe_waiters next_pid parked
  with_fs_reg with_page_root with_entry_sp with_irqs with_sp with_draws
  fs_reg page_root entry_sp irqs sp_reg draws fst snd vm_mem vm_pages].
Ltac kbind := match goal with
  | |- context [@mbind (KM ?A) _ ?X ?Y ?f ?m ?k] =>
      change (@mbind (KM A) _ X Y f m k) with (match m k with Done (x, k') => f x k' | Panic => Panic end)
  | |- context [@mret (KM ?A) _ ?X ?x ?k] => change (@mret (KM A) _ X x k) with (@Done (X * kernel A) (x, k))
  end.
Ltac kred := kproj; repeat (kbind; kproj).

Lemma on_pool_run {A X} (f : pool -> outcome (X * pool)) (k : kernel A) x p : f (k_pool k) = Done (x, p) -> on_pool f k = Done (x, put_pool p k).
Proof. unfold on_pool. by intros ->. Qed.
Lemma on_vm_run {A X} (f : vm A -> outcome (X * vm A)) (k : kernel A) x v : f (k_vm k) = Done (x, v) -> on_vm f k = Done (x, put_vm v k).
Proof. unfold on_vm. by intros ->. Qed.
Lemma on_fs_run {A X} (f : RamFs -> outcome (X * RamFs)) (k : kernel A) x s : f (k_fs k) = Done (x, s) -> on_fs f k = Done (x, put_fs s k).
Proof. unfold on_fs. by intros ->. Qed.
Lemma lift_run {A X} (m : outcome X) (k : kernel A) x : m = Done x -> lift m k = Done (x, k).
Proof. unfold lift. by intros ->. Qed.
