(* ===== verification/Scheduler.v ===== *)
(** The scheduler (src/kernel/src/scheduler/mod.rs): the round-robin switch, the
    delivery of signals, the creation, replacement, exit and reaping of tasks, the
    blocking on terminal input and pipes, and the task fields that the
    system calls use.

    [schedule] is one transition of the machine: up to [context_switch] on the stack of
    the task that calls it, from there on what the task switched to does when its own
    suspended call returns (or its trampoline, on a new stack).  A loop that
    calls [schedule] and looks again is given by its body, which returns
    [None] when it has switched away and will look again. *)
From Stdlib Require Import ZArith Lia.
From stdpp Require Import base option list numbers.
From S2P Require Import Prelude RingBuf Ipc Process PageTable Pages Paging RamFs Elf AbiStack Kernel.
Local Open Scope Z_scope.
Local Open Scope kernel_scope.

Definition MAX_TASKS : nat := 64.
Definition STACK_PAGES : Z := 8.
Definition STACK_SIZE : Z := STACK_PAGES * 4096.
Definition GUARD_SIZE : Z := 4096.
Definition USER_STACK_PAGES : Z := 8.
Definition USER_STACK_SIZE : Z := USER_STACK_PAGES * 4096.
Definition GUARD_CANARY : Z := 0xDEADC0DEDEADC0DE.
Definition u64_MAX : Z := 2 ^ 64 - 1.

(** Task field updates that process/mod.rs does not need. *)
Definition with_kernel_sp (x : Z) (t : Task) : Task :=
  mk_task (pid t) (ppid t) (state t) (context t) x (stack_top t) (exit_code t) (is_user t) (page_table_phys t)
    (pending_signals t) (waiting_for_pid t) (heap_brk t) (fd_table t) (cwd t) (fs_base t).
Definition with_waiting (x : Z) (t : Task) : Task :=
  mk_task (pid t) (ppid t) (state t) (context t) (kernel_sp t) (stack_top t) (exit_code t) (is_user t) (page_table_phys t)
    (pending_signals t) x (heap_brk t) (fd_table t) (cwd t) (fs_base t).
Definition with_context (x : CpuContext) (t : Task) : Task :=
  mk_task (pid t) (ppid t) (state t) x (kernel_sp t) (stack_top t) (exit_code t) (is_user t) (page_table_phys t)
    (pending_signals t) (waiting_for_pid t) (heap_brk t) (fd_table t) (cwd t) (fs_base t).
Definition with_page_table (x : Z) (t : Task) : Task :=
  mk_task (pid t) (ppid t) (state t) (context t) (kernel_sp t) (stack_top t) (exit_code t) (is_user t) x
    (pending_signals t) (waiting_for_pid t) (heap_brk t) (fd_table t) (cwd t) (fs_base t).
Definition with_heap_brk (x : Z) (t : Task) : Task :=
  mk_task (pid t) (ppid t) (state t) (context t) (kernel_sp t) (stack_top t) (exit_code t) (is_user t) (page_table_phys t)
    (pending_signals t) (waiting_for_pid t) x (fd_table t) (cwd t) (fs_base t).
Definition with_cwd (x : nat) (t : Task) : Task :=
  mk_task (pid t) (ppid t) (state t) (context t) (kernel_sp t) (stack_top t) (exit_code t) (is_user t) (page_table_phys t)
    (pending_signals t) (waiting_for_pid t) (heap_brk t) (fd_table t) x (fs_base t).
Definition with_fs_base (x : Z) (t : Task) : Task :=
  mk_task (pid t) (ppid t) (state t) (context t) (kernel_sp t) (stack_top t) (exit_code t) (is_user t) (page_table_phys t)
    (pending_signals t) (waiting_for_pid t) (heap_brk t) (fd_table t) (cwd t) x.

(** The statics at boot. *)
Definition sched_bss : sched :=
  mk_sched (replicate MAX_TASKS None) (replicate MAX_TASKS 0) 0 0 None (replicate MAX_PIPES None) 1 (replicate MAX_TASKS None).

(** ** Decisions on the task array *)

Definition state_is (s : TaskState) (o : option Task) : bool :=
  match o with Some t => bool_decide (state t = s) | None => false end.
(** [TASKS[i].is_none() || matches!(TASKS[i], Some(t) if t.state == Zombie)] *)
Definition vacant (o : option Task) : bool := match o with None => true | Some t => state_is Zombie (Some t) end.
(** The first vacant slot of [1..MAX_TASKS]. *)
Fixpoint first_vacant (i : nat) (ts : list (option Task)) : option nat :=
  match ts with
  | [] => None
  | o :: ts => if vacant o then Some i else first_vacant (S i) ts
  end.
Definition vacant_slot (ts : list (option Task)) : option nat := first_vacant 1 (drop 1 ts).

Definition search_start (current : nat) : nat :=
  if (current =? 0)%nat then 1 else (current mod (MAX_TASKS - 1) + 1)%nat.
Definition search_order (current : nat) : list nat :=
  (fun i => ((search_start current - 1 + i) mod (MAX_TASKS - 1) + 1)%nat) <$> seq 0 (MAX_TASKS - 1).
(** The search of [schedule]: the first ready slot, or 0. *)
Fixpoint pick_next (ts : list (option Task)) (order : list nat) : outcome nat :=
  match order with
  | [] => Done 0%nat
  | slot :: order => o ← get ts slot; if state_is Ready o then Done slot else pick_next ts order
  end.

(** Wakes a blocked task. *)
Definition wake (t : Task) : Task := if bool_decide (state t = Blocked) then with_state Ready t else t.

(** [wake_child_waiters(exiting_pid, parent_pid)] *)
Definition wake_waiter (exiting_pid parent_pid : Z) (t : Task) : Task :=
  if negb (bool_decide (state t = Blocked)) then t
  else if (waiting_for_pid t =? exiting_pid) || ((waiting_for_pid t =? u64_MAX) && (pid t =? parent_pid))
  then with_state Ready (with_waiting 0 t) else t.
Definition wake_child_waiters (exiting_pid parent_pid : Z) (ts : list (option Task)) : list (option Task) :=
  (fun o : option Task => wake_waiter exiting_pid parent_pid <$> o) <$> ts.

(** The first task from slot [i] on that satisfies [p]. *)
Fixpoint find_task (p : Task -> bool) (i : nat) (ts : list (option Task)) : option (nat * Task) :=
  match ts with
  | [] => None
  | Some t :: ts => if p t then Some (i, t) else find_task p (S i) ts
  | None :: ts => find_task p (S i) ts
  end.

Definition signal_parent (parent_pid sig : Z) (ts : list (option Task)) : list (option Task) :=
  match find_task (fun t => pid t =? parent_pid) 0 ts with
  | Some (slot, t) => <[slot := Some (snd (raise_signal t sig))]> ts
  | None => ts
  end.

(** The chain of [t.take_signal(a) || t.take_signal(b) || ...] *)
Fixpoint take_any (t : Task) (sigs : list Z) : bool * Task :=
  match sigs with
  | [] => (false, t)
  | sig :: sigs => let '(b, t) := take_signal t sig in if b : bool then (true, t) else take_any t sigs
  end.
Definition LETHAL : list Z := [SIGKILL; SIGABRT; SIGQUIT; SIGTERM; SIGINT].

(** The body of the loop of [deliver_all_signals]. *)
Definition deliver_signals (s : list (option Task) * pool) (slot : nat) : outcome (list (option Task) * pool) :=
  let '(ts, P) := s in
  o ← get ts slot;
  match o with
  | None => Done (ts, P)
  | Some t =>
      if bool_decide (state t = Zombie) then Done (ts, P) else
      if pending_signals t =? 0 then Done (ts, P) else
      let '(lethal, t) := take_any t LETHAL in
      if lethal : bool then
        '(t, P) ← exit t 1 P;
        Done (wake_child_waiters (pid t) (ppid t) (<[slot := Some t]> ts), P)
      else
        let '(chld, t) := take_signal t SIGCHLD in
        let t := if chld && negb (waiting_for_pid t =? 0) then with_waiting 0 (with_state Ready t) else t in
        Done (<[slot := Some t]> ts, P)
  end.

Section sched.
Context {A : Type} {ops : PageOps A} {vops : VmOps A} {arch : ArchOps A}.

(** ** Access to the statics *)

Definition CURRENT : KM A nat := gets (fun k => cur (k_sched k)).
Definition get_task (slot : nat) : KM A (option Task) := ts ← gets (fun k => tasks (k_sched k)); lift (get ts slot).
Definition set_task (slot : nat) (o : option Task) : KM A unit :=
  ts ← gets (fun k => tasks (k_sched k)); ts ← lift (set ts slot o); mod_sched (with_tasks ts).
(** [TASKS[slot].as_mut().unwrap()] *)
Definition update_task (slot : nat) (f : Task -> Task) : KM A unit :=
  o ← get_task slot; t ← lift (unwrap o); set_task slot (Some (f t)).
(** [if let Some(t) = TASKS[slot].as_mut() { .. }] *)
Definition update_if (slot : nat) (f : Task -> Task) : KM A unit :=
  o ← get_task slot; match o with Some t => set_task slot (Some (f t)) | None => mret tt end.
Definition on_tasks (f : list (option Task) -> list (option Task)) : KM A unit :=
  mod_sched (fun s => with_tasks (f (tasks s)) s).
(** [TASKS[CURRENT].as_ref().map(f).unwrap_or(d)] *)
Definition current_field {X} (f : Task -> X) (d : X) : KM A X :=
  c ← CURRENT; o ← get_task c; mret (match o with Some t => f t | None => d end).
Definition set_parked (slot : nat) (x : option (nat * bool)) : KM A unit :=
  l ← gets (fun k => parked (k_sched k)); l ← lift (set l slot x); mod_sched (with_parked l).

Definition init : KM A unit := set_task 0 (Some Task_idle).

(** ** The switch *)

Definition check_canary (slot : nat) : KM A unit :=
  if (slot =? 0)%nat then mret tt else
  gs ← gets (fun k => guard_phys (k_sched k));
  guard ← lift (get gs slot);
  if guard =? 0 then mret tt else
  c ← gets (fun k => load64 (vm_mem (k_vm k)) (uadd guard GUARD_SIZE));
  if c =? GUARD_CANARY then mret tt else panic.

(** What task [slot] does when it is switched to: the end of its own call of
    [schedule], with that call's [next] and [irqs_on]; a task that never ran starts
    from its trampoline, a user task with interrupts on. *)
Definition resume (slot : nat) : KM A unit :=
  fs ← gets (fun k => parked (k_sched k));
  f ← lift (get fs slot);
  match f with
  | Some (next, irqs_on) =>
      set_parked slot None;;
      o ← get_task next; t ← lift (unwrap o);
      write_fs_base (fs_base t);;
      restore_interrupt_state irqs_on
  | None =>
      o ← get_task slot; t ← lift (unwrap o);
      if is_user t then mod_cpu (with_irqs true) else mret tt
  end.

(** Up to the call of [context_switch]; [None] when the current task goes on. *)
Definition schedule_out : KM A (option nat) :=
  irqs_on ← save_and_disable_interrupts;
  prev ← CURRENT;
  check_canary prev;;
  ts ← gets (fun k => tasks (k_sched k));
  next ← lift (pick_next ts (search_order prev));
  if (next =? prev)%nat then restore_interrupt_state irqs_on;; mret None
  else
    mod_sched (with_cur next);;
    o ← get_task next; next_task ← lift (unwrap o);
    let kstack := if is_user next_task then stack_top next_task else 0 in
    set_kernel_stack kstack;;
    let pt := page_table_phys next_task in
    let pt_phys := if negb (pt =? 0) then pt else arch_kernel_root in
    switch_address_space pt_phys;;
    fs ← read_fs_base;
    update_task prev (with_fs_base fs);;
    (* context_switch(cur_sp, next_sp) *)
    sp ← gets (fun k => sp_reg (k_cpu k));
    update_task prev (with_kernel_sp sp);;
    mod_cpu (with_sp (kernel_sp next_task));;
    set_parked prev (Some (next, irqs_on));;
    mret (Some next).

Definition schedule : KM A unit :=
  o ← schedule_out;
  match o with None => mret tt | Some next => resume next end.

(** ** Signals and the timer *)

Definition deliver_all_signals : KM A unit := fun k =>
  match foldM deliver_signals (tasks (k_sched k), k_pool k) (seq 1 (MAX_TASKS - 1)) with
  | Done (ts, P) => Done (tt, put_pool P (put_sched (with_tasks ts (k_sched k)) k))
  | Panic => Panic
  end.

Definition tick : KM A unit :=
  t ← gets (fun k => uadd (tick_count (k_sched k)) 1);
  mod_sched (with_ticks t);;
  (if t mod 5 =? 0 then deliver_all_signals else mret tt);;
  if t mod 10 =? 0 then schedule else mret tt.

(** ** Task creation *)

Definition current_pid : KM A Z := current_field pid 0.
Definition current_ppid : KM A Z := current_field ppid 0.
Definition current_page_table_phys : KM A Z := current_field page_table_phys 0.
Definition current_heap_brk : KM A Z := current_field heap_brk 0.
Definition current_cwd : KM A nat := current_field cwd 0%nat.

Definition k_alloc_pages (n : Z) : KM A (option Z) :=
  on_vm (fun v => '(r, p) ← alloc_pages (vm_pages v) n; Done (r, mk_vm (vm_mem v) p)).

(** [alloc_pages(1 + STACK_PAGES)?], the guard page and the canary: (guard, stack). *)
Definition new_kernel_stack : KM A (option (Z * Z)) :=
  frames ←? k_alloc_pages (1 + STACK_PAGES);
  let guard := frames in
  let stack_phys := uadd frames GUARD_SIZE in
  _ ← on_vm (fun v => arch_protect_guard v guard);
  on_mem (fun m => store64 m stack_phys GUARD_CANARY);;
  mret (Some (guard, stack_phys)).

(** A function of arch/mod.rs that lays out a new stack and gives its stack pointer. *)
Definition k_init_stack (f : mem -> outcome (Z * mem)) : KM A Z :=
  on_vm (fun v => '(sp, m) ← f (vm_mem v); Done (sp, mk_vm m (vm_pages v))).

(** [Task::new_user(..)] and the like take the next process id. *)
Definition k_new_task (make : Z -> Task * Z) : KM A Task :=
  n ← gets (fun k => next_pid (k_sched k));
  let '(t, n) := make n in
  mod_sched (with_next_pid n);; mret t.

(** [GUARD_PHYS[i] = guard; TASKS[i] = Some(task); return Some(i)]: the task's stack is new. *)
Definition install (i : nat) (guard : Z) (task : Task) : KM A (option nat) :=
  gs ← gets (fun k => guard_phys (k_sched k));
  gs ← lift (set gs i guard);
  mod_sched (with_guards gs);;
  set_task i (Some task);;
  set_parked i None;;
  mret (Some i).

Definition spawn_fn (entry : Z) : KM A (option nat) :=
  parent_pid ← current_pid;
  i ←? gets (fun k => vacant_slot (tasks (k_sched k)));
  '(guard, stack_phys) ←? new_kernel_stack;
  ksp ← k_init_stack (fun m => Done (arch_init_stack m stack_phys STACK_SIZE entry));
  task ← k_new_task (fun n => Task_new_kernel n ksp (uadd stack_phys STACK_SIZE) parent_pid);
  install i guard task.

Definition spawn_user (prog : bytes) : KM A (option nat) :=
  if 4096 <? Z.of_nat (length prog) then mret None else
  parent_pid ← current_pid;
  '(guard, kstack_phys) ←? new_kernel_stack;
  code_phys ←? k_alloc_pages 1;
  ustack_phys ←? k_alloc_pages 1;
  on_mem (fun m =>
    let m := copy_bytes m code_phys (fun o => nth (Z.to_nat o) prog 0) (Z.of_nat (length prog)) in
    write_bytes m (code_phys + Z.of_nat (length prog)) 0 (4096 - Z.of_nat (length prog)));;
  pt_phys ←? on_vm (fun v => vm_create_process v code_phys ustack_phys);
  let user_rip := arch_user_code_va in
  let user_rsp := arch_user_stack_top in
  ksp ← k_init_stack (fun m => Done (arch_init_user_stack m kstack_phys STACK_SIZE user_rip user_rsp));
  i ←? gets (fun k => vacant_slot (tasks (k_sched k)));
  task ← k_new_task (fun n => Task_new_user n ksp (uadd kstack_phys STACK_SIZE) pt_phys parent_pid);
  install i guard (with_context (mk_ctx (ctx_regs (context task)) user_rip user_rsp (ctx_flags (context task))) task).

(** The loop of [map_user_init_stack]. *)
Fixpoint map_stack_pages (pt_phys region_va phys : Z) (idxs : list Z) : KM A bool :=
  match idxs with
  | [] => mret true
  | i :: idxs =>
      ok ← on_vm (fun v => vm_map v pt_phys (uadd region_va (umul i 4096)) (uadd phys (umul i 4096))
        (Z.lor (Z.lor PROT_READ PROT_WRITE) PROT_USER));
      if ok : bool then map_stack_pages pt_phys region_va phys idxs else mret false
  end.
Definition map_user_init_stack (pt_phys stack_top : Z) : KM A (option Z) :=
  phys ←? k_alloc_pages USER_STACK_PAGES;
  on_mem (fun m => write_bytes m phys 0 USER_STACK_SIZE);;
  let region_va := usub stack_top USER_STACK_SIZE in
  ok ← map_stack_pages pt_phys region_va phys (seqZ 0 USER_STACK_PAGES);
  if ok : bool then mret (Some phys) else mret None.

(** [setup_abi_stack] on the region that was just mapped. *)
Definition k_setup_abi_stack (region_phys region_size stack_top_va : Z) (argv0 : bytes) (argv envp : list bytes)
    (phdr_va phnum phentsize : Z) : KM A (option Z) :=
  seed ← entropy_seed;
  on_vm (fun v => let '(r, m) := setup_abi_stack (vm_mem v) seed region_phys region_size stack_top_va argv0 argv envp phdr_va phnum phentsize in
    Done (r, mk_vm m (vm_pages v))).

Definition spawn_elf (dat argv0 : bytes) : KM A (option nat) :=
  parent_pid ← current_pid;
  '(guard, kstack_phys) ←? new_kernel_stack;
  pt_phys ←? on_vm vm_create_empty;
  '(entry, heap_start, phdr_va, phnum, phentsize) ←? on_vm (load dat pt_phys);
  let stack_top := vm_elf_stack_top in
  ustack_phys ←? map_user_init_stack pt_phys stack_top;
  let user_rip := entry in
  user_rsp ←? k_setup_abi_stack ustack_phys USER_STACK_SIZE stack_top argv0 [] [] phdr_va phnum phentsize;
  ksp ← k_init_stack (fun m => Done (arch_init_user_stack m kstack_phys STACK_SIZE user_rip user_rsp));
  i ←? gets (fun k => vacant_slot (tasks (k_sched k)));
  task ← k_new_task (fun n => Task_new_user n ksp (uadd kstack_phys STACK_SIZE) pt_phys parent_pid);
  let task := with_context (mk_ctx (ctx_regs (context task)) user_rip user_rsp (ctx_flags (context task))) task in
  install i guard (with_heap_brk heap_start task).

(** The [match] that counts an inherited descriptor. *)
Definition dup_entry (P : pool) (e : FdEntry) : outcome pool :=
  match e with
  | PipeRead idx => dup_pipe_read P idx
  | PipeWrite idx => dup_pipe_write P idx
  | SocketPair r w => P ← dup_pipe_read P r; dup_pipe_write P w
  | _ => Done P
  end.

Definition spawn_fork (user_ip user_sp : Z) (regs callee_saved : list Z) : KM A (option nat) :=
  parent_pid ← current_pid;
  parent_pt ← current_page_table_phys;
  parent_brk ← current_heap_brk;
  c ← CURRENT;
  parent ←? get_task c;
  let parent_fdt := fd_table parent in
  parent_fs_base ← read_fs_base;
  '(guard, kstack_phys) ←? new_kernel_stack;
  child_pt ←? on_vm (fun v => vm_clone v parent_pt);
  ksp ← k_init_stack (fun m => arch_init_fork_stack m kstack_phys STACK_SIZE user_ip user_sp regs callee_saved);
  parent_cwd ← current_cwd;
  i ←? gets (fun k => vacant_slot (tasks (k_sched k)));
  task ← k_new_task (fun n => Task_new_user n ksp (uadd kstack_phys STACK_SIZE) child_pt parent_pid);
  let task := with_fs_base parent_fs_base (with_cwd parent_cwd (with_fds parent_fdt (with_heap_brk parent_brk task))) in
  on_pool' (fun P => foldM dup_entry P (fd_table task));;
  install i guard task.

(** [user_cstr]: the bytes up to the first NUL among [max_len]. *)
Fixpoint user_cstr_loop (va : Z) (n : nat) (acc : bytes) : KM A (option bytes) :=
  match n with
  | O => mret None
  | S n => b ← user_read8 va; if b =? 0 then mret (Some (reverse acc)) else user_cstr_loop (va + 1) n (b :: acc)
  end.
Definition user_cstr (ptr max_len : Z) : KM A (option bytes) :=
  if ptr =? 0 then mret None else user_cstr_loop ptr (Z.to_nat max_len) [].

Fixpoint user_cstr_array_loop (ptrs : Z) (n : nat) : KM A (list bytes) :=
  match n with
  | O => mret []
  | S n =>
      entry ← user_read_le ptrs 8;
      if entry =? 0 then mret [] else
      o ← user_cstr entry MAX_ARG_LEN;
      match o with
      | None => mret []
      | Some s => rest ← user_cstr_array_loop (ptrs + 8) n; mret (s :: rest)
      end
  end.
Definition user_cstr_array (ptr : Z) (max_count : nat) : KM A (list bytes) :=
  if ptr =? 0 then mret [] else user_cstr_array_loop ptr max_count.

Definition execve_current (dat argv0 : bytes) (argv_ptr envp_ptr : Z) : KM A (option (Z * Z * Z)) :=
  argv ← user_cstr_array argv_ptr MAX_EXEC_VEC;
  envp ← user_cstr_array envp_ptr MAX_EXEC_VEC;
  new_pt ←? on_vm vm_create_empty;
  '(entry, heap_start, phdr_va, phnum, phentsize) ←? on_vm (load dat new_pt);
  let stack_top := vm_elf_stack_top in
  ustack_phys ←? map_user_init_stack new_pt stack_top;
  user_rsp ←? k_setup_abi_stack ustack_phys USER_STACK_SIZE stack_top argv0 argv envp phdr_va phnum phentsize;
  c ← CURRENT;
  task ←? get_task c;
  set_task c (Some (with_fs_base 0 (with_heap_brk heap_start (with_page_table new_pt task))));;
  write_fs_base 0;;
  mret (Some (entry, user_rsp, new_pt)).

(** [spawn(task)] *)
Definition spawn (task : Task) : KM A (option nat) :=
  i ←? gets (fun k => vacant_slot (tasks (k_sched k)));
  set_task i (Some task);; set_parked i None;; mret (Some i).

(** ** Exit and reaping *)

Definition wake_slot (slot : nat) : KM A unit := update_if slot wake.

(** The body of the loop of [wake_closed_pipe_readers]. *)
Definition wake_closed_pipe_reader (pipe_idx : nat) : KM A unit :=
  ws ← gets (fun k => pipe_waiters (k_sched k));
  o ← lift (get ws pipe_idx);
  match o with
  | None => mret tt
  | Some slot =>
      P ← gets k_pool;
      open ← lift (pipe_write_open P pipe_idx);
      if open : bool then mret tt else
      ws ← lift (set ws pipe_idx None);
      mod_sched (with_pipe_waiters ws);;
      wake_slot slot
  end.
Definition wake_closed_pipe_readers : KM A unit := forM (seq 0 MAX_PIPES) wake_closed_pipe_reader.

(** The part of [exit_current] before [schedule()]. *)
Definition exit_task (code : Z) : KM A unit :=
  c ← CURRENT;
  o ← get_task c;
  match o with
  | None => mret tt
  | Some t =>
      t' ← on_pool (exit t code);
      set_task c (Some t');;
      on_tasks (wake_child_waiters (pid t) (ppid t));;
      on_tasks (signal_parent (ppid t) SIGCHLD);;
      wake_closed_pipe_readers
  end.
Definition exit_current (code : Z) : KM A unit := exit_task code;; schedule.

Definition zombie_child (cur_pid target_pid : Z) (t : Task) : bool :=
  bool_decide (state t = Zombie) && (ppid t =? cur_pid) && ((target_pid =? u64_MAX) || (pid t =? target_pid)).
Definition living_child (cur_pid : Z) (t : Task) : bool := (ppid t =? cur_pid) && negb (bool_decide (state t = Zombie)).

(** One round of the loop of [waitpid]. *)
Definition waitpid_round (cur_pid target_pid status_out : Z) (no_hang : bool) : KM A (option Z) :=
  irqs_on ← save_and_disable_interrupts;
  ts ← gets (fun k => tasks (k_sched k));
  match find_task (zombie_child cur_pid target_pid) 1 (drop 1 ts) with
  | Some (slot, t) =>
      set_task slot None;;
      restore_interrupt_state irqs_on;;
      (if status_out =? 0 then mret tt
       else user_write_le status_out 4 (Z.shiftl (Z.land (wrap 32 (exit_code t)) 0xFF) 8));;
      mret (Some (pid t))
  | None =>
      if negb (existsb (fun o => match o with Some t => living_child cur_pid t | None => false end) (drop 1 ts)) then
        restore_interrupt_state irqs_on;; mret (Some (-10))
      else if no_hang then restore_interrupt_state irqs_on;; mret (Some 0)
      else
        c ← CURRENT;
        update_task c (with_waiting target_pid);;
        update_task c (with_state Blocked);;
        restore_interrupt_state irqs_on;;
        schedule;;
        mret None
  end.
(** [cur_pid] is read once, before the loop. *)
Definition waitpid_start : KM A Z :=
  irqs_on ← save_and_disable_interrupts;
  p ← current_pid;
  restore_interrupt_state irqs_on;;
  mret p.

(** ** Blocking *)

Definition has_input : KM A bool :=
  gets (fun k => negb (rb_is_empty (kbd_in (k_tty k))) || negb (rb_is_empty (serial_in (k_tty k)))).

Definition block_on_tty : KM A unit :=
  was ← save_and_disable_interrupts;
  has ← has_input;
  if negb has then
    c ← CURRENT;
    mod_sched (with_tty_waiter (Some c));;
    update_task c (with_state Blocked);;
    restore_interrupt_state was;;
    schedule
  else restore_interrupt_state was.

Definition wake_tty_waiter : KM A unit :=
  o ← gets (fun k => tty_waiter (k_sched k));
  match o with
  | None => mret tt
  | Some slot => mod_sched (with_tty_waiter None);; wake_slot slot
  end.

Definition block_on_pipe (pipe_idx : nat) : KM A unit :=
  was ← save_and_disable_interrupts;
  P ← gets k_pool;
  has ← lift (pipe_has_data P pipe_idx);
  wopen ← (if has : bool then mret false else lift (pipe_write_open P pipe_idx));
  if negb has && wopen then
    c ← CURRENT;
    ws ← gets (fun k => pipe_waiters (k_sched k));
    ws ← lift (set ws pipe_idx (Some c));
    mod_sched (with_pipe_waiters ws);;
    update_task c (with_state Blocked);;
    restore_interrupt_state was;;
    schedule
  else restore_interrupt_state was.

Definition wake_pipe_waiter (pipe_idx : nat) : KM A unit :=
  ws ← gets (fun k => pipe_waiters (k_sched k));
  o ← lift (get ws pipe_idx);
  match o with
  | None => mret tt
  | Some slot =>
      ws ← lift (set ws pipe_idx None);
      mod_sched (with_pipe_waiters ws);;
      wake_slot slot
  end.

(** [sleep_ticks]: the deadline, and one round of the loop. *)
Definition sleep_deadline (n : Z) : KM A Z := gets (fun k => uadd (tick_count (k_sched k)) n).
Definition sleep_round (wake_at : Z) : KM A (option unit) :=
  t ← gets (fun k => tick_count (k_sched k));
  if t <? wake_at then schedule;; mret None else mret (Some tt).

Definition raise_signal_to_pid (target_pid sig : Z) : KM A bool :=
  ts ← gets (fun k => tasks (k_sched k));
  match find_task (fun t => (pid t =? target_pid) && negb (bool_decide (state t = Zombie))) 0 ts with
  | None => mret false
  | Some (slot, t) => set_task slot (Some (wake (snd (raise_signal t sig))));; mret true
  end.

(** ** Descriptors and other fields of the current task *)

Definition current_task : KM A (option Task) := c ← CURRENT; get_task c.
Definition set_fds (f : FdTable) : KM A unit := c ← CURRENT; update_task c (with_fds f).

Definition current_fd_get (fd : nat) : KM A (option FdEntry) :=
  t ←? current_task; lift (fd_get (fd_table t) fd).
Definition current_fd_alloc (e : FdEntry) : KM A (option nat) :=
  t ←? current_task; '(r, f) ← lift (fd_alloc (fd_table t) e); set_fds f;; mret r.
Definition current_fd_close (fd : nat) : KM A (option FdEntry) :=
  t ←? current_task; '(r, f) ← lift (fd_close (fd_table t) fd); set_fds f;; mret r.
Definition current_fd_dup (oldfd : nat) : KM A (option nat) :=
  t ←? current_task;
  entry ←? lift (fd_get (fd_table t) oldfd);
  '(r, f) ← lift (fd_alloc (fd_table t) entry); set_fds f;; mret r.
Definition current_fd_dup2 (oldfd newfd : nat) : KM A (option nat) :=
  t ←? current_task;
  entry ←? lift (fd_get (fd_table t) oldfd);
  '(r, f) ← on_pool (fun P => '(r, f, P) ← fd_alloc_at (fd_table t) newfd entry P; Done (r, f, P));
  set_fds f;; mret r.
Definition current_fd_set_offset (fd : nat) (offset : Z) : KM A unit :=
  c ← CURRENT; update_if c (fun t => with_fds (fd_set_offset (fd_table t) fd offset) t).
Definition current_fd_set_dir_pos (fd pos : nat) : KM A unit :=
  c ← CURRENT; update_if c (fun t => with_fds (fd_set_dir_pos (fd_table t) fd pos) t).
Definition set_cwd (inode : nat) : KM A unit := c ← CURRENT; update_if c (with_cwd inode).
Definition set_heap_brk (addr : Z) : KM A unit := c ← CURRENT; update_if c (with_heap_brk addr).
Definition get_fs_base : KM A Z := current_field fs_base 0.
Definition set_fs_base (v : Z) : KM A unit := c ← CURRENT; update_if c (with_fs_base v).

Definition current_slot : KM A nat := CURRENT.
Definition task_pid (slot : nat) : KM A Z := o ← get_task slot; mret (match o with Some t => pid t | None => 0 end).
Definition get_tick_count : KM A Z := gets (fun k => tick_count (k_sched k)).
Definition task_count : KM A nat :=
  gets (fun k => length (filter (fun o => vacant o = false) (drop 1 (tasks (k_sched k))))).

Definition kill_task (slot : nat) : KM A bool :=
  c ← CURRENT;
  if (slot =? 0)%nat || (MAX_TASKS <=? slot)%nat || (slot =? c)%nat then mret false else
  o ← get_task slot;
  match o with
  | Some t =>
      if negb (bool_decide (state t = Zombie))
      then set_task slot (Some (wake (snd (raise_signal t SIGKILL))));; mret true
      else mret false
  | None => mret false
  end.

Definition handle_user_page_fault (va : Z) : KM A bool :=
  pt_phys ← current_page_table_phys;
  if pt_phys =? 0 then mret false else
  let va_page := align_down va in
  if va_page <? vm_user_base then mret false else
  let prot := Z.lor (Z.lor (Z.lor PROT_READ PROT_WRITE) PROT_EXEC) PROT_USER in
  r ← k_alloc_pages 1;
  match r with
  | None => mret false
  | Some phys =>
      on_mem (fun m => write_bytes m phys 0 4096);;
      on_vm (fun v => vm_map v pt_phys va_page phys prot)
  end.

(** What [for_each_task] hands to its callback. *)
Definition for_each_task : KM A (list (nat * Z * TaskState * bool)) :=
  gets (fun k => omap (fun '(i, o) => t ← o; Some (i, pid t, state t, is_user t)) (imap pair (tasks (k_sched k)))).
End sched.
