(* ===== verification/Drivers.v ===== *)
(** The drivers the system calls and the interrupt handlers use, on x86_64: the serial
    line (src/kernel/src/drivers/serial/src/common.rs), the PS/2 keyboard
    (drivers/keyboard/src/ps2.rs, drivers/keyboard/arch/x86_64.rs) and the 8259A
    interrupt controller (boards/qemu_pc/pic.rs); and the console of Console.v on the
    kernel's state.

    What a device register reads is an argument; what is sent to the line, and the
    port writes to the controller, are logged in the state. *)
From Stdlib Require Import ZArith Lia.
From stdpp Require Import base option list numbers.
From S2P Require Import Prelude Console RingBuf Ipc Process PageTable Pages Paging RamFs Elf AbiStack Kernel Scheduler.
Local Open Scope Z_scope.
Local Open Scope kernel_scope.

Definition with_serial_in (x : ringbuf) (t : tty) : tty := mk_tty x (kbd_in t) (serial_out t) (vga t) (pic_writes t).
Definition with_kbd_in (x : ringbuf) (t : tty) : tty := mk_tty (serial_in t) x (serial_out t) (vga t) (pic_writes t).
Definition sent (l : bytes) (t : tty) : tty := mk_tty (serial_in t) (kbd_in t) (serial_out t ++ l) (vga t) (pic_writes t).
Definition ported (l : list (Z * Z)) (t : tty) : tty := mk_tty (serial_in t) (kbd_in t) (serial_out t) (vga t) (pic_writes t ++ l).
Definition with_vga (x : screen) (t : tty) : tty := mk_tty (serial_in t) (kbd_in t) (serial_out t) x (pic_writes t).

(** [RingBuf<64>] *)
Definition INPUT_LEN : nat := 64.

(** ** Scan codes *)

(** US QWERTY, set 1, key down, unshifted: 8 is backspace, 9 tab, 10 enter, 39 the quote, 92 the backslash. *)
Definition SCANCODE_MAP : list Z :=
  [0; 0] ++ str "1234567890-=" ++ [8] ++
  [9] ++ str "qwertyuiop[]" ++ [10] ++
  [0] ++ str "asdfghjkl;" ++ [39; 96] ++
  [0] ++ [92] ++ str "zxcvbnm,./" ++
  [0] ++ [0; 0; 32].

(** keyboard/src/ps2.rs *)
Definition scancode_to_ascii (sc : Z) : outcome (option Z) :=
  if negb (Z.land sc 0x80 =? 0) then Done None
  else
    let idx := Z.to_nat sc in
    if (idx <? length SCANCODE_MAP)%nat then
      c ← get SCANCODE_MAP idx; Done (if negb (c =? 0) then Some c else None)
    else Done None.

(** keyboard/src/uart_kbd.rs *)
Definition uart_scancode_to_ascii (sc : Z) : option Z :=
  if (0x20 <=? sc) && (sc <=? 0x7E) || (sc =? 10) || (sc =? 13) || (sc =? 8) || (sc =? 9) then Some sc else None.

Definition STATUS_OBF : Z := Z.shiftl 1 0.
(** [try_read()]: the status register and the data register. *)
Definition try_read (status sc : Z) : option Z :=
  if Z.land status STATUS_OBF =? 0 then None
  else if negb (Z.land status 0x20 =? 0) then None else Some sc.

(** ** 8259A *)

Definition PIC1_CMD : Z := 0x20.
Definition PIC2_CMD : Z := 0xA0.
Definition PIC_EOI : Z := 0x20.
Definition eoi_writes (irq : Z) : list (Z * Z) :=
  (if 8 <=? irq then [(PIC2_CMD, PIC_EOI)] else []) ++ [(PIC1_CMD, PIC_EOI)].

Section drivers.
Context {A : Type} {arch : ArchOps A}.

Definition mod_tty (f : tty -> tty) : KM A unit := modify (fun k => put_tty (f (k_tty k)) k).

(** ** Serial line *)

Definition write_byte (b : Z) : KM A unit := mod_tty (sent [b]).
Definition print_bytes (s : bytes) : KM A unit :=
  forM s (fun b => (if b =? 10 then write_byte 13 else mret tt);; write_byte b).

(** [INPUT.push(b)] drops [b] when the buffer is full. *)
Definition serial_push (b : Z) : KM A unit :=
  r ← gets (fun k => serial_in (k_tty k)); '(_, r) ← lift (rb_push INPUT_LEN r b); mod_tty (with_serial_in r).
(** [common::handle_irq]: [rx] is what [rx_ready] and [read_data] give. *)
Definition serial_handle_irq (rx : bytes) : KM A unit :=
  forM rx serial_push;;
  match rx with [] => mret tt | _ => wake_tty_waiter end.
Definition read_byte : KM A (option Z) :=
  r ← gets (fun k => serial_in (k_tty k)); '(b, r) ← lift (rb_pop INPUT_LEN r); mod_tty (with_serial_in r);; mret b.

(** ** Keyboard *)

Definition keyboard_handle_irq (status sc : Z) : KM A unit :=
  match try_read status sc with
  | None => mret tt
  | Some sc =>
      r ← gets (fun k => kbd_in (k_tty k)); '(_, r) ← lift (rb_push INPUT_LEN r sc); mod_tty (with_kbd_in r);;
      wake_tty_waiter
  end.
Definition read_scancode : KM A (option Z) :=
  r ← gets (fun k => kbd_in (k_tty k)); '(b, r) ← lift (rb_pop INPUT_LEN r); mod_tty (with_kbd_in r);; mret b.

(** ** Console: [console::print_str] *)

Definition console_print_byte (b : Z) : KM A unit :=
  mod_tty (sent (mirrored b));;
  s ← gets (fun k => vga (k_tty k)); s ← lift (print_byte b s); mod_tty (with_vga s).
Definition console_print_str (s : bytes) : KM A unit := forM s console_print_byte.
Definition console_print_hex (v : Z) : KM A unit := s ← lift (print_hex v); console_print_str s.

Definition eoi (irq : Z) : KM A unit := mod_tty (ported (eoi_writes irq)).
End drivers.

Lemma scancode_map_length : length SCANCODE_MAP = 58%nat.
Proof. reflexivity. Qed.

(** No scan code makes the translation panic. *)
Lemma scancode_to_ascii_total sc : exists o, scancode_to_ascii sc = Done o.
Proof.
  unfold scancode_to_ascii. destruct (negb _); [eauto|]. destruct (_ <? _)%nat eqn:E; [|eauto].
  apply Nat.ltb_lt in E. destruct (get_lt SCANCODE_MAP (Z.to_nat sc) E) as (c & -> & _). cbn. eauto.
Qed.
