(* ===== verification/Pic.v ===== *)
(** The driver of the pair of 8259A interrupt controllers (src/kernel/src/boards/qemu_pc/pic.rs), against
    the controllers as their data sheet describes them: the initialisation words, the mask, and the
    interrupts in service.

    The driver's functions give the port writes they make, from the masks they read. *)
From Stdlib Require Import ZArith Lia.
From stdpp Require Import base option list numbers.
From S2P Require Import Prelude Drivers.
Local Open Scope Z_scope.

Definition PIC1_DATA : Z := 0x21.
Definition PIC2_DATA : Z := 0xA1.
Definition ICW1_ICW4 : Z := 0x01.
Definition ICW1_INIT : Z := 0x10.
Definition ICW4_8086 : Z := 0x01.
Definition PIC1_OFFSET : Z := 0x20.
Definition PIC2_OFFSET : Z := 0x28.

Abbreviation port_write := (Z * Z)%type.
Definition pic_init (mask1 mask2 : Z) : list port_write :=
  [(PIC1_CMD, Z.lor ICW1_INIT ICW1_ICW4); (PIC2_CMD, Z.lor ICW1_INIT ICW1_ICW4);
   (PIC1_DATA, PIC1_OFFSET); (PIC2_DATA, PIC2_OFFSET);
   (PIC1_DATA, 0x04); (PIC2_DATA, 0x02);
   (PIC1_DATA, ICW4_8086); (PIC2_DATA, ICW4_8086);
   (PIC1_DATA, Z.lor mask1 0xFB); (PIC2_DATA, Z.lor mask2 0xFF)].
(** The data port of a line and its bit there. *)
Definition pic_line (irq : Z) : Z * Z := if irq <? 8 then (PIC1_DATA, irq) else (PIC2_DATA, irq - 8).
(** [read]: what the data ports read. *)
Definition pic_unmask (read : Z -> Z) (irq : Z) : list port_write :=
  let '(port, bit) := pic_line irq in [(port, Z.land (read port) (Z.lnot (Z.shiftl 1 bit)))].
Definition pic_mask (read : Z -> Z) (irq : Z) : list port_write :=
  let '(port, bit) := pic_line irq in [(port, Z.lor (read port) (Z.shiftl 1 bit))].

(** ** The controllers *)

(** [i_next]: which initialisation word the data port takes next, 0 for none; [i_isr]: the requests in
    service, one bit each, bit 0 of the highest priority. *)
Record i8259 := mk_8259 { i_next : Z; i_offset : Z; i_icw3 : Z; i_8086 : bool; i_mask : Z; i_isr : Z }.
(** The highest priority in service is cleared. *)
Definition lowest_bit (v : Z) : Z := Z.land v (- v).
Definition write_cmd (v : Z) (c : i8259) : i8259 :=
  if Z.testbit v 4 then mk_8259 2 (i_offset c) (i_icw3 c) false 0 (i_isr c)
  else if v =? 0x20 then mk_8259 (i_next c) (i_offset c) (i_icw3 c) (i_8086 c) (i_mask c) (Z.ldiff (i_isr c) (lowest_bit (i_isr c)))
  else c.
Definition write_data (v : Z) (c : i8259) : i8259 :=
  if i_next c =? 2 then mk_8259 3 (Z.land v 0xF8) (i_icw3 c) (i_8086 c) (i_mask c) (i_isr c)
  else if i_next c =? 3 then mk_8259 4 (i_offset c) v (i_8086 c) (i_mask c) (i_isr c)
  else if i_next c =? 4 then mk_8259 0 (i_offset c) (i_icw3 c) (Z.testbit v 0) (i_mask c) (i_isr c)
  else mk_8259 0 (i_offset c) (i_icw3 c) (i_8086 c) v (i_isr c).
(** The two of a PC: one, and two behind its line 2. *)
Definition outb (p : i8259 * i8259) (w : port_write) : i8259 * i8259 :=
  let '(port, v) := w in
  if port =? PIC1_CMD then (write_cmd v p.1, p.2) else if port =? PIC1_DATA then (write_data v p.1, p.2)
  else if port =? PIC2_CMD then (p.1, write_cmd v p.2) else if port =? PIC2_DATA then (p.1, write_data v p.2) else p.
Definition outs (p : i8259 * i8259) (l : list port_write) : i8259 * i8259 := foldl outb p l.
(** What the data ports read, outside of an initialisation. *)
Definition inb (p : i8259 * i8259) (port : Z) : Z := if port =? PIC1_DATA then i_mask p.1 else i_mask p.2.

Definition pic_ready (p : i8259 * i8259) : Prop := i_next p.1 = 0 /\ i_next p.2 = 0.
(** Line [irq] of 16 is masked, is in service; the vector it gives. *)
Definition line_masked (p : i8259 * i8259) (irq : Z) : bool :=
  if irq <? 8 then Z.testbit (i_mask p.1) irq else Z.testbit (i_mask p.2) (irq - 8).
Definition line_vector (p : i8259 * i8259) (irq : Z) : Z :=
  if irq <? 8 then i_offset p.1 + irq else i_offset p.2 + (irq - 8).
(** A line accepted by the processor: in service where it is, and at line 2 when it is behind it. *)
Definition accept (p : i8259 * i8259) (irq : Z) : i8259 * i8259 :=
  let serve bit c := mk_8259 (i_next c) (i_offset c) (i_icw3 c) (i_8086 c) (i_mask c) (Z.setbit (i_isr c) bit) in
  if irq <? 8 then (serve irq p.1, p.2) else (serve 2 p.1, serve (irq - 8) p.2).

Lemma mask_testbit m b i : 0 <= b -> 0 <= i -> Z.testbit (Z.land m (Z.lnot (Z.shiftl 1 b))) i = Z.testbit m i && negb (i =? b).
Proof. intros. rewrite Z.land_spec, Z.lnot_spec by done. by rewrite testbit_shiftl_1 by done. Qed.
Lemma set_testbit m b i : 0 <= b -> 0 <= i -> Z.testbit (Z.lor m (Z.shiftl 1 b)) i = Z.testbit m i || (i =? b).
Proof. intros. rewrite Z.lor_spec. by rewrite testbit_shiftl_1 by done. Qed.
Lemma ones8 i : 0 <= i < 8 -> Z.testbit 0xFF i = true.
Proof. intros. change 0xFF with (Z.ones 8). apply Z.ones_spec_low. lia. Qed.
Lemma pic_mask_line (f : Z -> Z -> Z) p irq i (sense : bool -> bool -> bool) : pic_ready p -> 0 <= irq < 16 -> 0 <= i < 16 ->
  (forall m b j, 0 <= b -> 0 <= j -> Z.testbit (f m b) j = sense (Z.testbit m j) (j =? b)) -> (forall x, sense x false = x) ->
  let '(port, bit) := pic_line irq in let p' := outs p [(port, f (inb p port) bit)] in
  line_masked p' i = sense (line_masked p i) (i =? irq) /\ pic_ready p' /\ forall j, line_vector p' j = line_vector p j.
Proof.
  intros [R1 R2] Hirq Hi Hf Hs. unfold pic_line. destruct (Z.ltb_spec irq 8).
  - change (outs p [(PIC1_DATA, f (inb p PIC1_DATA) irq)]) with (write_data (f (i_mask p.1) irq) p.1, p.2). unfold write_data. rewrite R1. cbn [Z.eqb].
    unfold line_masked, line_vector, pic_ready. cbn [fst snd i_mask i_next i_offset]. split; [|done]. destruct (Z.ltb_spec i 8); [apply Hf; lia|].
    rewrite (proj2 (Z.eqb_neq i irq)) by lia. by rewrite Hs.
  - change (outs p [(PIC2_DATA, f (inb p PIC2_DATA) (irq - 8))]) with (p.1, write_data (f (i_mask p.2) (irq - 8)) p.2). unfold write_data. rewrite R2. cbn [Z.eqb].
    unfold line_masked, line_vector, pic_ready. cbn [fst snd i_mask i_next i_offset]. split; [|done]. destruct (Z.ltb_spec i 8).
    + rewrite (proj2 (Z.eqb_neq i irq)) by lia. by rewrite Hs.
    + rewrite Hf by lia. f_equal. destruct (Z.eqb_spec i irq), (Z.eqb_spec (i - 8) (irq - 8)); done || lia.
Qed.
Lemma eoi_one bit : 0 <= bit < 8 -> Z.ldiff (Z.setbit 0 bit) (lowest_bit (Z.setbit 0 bit)) = 0.
Proof.
  intros Hb. assert (bit = 0 \/ bit = 1 \/ bit = 2 \/ bit = 3 \/ bit = 4 \/ bit = 5 \/ bit = 6 \/ bit = 7) as H by lia.
  by destruct H as [->|[->|[->|[->|[->|[->|[->| ->]]]]]]].
Qed.
Lemma eoi_serves p irq : pic_ready p -> i_isr p.1 = 0 -> i_isr p.2 = 0 -> 0 <= irq < 16 -> outs (accept p irq) (eoi_writes irq) = p.
Proof.
  intros [R1 R2] S1 S2 Hi. destruct p as [[n1 o1 c1 e1 m1 s1] [n2 o2 c2 e2 m2 s2]]. cbn [fst snd i_next i_isr] in *. subst. unfold accept, eoi_writes.
  destruct (Z.ltb_spec irq 8) as [Hlt|Hge].
  - rewrite (proj2 (Z.leb_gt 8 irq)) by done. cbn [app outs foldl outb fst snd]. change (PIC1_CMD =? PIC1_CMD) with true. cbv iota. unfold write_cmd. cbn [i_next i_offset i_icw3 i_8086 i_mask i_isr].
    change (Z.testbit PIC_EOI 4) with false. change (PIC_EOI =? 0x20) with true. cbv iota. by rewrite (eoi_one irq) by lia.
  - rewrite (proj2 (Z.leb_le 8 irq)) by done. cbn [app outs foldl outb fst snd]. change (PIC2_CMD =? PIC1_CMD) with false. change (PIC2_CMD =? PIC1_DATA) with false.
    change (PIC2_CMD =? PIC2_CMD) with true. change (PIC1_CMD =? PIC1_CMD) with true. cbv iota. cbn [fst snd]. unfold write_cmd. cbn [i_next i_offset i_icw3 i_8086 i_mask i_isr].
    change (Z.testbit PIC_EOI 4) with false. change (PIC_EOI =? 0x20) with true. cbv iota. rewrite (eoi_one 2) by lia.
    by rewrite (eoi_one (irq - 8)) by lia.
Qed.

Lemma pic_unmask_line q irq i : pic_ready q -> 0 <= irq < 16 -> 0 <= i < 16 -> let q' := outs q (pic_unmask (inb q) irq) in
  line_masked q' i = line_masked q i && negb (i =? irq) /\ pic_ready q' /\ forall j, line_vector q' j = line_vector q j.
Proof.
  intros Hq Hirq Hi. pose proof (pic_mask_line (fun m b => Z.land m (Z.lnot (Z.shiftl 1 b))) q irq i (fun x y => x && negb y) Hq Hirq Hi) as H.
  unfold pic_unmask. destruct (pic_line irq). apply H; [intros; by apply mask_testbit | intros x; by rewrite andb_true_r].
Qed.
Lemma pic_set_line q irq i : pic_ready q -> 0 <= irq < 16 -> 0 <= i < 16 -> let q' := outs q (pic_mask (inb q) irq) in
  line_masked q' i = line_masked q i || (i =? irq) /\ pic_ready q' /\ forall j, line_vector q' j = line_vector q j.
Proof.
  intros Hq Hirq Hi. pose proof (pic_mask_line (fun m b => Z.lor m (Z.shiftl 1 b)) q irq i orb Hq Hirq Hi) as H.
  unfold pic_mask. destruct (pic_line irq). apply H; [intros; by apply set_testbit | apply orb_false_r].
Qed.
Lemma pic_init_lines p0 mask1 mask2 irq : 0 <= irq < 16 -> let p := outs p0 (pic_init mask1 mask2) in
  line_vector p irq = 32 + irq /\ line_masked p irq = (if irq =? 2 then Z.testbit mask1 2 else true).
Proof.
  intros Hirq p. split.
  - unfold line_vector. change (i_offset p.1) with 32. change (i_offset p.2) with 40. destruct (irq <? 8); lia.
  - unfold line_masked. change (i_mask p.1) with (Z.lor mask1 0xFB). change (i_mask p.2) with (Z.lor mask2 0xFF). rewrite !Z.lor_spec.
    destruct (Z.ltb_spec irq 8).
    + destruct (Z.eqb_spec irq 2) as [->|]; [by rewrite orb_false_r|].
      assert (irq = 0 \/ irq = 1 \/ irq = 3 \/ irq = 4 \/ irq = 5 \/ irq = 6 \/ irq = 7) as H' by lia.
      destruct H' as [->|[->|[->|[->|[->|[->| ->]]]]]]; by rewrite orb_true_r.
    + rewrite ones8 by lia. rewrite orb_true_r. by rewrite (proj2 (Z.eqb_neq irq 2)) by lia.
Qed.

(** The driver of the interrupt controllers: [init] leaves both ready, in 8086 mode, cascaded on line 2, with
    the 16 lines at vectors 32 to 47, and masks every line but the cascade, which
    is open only if it was before; [unmask] and [mask] then change the mask of their line and of no
    other; and when nothing else is in service, [eoi] after an accepted line ends it on both controllers. *)
Theorem pic_driver_exact (p0 : i8259 * i8259) (mask1 mask2 : Z) :
  let p := outs p0 (pic_init mask1 mask2) in
  pic_ready p /\ i_8086 p.1 = true /\ i_8086 p.2 = true /\ i_icw3 p.1 = 4 /\ i_icw3 p.2 = 2 /\
  forall irq, 0 <= irq < 16 -> line_vector p irq = 32 + irq /\ line_masked p irq = (if irq =? 2 then Z.testbit mask1 2 else true) /\
  forall q, pic_ready q ->
    (i_isr q.1 = 0 -> i_isr q.2 = 0 -> outs (accept q irq) (eoi_writes irq) = q) /\
    (forall i, 0 <= i < 16 ->
      line_masked (outs q (pic_unmask (inb q) irq)) i = line_masked q i && negb (i =? irq) /\
      line_masked (outs q (pic_mask (inb q) irq)) i = line_masked q i || (i =? irq)).
Proof.
  intros p. do 5 (split; [done|]). intros irq Hirq. destruct (pic_init_lines p0 mask1 mask2 irq Hirq) as [H1 H2]. do 2 (split; [assumption|]).
  intros q Hq. split; [intros; by apply eoi_serves|]. intros i Hi. split; [by apply pic_unmask_line | by apply pic_set_line].
Qed.
(** Controllers that come up with every line open; the keyboard's line is then opened. *)
Definition pic_demo : i8259 * i8259 := (mk_8259 0 8 0 false 0 0, mk_8259 0 0x70 0 false 0 0).
Lemma pic_driver_exact_witness : let p := outs pic_demo (pic_init 0 0) in
  line_vector p 12 = 44 /\ line_masked p 1 = true /\ line_masked (outs p (pic_unmask (inb p) 1)) 1 = false /\ line_masked (outs p (pic_unmask (inb p) 1)) 12 = true.
Proof.
  destruct (pic_driver_exact pic_demo 0 0) as (R & _ & _ & _ & _ & H). destruct (H 12) as [V _]; [lia|]. destruct (H 1) as (_ & M & Q); [lia|].
  destruct (Q _ R) as [_ U]. split; [exact V|]. split; [exact M|]. destruct (U 1) as [-> _]; [lia|]. destruct (U 12) as [-> _]; [lia|].
  split; vm_compute; reflexivity.
Defined.
