(* ===== verification/Syscall.v ===== *)
(** The system calls (src/kernel/src/syscall/mod.rs): the dispatcher and every handler.

    A handler returns [Return v] when the call ends with [v], or [Again c] when its
    task has given up the processor (or looped): [continue_call c] is what it does when it
    runs next.  User pointers are dereferenced in the caller's address space,
    byte by byte; a slice made from a user pointer is read as a whole.
    Numbers are those of Linux; results are isize, negative ones are errno values. *)
From Stdlib Require Import ZArith Lia.
From stdpp Require Import base option list numbers.
From S2P Require Import Prelude Bitmap RingBuf Ipc Process PageTable Pages Paging RamFs Fs Elf AbiStack Kernel Scheduler Drivers.
Local Open Scope Z_scope.
Local Open Scope kernel_scope.

Definition SYS_READ : Z := 0.
Definition SYS_WRITE : Z := 1.
Definition SYS_POLL : Z := 7.
Definition SYS_RT_SIGACTION : Z := 13.
Definition SYS_RT_SIGPROCMASK : Z := 14.
Definition SYS_RT_SIGRETURN : Z := 15.
Definition SYS_OPEN : Z := 2.
Definition SYS_CLOSE : Z := 3.
Definition SYS_STAT : Z := 4.
Definition SYS_FSTAT : Z := 5.
Definition SYS_LSTAT : Z := 6.
Definition SYS_LSEEK : Z := 8.
Definition SYS_MMAP : Z := 9.
Definition SYS_MUNMAP : Z := 11.
Definition SYS_BRK : Z := 12.
Definition SYS_IOCTL : Z := 16.
Definition SYS_SOCKETPAIR : Z := 53.
Definition SYS_SENDTO : Z := 44.
Definition SYS_RECVFROM : Z := 45.
Definition SYS_PIPE : Z := 22.
Definition SYS_YIELD : Z := 24.
Definition SYS_DUP : Z := 32.
Definition SYS_DUP2 : Z := 33.
Definition SYS_NANOSLEEP : Z := 35.
Definition SYS_GETPID : Z := 39.
Definition SYS_FCNTL : Z := 72.
Definition SYS_GETCWD : Z := 79.
Definition SYS_CHDIR : Z := 80.
Definition SYS_MKDIR : Z := 83.
Definition SYS_RMDIR : Z := 84.
Definition SYS_UNLINK : Z := 87.
Definition SYS_GETUID : Z := 102.
Definition SYS_GETGID : Z := 104.
Definition SYS_GETEUID : Z := 107.
Definition SYS_GETEGID : Z := 108.
Definition SYS_GETPPID : Z := 110.
Definition SYS_CLONE : Z := 56.
Definition SYS_FORK : Z := 57.
Definition SYS_EXECVE : Z := 59.
Definition SYS_EXIT : Z := 60.
Definition SYS_WAIT4 : Z := 61.
Definition SYS_KILL : Z := 62.
Definition SYS_UNAME : Z := 63.
Definition SYS_CLOCK_GETTIME : Z := 228.
Definition SYS_EXIT_GROUP : Z := 231.
Definition SYS_GETDENTS64 : Z := 217.
Definition SYS_ARCH_PRCTL : Z := 158.
Definition SYS_GETTID : Z := 186.
Definition SYS_TKILL : Z := 200.
Definition SYS_FUTEX : Z := 202.
Definition SYS_SET_ROBUST_LIST : Z := 273.
Definition SYS_PIPE2 : Z := 293.
Definition SYS_SET_TID_ADDRESS : Z := 218.
Definition SYS_TGKILL : Z := 234.
Definition SYS_MPROTECT : Z := 10.
Definition SYS_PRLIMIT64 : Z := 302.
Definition SYS_GETRANDOM : Z := 318.
Definition SYS_SIGALTSTACK : Z := 131.
Definition SYS_OPENAT : Z := 257.
Definition SYS_NEWFSTATAT : Z := 262.
Definition SYS_READLINKAT : Z := 267.
Definition SYS_RENAMEAT : Z := 264.
Definition SYS_UNLINKAT : Z := 263.
Definition SYS_MKDIRAT : Z := 258.

Definition TCGETS : Z := 0x5401.
Definition TIOCGWINSZ : Z := 0x5413.
Definition POLLIN : Z := 0x001.
Definition POLLOUT : Z := 0x004.
Definition POLLERR : Z := 0x008.
Definition POLLHUP : Z := 0x010.
Definition POLLNVAL : Z := 0x020.
Definition AT_FDCWD : Z := -100.

(** A call in progress. *)
Inductive cont :=
| ReadTty (buf : Z)                                  (* sys_read, loop on Stdin *)
| ReadPipe (idx : nat) (buf len : Z)                 (* sys_read, loop on a pipe *)
| Waiting (cur_pid target status_out : Z) (no_hang : bool)  (* waitpid, loop *)
| Sleeping (wake_at : Z)                             (* sleep_ticks, loop *)
| ThenRaise (target_pid sig : Z)                     (* sys_kill, after exit_current *)
| ThenReturn (v : Z).                                (* a call that ends after schedule *)

Inductive sysret := Return (v : Z) | Again (c : cont).

(** ** Pure parts *)

(** [as usize] on a descriptor number: the numbers from MAX_FDS on are all out of range. *)
Definition as_fd (z : Z) : nat := Z.to_nat (Z.min z (Z.of_nat MAX_FDS)).
(** [flags & bit != 0] *)
Definition has_flag (flags bit : Z) : bool := negb (Z.land flags bit =? 0).

(** [core::str::from_utf8(..).is_ok()] *)
Definition is_tail (b : Z) : bool := (0x80 <=? b) && (b <=? 0xBF).
Fixpoint utf8_ok (l : bytes) : bool :=
  match l with
  | [] => true
  | a :: l =>
      if a <? 0x80 then utf8_ok l else
      match l with
      | [] => false
      | b :: l =>
          if (0xC2 <=? a) && (a <=? 0xDF) then is_tail b && utf8_ok l else
          match l with
          | [] => false
          | c :: l =>
              if (0xE0 <=? a) && (a <=? 0xEF) then
                ((if a =? 0xE0 then 0xA0 else 0x80) <=? b) && (b <=? (if a =? 0xED then 0x9F else 0xBF)) && is_tail c && utf8_ok l
              else
              match l with
              | [] => false
              | d :: l =>
                  (0xF0 <=? a) && (a <=? 0xF4) &&
                  ((if a =? 0xF0 then 0x90 else 0x80) <=? b) && (b <=? (if a =? 0xF4 then 0x8F else 0xBF)) &&
                  is_tail c && is_tail d && utf8_ok l
              end
          end
      end
  end.

Definition open_dev_path (path : bytes) : option FdEntry :=
  if bytes_eqb path (str "/dev/null") then Some DevNull
  else if bytes_eqb path (str "/dev/zero") then Some DevZero
  else if bytes_eqb path (str "/dev/urandom") || bytes_eqb path (str "/dev/random") || bytes_eqb path (str "/dev/hwrng") then Some DevUrandom
  else if bytes_eqb path (str "/dev/tty") || bytes_eqb path (str "/dev/console") then Some Stdout
  else None.

Record Stat := mk_stat {
  st_dev : Z; st_ino : Z; st_nlink : Z; st_mode : Z; st_uid : Z; st_gid : Z; st_rdev : Z;
  st_size : Z; st_blksize : Z; st_blocks : Z
}.
(** The [repr(C)] image; the padding, the times and the spare words stay 0. *)
Definition Stat_bytes (s : Stat) : bytes :=
  to_le 8 (st_dev s) ++ to_le 8 (st_ino s) ++ to_le 8 (st_nlink s) ++ to_le 4 (st_mode s) ++ to_le 4 (st_uid s) ++
  to_le 4 (st_gid s) ++ to_le 4 0 ++ to_le 8 (st_rdev s) ++ to_le 8 (st_size s) ++ to_le 8 (st_blksize s) ++
  to_le 8 (st_blocks s) ++ replicate (6 * 8 + 3 * 8) 0.

(** Modes are octal in the source: 16384 is 0o040000, 32768 is 0o100000. *)
Definition inode_stat (inode_idx : nat) (n : Inode) : Stat :=
  let is_dir := bool_decide (kind n = Dir) in
  let st_size := if is_dir then 4096 else Z.of_nat (size n) in
  mk_stat 1 (Z.of_nat inode_idx) 1 (Z.lor (if is_dir then 16384 else 32768) (mode n)) (uid n) (gid n) 0
    st_size 4096 ((st_size + 511) / 512).
Definition tty_stat (fd : Z) : Stat := mk_stat 5 (fd + 1) 1 0x2190 0 0 (Z.lor (Z.shiftl 4 8) 64) 0 1024 0.
Definition dev_stat (rdev : Z) : Stat := mk_stat 1 (Z.land rdev 0xFF) 1 0x2180 0 0 rdev 0 4096 0.
(** What [sys_fstat] reports of an open device. *)
Definition fd_dev_stat (rdev : Z) : Stat := mk_stat 1 3 1 0x2180 0 0 rdev 0 4096 0.
(** [(1 << 8) | minor] *)
Definition mem_dev (minor : Z) : Z := Z.lor (Z.shiftl 1 8) minor.

(** The paths of the devices in [sys_stat]. *)
Definition dev_path_stat (path : bytes) : option Stat :=
  if bytes_eqb path (str "/dev/null") then Some (dev_stat (mem_dev 3))
  else if bytes_eqb path (str "/dev/zero") then Some (dev_stat (mem_dev 5))
  else if bytes_eqb path (str "/dev/urandom") || bytes_eqb path (str "/dev/random") then Some (dev_stat (mem_dev 9))
  else if bytes_eqb path (str "/dev/tty") || bytes_eqb path (str "/dev/console") then Some (tty_stat 0)
  else None.

(** [write_dirent64] into a buffer with [room] bytes left. *)
Definition write_dirent64 (room ino d_off : Z) (nm : bytes) (d_type : Z) : option bytes :=
  let l := Z.of_nat (length nm) in
  let reclen := down8 (19 + l + 1 + 7) in
  if room <? reclen then None
  else Some (to_le 8 ino ++ to_le 8 d_off ++ to_le 2 reclen ++ [d_type] ++ nm ++ [0] ++ replicate (Z.to_nat (reclen - (19 + l + 1))) 0).

(** The callback of [sys_getdents64] over the entries: [entry_idx], [new_pos] and the bytes written. *)
Definition dirent_step (pos : nat) (count : Z) (s : nat * nat * bytes) (e : nat * Inode) : outcome (nat * nat * bytes) :=
  let '(entry_idx, new_pos, out) := s in
  let '(inode_idx, inode) := e in
  if (entry_idx <? pos)%nat then Done (S entry_idx, new_pos, out) else
  let d_type := if bool_decide (kind inode = Dir) then 4 else 8 in
  nm ← slice (name inode) 0 (name_len inode);
  match write_dirent64 (count - Z.of_nat (length out)) (Z.of_nat inode_idx) (Z.of_nat new_pos + 1) nm d_type with
  | Some rec => Done (S entry_idx, S new_pos, out ++ rec)
  | None => Done (S entry_idx, new_pos, out)
  end.

Definition is_fatal (sig : Z) : bool := bool_decide (sig ∈ [SIGKILL; SIGTERM; SIGABRT; SIGQUIT; SIGHUP]).

(** [sys_getrandom]: the bytes of [n] chunks. *)
Fixpoint random_chunks (seed : Z) (n : nat) : bytes :=
  match n with
  | O => []
  | S n => let seed := uadd (umul seed 0x9e3779b97f4a7c15) 0x6c62272e07bb0142 in to_le 8 seed ++ random_chunks seed n
  end.

Definition machine (t : target) : bytes :=
  match t with X86_64 => str "x86_64" | Riscv64 => str "riscv64" | Aarch64 _ _ => str "aarch64" end.

(** sysctx updates *)
Definition with_user_ctx (ip sp : Z) (c : sysctx) : sysctx := mk_sysctx ip sp (user_regs c) (exec_request c).
Definition with_user_regs (r : list Z) (c : sysctx) : sysctx := mk_sysctx (user_ip c) (user_sp c) r (exec_request c).
Definition with_exec_request (r : option (Z * Z * Z)) (c : sysctx) : sysctx := mk_sysctx (user_ip c) (user_sp c) (user_regs c) r.

Section syscall.
Context {A : Type} {ops : PageOps A} {vops : VmOps A} {arch : ArchOps A}.
(** [crate::version::VERSION_FULL], made at build time, and the target. *)
Variables (version_full : bytes) (tgt : target).

Local Abbreviation ret v := (mret (Return v)).

Definition mod_sys (f : sysctx -> sysctx) : KM A unit := modify (fun k => put_sys (f (k_sys k)) k).
Definition set_user_ctx (ip sp : Z) : KM A unit := mod_sys (with_user_ctx ip sp).
Definition set_exec_ctx (ip sp pt : Z) : KM A unit := mod_sys (with_exec_request (Some (ip, sp, pt))).
Definition take_exec_ctx : KM A (option (Z * Z * Z)) :=
  r ← gets (fun k => exec_request (k_sys k)); mod_sys (with_exec_request None);; mret r.

(** A query of the file system, and the state of the pipe pool. *)
Definition fs_query {X} (f : RamFs -> outcome X) : KM A X := fs ← gets k_fs; lift (f fs).
Definition pool_query {X} (f : pool -> outcome X) : KM A X := P ← gets k_pool; lift (f P).

(** [read_path]: up to 256 bytes, to the first NUL. *)
Fixpoint read_path_loop (va : Z) (n : nat) : KM A bytes :=
  match n with
  | O => mret []
  | S n => b ← user_read8 va; if b =? 0 then mret [] else l ← read_path_loop (va + 1) n; mret (b :: l)
  end.
Definition read_path (ptr : Z) : KM A (option bytes) :=
  if ptr =? 0 then mret None else
  l ← read_path_loop ptr 256;
  mret (if utf8_ok l then Some l else None).
(** [match read_path(p) { Some(s) if !s.is_empty() => s, _ => return -2 }] *)
Definition with_path (ptr : Z) (f : bytes -> KM A sysret) : KM A sysret :=
  o ← read_path ptr;
  match o with
  | Some (b :: l) => f (b :: l)
  | _ => ret (-2)
  end.

Definition ret_fd (o : option nat) : KM A sysret :=
  match o with Some fd => ret (Z.of_nat fd) | None => ret (-24) end.
Definition ret_bool (err : Z) (b : bool) : KM A sysret := if b then ret 0 else ret err.

(** ** Calls in progress *)

Definition echo_stdin_byte (b : Z) : KM A unit :=
  if (b =? 13) || (b =? 10) then print_bytes [13; 10]
  else if (b =? 0x7f) || (b =? 0x08) then print_bytes [8; 32; 8]
  else write_byte b.

(** The end of a round that got [b]: echo, ICRNL, store. *)
Definition got_byte (buf b : Z) : KM A sysret :=
  echo_stdin_byte b;;
  user_write8 buf (if b =? 13 then 10 else b);;
  ret 1.
Definition read_tty (buf : Z) : KM A sysret :=
  o ← read_byte;
  match o with
  | Some b => got_byte buf b
  | None =>
      sc ← read_scancode;
      c ← (match sc with Some sc => lift (scancode_to_ascii sc) | None => mret None end);
      match c with
      | Some c => got_byte buf c
      | None => block_on_tty;; mret (Again (ReadTty buf))
      end
  end.

Definition read_pipe (idx : nat) (buf len : Z) : KM A sysret :=
  '(n, out) ← on_pool (fun P => '(n, out, P) ← pipe_read P idx (replicate (Z.to_nat len) 0); Done (n, out, P));
  if (0 <? n)%nat then user_write buf (take n out);; ret (Z.of_nat n) else
  open ← pool_query (fun P => pipe_write_open P idx);
  if negb open then ret 0 else
  block_on_pipe idx;;
  mret (Again (ReadPipe idx buf len)).

Definition continue_call (c : cont) : KM A sysret :=
  match c with
  | ReadTty buf => read_tty buf
  | ReadPipe idx buf len => read_pipe idx buf len
  | Waiting cur_pid target status_out no_hang =>
      o ← waitpid_round cur_pid target status_out no_hang;
      match o with Some v => ret (as_i64 v) | None => mret (Again c) end
  | Sleeping wake_at =>
      o ← sleep_round wake_at;
      match o with Some _ => ret 0 | None => mret (Again c) end
  | ThenRaise target_pid sig =>
      b ← raise_signal_to_pid target_pid sig; ret_bool (-3) b
  | ThenReturn v => ret v
  end.

(** ** read and write *)

(** FdEntry::DevUrandom: a word of entropy for every 8 bytes. *)
Fixpoint entropy_bytes (n : nat) : KM A bytes :=
  match n with
  | O => mret []
  | S n => s ← entropy_seed; l ← entropy_bytes n; mret (to_le 8 s ++ l)
  end.

Definition sys_read (fd buf len : Z) : KM A sysret :=
  if len =? 0 then ret 0 else
  if buf =? 0 then ret (-14) else
  e ← current_fd_get (as_fd fd);
  match e with
  | None => ret (-9)
  | Some Stdin => continue_call (ReadTty buf)
  | Some (VfsFile inode offset _) =>
      '(n, out) ← fs_query (fun fs => read_inode fs inode offset (replicate (Z.to_nat len) 0));
      user_write buf (take n out);;
      (if (0 <? n)%nat then current_fd_set_offset (as_fd fd) (uadd offset (Z.of_nat n)) else mret tt);;
      ret (Z.of_nat n)
  | Some (PipeRead idx) => continue_call (ReadPipe idx buf len)
  | Some (SocketPair read_idx _) => continue_call (ReadPipe read_idx buf len)
  | Some DevNull => ret 0
  | Some DevZero => user_write buf (replicate (Z.to_nat len) 0);; ret (as_i64 len)
  | Some DevUrandom =>
      l ← entropy_bytes (Z.to_nat ((len + 7) / 8));
      user_write buf (take (Z.to_nat len) l);;
      ret (as_i64 len)
  | Some (VfsDir _ _) => ret (-21)
  | Some Stdout | Some Stderr | Some (PipeWrite _) | Some FdEmpty => ret (-9)
  end.

Definition write_pipe (idx : nat) (buf len : Z) : KM A sysret :=
  open ← pool_query (fun P => pipe_read_open P idx);
  if negb open then ret (-32) else
  dat ← user_read buf (Z.to_nat len);
  n ← on_pool (fun P => pipe_write P idx dat);
  (if (0 <? n)%nat then wake_pipe_waiter idx else mret tt);;
  ret (Z.of_nat n).

Definition sys_write (fd buf len : Z) : KM A sysret :=
  if len =? 0 then ret 0 else
  if buf =? 0 then ret (-14) else
  e ← current_fd_get (as_fd fd);
  match e with
  | None => ret (-9)
  | Some Stdout | Some Stderr => s ← user_read buf (Z.to_nat len); print_bytes s;; ret (as_i64 len)
  | Some (VfsFile inode offset writable) =>
      if negb writable then ret (-13) else
      dat ← user_read buf (Z.to_nat len);
      n ← on_fs (fun fs => write_inode fs inode offset dat);
      (if (0 <? n)%nat then current_fd_set_offset (as_fd fd) (uadd offset (Z.of_nat n)) else mret tt);;
      ret (Z.of_nat n)
  | Some (PipeWrite idx) => write_pipe idx buf len
  | Some (SocketPair _ write_idx) => write_pipe write_idx buf len
  | Some DevNull | Some DevZero | Some DevUrandom => ret (as_i64 len)
  | Some (VfsDir _ _) => ret (-21)
  | Some Stdin | Some (PipeRead _) | Some FdEmpty => ret (-9)
  end.

(** ** open and close *)

(** The common body of [sys_open] and [sys_openat]. *)
Definition open_path (path : bytes) (flags : Z) (get_cwd : KM A nat) : KM A sysret :=
  match open_dev_path path with
  | Some dev => o ← current_fd_alloc dev; ret_fd o
  | None =>
      let writable := has_flag flags 3 in
      let create := has_flag flags 0x40 in
      let truncate := has_flag flags 0x200 in
      let append := has_flag flags 0x400 in
      cwd ← get_cwd;
      (if create then _ ← on_fs (fun fs => vfs_touch fs path cwd 0 0); mret tt else mret tt);;
      o ← fs_query (fun fs => open_inode fs path cwd 0 0 writable);
      match o with
      | Some inode =>
          (if truncate && writable then _ ← on_fs (fun fs => write_inode fs inode 0 []); mret tt else mret tt);;
          offset ← (if append && writable then n ← fs_query (fun fs => inode_size fs inode); mret (Z.of_nat n) else mret 0);
          o ← current_fd_alloc (VfsFile inode offset writable); ret_fd o
      | None =>
          if writable then ret (-2) else
          d ← fs_query (fun fs => open_dir fs path cwd);
          match d with
          | Some dir_inode => o ← current_fd_alloc (VfsDir dir_inode 0); ret_fd o
          | None => ret (-2)
          end
      end
  end.
Definition sys_open (path_ptr flags : Z) : KM A sysret :=
  if path_ptr =? 0 then ret (-14) else
  with_path path_ptr (fun path => open_path path flags current_cwd).

Definition at_cwd (dirfd : Z) : KM A nat :=
  if dirfd =? AT_FDCWD then current_cwd else
  e ← current_fd_get (as_fd (as_u64 dirfd));
  match e with
  | Some (VfsDir inode _) => mret inode
  | Some (VfsFile inode _ _) => mret inode
  | _ => current_cwd
  end.
Definition sys_openat (dirfd path_ptr flags : Z) : KM A sysret :=
  if path_ptr =? 0 then ret (-14) else
  with_path path_ptr (fun path => open_path path flags (at_cwd dirfd)).

(** The last write end of a pipe may be gone: wake its reader. *)
Definition wake_if_closed (idx : nat) : KM A unit :=
  open ← pool_query (fun P => pipe_write_open P idx);
  if negb open then wake_pipe_waiter idx else mret tt.
Definition sys_close (fd : Z) : KM A sysret :=
  e ← current_fd_close (as_fd fd);
  match e with
  | None => ret (-9)
  | Some (PipeRead idx) => on_pool' (fun P => close_pipe_read P idx);; ret 0
  | Some (PipeWrite idx) => on_pool' (fun P => close_pipe_write P idx);; wake_if_closed idx;; ret 0
  | Some (SocketPair read_idx write_idx) =>
      on_pool' (fun P => close_pipe_read P read_idx);;
      on_pool' (fun P => close_pipe_write P write_idx);;
      wake_if_closed write_idx;;
      ret 0
  | Some _ => ret 0
  end.

(** ** stat *)

Definition put_stat (buf : Z) (s : Stat) : KM A sysret := user_write buf (Stat_bytes s);; ret 0.
Definition fill_inode_stat (buf : Z) (inode_idx : nat) : KM A sysret :=
  if buf =? 0 then ret (-14) else
  o ← fs_query (fun fs => stat_inode_by_idx fs inode_idx);
  match o with Some n => put_stat buf (inode_stat inode_idx n) | None => ret (-2) end.

Definition stat_path (buf : Z) (path : bytes) (get_cwd : KM A nat) : KM A sysret :=
  match dev_path_stat path with
  | Some s => put_stat buf s
  | None =>
      cwd ← get_cwd;
      o ← fs_query (fun fs => vfs_resolve fs path cwd);
      match o with Some i => fill_inode_stat buf i | None => ret (-2) end
  end.
Definition sys_stat (path_ptr buf : Z) : KM A sysret :=
  if buf =? 0 then ret (-14) else
  with_path path_ptr (fun path => stat_path buf path current_cwd).

Definition sys_fstat (fd buf : Z) : KM A sysret :=
  if buf =? 0 then ret (-14) else
  e ← current_fd_get (as_fd fd);
  match e with
  | None => ret (-9)
  | Some (VfsFile inode _ _) => fill_inode_stat buf inode
  | Some (VfsDir inode _) => fill_inode_stat buf inode
  | Some Stdin | Some Stdout | Some Stderr => put_stat buf (tty_stat fd)
  | Some DevNull => put_stat buf (fd_dev_stat (mem_dev 3))
  | Some DevZero => put_stat buf (fd_dev_stat (mem_dev 5))
  | Some DevUrandom => put_stat buf (fd_dev_stat (mem_dev 9))
  | _ => ret (-9)
  end.

Definition sys_newfstatat (dirfd path_ptr buf : Z) : KM A sysret :=
  if buf =? 0 then ret (-14) else
  o ← read_path path_ptr;
  match o with
  | None => ret (-14)
  | Some [] => if dirfd =? AT_FDCWD then ret (-22) else sys_fstat (as_u64 dirfd) buf
  | Some path => stat_path buf path (at_cwd dirfd)
  end.

(** ** brk and mmap *)

(** The loop that maps [n] fresh zero pages from [va] on. *)
Fixpoint map_zero_pages (pt_phys prot va : Z) (n : nat) : KM A bool :=
  match n with
  | O => mret true
  | S n =>
      r ← k_alloc_pages 1;
      match r with
      | None => mret false
      | Some phys =>
          on_mem (fun m => write_bytes m phys 0 4096);;
          ok ← on_vm (fun v => vm_map v pt_phys va phys prot);
          if ok : bool then map_zero_pages pt_phys prot (uadd va 4096) n else mret false
      end
  end.

Definition sys_brk (addr : Z) : KM A sysret :=
  current ← current_heap_brk;
  pt_phys ← current_page_table_phys;
  if (addr =? 0) || (pt_phys =? 0) then ret (as_i64 current) else
  let new_brk := addr in
  if new_brk <=? current then set_heap_brk new_brk;; ret (as_i64 new_brk) else
  let page_lo := align_down (uadd current 0xFFF) in
  let page_hi := align_down (uadd new_brk 0xFFF) in
  ok ← map_zero_pages pt_phys (Z.lor (Z.lor PROT_READ PROT_WRITE) PROT_USER) page_lo (Z.to_nat ((page_hi - page_lo) / 4096));
  if negb ok then ret (as_i64 current) else
  set_heap_brk new_brk;;
  ret (as_i64 new_brk).

Definition sys_mmap (addr len prot flags : Z) : KM A sysret :=
  if len =? 0 then ret (-22) else
  if negb (has_flag flags 0x20) then ret (-38) else
  pt_phys ← current_page_table_phys;
  if pt_phys =? 0 then ret (-22) else
  let n_pages := uadd len 0xFFF / 4096 in
  heap_brk ← current_heap_brk;
  let base_va := if negb (addr =? 0) && (vm_user_base <=? addr) then addr else align_down (uadd heap_brk 0xFFF) in
  let arch_prot := PROT_USER in
  let arch_prot := if has_flag prot 1 then Z.lor arch_prot PROT_READ else arch_prot in
  let arch_prot := if has_flag prot 2 then Z.lor arch_prot PROT_WRITE else arch_prot in
  let arch_prot := if has_flag prot 4 then Z.lor arch_prot PROT_EXEC else arch_prot in
  ok ← map_zero_pages pt_phys arch_prot base_va (Z.to_nat n_pages);
  if negb ok then ret (-12) else
  let top := uadd base_va (umul n_pages 4096) in
  heap_brk ← current_heap_brk;
  (if heap_brk <? top then set_heap_brk top else mret tt);;
  ret (as_i64 base_va).
Definition sys_munmap : KM A sysret := ret 0.

(** ** ioctl, fcntl, pipes, dup *)

Definition sys_ioctl (fd cmd arg : Z) : KM A sysret :=
  e ← current_fd_get (as_fd fd);
  match e with
  | None => ret (-9)
  | Some Stdin | Some Stdout | Some Stderr =>
      if cmd =? TCGETS then ret (-25)
      else if cmd =? TIOCGWINSZ then
        if arg =? 0 then ret (-14) else user_write arg (to_le 2 24 ++ to_le 2 80 ++ to_le 2 0 ++ to_le 2 0);; ret 0
      else ret (-25)
  | Some _ => ret (-25)
  end.

Definition sys_dup (oldfd : Z) : KM A sysret :=
  o ← current_fd_dup (as_fd oldfd);
  match o with Some fd => ret (Z.of_nat fd) | None => ret (-9) end.
Definition sys_dup2 (oldfd newfd : Z) : KM A sysret :=
  if oldfd =? newfd then
    e ← current_fd_get (as_fd oldfd);
    match e with Some _ => ret (as_i64 oldfd) | None => ret (-9) end
  else
    o ← current_fd_dup2 (as_fd oldfd) (as_fd newfd);
    match o with Some fd => ret (Z.of_nat fd) | None => ret (-9) end.

Definition sys_fcntl (fd cmd : Z) : KM A sysret :=
  e ← current_fd_get (as_fd fd);
  match e with
  | None => ret (-9)
  | Some _ =>
      if cmd =? 0 then sys_dup fd
      else if cmd =? 1 then ret 0
      else if cmd =? 2 then ret 0
      else if cmd =? 3 then ret 2
      else if cmd =? 4 then ret 0
      else ret (-22)
  end.

Definition sys_pipe (fds_ptr : Z) : KM A sysret :=
  if fds_ptr =? 0 then ret (-14) else
  o ← on_pool (fun P => Done (alloc_pipe P));
  match o with
  | None => ret (-24)
  | Some idx =>
      r_fd ← current_fd_alloc (PipeRead idx);
      w_fd ← current_fd_alloc (PipeWrite idx);
      match r_fd, w_fd with
      | Some r, Some w => user_write_le fds_ptr 4 (Z.of_nat r);; user_write_le (fds_ptr + 4) 4 (Z.of_nat w);; ret 0
      | _, _ =>
          on_pool' (fun P => close_pipe_read P idx);;
          on_pool' (fun P => close_pipe_write P idx);;
          ret (-24)
      end
  end.

(** [if let Some(a) = a { close_pipe_read(a); close_pipe_write(a); }] *)
Definition close_both (o : option nat) : KM A unit :=
  match o with
  | Some a => on_pool' (fun P => close_pipe_read P a);; on_pool' (fun P => close_pipe_write P a)
  | None => mret tt
  end.
Definition sys_socketpair (sv_ptr : Z) : KM A sysret :=
  if sv_ptr =? 0 then ret (-14) else
  oa ← on_pool (fun P => Done (alloc_pipe P));
  ob ← on_pool (fun P => Done (alloc_pipe P));
  match oa, ob with
  | Some a, Some b =>
      fd0 ← current_fd_alloc (SocketPair a b);
      fd1 ← current_fd_alloc (SocketPair b a);
      match fd0, fd1 with
      | Some f0, Some f1 => user_write_le sv_ptr 4 (Z.of_nat f0);; user_write_le (sv_ptr + 4) 4 (Z.of_nat f1);; ret 0
      | _, _ =>
          on_pool' (fun P => close_pipe_read P a);;
          on_pool' (fun P => close_pipe_write P b);;
          on_pool' (fun P => close_pipe_read P b);;
          ret (-24)
      end
  | _, _ => close_both oa;; close_both ob;; ret (-24)
  end.

(** ** Directories and names *)

Definition sys_getcwd (buf size : Z) : KM A sysret :=
  if (buf =? 0) || (size =? 0) then ret (-14) else
  cwd_inode ← current_cwd;
  '(n, out) ← fs_query (fun fs => vfs_inode_path fs cwd_inode (replicate (Z.to_nat size) 0));
  user_write buf (take n out);;
  if (n =? 0)%nat || (size <=? Z.of_nat n) then ret (-34) else
  user_write8 (buf + Z.of_nat n) 0;;
  ret (as_i64 buf).

Definition sys_chdir (path_ptr : Z) : KM A sysret :=
  with_path path_ptr (fun path =>
    cwd ← current_cwd;
    o ← fs_query (fun fs => open_dir fs path cwd);
    match o with None => ret (-2) | Some inode => set_cwd inode;; ret 0 end).

Definition sys_mkdir (path_ptr mode : Z) : KM A sysret :=
  with_path path_ptr (fun path =>
    cwd ← current_cwd;
    b ← on_fs (fun fs => vfs_mkdir fs path cwd 0 0 (wrap 16 mode)); ret_bool (-17) b).
Definition sys_rmdir (path_ptr : Z) : KM A sysret :=
  with_path path_ptr (fun path =>
    cwd ← current_cwd;
    b ← on_fs (fun fs => vfs_rmdir fs path cwd 0 0); ret_bool (-2) b).
Definition sys_unlink (path_ptr : Z) : KM A sysret :=
  with_path path_ptr (fun path =>
    cwd ← current_cwd;
    b ← on_fs (fun fs => vfs_unlink fs path cwd 0 0); ret_bool (-2) b).
Definition sys_unlinkat (dirfd path_ptr flags : Z) : KM A sysret :=
  with_path path_ptr (fun path =>
    cwd ← at_cwd dirfd;
    if has_flag flags 0x200 then b ← on_fs (fun fs => vfs_rmdir fs path cwd 0 0); ret_bool (-2) b
    else b ← on_fs (fun fs => vfs_unlink fs path cwd 0 0); ret_bool (-2) b).
Definition sys_mkdirat (dirfd path_ptr mode : Z) : KM A sysret :=
  with_path path_ptr (fun path =>
    cwd ← at_cwd dirfd;
    b ← on_fs (fun fs => vfs_mkdir fs path cwd 0 0 (wrap 16 mode)); ret_bool (-17) b).

Definition sys_getdents64 (fd buf_ptr count : Z) : KM A sysret :=
  if (buf_ptr =? 0) || (count =? 0) then ret (-22) else
  e ← current_fd_get (as_fd fd);
  match e with
  | None => ret (-9)
  | Some (VfsDir dir_inode pos) =>
      l ← fs_query (fun fs => list_dir_indexed fs dir_inode);
      '(_, new_pos, out) ← lift (foldM (dirent_step pos count) (0%nat, pos, []) l);
      user_write buf_ptr out;;
      (if (0 <? length out)%nat then current_fd_set_dir_pos (as_fd fd) new_pos else mret tt);;
      ret (Z.of_nat (length out))
  | Some _ => ret (-20)
  end.

(** ** Processes *)

Definition sys_execve (path_ptr argv envp : Z) : KM A sysret :=
  if path_ptr =? 0 then ret (-14) else
  with_path path_ptr (fun path =>
    cwd ← current_cwd;
    o ← fs_query (fun fs => read_as fs path cwd 0 0);
    match o with
    | None => ret (-2)
    | Some dat =>
        elf ← lift (is_elf dat);
        if negb elf then ret (-8) else
        r ← execve_current dat path argv envp;
        match r with
        | Some (ip, sp, pt) => set_exec_ctx ip sp pt;; ret 0
        | None => ret (-12)
        end
    end).

Definition spawn_fork_with_sp (sp : Z) : KM A sysret :=
  ip ← gets (fun k => user_ip (k_sys k));
  if ip =? 0 then ret (-38) else
  regs ← gets (fun k => user_regs (k_sys k));
  callee_saved ← gets (fun k => arch_callee_saved (vm_mem (k_vm k)));
  o ← spawn_fork ip sp regs callee_saved;
  match o with
  | Some slot => p ← task_pid slot; ret (as_i64 p)
  | None => ret (-12)
  end.
Definition sys_clone (flags child_stack : Z) : KM A sysret :=
  if has_flag flags 0x10000 then ret (-38) else
  usp ← gets (fun k => user_sp (k_sys k));
  spawn_fork_with_sp (if negb (child_stack =? 0) then child_stack else usp).
Definition sys_fork : KM A sysret :=
  usp ← gets (fun k => user_sp (k_sys k));
  spawn_fork_with_sp usp.

Definition sys_exit (code : Z) : KM A sysret := exit_current code;; mret (Again (ThenReturn 0)).
Definition sys_yield : KM A sysret := schedule;; mret (Again (ThenReturn 0)).
Definition sys_getpid : KM A sysret := p ← current_pid; ret (as_i64 p).
Definition sys_getppid : KM A sysret := p ← current_ppid; ret (as_i64 p).

Definition sys_wait4 (pid status_ptr options : Z) : KM A sysret :=
  let target := if pid =? -1 then u64_MAX else as_u64 pid in
  cur_pid ← waitpid_start;
  continue_call (Waiting cur_pid target status_ptr (has_flag options 1)).

Definition sys_nanosleep (req : Z) : KM A sysret :=
  if req =? 0 then ret (-14) else
  secs ← user_read_le req 8;
  nsecs ← user_read_le (req + 8) 8;
  let secs := as_i64 secs in
  let nsecs := as_i64 nsecs in
  if (secs <? 0) || (nsecs <? 0) || (1000000000 <=? nsecs) then ret (-22) else
  let ticks := uadd (umul secs 100) (nsecs / 10000000) in
  if 0 <? ticks then wake_at ← sleep_deadline ticks; continue_call (Sleeping wake_at) else ret 0.

Definition sys_kill (target_pid sig : Z) : KM A sysret :=
  let sig := wrap 8 sig in
  if 31 <? sig then ret (-22) else
  cur ← current_pid;
  if (0 <? sig) && is_fatal sig && ((target_pid =? cur) || (target_pid =? 0))
  then exit_current sig;; mret (Again (ThenRaise target_pid sig))
  else continue_call (ThenRaise target_pid sig).

(** ** poll *)

(** What one descriptor reports: revents, and what it adds to [ready]. *)
Definition poll_in (idx : nat) (ev : Z) : KM A (Z * nat) :=
  if has_flag ev POLLIN then
    has ← pool_query (fun P => pipe_has_data P idx);
    if has : bool then mret (POLLIN, 1%nat) else
    open ← pool_query (fun P => pipe_write_open P idx);
    mret (if negb open then (POLLHUP, 1%nat) else (0, 0%nat))
  else mret (0, 0%nat).
Definition poll_out (idx : nat) (ev : Z) : KM A (Z * nat) :=
  if has_flag ev POLLOUT then
    open ← pool_query (fun P => pipe_read_open P idx);
    mret (if open : bool then (POLLOUT, 1%nat) else (Z.lor POLLERR POLLHUP, 1%nat))
  else mret (0, 0%nat).
Definition poll_entry (entry : FdEntry) (ev : Z) : KM A (Z * nat) :=
  match entry with
  | Stdin => has ← has_input; mret (if has_flag ev POLLIN && has then (POLLIN, 1%nat) else (0, 0%nat))
  | Stdout | Stderr | DevNull | DevZero | DevUrandom => mret (if has_flag ev POLLOUT then (POLLOUT, 1%nat) else (0, 0%nat))
  | VfsFile _ _ _ =>
      let want := Z.land ev (Z.lor POLLIN POLLOUT) in
      mret (if negb (want =? 0) then (want, 1%nat) else (0, 0%nat))
  | PipeRead idx => poll_in idx ev
  | PipeWrite idx => poll_out idx ev
  | SocketPair read_idx write_idx =>
      '(r1, n1) ← poll_in read_idx ev;
      '(r2, n2) ← poll_out write_idx ev;
      mret (Z.lor r1 r2, (n1 + n2)%nat)
  | VfsDir _ _ | FdEmpty => mret (POLLNVAL, 1%nat)
  end.
(** The loop over [nfds] entries of 8 bytes: fd, events, revents. *)
Fixpoint poll_loop (ptr : Z) (nfds : nat) (ready : nat) : KM A nat :=
  match nfds with
  | O => mret ready
  | S nfds =>
      fd ← user_read_le ptr 4;
      let fd := to_signed 32 fd in
      '(revents, n) ←
        (if fd <? 0 then mret (0, 0%nat) else
         ev ← user_read_le (ptr + 4) 2;
         e ← current_fd_get (as_fd fd);
         match e with
         | None => mret (POLLNVAL, 1%nat)
         | Some entry => poll_entry entry ev
         end);
      user_write_le (ptr + 6) 2 revents;;
      poll_loop (ptr + 8) nfds (ready + n)
  end.
Definition sys_poll (fds_ptr nfds timeout_ms : Z) : KM A sysret :=
  if nfds =? 0 then ret 0 else
  if fds_ptr =? 0 then ret (-14) else
  ready ← poll_loop fds_ptr (Z.to_nat nfds) 0;
  if (0 <? ready)%nat || (timeout_ms =? 0) then ret (Z.of_nat ready) else
  schedule;;
  mret (Again (ThenReturn 0)).

(** ** Signals, time, identity *)

Definition sys_sigaltstack (ss old_ss : Z) : KM A sysret :=
  (if negb (old_ss =? 0) then user_write old_ss (replicate 24 0);; user_write_le (old_ss + 8) 4 2 else mret tt);;
  ret 0.
Definition sys_rt_sigaction (sig act oact sigsetsize : Z) : KM A sysret :=
  if (sig =? 0) || (64 <? sig) then ret (-22) else
  (if negb (oact =? 0) then user_write oact (replicate (Z.to_nat (24 + Z.min sigsetsize 128)) 0) else mret tt);;
  ret 0.
Definition sys_rt_sigprocmask (set oldset sigsetsize : Z) : KM A sysret :=
  (if negb (oldset =? 0) then user_write oldset (replicate (Z.to_nat (Z.min sigsetsize 128)) 0) else mret tt);;
  ret 0.

(** [fill]: the bytes and the NUL written to a field of 65 bytes. *)
Definition utsname_fill (s : bytes) : bytes := take 64 s ++ [0].
Definition sys_uname (buf : Z) : KM A sysret :=
  if buf =? 0 then ret (-14) else
  user_write buf (utsname_fill (str "Ferrugem"));;
  user_write (buf + 65) (utsname_fill (str "ferrugem"));;
  user_write (buf + 130) (utsname_fill version_full);;
  user_write (buf + 195) (utsname_fill (str "#1 SMP"));;
  user_write (buf + 260) (utsname_fill (machine tgt));;
  ret 0.

Definition sys_lseek (fd offset whence : Z) : KM A sysret :=
  e ← current_fd_get (as_fd fd);
  match e with
  | Some (VfsFile inode cur_off _) =>
      file_size ← fs_query (fun fs => inode_size fs inode);
      let seek new_off :=
        if new_off <? 0 then ret (-22) else
        current_fd_set_offset (as_fd fd) (as_u64 new_off);; ret new_off in
      if whence =? 0 then seek offset
      else if whence =? 1 then seek (as_i64 (as_i64 cur_off + offset))
      else if whence =? 2 then seek (as_i64 (Z.of_nat file_size + offset))
      else ret (-22)
  | Some (VfsDir _ _) => ret (-21)
  | Some FdEmpty | None => ret (-9)
  | Some _ => ret (-29)
  end.

Definition sys_getrandom (buf len : Z) : KM A sysret :=
  if buf =? 0 then ret (-14) else
  seed ← entropy_seed;
  user_write buf (take (Z.to_nat len) (random_chunks seed (Z.to_nat ((len + 7) / 8))));;
  ret (as_i64 len).

Definition sys_futex (uaddr op v : Z) : KM A sysret :=
  let op_clean := Z.land op (Z.lnot 128) in
  if op_clean =? 0 then
    if uaddr =? 0 then ret (-14) else
    cur ← user_read_le uaddr 4;
    if negb (cur =? v) then ret (-11) else
    schedule;;
    mret (Again (ThenReturn 0))
  else if op_clean =? 1 then ret 0
  else ret (-38).

Definition sys_arch_prctl (code addr : Z) : KM A sysret :=
  if code =? 0x1002 then set_fs_base addr;; write_fs_base addr;; ret 0
  else if code =? 0x1003 then
    if addr =? 0 then ret (-14) else
    v ← get_fs_base; user_write_le addr 8 v;; ret 0
  else if (code =? 0x1001) || (code =? 0x1004) then ret (-22)
  else ret (-22).

Definition sys_clock_gettime (clock_id ts : Z) : KM A sysret :=
  if ts =? 0 then ret (-14) else
  if 1 <? clock_id then ret (-22) else
  ticks ← get_tick_count;
  user_write_le ts 8 (ticks / 100);;
  user_write_le (ts + 8) 8 (ticks mod 100 * 10000000);;
  ret 0.

(** ** The dispatcher *)

Definition dispatch (nr a0 a1 a2 a3 a4 a5 : Z) : KM A sysret :=
  mod_sys (with_user_regs [a0; a1; a2; a3; a4; a5]);;
  if nr =? SYS_READ then sys_read a0 a1 a2
  else if nr =? SYS_WRITE then sys_write a0 a1 a2
  else if nr =? SYS_POLL then sys_poll a0 a1 (to_signed 32 (wrap 32 a2))
  else if nr =? SYS_RT_SIGACTION then sys_rt_sigaction a0 a1 a2 a3
  else if nr =? SYS_RT_SIGPROCMASK then sys_rt_sigprocmask a1 a2 a3
  else if nr =? SYS_RT_SIGRETURN then ret 0
  else if nr =? SYS_ARCH_PRCTL then sys_arch_prctl a0 a1
  else if nr =? SYS_MPROTECT then ret 0
  else if nr =? SYS_SIGALTSTACK then sys_sigaltstack a0 a1
  else if nr =? SYS_GETTID then sys_getpid
  else if nr =? SYS_TKILL then sys_kill a0 a1
  else if nr =? SYS_TGKILL then sys_kill a1 a2
  else if nr =? SYS_FUTEX then sys_futex a0 a1 a2
  else if nr =? SYS_SET_TID_ADDRESS then sys_getpid
  else if nr =? SYS_SET_ROBUST_LIST then ret 0
  else if nr =? SYS_PRLIMIT64 then ret 0
  else if nr =? SYS_GETRANDOM then sys_getrandom a0 a1
  else if nr =? SYS_OPENAT then sys_openat (as_i64 a0) a1 a2
  else if nr =? SYS_NEWFSTATAT then sys_newfstatat (as_i64 a0) a1 a2
  else if nr =? SYS_READLINKAT then ret (-22)
  else if nr =? SYS_RENAMEAT then ret (-38)
  else if nr =? SYS_UNLINKAT then sys_unlinkat (as_i64 a0) a1 a2
  else if nr =? SYS_MKDIRAT then sys_mkdirat (as_i64 a0) a1 a2
  else if nr =? SYS_OPEN then sys_open a0 a1
  else if nr =? SYS_CLOSE then sys_close a0
  else if nr =? SYS_STAT then sys_stat a0 a1
  else if nr =? SYS_FSTAT then sys_fstat a0 a1
  else if nr =? SYS_LSTAT then sys_stat a0 a1
  else if nr =? SYS_LSEEK then sys_lseek a0 (as_i64 a1) a2
  else if nr =? SYS_MMAP then sys_mmap a0 a1 a2 a3
  else if nr =? SYS_MUNMAP then sys_munmap
  else if nr =? SYS_BRK then sys_brk a0
  else if nr =? SYS_IOCTL then sys_ioctl a0 a1 a2
  else if nr =? SYS_PIPE then sys_pipe a0
  else if nr =? SYS_PIPE2 then sys_pipe a0
  else if nr =? SYS_SOCKETPAIR then sys_socketpair a3
  else if nr =? SYS_SENDTO then sys_write a0 a1 a2
  else if nr =? SYS_RECVFROM then sys_read a0 a1 a2
  else if nr =? SYS_YIELD then sys_yield
  else if nr =? SYS_DUP then sys_dup a0
  else if nr =? SYS_DUP2 then sys_dup2 a0 a1
  else if nr =? SYS_NANOSLEEP then sys_nanosleep a0
  else if nr =? SYS_GETPID then sys_getpid
  else if nr =? SYS_FCNTL then sys_fcntl a0 a1
  else if nr =? SYS_GETCWD then sys_getcwd a0 a1
  else if nr =? SYS_CHDIR then sys_chdir a0
  else if nr =? SYS_MKDIR then sys_mkdir a0 a1
  else if nr =? SYS_RMDIR then sys_rmdir a0
  else if nr =? SYS_UNLINK then sys_unlink a0
  else if (nr =? SYS_GETUID) || (nr =? SYS_GETEUID) || (nr =? SYS_GETGID) || (nr =? SYS_GETEGID) then ret 0
  else if nr =? SYS_GETPPID then sys_getppid
  else if nr =? SYS_CLONE then sys_clone a0 a1
  else if nr =? SYS_FORK then sys_fork
  else if nr =? SYS_EXECVE then sys_execve a0 a1 a2
  else if nr =? SYS_EXIT then sys_exit (to_signed 32 (wrap 32 a0))
  else if nr =? SYS_EXIT_GROUP then sys_exit (to_signed 32 (wrap 32 a0))
  else if nr =? SYS_WAIT4 then sys_wait4 (as_i64 a0) a1 a2
  else if nr =? SYS_KILL then sys_kill a0 a1
  else if nr =? SYS_UNAME then sys_uname a0
  else if nr =? SYS_CLOCK_GETTIME then sys_clock_gettime a0 a1
  else if nr =? SYS_GETDENTS64 then sys_getdents64 a0 a1 a2
  else ret (-38).

(** [syscall_entry_rust] (arch/x86_64/idt.rs). *)
Definition syscall_entry_rust (nr a0 a1 a2 a3 a4 a5 user_ip user_sp : Z) : KM A sysret :=
  set_user_ctx user_ip user_sp;;
  dispatch nr a0 a1 a2 a3 a4 a5.
End syscall.
