(* ===== verification/ShellLineSpec.v ===== *)
(** The line editor of the shell (ShellLine.v) against a reference: the history is the list of
    the last lines, the edited line a list of characters, and what is printed, on a terminal
    that understands backspace, is that line.  Also the numbers the shell reads and prints. *)
From Stdlib Require Import ZArith Lia.
From stdpp Require Import base option list numbers.
From S2P Require Import Prelude RamFs Syscall ShellLine.
Local Open Scope Z_scope.

(** ** History: the last lines, the most recent one first *)

Record hist_rep (h : History) (ls : list bytes) : Prop := {
  hr_bufs : length (bufs h) = HIST_DEPTH;
  hr_lens : length (lens h) = HIST_DEPTH;
  hr_size : Forall (fun b => length b = MAX_CMD) (bufs h);
  hr_head : (head h < HIST_DEPTH)%nat;
  hr_count : count h = length ls;
  hr_depth : (length ls <= HIST_DEPTH)%nat;
  hr_line : forall i l, ls !! i = Some l -> (length l <= MAX_CMD)%nat /\
    exists b, bufs h !! ((head h + HIST_DEPTH - 1 - i) mod HIST_DEPTH)%nat = Some b /\
      lens h !! ((head h + HIST_DEPTH - 1 - i) mod HIST_DEPTH)%nat = Some (length l) /\ take (length l) b = l
}.

(** What [push] does to the list. *)
Definition remember (dat : bytes) (ls : list bytes) : list bytes :=
  match dat with [] => ls | _ => take HIST_DEPTH (take MAX_CMD dat :: ls) end.

Lemma hist_rep_new : hist_rep History_new [].
Proof.
  constructor; try done; [|cbn; unfold HIST_DEPTH; lia..].
  apply Forall_replicate. apply length_replicate.
Qed.

Lemma mod_pred (a i : nat) : (a < HIST_DEPTH)%nat -> (S i < HIST_DEPTH)%nat ->
  (((a + 1) mod HIST_DEPTH + HIST_DEPTH - 1 - S i) mod HIST_DEPTH = (a + HIST_DEPTH - 1 - i) mod HIST_DEPTH)%nat.
Proof.
  unfold HIST_DEPTH. intros. destruct (decide (a = 15)%nat) as [->|].
  - rewrite (Nat.Div0.mod_same : forall n, n mod n = 0)%nat || idtac. change ((15 + 1) mod 16)%nat with 0%nat.
    rewrite (Nat.mod_small (0 + 16 - 1 - S i)) by lia.
    replace (15 + 16 - 1 - i)%nat with ((14 - i) + 1 * 16)%nat by lia. rewrite Nat.Div0.mod_add, Nat.mod_small by lia. lia.
  - rewrite (Nat.mod_small (a + 1)) by lia. f_equal. lia.
Qed.
Lemma mod_distinct (a i : nat) : (a < HIST_DEPTH)%nat -> (S i < HIST_DEPTH)%nat -> ((a + HIST_DEPTH - 1 - i) mod HIST_DEPTH <> a)%nat.
Proof.
  unfold HIST_DEPTH. intros. destruct (decide (i < a)%nat).
  - replace (a + 16 - 1 - i)%nat with ((a - 1 - i) + 1 * 16)%nat by lia. rewrite Nat.Div0.mod_add, Nat.mod_small by lia. lia.
  - rewrite Nat.mod_small by lia. lia.
Qed.

Lemma hist_push_rep h ls dat : hist_rep h ls -> exists h', hist_push h dat = Done h' /\ hist_rep h' (remember dat ls).
Proof.
  intros [Hb Hl Hs Hh Hc Hd Hi]. unfold hist_push, remember. destruct dat as [|c dat]; [by exists h|].
  set (d := c :: dat). set (n := Nat.min (length d) MAX_CMD).
  rewrite slice_0 by (unfold n; lia). mred.
  destruct (get_lt (bufs h) (head h)) as (b & -> & Hbh); [by rewrite Hb|]. mred.
  assert (length b = MAX_CMD) as Hlb by (by apply (Forall_lookup_1 _ _ _ _ Hs Hbh)).
  assert (length (take n d) = n) as Hn by (rewrite length_take; unfold n; lia).
  rewrite blit_ok by (rewrite ?Hn, ?Hlb; unfold n; lia). mred.
  rewrite set_lt by lia. mred. rewrite set_lt by lia. mred.
  eexists. split; [done|].
  assert (take n d = take MAX_CMD d) as Htk.
  { unfold n. destruct (decide (length d <= MAX_CMD)%nat); [|by rewrite Nat.min_r by lia].
    rewrite Nat.min_l by lia. by rewrite !take_ge by lia. }
  constructor; cbn [bufs lens head count]; rewrite ?length_insert; try done.
  - apply Forall_insert; [done|]. rewrite !length_app, length_take, length_drop, Hn, Hlb. unfold n, MAX_CMD. lia.
  - apply Nat.mod_upper_bound. done.
  - rewrite length_take. cbn [length]. case (Nat.ltb_spec (count h) HIST_DEPTH); intros; unfold HIST_DEPTH in *; lia.
  - rewrite length_take. lia.
  - intros i l. rewrite lookup_take_Some. intros [Hil Hi16]. destruct i as [|i]; cbn in Hil.
    + assert (l = take MAX_CMD d) as -> by (by injection Hil as <-).
      assert ((((head h + 1) mod HIST_DEPTH + HIST_DEPTH - 1 - 0) mod HIST_DEPTH = head h)%nat) as ->.
      { unfold HIST_DEPTH in *. destruct (decide (head h = 15)%nat) as [->|]; [done|].
        rewrite (Nat.mod_small (head h + 1)) by lia. replace (head h + 1 + 16 - 1 - 0)%nat with (head h + 1 * 16)%nat by lia.
        rewrite Nat.Div0.mod_add, Nat.mod_small by lia. done. }
      rewrite <- Htk. split; [rewrite Hn; unfold n; lia|]. rewrite Hn. eexists. rewrite !list_lookup_insert_eq by (rewrite ?Hb, ?Hl; done).
      split; [done|]. split; [done|]. rewrite take_0, app_nil_l. rewrite take_app_le by lia. apply take_ge. lia.
    + destruct (Hi i l Hil) as (Hll & b' & Hb' & Hl' & Ht'). split; [done|]. exists b'. rewrite mod_pred by lia.
      rewrite !list_lookup_insert_ne by (intros E; by apply (mod_distinct (head h) i)). done.
Qed.

Lemma hist_get_rep h ls i : hist_rep h ls ->
  match ls !! i with
  | Some l => exists b, hist_get h i = Done (Some (b, length l)) /\ take (length l) b = l /\ length b = MAX_CMD /\ (length l <= MAX_CMD)%nat
  | None => hist_get h i = Done None
  end.
Proof.
  intros [Hb Hl Hs Hh Hc Hd Hi]. unfold hist_get. destruct (ls !! i) as [l|] eqn:E.
  - destruct (Hi i l E) as (Hll & b & Hb' & Hl' & Ht). apply lookup_lt_Some in E.
    rewrite (proj2 (Nat.leb_gt _ _)) by lia. rewrite (get_Some _ _ _ Hb'). mred. rewrite (get_Some _ _ _ Hl'). mred.
    exists b. split; [done|]. split; [done|]. split; [|done].
    exact (Forall_lookup_1 _ _ _ _ Hs Hb').
  - apply lookup_ge_None in E. by rewrite (proj2 (Nat.leb_le _ _)) by lia.
Qed.

(** ** A terminal line: its cells and the cursor *)

Definition term_byte (t : bytes * nat) (b : Z) : bytes * nat :=
  let '(cs, n) := t in
  if b =? 8 then (cs, (n - 1)%nat) else (take n cs ++ [b] ++ drop (S n) cs, S n).
Definition term_print (t : bytes * nat) (out : bytes) : bytes * nat := foldl term_byte t out.
(** [s] is on the line, followed by blanks, and the cursor is behind it. *)
Definition shows (t : bytes * nat) (s : bytes) : Prop := exists k, t = (s ++ replicate k 32, length s).
Definition printable (s : bytes) : Prop := Forall (fun c => 32 <= c <= 126) s.

Lemma term_print_app t a b : term_print t (a ++ b) = term_print (term_print t a) b.
Proof. apply foldl_app. Qed.
Lemma shows_put t s c : shows t s -> 32 <= c <= 126 -> shows (term_byte t c) (s ++ [c]).
Proof.
  intros (k & ->) Hc. unfold term_byte, shows. rewrite (proj2 (Z.eqb_neq c 8)) by lia. exists (k - 1)%nat.
  rewrite take_app_length, length_app. cbn [length]. rewrite drop_app_ge by lia.
  replace (S (length s) - length s)%nat with 1%nat by lia. rewrite drop_replicate, Nat.add_1_r. by rewrite <- app_assoc.
Qed.
Lemma shows_print s : forall t u, shows t u -> printable s -> shows (term_print t s) (u ++ s).
Proof.
  induction s as [|c s IH]; intros t u Ht Hs; [by rewrite app_nil_r|]. apply Forall_cons_1 in Hs as [Hc Hs].
  rewrite (cons_middle c u s), app_assoc. cbn [term_print foldl]. apply IH; [|done]. by apply shows_put.
Qed.
Lemma shows_rubout t s c : shows t (s ++ [c]) -> shows (term_print t rubout) s.
Proof.
  intros (k & ->). unfold rubout, term_print, shows. cbn [foldl]. unfold term_byte at 1 2 3. cbn [Z.eqb Pos.eqb].
  rewrite length_app. cbn [length]. exists (S k). rewrite !Nat.add_1_r, Nat.sub_succ, Nat.sub_0_r. f_equal; [|cbn; lia].
  rewrite <- app_assoc. rewrite take_app_length, drop_app_ge by lia.
  replace (S (length s) - length s)%nat with 1%nat by lia. done.
Qed.
Lemma shows_erase s : forall t, shows t s -> shows (term_print t (erase_chars (length s))) [].
Proof.
  induction s as [|c s IH] using rev_ind; intros t Ht; [done|]. rewrite length_app, Nat.add_1_r.
  unfold erase_chars. cbn [replicate concat]. rewrite term_print_app. apply IH. by eapply shows_rubout.
Qed.
Lemma shows_replace t s u : shows t s -> printable u -> shows (term_print t (erase_chars (length s) ++ u)) u.
Proof. intros Ht Hu. rewrite term_print_app. apply (shows_print u _ []); [by apply shows_erase | done]. Qed.

(** ** The line buffer holds a list of characters *)

Record line_rep (l : LineBuffer) (s : bytes) : Prop := {
  lr_size : length (l_data l) = MAX_CMD;
  lr_len : l_len l = length s;
  lr_fit : (length s < MAX_CMD)%nat;
  lr_text : take (length s) (l_data l) = s;
  lr_print : printable s
}.

Lemma printable_b s : forallb (fun c => (32 <=? c) && (c <=? 126)) s = true -> printable s.
Proof.
  intros H. apply Forall_forall. intros c Hc. rewrite forallb_forall in H. specialize (H c Hc).
  apply andb_true_iff in H as [?%Z.leb_le ?%Z.leb_le]. done.
Qed.
Lemma printable_utf8 s : printable s -> utf8_ok s = true.
Proof.
  induction s as [|c s IH]; intros Hs; [done|]. apply Forall_cons_1 in Hs as [Hc Hs]. cbn [utf8_ok].
  rewrite (proj2 (Z.ltb_lt c 128)) by lia. by apply IH.
Qed.
Lemma as_str_rep l s : line_rep l s -> as_str l = Done s.
Proof.
  intros [Hd Hl Hf Ht Hp]. unfold as_str, line_bytes. rewrite slice_0 by lia. mred. rewrite Hl, Ht. by rewrite printable_utf8.
Qed.
Lemma line_new_rep : line_rep LineBuffer_new [].
Proof. constructor; try done; [cbn; unfold MAX_CMD; lia | constructor]. Qed.
Lemma line_push_rep l s c : line_rep l s -> 32 <= c <= 126 ->
  if (length s <? MAX_CMD - 1)%nat then exists l', line_push l c = Done (true, l') /\ line_rep l' (s ++ [c]) else line_push l c = Done (false, l).
Proof.
  intros [Hd Hl Hf Ht Hp] Hc. unfold line_push. rewrite Hl. case (Nat.ltb_spec (length s) (MAX_CMD - 1)); intros Hlt; [|done].
  rewrite set_lt by lia. mred. eexists. split; [done|].
  constructor; cbn [l_data l_len]; rewrite ?length_insert, ?length_app; cbn [length]; try done; [unfold MAX_CMD in *; lia | | ].
  - rewrite Nat.add_1_r, (take_S_r _ _ c) by (apply list_lookup_insert_eq; lia). by rewrite take_insert_ge, Ht by lia.
  - apply Forall_app. split; [done|]. by apply Forall_singleton.
Qed.
Lemma line_load_rep l s dat t : line_rep l s -> length dat = MAX_CMD -> (length t <= MAX_CMD)%nat -> take (length t) dat = t -> printable t ->
  exists l', line_load l dat (length t) = Done l' /\ line_rep l' (take (MAX_CMD - 1) t).
Proof.
  intros [Hd Hl Hf Ht Hp] Hdat Hlt Htk Hpt. unfold line_load. set (n := Nat.min (length t) (MAX_CMD - 1)).
  assert (n <= MAX_CMD - 1)%nat by (unfold n; lia). unfold MAX_CMD in *.
  rewrite slice_0 by lia. mred. assert (take n dat = take 255 t) as E.
  { transitivity (take n t); [rewrite <- Htk; rewrite take_take; f_equal; unfold n; lia|].
    unfold n. destruct (decide (length t <= 255)%nat); [rewrite Nat.min_l, !take_ge by lia; done | by rewrite Nat.min_r by lia]. }
  assert (length (take 255 t) = n) as En by (rewrite length_take; unfold n; lia).
  rewrite E, blit_ok by lia. mred. eexists. split; [done|].
  change (256 - 1)%nat with 255%nat in *.
  constructor; cbn [l_data l_len]; rewrite ?En; unfold MAX_CMD; try done.
  - rewrite !length_app, length_take, length_drop, En. lia.
  - lia.
  - rewrite take_0, app_nil_l, take_app_le by lia. apply take_ge. lia.
  - by apply Forall_take.
Qed.
Lemma clone_copy_rep l s : line_rep l s -> exists l', clone_copy l = Done l' /\ line_rep l' s.
Proof.
  intros [Hd Hl Hf Ht Hp]. unfold clone_copy. rewrite Hl, slice_0 by lia. mred. rewrite Ht.
  assert (length (l_data LineBuffer_new) = MAX_CMD) as En by done.
  rewrite blit_ok by lia. mred. eexists. split; [done|].
  constructor; cbn [l_data l_len]; try done.
  - rewrite !length_app, length_take, length_drop, En. lia.
  - rewrite take_0, app_nil_l. apply take_app_length.
Qed.
Lemma line_backspace_rep l s : line_rep l s ->
  exists l', line_backspace l = (negb (bool_decide (s = [])), l') /\ line_rep l' (removelast s).
Proof.
  intros H. pose proof H as [Hd Hl Hf Ht Hp]. unfold line_backspace. rewrite Hl.
  destruct s as [|c s _] using rev_ind; [by exists l|]. rewrite length_app, Nat.add_1_r. cbn [Nat.ltb Nat.leb length].
  eexists. rewrite (bool_decide_eq_false_2 (s ++ [c] = [])) by (by destruct s). split; [done|].
  rewrite removelast_last. rewrite length_app, Nat.add_1_r in *. cbn in *.
  constructor; cbn [l_data l_len]; try done; [lia.. | |].
  - apply (f_equal (take (length s))) in Ht. rewrite take_take, Nat.min_l, take_app_length in Ht by lia. done.
  - apply Forall_app in Hp. tauto.
Qed.

(** ** The reference editor *)

Record ref_editor := mk_ref { r_text : bytes; r_saved : bytes; r_nav : option nat }.
Definition ref_new : ref_editor := mk_ref [] [] None.
Definition longest : nat := MAX_CMD - 1.
Definition ref_key (ls : list bytes) (e : ref_editor) (k : Key) : ref_editor :=
  match k with
  | Char c =>
      if (32 <=? c) && (c <=? 126) then
        mk_ref (if (length (r_text e) <? longest)%nat then r_text e ++ [c] else r_text e) (r_saved e) None
      else e
  | Backspace => mk_ref (removelast (r_text e)) (r_saved e) None
  | Up =>
      let n := match r_nav e with Some n => S n | None => O end in
      match ls !! n with
      | Some l => mk_ref (take longest l) (match r_nav e with Some _ => r_saved e | None => r_text e end) (Some n)
      | None => e
      end
  | Down =>
      match r_nav e with
      | Some (S n) => mk_ref (take longest (default [] (ls !! n))) (r_saved e) (Some n)
      | Some O => mk_ref (r_saved e) [] None
      | None => e
      end
  | _ => e
  end.
(** The keys that do not end the line. *)
Definition editing (k : Key) : Prop := k <> Enter /\ k <> Interrupt.

Record editor_rep (ls : list bytes) (e : editor) (r : ref_editor) : Prop := {
  er_buf : line_rep (ed_buf e) (r_text r);
  er_saved : line_rep (ed_saved e) (r_saved r);
  er_nav : ed_nav e = match r_nav r with Some n => Z.of_nat n | None => -1 end;
  er_in : match r_nav r with Some n => (n < length ls)%nat | None => True end
}.

Section editor.
Context (h : History) (ls : list bytes) (Hh : hist_rep h ls) (Hp : Forall printable ls).

Lemma history_line n l e s : ls !! n = Some l -> line_rep e s ->
  exists b e', hist_get h n = Done (Some (b, length l)) /\ line_load e b (length l) = Done e' /\ line_rep e' (take longest l).
Proof.
  intros Hn He. pose proof (hist_get_rep h ls n Hh) as H. rewrite Hn in H. destruct H as (b & Hg & Ht & Hb & Hl).
  destruct (line_load_rep e s b l He Hb Hl Ht (Forall_lookup_1 _ _ _ _ Hp Hn)) as (e' & Hld & He'). eauto.
Qed.

Lemma edit_key_rep k e r t : editing k -> editor_rep ls e r -> shows t (r_text r) ->
  exists e' out, edit_key h k e = Done (Editing e', out) /\ editor_rep ls e' (ref_key ls r k) /\ shows (term_print t out) (r_text (ref_key ls r k)).
Proof.
  intros [Hk1 Hk2] He Ht. pose proof He as [Hb Hs Hn Hi]. unfold edit_key. destruct k as [c| | | | | | | |]; try done; cbn [ref_key].
  - destruct ((32 <=? c) && (c <=? 126)) eqn:Hc; [|by exists e, []].
    apply andb_true_iff in Hc as [?%Z.leb_le ?%Z.leb_le]. pose proof (line_push_rep _ _ c Hb ltac:(lia)) as HP. fold longest in HP.
    destruct (length (r_text r) <? longest)%nat.
    + destruct HP as (l' & -> & Hl'). mred. eexists _, _. split; [done|]. split; [by constructor|]. by apply shows_put.
    + rewrite HP. mred. eexists _, _. split; [done|]. split; [by constructor|]. done.
  - destruct (line_backspace_rep _ _ Hb) as (l' & -> & Hl'). eexists _, _. split; [done|]. split; [by constructor|]. cbn [r_text].
    destruct (r_text r) as [|c s _] using rev_ind; [done|].
    rewrite (bool_decide_eq_false_2 (s ++ [c] = [])) by (by destruct s). cbn [negb]. rewrite removelast_last. by eapply shows_rubout.
  - set (n := match r_nav r with Some n => S n | None => O end).
    assert ((if ed_nav e <? 0 then 0 else ed_nav e + 1) = Z.of_nat n) as ->.
    { rewrite Hn. unfold n. destruct (r_nav r) as [m|]; [|done]. rewrite (proj2 (Z.ltb_ge _ _)) by lia. lia. }
    rewrite Nat2Z.id. destruct (ls !! n) as [l|] eqn:El.
    + destruct (history_line n l _ _ El Hb) as (b & e' & -> & Hld & He'). mred.
      destruct (clone_copy_rep _ _ Hb) as (s' & Hcp & Hs').
      assert (exists sv, (if ed_nav e <? 0 then clone_copy (ed_buf e) else Done (ed_saved e)) = Done sv /\
        line_rep sv (match r_nav r with Some _ => r_saved r | None => r_text r end)) as (sv & -> & Hsv).
      { rewrite Hn. destruct (r_nav r) as [m|]; [rewrite (proj2 (Z.ltb_ge _ _)) by lia|]; eauto. }
      mred. rewrite Hld. mred. rewrite (as_str_rep _ _ He'). mred. eexists _, _. split; [done|]. split.
      * constructor; try done. cbn. by apply lookup_lt_Some in El.
      * rewrite (lr_len _ _ Hb). cbn [r_text]. apply shows_replace; [done | apply (lr_print _ _ He')].
    + pose proof (hist_get_rep h ls n Hh) as H. rewrite El in H. rewrite H. mred. by exists e, [].
  - rewrite Hn. destruct (r_nav r) as [[|n]|] eqn:En; [| |by exists e, []]; cbn [Z.of_nat Z.ltb Z.eqb Z.compare].
    + rewrite (as_str_rep _ _ Hs). mred. eexists _, _. split; [done|]. split; [constructor; try done; apply line_new_rep|]. rewrite (lr_len _ _ Hb).
      apply shows_replace; [done | apply (lr_print _ _ Hs)].
    + rewrite (proj2 (Z.ltb_lt 0 _)) by lia. replace (Z.of_nat (S n) - 1) with (Z.of_nat n) by lia. rewrite Nat2Z.id.
      destruct (lookup_lt_is_Some_2 ls n ltac:(lia)) as [l El]. rewrite El.
      destruct (history_line n l _ _ El Hb) as (b & e' & -> & Hld & He'). mred. rewrite Hld. mred. rewrite (as_str_rep _ _ He'). mred.
      eexists _, _. split; [done|]. split; [constructor; try done; cbn; lia|].
      rewrite (lr_len _ _ Hb). apply shows_replace; [done | apply (lr_print _ _ He')].
  - by exists e, [].
  - by exists e, [].
  - by exists e, [].
Qed.

Lemma edit_keys_rep typed : forall e r t, Forall editing typed -> editor_rep ls e r -> shows t (r_text r) ->
  exists e' out, (forall rest, edit_keys h e (typed ++ rest) = '(x, o, rest) ← edit_keys h e' rest; Done (x, out ++ o, rest)) /\
    editor_rep ls e' (foldl (ref_key ls) r typed) /\ shows (term_print t out) (r_text (foldl (ref_key ls) r typed)).
Proof.
  induction typed as [|k typed IH]; intros e r t Hk He Ht.
  - exists e, []. split; [|done]. intros rest. cbn [app]. by destruct (edit_keys h e rest) as [[[? ?] ?]|].
  - apply Forall_cons_1 in Hk as [Hk Hks]. destruct (edit_key_rep k e r t Hk He Ht) as (e1 & o1 & E1 & He1 & Ht1).
    destruct (IH _ _ _ Hks He1 Ht1) as (e2 & o2 & E2 & He2 & Ht2). exists e2, (o1 ++ o2). split; [|split; [done|by rewrite term_print_app]].
    intros rest. cbn [app edit_keys]. rewrite E1. mred. rewrite E2. destruct (edit_keys h e2 rest) as [[[? ?] ?]|]; mred; [by rewrite app_assoc | done].
Qed.
End editor.

(** ** What the shell remembers and what it shows *)

Lemma hist_push_lines lines : forall h ls, hist_rep h ls ->
  exists h', foldM hist_push h lines = Done h' /\ hist_rep h' (foldl (fun ls l => remember l ls) ls lines).
Proof.
  induction lines as [|l lines IH]; intros h ls Hh; [by exists h|]. cbn [foldM foldl].
  destruct (hist_push_rep h ls l Hh) as (h1 & -> & H1). mred. by apply IH.
Qed.
Lemma remember_printable lines : forall ls, Forall printable ls -> Forall printable lines ->
  Forall printable (foldl (fun ls l => remember l ls) ls lines).
Proof.
  induction lines as [|l lines IH]; intros ls Hls Hl; [done|]. apply Forall_cons_1 in Hl as [Hl Hls']. cbn [foldl]. apply IH; [|done].
  unfold remember. destruct l as [|c l]; [done|]. apply Forall_take. constructor; [by apply Forall_take | done].
Qed.

(** C20: the line editor is the reference editor: after any lines entered before and any keys typed since
    the prompt (printable characters, backspace, history up and down, others), the buffer holds
    exactly the reference's text, a printable line of at most 255 characters, and the terminal
    shows exactly it, with the cursor behind it; Enter gives that line, and Interrupt an empty one. *)
Theorem line_editor_exact (lines : list bytes) (h : History) (typed : list Key) :
  foldM hist_push History_new lines = Done h -> Forall printable lines -> Forall editing typed ->
  let ls := foldl (fun ls l => remember l ls) [] lines in
  let text := r_text (foldl (ref_key ls) ref_new typed) in
  exists e out, line_bytes (ed_buf e) = Done text /\ printable text /\ (length text <= 255)%nat /\
    shows (term_print ([], 0%nat) out) text /\
    read_line h typed = Done (Editing e, out, []) /\
    (forall rest, read_line h (typed ++ Enter :: rest) = Done (Entered (ed_buf e), out ++ [10], rest)) /\
    (forall rest, read_line h (typed ++ Interrupt :: rest) = Done (Entered LineBuffer_new, out ++ str "^C" ++ [10], rest)).
Proof.
  intros Hpush Hpr Hk ls text. destruct (hist_push_lines lines _ _ hist_rep_new) as (h' & E & Hh).
  rewrite Hpush in E. injection E as <-. pose proof (remember_printable lines [] (Forall_nil_2 _) Hpr) as Hls.
  destruct (edit_keys_rep h ls Hh Hls typed editor_new ref_new ([], 0%nat) Hk) as (e & out & He & Hr & Ht).
  { constructor; try done; apply line_new_rep. }
  { by exists 0%nat. }
  exists e, out. pose proof (er_buf _ _ _ Hr) as [Hd Hl Hf Htx Hp].
  split. { unfold line_bytes. rewrite slice_0 by lia. by rewrite Hl, Htx. }
  split; [done|]. split. { fold text in Hf. unfold MAX_CMD in Hf. lia. }
  split; [done|]. unfold read_line. split; [|split].
  - specialize (He []). rewrite app_nil_r in He. rewrite He. cbn. by rewrite app_nil_r.
  - intros rest. by rewrite He.
  - intros rest. by rewrite He.
Qed.

Lemma line_editor_exact_witness : exists h e out,
  foldM hist_push History_new [str "ls"; str "cat motd"] = Done h /\
  read_line h [Up; Up; Char 33; Enter] = Done (Entered (ed_buf e), out ++ [10], []) /\ line_bytes (ed_buf e) = Done (str "ls!").
Proof.
  assert (Forall printable [str "ls"; str "cat motd"]) as Hp.
  { by repeat (apply Forall_cons_2; [apply printable_b; vm_compute; reflexivity|]). }
  destruct (foldM hist_push History_new [str "ls"; str "cat motd"]) as [h|] eqn:E; [|exfalso; revert E; vm_compute; discriminate].
  assert (Forall editing [Up; Up; Char 33]) as Hk by (repeat constructor; discriminate).
  destruct (line_editor_exact _ h [Up; Up; Char 33] E Hp Hk) as (e & out & Hb & _ & _ & _ & _ & He & _).
  exists h, e, out. split; [done|]. split; [exact (He []) | rewrite Hb; vm_compute; reflexivity].
Defined.

(** ** Numbers *)

Definition digit (b : Z) : bool := (48 <=? b) && (b <=? 57).
(** The number a string of digits denotes. *)
Definition decimal (s : bytes) : Z := foldl (fun v b => v * 10 + (b - 48)) 0 s.

Lemma decimal_from s : forall v, foldl (fun v b => v * 10 + (b - 48)) v s = v * 10 ^ Z.of_nat (length s) + decimal s.
Proof.
  unfold decimal. induction s as [|b s IH]; intros v; cbn [foldl length]; [rewrite Z.pow_0_r; lia|].
  rewrite IH, (IH (0 * 10 + (b - 48))). rewrite Nat2Z.inj_succ, Z.pow_succ_r by lia. lia.
Qed.
Lemma decimal_fold_None s : foldl decimal_digit None s = None.
Proof. induction s; done. Qed.
Lemma decimal_nonneg s : forall v, 0 <= v -> forallb digit s = true -> v <= foldl (fun v b => v * 10 + (b - 48)) v s.
Proof.
  induction s as [|b s IH]; intros v Hv Hs; [cbn; lia|]. cbn in *. apply andb_true_iff in Hs as [[?%Z.leb_le ?%Z.leb_le]%andb_true_iff Hs].
  etransitivity; [|apply IH; [lia|done]]. lia.
Qed.
(** Reading saturates: once the limit is reached it stays. *)
Lemma decimal_digits_read s : forall v, 0 <= v ->
  foldl decimal_digit (Some (Z.min (2 ^ 64 - 1) v)) s =
    if forallb digit s then Some (Z.min (2 ^ 64 - 1) (foldl (fun v b => v * 10 + (b - 48)) v s)) else None.
Proof.
  induction s as [|b s IH]; intros v Hv; [done|]. cbn [foldl forallb]. unfold decimal_digit at 2. cbn [mbind option_bind]. unfold digit at 1.
  destruct (Z.leb_spec 48 b); [|rewrite (proj2 (Z.ltb_lt b 48)) by lia; apply decimal_fold_None].
  rewrite (proj2 (Z.ltb_ge b 48)) by lia. cbn [orb andb].
  destruct (Z.leb_spec b 57); [|rewrite (proj2 (Z.ltb_lt 57 b)) by lia; apply decimal_fold_None].
  rewrite (proj2 (Z.ltb_ge 57 b)) by lia. cbn [andb]. rewrite <- IH by lia. do 2 f_equal. unfold sat_add, saturating_mul. lia.
Qed.
Lemma parse_decimal_exact s :
  parse_decimal s = match s with [] => None | _ => if forallb digit s then Some (Z.min (2 ^ 64 - 1) (decimal s)) else None end.
Proof.
  unfold parse_decimal. change (Some 0) with (Some (Z.min (2 ^ 64 - 1) 0)). rewrite decimal_digits_read by lia.
  unfold decimal. destruct s; [done|]. by destruct (forallb digit _).
Qed.

Lemma digits_down_run fuel : forall v acc, 0 <= v < 10 ^ Z.of_nat fuel -> exists ds, digits_down fuel v acc = Done (ds ++ acc) /\
  forallb digit ds = true /\ decimal ds = v /\ (length ds <= fuel)%nat /\ (v <> 0 -> ds <> []).
Proof.
  induction fuel as [|fuel IH]; intros v acc Hv.
  - assert (v = 0) as -> by (cbn in Hv; lia). exists []. done.
  - cbn [digits_down]. destruct (Z.eqb_spec v 0) as [->|Hne]; [exists []; repeat split; cbn; lia|].
    rewrite Nat2Z.inj_succ, Z.pow_succ_r in Hv by lia.
    destruct (IH (v / 10) (48 + v mod 10 :: acc)) as (ds & -> & Hd & Hval & Hl & _).
    { split; [apply Z.div_pos; lia | apply Z.div_lt_upper_bound; lia]. }
    pose proof (Z.mod_pos_bound v 10 ltac:(lia)). exists (ds ++ [48 + v mod 10]). split; [by rewrite <- app_assoc|].
    split. { rewrite forallb_app, Hd. cbn. unfold digit. by rewrite !(proj2 (Z.leb_le _ _)) by lia. }
    split. { unfold decimal. rewrite foldl_app. fold (decimal ds). cbn [foldl]. rewrite Hval. pose proof (Z.div_mod v 10). lia. }
    split; [rewrite length_app; cbn; lia|]. intros _. by destruct ds.
Qed.

(** Numbers in the shell: what [print_u64] prints of a 64-bit number is at most 20 digits and is read
    back by [parse_decimal] as the same number; and [parse_decimal] reads exactly the non-empty strings of
    digits, as the number they denote or, beyond 64 bits, as the largest one. *)
Theorem decimal_roundtrip (n : Z) (s : bytes) :
  (0 <= n < 2 ^ 64 -> exists ds, print_u64 n = Done ds /\ (length ds <= 20)%nat /\ parse_decimal ds = Some n) /\
  parse_decimal s = (if negb (bool_decide (s = [])) && forallb digit s then Some (Z.min (2 ^ 64 - 1) (decimal s)) else None).
Proof.
  split.
  - intros Hn. unfold print_u64. destruct (Z.eqb_spec n 0) as [->|Hne].
    { exists (str "0"). repeat split; cbn; lia. }
    destruct (digits_down_run 20 n []) as (ds & -> & Hd & Hv & Hl & Hnil).
    { split; [lia|]. etransitivity; [apply Hn|]. done. }
    exists ds. rewrite app_nil_r. split; [done|]. split; [done|]. rewrite parse_decimal_exact, Hd, Hv.
    specialize (Hnil Hne). destruct ds; [done|]. f_equal. lia.
  - rewrite parse_decimal_exact. by destruct s.
Qed.

Lemma decimal_roundtrip_witness : 0 <= 31415 < 2 ^ 64 /\ exists ds, print_u64 31415 = Done ds /\ parse_decimal ds = Some 31415.
Proof.
  split; [lia|]. destruct (decimal_roundtrip 31415 []) as [H _]. destruct (H ltac:(lia)) as (ds & Hp & _ & Hd). exists ds. done.
Defined.
