(* ===== verification/Shell.v ===== *)
(** The kernel shell (src/kernel/src/shell/mod.rs) and its users (shell/users.rs): every command,
    on the kernel's state, and the main loop one key at a time.  The line editor is
    in ShellLine.v.

    The shell runs as a kernel task; its own state ([State], [HISTORY], [USERS]) is a
    record passed along.  Output goes to the console. *)
From Stdlib Require Import ZArith Lia.
From stdpp Require Import base option list numbers.
From S2P Require Import Prelude Console Bitmap RingBuf Ipc Process PageTable Pages Slab Paging RamFs Fs Elf Userspace AbiStack Kernel Scheduler Drivers Syscall ShellLine.
Local Open Scope Z_scope.
Local Open Scope kernel_scope.

(** ** Users *)

Definition MAX_USERS : nat := 8.
Record User := mk_user { u_uid : Z; u_gid : Z; u_used : bool; u_name : bytes; u_name_len : nat }.
Definition User_empty : User := mk_user 0 0 false (replicate 32 0) 0.
(** [USERS] and [COUNT]. *)
Record users := mk_users { USERS : list User; COUNT : nat }.
Definition users_static : users := mk_users (replicate MAX_USERS User_empty) 0.

(** [core::str::from_utf8(s).unwrap_or(d)] *)
Definition utf8_or (d s : bytes) : bytes := if utf8_ok s then s else d.
Definition user_name_str (u : User) : outcome bytes := s ← slice (u_name u) 0 (u_name_len u); Done (utf8_or (str "?") s).
Definition users_add (uid gid : Z) (name : bytes) (us : users) : outcome users :=
  if (MAX_USERS <=? COUNT us)%nat then Done us else
  let i := COUNT us in
  let n := Nat.min (length name) 32 in
  u ← get (USERS us) i;
  b ← blit (u_name u) 0 n (take n name);
  l ← set (USERS us) i (mk_user uid gid true b n);
  Done (mk_users l (COUNT us + 1)).
Definition users_init (us : users) : outcome users :=
  us ← users_add 0 0 (str "root") us; users_add 1000 1000 (str "ferrugem") us.
(** The loops of the two lookups, over [USERS[..COUNT]]. *)
Fixpoint find_user (p : User -> outcome bool) (l : list User) : outcome (option User) :=
  match l with
  | [] => Done None
  | u :: l => b ← (if u_used u then p u else Done false); if b : bool then Done (Some u) else find_user p l
  end.
Definition users_list (us : users) : outcome (list User) := slice (USERS us) 0 (COUNT us).
Definition lookup_by_name (us : users) (name : bytes) : outcome (option User) :=
  l ← users_list us; find_user (fun u => s ← user_name_str u; Done (bytes_eqb s name)) l.
Definition lookup_by_uid (us : users) (id : Z) : outcome (option User) :=
  l ← users_list us; find_user (fun u => Done (u_uid u =? id)) l.

(** [Inode::name_str] *)
Definition inode_name_str (n : Inode) : outcome bytes := s ← slice (name n) 0 (name_len n); Done (utf8_or [] s).

(** [State], with the two statics. *)
Record shell := mk_shell { sh_cwd : nat; sh_uid : Z; sh_gid : Z; sh_users : users; sh_hist : History }.
Inductive after := Prompt (s : shell) | Halted.

Definition arrow : bytes := [226; 134; 146].
Definition help_lines : list bytes :=
  [str "ferrugem Shell";
   str "";
   str "Navigation:";
   str "  cd [path]              change directory (default: /)";
   str "  ls [-l] [path]         list directory  (-l for long format)";
   str "  pwd                    print working directory";
   str "";
   str "Files:";
   str "  touch <file>           create empty file";
   str "  cat <file>             print file contents";
   str "  write <file> <text>    overwrite file";
   str "  append <file> <text>   append to file";
   str "  cp <src> <dst>         copy file";
   str "  mv <src> <dst>         rename / move file";
   str "  rm <file>              delete file";
   str "  mkdir <dir>            create directory";
   str "  rmdir <dir>            remove empty directory";
   str "  stat <path>            show file metadata";
   str "";
   str "Redirects:";
   str "  echo <text>            print text";
   str "  echo <text> > <file>   overwrite file";
   str "  echo <text> >> <file>  append to file";
   str "";
   str "Permissions:";
   str "  chmod <mode> <file>    change mode (octal, e.g. 755)";
   str "  chown <user> <file>    change owner  (root only)";
   str "";
   str "Users:";
   str "  whoami                 print current user";
   str "  su [user]              switch user  (default: root)";
   str "  users                  list all users";
   str "";
   str "System:";
   str "  uname                  kernel name and architecture";
   str "  uptime                 scheduler tick counter";
   str "  mem                    heap memory usage";
   str "  ps                     list running processes";
   str "  clear                  clear the screen";
   str "  halt | exit            halt the system";
   str "";
   str "Processes:";
   str "  spawn <task>           start a kernel task  (hello, counter)";
   str "  run <path>             load and run an ELF64 binary from VFS";
   str "  run user               start the built-in demo user program";
   str "  kill <slot>            terminate task by slot number";
   str "";
   str "History: up/down arrows navigate command history"].

Section shell.
Context {A : Type} {ops : PageOps A} {vops : VmOps A} {arch : ArchOps A}.
(** The target, the version made at build time, the two demo tasks and the statistics of the heap (Slab.v). *)
Variables (tgt : target) (version_full : bytes) (task_hello task_counter : Z) (stats : HeapStats).
Implicit Types s : shell.

Local Abbreviation print l := (console_print_str l).
Definition print_num (n : Z) : KM A unit := l ← lift (print_u64 n); print l.
Definition print_padded (n : Z) (width : nat) : KM A unit := l ← lift (print_u64_padded n width); print l.
(** A usage line, a message about [path]. *)
Definition usage (l : bytes) : KM A unit := print (str "usage: " ++ l ++ [10]).
Definition complain (l path : bytes) : KM A unit := print l;; print path;; print [10].

Definition cwd_path s : KM A bytes :=
  '(n, buf) ← fs_query (fun fs => vfs_inode_path fs (sh_cwd s) (replicate 256 0));
  p ← lift (slice buf 0 n);
  mret (utf8_or (str "/") p).
Definition user_label s (id : Z) : KM A bytes :=
  o ← lift (lookup_by_uid (sh_users s) id);
  match o with Some u => lift (user_name_str u) | None => mret (str "?") end.
Definition print_prompt s : KM A unit :=
  n ← user_label s (sh_uid s);
  print n;;
  print (str "@ferrugem:");;
  p ← cwd_path s;
  print p;;
  print (if sh_uid s =? 0 then str "# " else str "$ ").

(** ** Navigation *)

Definition cmd_help : KM A unit := forM help_lines (fun l => print (l ++ [10])).
Definition cmd_pwd s : KM A unit := p ← cwd_path s; print p;; print [10].
Definition cmd_cd (arg : option bytes) s : KM A shell :=
  let path := default (str "/") arg in
  r ← fs_query (fun fs => vfs_resolve fs path (sh_cwd s));
  match r with
  | None => complain (str "cd: no such directory: ") path;; mret s
  | Some idx =>
      d ← fs_query (fun fs => vfs_is_dir fs path (sh_cwd s));
      match d with
      | Some true => mret (mk_shell idx (sh_uid s) (sh_gid s) (sh_users s) (sh_hist s))
      | _ => complain (str "cd: not a directory: ") path;; mret s
      end
  end.
Definition is_directory (n : Inode) : bool := bool_decide (kind n = Dir).
Definition ls_entry (long : bool) s (n : Inode) : KM A unit :=
  (if long then
     print (format_mode (is_directory n) (mode n));;
     print (str "  ");;
     owner ← user_label s (uid n); print owner;;
     print (str "  ");;
     group ← user_label s (gid n); print group;;
     print (str "  ");;
     print_padded (Z.of_nat (size n)) 6;;
     print (str "  ")
   else mret tt);;
  nm ← lift (inode_name_str n);
  print nm;;
  (if is_directory n then print (str "/") else mret tt);;
  print [10].
Definition cmd_ls (first second : option bytes) s : KM A unit :=
  let '(long, path) :=
    match first, second with
    | Some f, Some p => if bytes_eqb f (str "-l") then (true, p) else (false, f)
    | Some f, None => if bytes_eqb f (str "-l") then (true, str ".") else (false, f)
    | None, _ => (false, str ".")
    end in
  l ← fs_query (fun fs => vfs_list_dir fs path (sh_cwd s));
  forM l (ls_entry long s);;
  match l with
  | [] =>
      r ← fs_query (fun fs => vfs_resolve fs path (sh_cwd s));
      match r with
      | None => print (str "ls: ");; print path;; print (str ": no such file" ++ [10])
      | Some _ => print path;; print [10]
      end
  | _ => mret tt
  end.

(** ** Files *)

Definition with_arg (arg : option bytes) (u : bytes) (f : bytes -> KM A unit) : KM A unit :=
  match arg with Some p => f p | None => usage u end.
Definition with_args (a b : option bytes) (u : bytes) (f : bytes -> bytes -> KM A unit) : KM A unit :=
  with_arg a u (fun x => with_arg b u (f x)).
(** A call on the file system that answers whether it worked. *)
Definition try_fs (f : RamFs -> outcome (bool * RamFs)) (otherwise : KM A unit) : KM A unit :=
  b ← on_fs f; if b : bool then mret tt else otherwise.

(** Modes are octal in the source: 493 is 0o755. *)
Definition cmd_mkdir (arg : option bytes) s : KM A unit :=
  with_arg arg (str "mkdir <dir>") (fun path =>
    try_fs (fun fs => vfs_mkdir fs path (sh_cwd s) (sh_uid s) (sh_gid s) 493) (complain (str "mkdir: cannot create directory: ") path)).
Definition cmd_rmdir (arg : option bytes) s : KM A unit :=
  with_arg arg (str "rmdir <dir>") (fun path =>
    try_fs (fun fs => vfs_rmdir fs path (sh_cwd s) (sh_uid s) (sh_gid s))
      (print (str "rmdir: cannot remove ");; print path;; print (str " (not empty, no permission, or not a directory)" ++ [10]))).
Definition cmd_rm (arg : option bytes) s : KM A unit :=
  with_arg arg (str "rm <file>") (fun path =>
    try_fs (fun fs => vfs_unlink fs path (sh_cwd s) (sh_uid s) (sh_gid s)) (complain (str "rm: cannot remove: ") path)).
Definition cmd_touch (arg : option bytes) s : KM A unit :=
  with_arg arg (str "touch <file>") (fun path =>
    try_fs (fun fs => vfs_touch fs path (sh_cwd s) (sh_uid s) (sh_gid s)) (complain (str "touch: cannot create: ") path)).

(** [crate::fs::read_as] and [write_as] as the user of the shell. *)
Definition read_file s (path : bytes) : KM A (option bytes) := fs_query (fun fs => read_as fs path (sh_cwd s) (sh_uid s) (sh_gid s)).
Definition write_file s (path dat : bytes) (otherwise : KM A unit) : KM A unit :=
  try_fs (fun fs => write_as fs path (sh_cwd s) dat (sh_uid s) (sh_gid s)) otherwise.
Definition cmd_cat (arg : option bytes) s : KM A unit :=
  with_arg arg (str "cat <file>") (fun path =>
    o ← read_file s path;
    match o with
    | Some dat => print (utf8_or (str "<binary file>" ++ [10]) dat)
    | None => print (str "cat: ");; print path;; print (str ": no such file or permission denied" ++ [10])
    end).
Definition cmd_write (path_arg : option bytes) (line : bytes) s : KM A unit :=
  with_arg path_arg (str "write <file> <content>") (fun path =>
    write_file s path (skip_words line 2) (complain (str "write: cannot write: ") path)).

(** What [do_append] puts in its buffer of 4096 bytes. *)
Definition appended (existing content : bytes) : bytes :=
  let pre := take (Z.to_nat 4090) existing in
  pre ++ take (Z.to_nat 4090 - length pre) content ++ [10].
Definition do_append (path content : bytes) s : KM A unit :=
  o ← read_file s path;
  write_file s path (appended (default [] o) content) (complain (str "append: cannot write: ") path).
Definition cmd_append (path_arg : option bytes) (line : bytes) s : KM A unit :=
  with_arg path_arg (str "append <file> <content>") (fun path => do_append path (skip_words line 2) s).
Definition cmd_cp (src_arg dst_arg : option bytes) s : KM A unit :=
  with_args src_arg dst_arg (str "cp <src> <dst>") (fun src dst =>
    o ← read_file s src;
    match o with
    | None => complain (str "cp: cannot read: ") src
    | Some dat => write_file s dst (take (Z.to_nat 4096) dat) (complain (str "cp: cannot write: ") dst)
    end).
Definition cmd_mv (src_arg dst_arg : option bytes) s : KM A unit :=
  with_args src_arg dst_arg (str "mv <src> <dst>") (fun src dst =>
    try_fs (fun fs => vfs_rename fs src dst (sh_cwd s) (sh_uid s) (sh_gid s)) (complain (str "mv: cannot rename: ") src)).
Definition print_stat (n : Inode) : KM A unit :=
  nm ← lift (inode_name_str n);
  print (str "  File: ");; print nm;; print [10];;
  print (str "  Type: ");;
  print (if is_directory n then str "directory" else str "regular file");;
  print (10 :: str "  Mode: ");;
  print (format_mode (is_directory n) (mode n));;
  print (10 :: str "   Uid: ");; print_num (uid n);;
  print (str "   Gid: ");; print_num (gid n);;
  print (10 :: str "  Size: ");; print_num (Z.of_nat (size n));; print (str " bytes" ++ [10]).
Definition cmd_stat (arg : option bytes) s : KM A unit :=
  with_arg arg (str "stat <path>") (fun path =>
    o ← fs_query (fun fs => stat_at fs path (sh_cwd s));
    match o with
    | Some n => print_stat n
    | None => print (str "stat: ");; print path;; print (str ": no such file or directory" ++ [10])
    end).

(** The text [echo] works on: the line without its first word. *)
Definition echo_rest (line : bytes) : bytes := skip_while (Z.eqb 32) (trim_prefixes (length line) (str "echo") line).
(** What [echo text > file] writes. *)
Definition echo_data (content : bytes) : bytes := take (Z.to_nat 4095) content ++ [10].
Definition cmd_echo (line : bytes) s : KM A unit :=
  let rest := echo_rest line in
  match parse_redirect rest with
  | Some (content, path, append) =>
      if bool_decide (path = []) then print (str "echo: missing filename for redirect" ++ [10])
      else if append : bool then do_append path content s
      else write_file s path (echo_data content) (complain (str "echo: cannot write: ") path)
  | None => print rest;; print [10]
  end.
(** [console_clear]: the screen of Console.v, or an escape sequence. *)
Definition cmd_clear : KM A unit :=
  match tgt with
  | X86_64 => v ← gets (fun k => vga (k_tty k)); v ← lift (clear v); mod_tty (with_vga v)
  | _ => print (27 :: str "[2J" ++ 27 :: str "[H")
  end.

(** ** Permissions and users *)

Definition cmd_chmod (mode_arg path_arg : option bytes) s : KM A unit :=
  with_args mode_arg path_arg (str "chmod <mode> <file>") (fun mode_str path =>
    match parse_octal mode_str with
    | None => print (str "chmod: invalid mode (use octal, e.g. 755)" ++ [10])
    | Some m => try_fs (fun fs => vfs_chmod fs path (sh_cwd s) m (sh_uid s)) (print (str "chmod: permission denied or file not found" ++ [10]))
    end).
Definition cmd_chown (owner_arg path_arg : option bytes) s : KM A unit :=
  with_args owner_arg path_arg (str "chown <user> <file>") (fun nm path =>
    o ← lift (lookup_by_name (sh_users s) nm);
    match o with
    | None => complain (str "chown: unknown user: ") nm
    | Some u => try_fs (fun fs => vfs_chown fs path (sh_cwd s) (u_uid u) (u_gid u) (sh_uid s)) (print (str "chown: permission denied (only root can chown)" ++ [10]))
    end).
Definition cmd_whoami s : KM A unit :=
  o ← lift (lookup_by_uid (sh_users s) (sh_uid s));
  match o with
  | Some u => n ← lift (user_name_str u); print n;; print [10]
  | None => print (str "uid=");; print_num (sh_uid s);; print [10]
  end.
Definition cmd_su (arg : option bytes) s : KM A shell :=
  let target_name := default (str "root") arg in
  o ← lift (lookup_by_name (sh_users s) target_name);
  match o with
  | None => complain (str "su: user not found: ") target_name;; mret s
  | Some u =>
      n ← lift (user_name_str u);
      complain (str "switched to ") n;;
      mret (mk_shell (sh_cwd s) (u_uid u) (u_gid u) (sh_users s) (sh_hist s))
  end.
Definition cmd_users s : KM A unit :=
  l ← lift (users_list (sh_users s));
  forM l (fun u =>
    if u_used u then
      print (str "uid=");; print_num (u_uid u);;
      print (str " gid=");; print_num (u_gid u);;
      n ← lift (user_name_str u);
      print (str " ");; print n;; print [10]
    else mret tt).

(** ** System and processes *)

Definition cmd_uname : KM A unit :=
  print (str "Ferrugem");; print (str " ");; print version_full;; print (str " ");; print (machine tgt);; print [10].
Definition state_str (t : TaskState) : bytes :=
  match t with Ready => str "ready  " | Running => str "running" | Blocked => str "blocked" | Zombie => str "zombie " end.
Definition ps_entry (self_slot : nat) (e : nat * Z * TaskState * bool) : KM A unit :=
  let '(slot, p, st, is_user) := e in
  print_padded (Z.of_nat slot) 4;;
  print (str "  ");;
  print_padded p 5;;
  print (str "  ");;
  print (state_str st);;
  print (str "  ");;
  print (if (slot =? 0)%nat then str "kernel (idle)"
         else if (slot =? self_slot)%nat then str "kernel (self)"
         else if is_user : bool then str "user" else str "kernel");;
  print [10].
Definition cmd_ps : KM A unit :=
  self_slot ← current_slot;
  print (str "SLOT  PID    STATE    TYPE" ++ [10]);;
  l ← for_each_task;
  forM l (ps_entry self_slot).
Definition cmd_uptime : KM A unit := t ← get_tick_count; print (str "ticks: ");; print_num t;; print [10].
Definition cmd_mem : KM A unit :=
  print (str "heap total:  ");; print_num (st_total stats / 1024);; print (str " KiB" ++ [10]);;
  print (str "     used:   ");; print_num (st_used stats);; print (str " bytes");;
  print (str " (");; print_num (st_allocs stats);; print (str " allocations)" ++ [10]);;
  print (str "     free:   ");; print_num (st_free stats);; print (str " bytes" ++ [10]);;
  let overhead := saturating_sub (saturating_sub (st_total stats) (st_used stats)) (st_free stats) in
  if 0 <? overhead then print (str "  overhead:  ");; print_num overhead;; print (str " bytes (headers)" ++ [10]) else mret tt.

Definition resolve_task (nm : bytes) : option Z :=
  if bytes_eqb nm (str "hello") then Some task_hello
  else if bytes_eqb nm (str "counter") then Some task_counter else None.
Definition cmd_spawn (arg : option bytes) : KM A unit :=
  match arg with
  | None => print (str "usage: spawn <name>  (tasks: hello, counter)" ++ [10])
  | Some nm =>
      match resolve_task nm with
      | None => print (str "spawn: unknown task '");; print nm;; print (str "'" ++ [10])
      | Some entry =>
          o ← spawn_fn entry;
          match o with
          | Some slot =>
              print (str "spawned '");; print nm;;
              print (str "' " ++ arrow ++ str " slot ");; print_num (Z.of_nat slot);; print [10]
          | None => print (str "spawn: run queue full" ++ [10])
          end
      end
  end.
(** [n as usize] for a slot: the numbers from MAX_TASKS on are all refused. *)
Definition as_slot (n : Z) : nat := Z.to_nat (Z.min n (Z.of_nat MAX_TASKS)).
Definition cmd_kill (arg : option bytes) : KM A unit :=
  with_arg arg (str "kill <slot>") (fun a =>
    match parse_decimal a with
    | None => print (str "kill: invalid slot number" ++ [10])
    | Some n =>
        b ← kill_task (as_slot n);
        if b : bool then print (str "killed slot ");; print_num n;; print [10]
        else print (str "kill: no such task, cannot kill (slot 0 or self not allowed)" ++ [10])
    end).
Definition no_el0 : KM A unit := print (str "run: EL0 userspace not implemented yet on aarch64 (Fase 2)" ++ [10]).
Definition run_user_hello : KM A unit :=
  match tgt with
  | Aarch64 _ _ => no_el0
  | _ =>
      o ← spawn_user (match tgt with Riscv64 => HELLO_USER_RV64 | _ => HELLO_USER end);
      match o with
      | Some slot => print (str "started user " ++ arrow ++ str " slot ");; print_num (Z.of_nat slot);; print [10]
      | None => print (str "run: failed (OOM or run queue full)" ++ [10])
      end
  end.
Definition run_elf_from_vfs (path : bytes) : KM A unit :=
  match tgt with
  | Aarch64 _ _ => no_el0
  | _ =>
      o ← fs_query (fun fs => read_as fs path 0 0 0);
      match o with
      | None => complain (str "run: not found: ") path
      | Some dat =>
          e ← lift (is_elf dat);
          if negb e then complain (str "run: not an ELF64 binary: ") path else
          r ← spawn_elf dat path;
          match r with
          | Some slot =>
              print (str "started '");; print path;;
              print (str "' " ++ arrow ++ str " slot ");; print_num (Z.of_nat slot);;
              p ← task_pid slot;
              print (str " pid ");; print_num p;; print [10]
          | None => print (str "run: failed (bad ELF, OOM, or run queue full)" ++ [10])
          end
      end
  end.
Definition cmd_run (arg : option bytes) : KM A unit :=
  match arg with
  | None => print (str "usage: run <path>  or  run user" ++ [10])
  | Some nm => if bytes_eqb nm (str "user") then run_user_hello else run_elf_from_vfs nm
  end.
(** [arch::halt] follows. *)
Definition cmd_halt : KM A unit := print (str "System halting..." ++ [10]).

(** ** Dispatch *)

Definition then_prompt s (m : KM A unit) : KM A after := m;; mret (Prompt s).
Definition to_prompt (m : KM A shell) : KM A after := s ← m; mret (Prompt s).
Definition is_cmd (w c : bytes) : bool := bytes_eqb w c.
(** The arguments [a] and [b] are the words [parts.next()] gives after the command. *)
Definition execute_word (cmd : bytes) (a b : option bytes) (line : bytes) s : KM A after :=
  if is_cmd cmd (str "help") then then_prompt s cmd_help
  else if is_cmd cmd (str "echo") then then_prompt s (cmd_echo line s)
  else if is_cmd cmd (str "clear") then then_prompt s cmd_clear
  else if is_cmd cmd (str "pwd") then then_prompt s (cmd_pwd s)
  else if is_cmd cmd (str "cd") then to_prompt (cmd_cd a s)
  else if is_cmd cmd (str "ls") then then_prompt s (cmd_ls a b s)
  else if is_cmd cmd (str "mkdir") then then_prompt s (cmd_mkdir a s)
  else if is_cmd cmd (str "rmdir") then then_prompt s (cmd_rmdir a s)
  else if is_cmd cmd (str "rm") then then_prompt s (cmd_rm a s)
  else if is_cmd cmd (str "touch") then then_prompt s (cmd_touch a s)
  else if is_cmd cmd (str "cat") then then_prompt s (cmd_cat a s)
  else if is_cmd cmd (str "write") then then_prompt s (cmd_write a line s)
  else if is_cmd cmd (str "append") then then_prompt s (cmd_append a line s)
  else if is_cmd cmd (str "cp") then then_prompt s (cmd_cp a b s)
  else if is_cmd cmd (str "mv") then then_prompt s (cmd_mv a b s)
  else if is_cmd cmd (str "stat") then then_prompt s (cmd_stat a s)
  else if is_cmd cmd (str "chmod") then then_prompt s (cmd_chmod a b s)
  else if is_cmd cmd (str "chown") then then_prompt s (cmd_chown a b s)
  else if is_cmd cmd (str "whoami") then then_prompt s (cmd_whoami s)
  else if is_cmd cmd (str "su") then to_prompt (cmd_su a s)
  else if is_cmd cmd (str "users") then then_prompt s (cmd_users s)
  else if is_cmd cmd (str "uname") then then_prompt s cmd_uname
  else if is_cmd cmd (str "ps") then then_prompt s cmd_ps
  else if is_cmd cmd (str "uptime") then then_prompt s cmd_uptime
  else if is_cmd cmd (str "mem") then then_prompt s cmd_mem
  else if is_cmd cmd (str "spawn") then then_prompt s (cmd_spawn a)
  else if is_cmd cmd (str "run") then then_prompt s (cmd_run a)
  else if is_cmd cmd (str "kill") then then_prompt s (cmd_kill a)
  else if is_cmd cmd (str "halt") || is_cmd cmd (str "exit") || is_cmd cmd (str "poweroff") || is_cmd cmd (str "shutdown") then cmd_halt;; mret Halted
  else then_prompt s (complain (str "unknown command: ") cmd).
Definition execute (line : bytes) s : KM A after :=
  let '(cmd, parts) := next_word line in
  match cmd with
  | None => mret (Prompt s)
  | Some cmd =>
      let '(a, parts) := next_word parts in
      let '(b, _) := next_word parts in
      execute_word cmd a b line s
  end.

(** ** The main loop, one key at a time *)

(** [read_char_nonblocking]: a poll of the two input buffers. *)
Definition read_char_nonblocking : KM A (option Z) :=
  o ← read_byte;
  match o with
  | Some b => mret (Some b)
  | None => sc ← read_scancode; match sc with Some sc => lift (scancode_to_ascii sc) | None => mret None end
  end.

(** What [run] does before its loop, the first prompt included; the banner holds the version. *)
Definition shell_start : KM A shell :=
  us ← lift (users_init users_static);
  print (str "Ferrugem v" ++ version_full ++ [10]);;
  print (str "Type 'help' for available commands." ++ [10; 10]);;
  let s := mk_shell 0 0 0 us History_new in
  print_prompt s;;
  mret s.
(** A line has been read: it is remembered and executed, and the next prompt follows. *)
Definition shell_line (l : LineBuffer) s : KM A after :=
  b ← lift (line_bytes l);
  h ← lift (hist_push (sh_hist s) b);
  let s := mk_shell (sh_cwd s) (sh_uid s) (sh_gid s) (sh_users s) h in
  line ← lift (as_str l);
  r ← execute line s;
  match r with
  | Prompt s => print_prompt s;; mret (Prompt s)
  | Halted => mret Halted
  end.
(** The loop of [run] on the key just read, with the editor's state. *)
Definition shell_key (key : Key) (e : editor) s : KM A (option (editor * shell)) :=
  '(r, out) ← lift (edit_key (sh_hist s) key e);
  print out;;
  match r with
  | Editing e => mret (Some (e, s))
  | Entered l =>
      r ← shell_line l s;
      mret (match r with Prompt s => Some (editor_new, s) | Halted => None end)
  end.

(** ** The two demo tasks, from one call of the scheduler to the next *)

Inductive demo_task := HelloStart | HelloLoop | CounterTick (i : Z) | CounterEnd.
(** What the task does until it gives the processor away, and where it goes on. *)
Definition demo_round (t : demo_task) : KM A unit :=
  match t with
  | HelloStart => print (str "[hello task] Hello from a background kernel task!" ++ [10]);; schedule
  | HelloLoop => schedule
  | CounterTick i => print (str "[counter] tick ");; print_num i;; print [10];; schedule
  | CounterEnd => exit_current 0
  end.
Definition demo_next (t : demo_task) : demo_task :=
  match t with
  | HelloStart | HelloLoop => HelloLoop
  | CounterTick i => if i <? 5 then CounterTick (i + 1) else CounterEnd
  | CounterEnd => CounterEnd
  end.
End shell.
