(* ===== verification/Interrupts.v ===== *)
(** The interrupt handlers the x86_64 stubs call (src/kernel/src/arch/x86_64/idt.rs):
    [common_dispatch], the handlers of page faults and protection faults, and the
    descriptors of the interrupt table. *)
From Stdlib Require Import ZArith Lia.
From stdpp Require Import base option list numbers.
From S2P Require Import Prelude Console RingBuf Ipc Process PageTable Pages Paging RamFs Kernel Scheduler Drivers.
Local Open Scope Z_scope.
Local Open Scope kernel_scope.

(** How a handler ends: it returns to its stub; it stops the processor; or [schedule]
    switched away, and the end of interrupt is sent when the interrupted task runs again. *)
Inductive handled := Iret | Halt | EoiLater (irq : Z).

Section interrupts.
Context {A : Type} {ops : PageOps A} {vops : VmOps A} {arch : ArchOps A}.

Definition halt_exception (msg : bytes) : KM A handled :=
  console_print_str (10 :: str "[EXCEPTION] ");; console_print_str msg;; console_print_str [10];; mret Halt.

(** [tick()] ends in [schedule()]: [eoi] follows in the task that was interrupted. *)
Definition timer_irq : KM A handled :=
  c ← CURRENT;
  tick;;
  c' ← CURRENT;
  if (c' =? c)%nat then eoi 0;; mret Iret else mret (EoiLater 0).
(** The rest of the handler, when the task interrupted runs again. *)
Definition finish_irq (h : handled) : KM A handled :=
  match h with EoiLater irq => eoi irq;; mret Iret | h => mret h end.

(** [rx]: the bytes the serial line holds; [status], [sc]: the registers of the keyboard. *)
Definition common_dispatch (vector : Z) (rx : bytes) (status sc : Z) : KM A handled :=
  if vector =? 0 then halt_exception (str "Divide by Zero")
  else if vector =? 1 then mret Iret
  else if vector =? 2 then halt_exception (str "NMI")
  else if vector =? 3 then mret Iret
  else if vector =? 4 then halt_exception (str "Overflow")
  else if vector =? 5 then halt_exception (str "Bound Range")
  else if vector =? 6 then halt_exception (str "Invalid Opcode")
  else if vector =? 7 then halt_exception (str "Device Not Available")
  else if vector =? 8 then halt_exception (str "Double Fault")
  else if vector =? 13 then halt_exception (str "General Protection Fault")
  else if vector =? 14 then halt_exception (str "Page Fault")
  else if (0 <=? vector) && (vector <=? 31) then halt_exception (str "CPU Exception")
  else if vector =? 32 then timer_irq
  else if vector =? 33 then keyboard_handle_irq status sc;; eoi 1;; mret Iret
  else if vector =? 36 then serial_handle_irq rx;; eoi 4;; mret Iret
  else if (34 <=? vector) && (vector <=? 47) then eoi (vector - 32);; mret Iret
  else mret Iret.

(** The register dump of the two fault handlers: (label, value). *)
Definition dump (l : list (bytes * Z)) : KM A unit :=
  forM l (fun '(s, v) => console_print_str s;; console_print_hex v).
Definition nl_str (s : bytes) : bytes := 10 :: s.

(** [gprs]: the saved registers in the order of [PfSavedGprs], r15 first. *)
Definition pagefault_handler_x86 (va error_code rip : Z) (gprs : list Z) : KM A handled :=
  if Z.land error_code 4 =? 0 then
    console_print_str (nl_str (str "[EXCEPTION] Kernel Page Fault" ++ [10]));; mret Halt
  else
    ok ← handle_user_page_fault va;
    if ok : bool then mret Iret else
    dump [(str "[#PF] va=0x", va); (str " err=0x", error_code); (str " rip=0x", rip)];;
    fsb ← read_fs_base;
    dump [(str " fs_base=0x", fsb)];;
    console_print_str (str " *fs_base=0x");;
    w ← user_read_le fsb 8;
    console_print_hex w;;
    console_print_str [10];;
    let g i := nth i gprs 0 in
    dump [(str "  rax=0x", g 12%nat); (str " rbx=0x", g 11%nat); (str " rsi=0x", g 10%nat); (str " rdi=0x", g 9%nat);
          (nl_str (str "  rbp=0x"), g 8%nat); (str " r8=0x", g 7%nat); (str " r9=0x", g 6%nat); (str " r10=0x", g 5%nat);
          (nl_str (str "  r11=0x"), g 4%nat); (str " r12=0x", g 3%nat); (str " r13=0x", g 2%nat); (str " r14=0x", g 1%nat); (str " r15=0x", g 0%nat)];;
    console_print_str [10];;
    exit_current 139;;
    mret Halt.

(** A line of the stack dump of [gpf_handler]. *)
Definition dump_words (label : bytes) (p : Z) : KM A unit :=
  forM (seqZ 0 4) (fun i =>
    console_print_str label;; console_print_hex (i * 8);; console_print_str (str "]=0x");;
    w ← user_read_le (p + i * 8) 8; console_print_hex w;; console_print_str [10]).

(** [gprs] in the order of [SavedGprs], r15 first; the frame is error code, rip, cs, rflags, rsp. *)
Definition gpf_handler (gprs : list Z) (error_code rip cs user_rsp : Z) : KM A handled :=
  let g i := nth i gprs 0 in
  dump [(nl_str (str "[#GP] err=0x"), error_code); (str " rip=0x", rip); (str " cs=0x", cs);
        (nl_str (str "  rax=0x"), g 14%nat); (str " rbx=0x", g 13%nat); (str " rcx=0x", g 12%nat); (str " rdx=0x", g 11%nat);
        (nl_str (str "  rsi=0x"), g 10%nat); (str " rdi=0x", g 9%nat); (str " rbp=0x", g 8%nat);
        (nl_str (str "  r8=0x"), g 7%nat); (str " r9=0x", g 6%nat); (str " r10=0x", g 5%nat); (str " r11=0x", g 4%nat);
        (nl_str (str "  r12=0x"), g 3%nat); (str " r13=0x", g 2%nat); (str " r14=0x", g 1%nat); (str " r15=0x", g 0%nat)];;
  console_print_str [10];;
  if Z.land cs 3 =? 3 then
    dump [(str "  user_rsp=0x", user_rsp)];;
    console_print_str [10];;
    dump_words (str "  [rsp+") user_rsp;;
    fa ← user_read_le user_rsp 8;
    (if negb (fa =? 0) then
       dump [(str "  fa=0x", fa)];; console_print_str [10];;
       dump_words (str "  fa[+") fa
     else mret tt);;
    exit_current 139;;
    mret Halt
  else mret Halt.
End interrupts.

(** ** The interrupt table *)

Record IdtEntry := mk_idt {
  offset_low : Z; selector : Z; ist : Z; type_attr : Z; offset_mid : Z; offset_high : Z; reserved : Z
}.
Definition IdtEntry_missing : IdtEntry := mk_idt 0 0 0 0 0 0 0.
Definition IdtEntry_set (handler sel i attr : Z) : IdtEntry :=
  mk_idt (Z.land handler 0xFFFF) sel i attr (Z.land (Z.shiftr handler 16) 0xFFFF) (wrap 32 (Z.shiftr handler 32)) 0.

(** [init]: the table, from the addresses of the 48 stubs, of [isr_ignore] and of [isr128]. *)
Definition idt_init (handlers : list Z) (isr_ignore isr128 : Z) : outcome (list IdtEntry) :=
  let attr_int := 0x8E in
  idt ← foldM (fun idt '(i, h) => set idt i (IdtEntry_set h 0x08 0 attr_int)) (replicate 256 IdtEntry_missing) (imap pair handlers);
  idt ← foldM (fun idt i => set idt i (IdtEntry_set isr_ignore 0x08 0 attr_int)) idt (seq 48 (256 - 48));
  set idt 0x80 (IdtEntry_set isr128 0x08 0 0xEF).

(** The address a gate leads to, as the processor assembles it. *)
Definition gate_target (e : IdtEntry) : Z := offset_low e + offset_mid e * 2 ^ 16 + offset_high e * 2 ^ 32.

Lemma gate_target_set h sel i attr : 0 <= h < 2 ^ 64 -> gate_target (IdtEntry_set h sel i attr) = h.
Proof.
  intros Hh. unfold gate_target, IdtEntry_set. cbn [offset_low offset_mid offset_high]. unfold wrap.
  change 0xFFFF with (Z.ones 16). rewrite !Z.land_ones, !Z.shiftr_div_pow2 by lia.
  pose proof (Z.div_mod h (2 ^ 16) ltac:(lia)). pose proof (Z.div_mod (h / 2 ^ 16) (2 ^ 16) ltac:(lia)).
  assert (h / 2 ^ 32 = h / 2 ^ 16 / 2 ^ 16) as -> by (by rewrite Z.div_div by lia).
  rewrite (Z.mod_small (h / 2 ^ 16 / 2 ^ 16)); [lia|]. split; [apply Z.div_pos; [apply Z.div_pos|]; lia|].
  apply Z.div_lt_upper_bound; [lia|]. apply Z.div_lt_upper_bound; lia.
Qed.

Lemma set_between {X} (pre post : list X) x y : set (pre ++ x :: post) (length pre) y = Done (pre ++ y :: post).
Proof. rewrite set_lt by (rewrite length_app; cbn; lia). f_equal. by rewrite insert_app_r_alt, Nat.sub_diag by lia. Qed.
(** Filling a stretch of the table from a list, and with one entry. *)
Lemma foldM_set_pairs {X Y} (g : Y -> X) hs : forall pre mid post, length mid = length hs ->
  foldM (fun l '(i, h) => set l i (g h)) (pre ++ mid ++ post) (imap (fun i h => ((length pre + i)%nat, h)) hs) = Done (pre ++ map g hs ++ post).
Proof.
  induction hs as [|h hs IH]; intros pre [|x mid] post Hl; try discriminate; [done|].
  rewrite imap_cons. cbn [foldM map app]. rewrite Nat.add_0_r, set_between. mred.
  specialize (IH (pre ++ [g h]) mid post ltac:(cbn in Hl; lia)). rewrite <- !app_assoc in IH. cbn [app] in IH. rewrite <- IH. f_equal.
  apply imap_ext. intros i y _. cbn. rewrite length_app. cbn. f_equal. lia.
Qed.
Lemma foldM_set_same {X} (v : X) n : forall pre mid post, length mid = n ->
  foldM (fun l i => set l i v) (pre ++ mid ++ post) (seq (length pre) n) = Done (pre ++ replicate n v ++ post).
Proof.
  induction n as [|n IH]; intros pre [|x mid] post Hl; try discriminate; [done|]. cbn [seq foldM replicate app]. rewrite set_between. mred.
  specialize (IH (pre ++ [v]) mid post ltac:(cbn in Hl; lia)). rewrite <- !app_assoc in IH. cbn [app] in IH. rewrite <- IH. f_equal.
  rewrite length_app. cbn. f_equal. lia.
Qed.

(** [init] fills all 256 entries of the interrupt table: vectors 0 to 47 lead to their stubs, 0x80 to
    the system call stub, callable from user mode, every other one to the ignoring stub; all
    through the kernel code segment, and the address the processor assembles from the
    three fields is the stub's. *)
Theorem idt_init_gates (handlers : list Z) (isr_ignore isr128 : Z) :
  length handlers = 48%nat -> Forall (fun h => 0 <= h < 2 ^ 64) (isr_ignore :: isr128 :: handlers) ->
  exists idt, idt_init handlers isr_ignore isr128 = Done idt /\ length idt = 256%nat /\
  forall v, (v < 256)%nat -> exists e, idt !! v = Some e /\
    gate_target e = (if decide (v = 0x80%nat) then isr128 else default isr_ignore (handlers !! v)) /\
    selector e = 0x08 /\ ist e = 0 /\ type_attr e = (if decide (v = 0x80%nat) then 0xEF else 0x8E).
Proof.
  intros Hl [Hi [Hs Hh]%Forall_cons_1]%Forall_cons_1. set (g := fun h => IdtEntry_set h 0x08 0 0x8E). unfold idt_init. cbv zeta.
  pose proof (foldM_set_pairs g handlers [] (replicate 48 IdtEntry_missing) (replicate 208 IdtEntry_missing)) as H1.
  rewrite <- replicate_add in H1. cbn [app length Nat.add] in H1. unfold g in H1. change (imap (fun i h => (i, h)) handlers) with (imap pair handlers) in H1. rewrite H1 by (rewrite length_replicate; lia). mred.
  pose proof (foldM_set_same (g isr_ignore) 208 (map g handlers) (replicate 208 IdtEntry_missing) []) as H2.
  rewrite length_map, Hl, !app_nil_r in H2. unfold g in H2. change (256 - 48)%nat with 208%nat. rewrite H2 by apply length_replicate. mred.
  pose (l := map g handlers ++ replicate 208 (g isr_ignore)). fold g. fold (g isr_ignore). fold l.
  assert (length l = 256%nat) as Hlen by (unfold l; rewrite length_app, length_map, length_replicate, Hl; reflexivity).
  rewrite set_lt by (rewrite Hlen; lia). eexists. split; [reflexivity|]. rewrite length_insert. split; [exact Hlen|]. intros v Hv.
  destruct (decide (v = 128%nat)) as [->|Hne].
  - rewrite list_lookup_insert_eq by lia. eexists. split; [reflexivity|]. by rewrite gate_target_set.
  - rewrite list_lookup_insert_ne by done. unfold l. destruct (decide (v < 48)%nat).
    + destruct (lookup_lt_is_Some_2 handlers v) as [h Hv']; [lia|]. rewrite lookup_app_l by (rewrite length_map; lia).
      rewrite list_lookup_fmap, Hv'. eexists. split; [reflexivity|]. unfold g. rewrite gate_target_set; [done|]. by eapply Forall_lookup_1 in Hh.
    + rewrite lookup_app_r by (rewrite length_map; lia). rewrite lookup_replicate_2 by (rewrite length_map; lia).
      rewrite lookup_ge_None_2 by lia. eexists. split; [reflexivity|]. unfold g. by rewrite gate_target_set.
Qed.
Lemma idt_init_gates_witness : exists idt, idt_init (map (fun i => 0xFFFF80000010_0000 + 16 * i) (seqZ 0 48)) 0xFFFF800000200000 0xFFFF800000300000 = Done idt /\
  option_map gate_target (idt !! 14%nat) = Some 0xFFFF8000001000E0 /\ option_map gate_target (idt !! 0x80%nat) = Some 0xFFFF800000300000.
Proof.
  destruct (idt_init_gates (map (fun i => 0xFFFF80000010_0000 + 16 * i) (seqZ 0 48)) 0xFFFF800000200000 0xFFFF800000300000) as (idt & E & _ & H).
  - reflexivity.
  - apply Forall_forall. intros x Hx. assert (0xFFFF800000100000 <= x <= 0xFFFF800000300000) as Hr; [|lia].
    destruct Hx as [<-|[<-|Hx]]; [lia | lia|]. apply in_map_iff in Hx as (i & <- & Hin).
    apply list_elem_of_In, elem_of_seqZ in Hin. lia.
  - exists idt. split; [exact E|]. destruct (H 14%nat ltac:(lia)) as (e & -> & He & _). destruct (H 128%nat ltac:(lia)) as (e' & -> & He' & _).
    cbn [option_map]. rewrite He, He'. split; reflexivity.
Defined.
