(* ===== verification/Boot.v ===== *)
(** The boot sequence of the kernel proper (src/kernel/src/init/mod.rs), from the file
    system on: the steps before it set up the processor, the memory (Bitmap.v, Pages.v) and the
    devices, whose states are arguments of the machines here. *)
From Stdlib Require Import ZArith Lia.
From stdpp Require Import base option list numbers.
From S2P Require Import Prelude Console Bitmap RingBuf Ipc Process PageTable Pages Paging RamFs Elf Fs Userspace Kernel Scheduler.
Local Open Scope Z_scope.
Local Open Scope kernel_scope.

Section boot.
Context {A : Type} {ops : PageOps A} {vops : VmOps A} {arch : ArchOps A}.
(** The target, the init program embedded at build time, and the address of [shell::run]. *)
Variables (tgt : target) (INIT_ELF : bytes) (shell_run : Z).

Definition boot_tables : KM A unit :=
  on_fs (fun fs => fs ← fs_init tgt fs; Done (tt, fs));;
  Scheduler.init.
Definition boot_tasks : KM A unit :=
  match tgt with
  | X86_64 =>
      elf ← lift (is_elf INIT_ELF);
      if elf : bool then _ ← spawn_elf INIT_ELF (str "/init"); mret tt
      else _ ← spawn_fn shell_run; _ ← spawn_user HELLO_USER; mret tt
  | Riscv64 => _ ← spawn_fn shell_run; _ ← spawn_user HELLO_USER_RV64; mret tt
  | Aarch64 _ _ => _ ← spawn_fn shell_run; mret tt
  end.
Definition kernel_main : KM A unit := boot_tables;; boot_tasks.

(** The statics before it, over the processor, the screen and the memory the earlier steps left. *)
Definition statics (cpu : cpu_state) (s : screen) (v : vm A) : kernel A :=
  mk_kernel sched_bss cpu (mk_tty (rb_new 64) (rb_new 64) [] s []) (mk_sysctx 0 0 (replicate 6 0) None) POOL_init ramfs_new v.
End boot.
