(* ===== verification/Arch.v ===== *)
(** The architecture under the upper layers of the kernel: the functions of
    src/kernel/src/arch/mod.rs on x86_64, as an instance of [ArchOps]. *)
From Stdlib Require Import ZArith Lia.
From stdpp Require Import base option list numbers.
From S2P Require Import Prelude Console Pages X86Asm Context X86Entry PageTable Paging PagingSpec RamFs Ipc RingBuf Process Kernel Scheduler.
Local Open Scope Z_scope.

(** The processor's translation: the last entry of the walk gives a page of 4 KiB,
    2 MiB or 1 GiB. *)
Definition x86_walk (m : mem) (root va : Z) : option Z :=
  match xlate (F := X86.format) 0 m root (x86_idxs va) with
  | Some (lv, e) =>
      let n := match lv with 1%nat => 30 | 2%nat => 21 | _ => 12 end in
      Some (Z.land e (Z.lnot (Z.ones n)) + Z.land va (Z.ones n))
  | None => None
  end.

(** Addresses of the statics and of the trampolines, and the values of the time-stamp
    counter that [entropy_seed] draws. *)
Record x86_image := mk_x86_image {
  im_pml4 : Z; im_pd : Z -> Z; im_user_trampoline : Z; im_fork_trampoline : Z; im_statics : syscall_statics; im_tsc : nat -> Z
}.

Definition rotate_right64 (x n : Z) : Z := Z.lor (Z.shiftr x n) (wrap 64 (Z.shiftl x (64 - n))).
(** [tsc.wrapping_mul(0x9e3779b97f4a7c15).rotate_right(17)] *)
Definition x86_seed (tsc : Z) : Z := rotate_right64 (umul tsc 0x9e3779b97f4a7c15) 17.

Definition x86_arch {A} {ops : PageOps A} (im : x86_image) : ArchOps A := {|
  arch_protect_guard := X86.protect_guard_page (im_pd im);
  arch_kernel_root := im_pml4 im;
  arch_user_code_va := X86.USER_CODE_VA;
  arch_user_stack_top := X86.USER_STACK_TOP;
  arch_init_stack := task_init_stack;
  arch_init_user_stack := task_init_userspace_stack (im_user_trampoline im);
  arch_init_fork_stack m base len rip rsp regs saved :=
    a0 ← get regs 0; a1 ← get regs 1; a2 ← get regs 2; a3 ← get regs 3; a4 ← get regs 4; a5 ← get regs 5;
    task_init_fork_stack (im_fork_trampoline im) m base len rip rsp a0 a1 a2 a3 a4 a5 saved;
  arch_callee_saved := callee_saved_snapshot (im_statics im);
  arch_has_fs := true;
  arch_seed n := x86_seed (im_tsc im n);
  arch_walk := x86_walk
|}.

(** ** A machine to run examples on *)

Definition demo_image : x86_image := mk_x86_image 0x1000 (fun i => 0x3000 + 0x1000 * i) 0x7000 0x7100 demo_statics (fun _ => 12345).

Definition demo_task (p pp : Z) (st : TaskState) (fs : Z) : Task :=
  mk_task p pp st CpuContext_zero (0x100000 + 0x9000 * p) (0x109000 + 0x9000 * p) 0 true (0x200000 + 0x1000 * p) 0 0 0 FdTable_new 0 fs.

(** Idle, and tasks in the slots from 1 on; slot [c] runs. *)
Definition demo_sched (ts : list (option Task)) (c : nat) : sched :=
  mk_sched (Some Task_idle :: ts ++ replicate (63 - length ts) None) (replicate MAX_TASKS 0) c 0 None
    (replicate MAX_PIPES None) (1 + Z.of_nat (length ts)) (replicate MAX_TASKS None).
Definition demo_kernel {A} (v : vm A) (ts : list (option Task)) (c : nat) (fs : Z) : kernel A :=
  mk_kernel (demo_sched ts c) (mk_cpu_state fs 0x201000 0x112000 true 0x110000 0)
    (mk_tty (rb_new 64) (rb_new 64) [] screen_off []) (mk_sysctx 0 0 (replicate 6 0) None) POOL_init ramfs_new v.
