(* ===== verification/RiscvArch.v ===== *)
(** The architecture under the upper layers of the kernel on RISC-V: the functions of
    src/kernel/src/arch/mod.rs for riscv64, as an instance of [ArchOps]. *)
From Stdlib Require Import ZArith Lia.
From stdpp Require Import base option list numbers.
From S2P Require Import Prelude Pages RiscvAsm RiscvContext PageTable Paging PagingSpec Kernel Arch.
Local Open Scope Z_scope.

(** The processor's translation under Sv39: bits 63 to 39 of an address repeat bit 38, and the last
    entry of the walk gives a page of 1 GiB, 2 MiB or 4 KiB. *)
Definition sv39_canonical (va : Z) : bool := (0 <=? va) && (va <? 2 ^ 38) || (2 ^ 64 - 2 ^ 38 <=? va) && (va <? 2 ^ 64).
Definition sv39_walk (m : mem) (root va : Z) : option Z :=
  if negb (sv39_canonical va) then None else
  match xlate (F := Sv39.format) 0 m root (sv39_idxs va) with
  | Some (lv, e) =>
      let n := match lv with 0%nat => 30 | 1%nat => 21 | _ => 12 end in
      let phys := Z.shiftl (Z.land (Z.shiftr e 10) (Z.ones 44)) 12 in
      Some (Z.land phys (Z.lnot (Z.ones n)) + Z.land va (Z.ones n))
  | None => None
  end.

(** The root table's address, the trampoline's, and the readings of the time register that [entropy_seed] draws. *)
Record rv_image := mk_rv_image { rim_root : Z; rim_trampoline : Z; rim_time : nat -> Z }.
(** [t.wrapping_mul(0x9e3779b97f4a7c15)] *)
Definition rv_seed (t : Z) : Z := umul t 0x9e3779b97f4a7c15.

Definition rv_arch {A} (im : rv_image) : ArchOps A := {|
  arch_protect_guard s phys := Done (Sv39.protect_guard_page phys, s);
  arch_kernel_root := Sv39.kernel_page_table_phys (rim_root im);
  arch_user_code_va := Sv39.USER_CODE_VA;
  arch_user_stack_top := Sv39.USER_STACK_TOP;
  arch_init_stack := Rv.task_init_stack;
  arch_init_user_stack := Rv.task_init_userspace_stack (rim_trampoline im);
  arch_init_fork_stack m base len rip rsp regs saved := Done (Rv.task_init_fork_stack (rim_trampoline im) m base len rip rsp regs saved);
  arch_callee_saved _ := replicate 6 0;
  arch_has_fs := false;
  arch_seed n := rv_seed (rim_time im n);
  arch_walk := sv39_walk
|}.

(** ** A machine to run examples on *)

Definition demo_rv_image : rv_image := mk_rv_image 0x1000 0x7000 (fun n => 1000 + Z.of_nat n).

(** The kernel's own table maps the first 4 GiB to themselves. *)
Lemma rv_kernel_identity : sv39_walk (Sv39.init 0x1000 (fun _ => 0)) 0x1000 0x80201234 = Some 0x80201234 /\
  sv39_walk (Sv39.init 0x1000 (fun _ => 0)) 0x1000 0x100000000 = None.
Proof. vm_compute. by split. Qed.
