(* ===== verification/SchedulerSpec.v ===== *)
(** What the scheduler promises (Scheduler.v): the round-robin choice and its
    fairness, the effect of a switch, exit and wait, fork. *)
From Stdlib Require Import ZArith Lia.
From stdpp Require Import base option list numbers.
From S2P Require Import Prelude RingBuf Ipc Process PageTable Pages Paging PagingSpec RamFs Elf AbiStack Kernel Scheduler Arch.
Local Open Scope Z_scope.

(** ** The choice *)

(** The slot that [slot] runs after, counted in turns from the current one. *)
Definition turn (current slot : nat) : nat := (slot + 62 - current) mod 63.

Definition ready_at (ts : list (option Task)) (slot : nat) : Prop := exists t, ts !! slot = Some (Some t) /\ state t = Ready.

Lemma state_is_Ready o : state_is Ready o = true <-> exists t, o = Some t /\ state t = Ready.
Proof.
  unfold state_is. destruct o as [t|]; [|naive_solver]. rewrite bool_decide_eq_true. naive_solver.
Qed.

(** The search order lists the slots 1 .. 63 by turn. *)
Lemma search_order_turn c : (c < 64)%nat ->
  search_order c = (fun i => (c + i) mod 63 + 1)%nat <$> seq 0 63.
Proof.
  intros Hc. unfold search_order. change (MAX_TASKS - 1)%nat with 63%nat. apply list_fmap_ext. intros i ? [-> _]%lookup_seq. cbn [Nat.add].
  unfold search_start. change (MAX_TASKS - 1)%nat with 63%nat. destruct (Nat.eqb_spec c 0) as [->|Hne]; [done|].
  f_equal. rewrite Nat.add_sub. rewrite Nat.Div0.add_mod_idemp_l. done.
Qed.

Lemma turn_slot c i : (c < 64)%nat -> (i < 63)%nat -> turn c ((c + i) mod 63 + 1) = i.
Proof.
  intros Hc Hi. unfold turn. rewrite (mod_wrap (c + i) 63) by lia. case_decide; rewrite mod_wrap by lia; case_decide; lia.
Qed.

Lemma slot_turn c s : (c < 64)%nat -> (1 <= s < 64)%nat -> ((c + turn c s) mod 63 + 1)%nat = s /\ (turn c s < 63)%nat.
Proof.
  intros Hc Hs. assert (turn c s < 63)%nat as Ht by (apply Nat.mod_upper_bound; lia).
  split; [|done]. rewrite (mod_wrap (c + turn c s) 63) by lia. unfold turn in *.
  rewrite (mod_wrap (s + 62 - c) 63) in * by lia. repeat case_decide; lia.
Qed.

Lemma pick_next_spec ts order : Forall (fun s => (s < length ts)%nat) order ->
  exists n, pick_next ts order = Done n /\
    ((n = 0%nat /\ Forall (fun s => ~ ready_at ts s) order) \/
     exists l1 l2, order = l1 ++ n :: l2 /\ ready_at ts n /\ Forall (fun s => ~ ready_at ts s) l1).
Proof.
  induction order as [|s order IH]; intros Hlt; cbn [pick_next].
  - exists 0%nat. split; [done | by left].
  - apply Forall_cons_1 in Hlt as [Hs Hlt]. destruct (get_lt ts s Hs) as (o & -> & Ho). mred.
    destruct (state_is Ready o) eqn:E.
    + exists s. split; [done|]. right. exists [], order. split; [done|]. split; [|done].
      apply state_is_Ready in E as (t & -> & Et). by exists t.
    + assert (~ ready_at ts s) as Hn.
      { intros (t & Ht & Er). rewrite Ho in Ht. done_inv. cbn in E. by rewrite bool_decide_eq_true_2 in E. }
      destruct (IH Hlt) as (n & -> & H). exists n. split; [done|]. destruct H as [[-> H]|(l1 & l2 & -> & Hr & H)].
      * left. by split; [|constructor].
      * right. exists (s :: l1), l2. split; [done|]. split; [done | by constructor].
Qed.

(** The choice of [schedule] from the current slot: the first ready slot in turn,
    or the idle slot when no other is ready. *)
Definition chosen (ts : list (option Task)) (c n : nat) : Prop :=
  ((1 <= n < 64)%nat /\ ready_at ts n /\ forall s, (1 <= s < 64)%nat -> ready_at ts s -> (turn c n <= turn c s)%nat) \/
  (n = 0%nat /\ forall s, (1 <= s < 64)%nat -> ~ ready_at ts s).

Lemma pick_next_chosen ts c : length ts = MAX_TASKS -> (c < 64)%nat ->
  exists n, pick_next ts (search_order c) = Done n /\ chosen ts c n.
Proof.
  intros Hl Hc. destruct (pick_next_spec ts (search_order c)) as (n & -> & H).
  { rewrite search_order_turn by done. apply Forall_fmap, Forall_seq. intros i Hi. cbn. rewrite Hl. unfold MAX_TASKS.
    pose proof (Nat.mod_upper_bound (c + i) 63 ltac:(lia)). lia. }
  exists n. split; [done|]. rewrite search_order_turn in H by done. destruct H as [[-> H]|(l1 & l2 & E & Hr & H)].
  - right. split; [done|]. intros s Hs Hr. destruct (slot_turn c s Hc Hs) as [E Ht].
    rewrite Forall_lookup in H. apply (H (turn c s) s); [|done].
    apply list_lookup_fmap_Some. exists (turn c s). split; [by rewrite E | by apply lookup_seq].
  - left. set (i := length l1).
    assert (((fun i => ((c + i) mod 63 + 1)%nat) <$> seq 0 63) !! i = Some n) as Hi.
    { rewrite E. by apply list_lookup_middle. }
    apply list_lookup_fmap_Some in Hi as (j & -> & Hj). apply lookup_seq in Hj as [Hj Hj3]. cbn in Hj. subst j.
    pose proof (Nat.mod_upper_bound (c + i) 63 ltac:(lia)).
    split; [lia|]. split; [done|]. intros s Hs Hrs. rewrite turn_slot by (done || lia).
    destruct (slot_turn c s Hc Hs) as [Es Ht]. destruct (Nat.le_gt_cases i (turn c s)) as [|Hlt]; [done|]. exfalso.
    assert (l1 !! turn c s = Some s) as Hl1.
    { assert ((l1 ++ ((c + i) mod 63 + 1)%nat :: l2) !! turn c s = Some s) as Hx.
      { rewrite <- E. apply list_lookup_fmap_Some. exists (turn c s). split; [done|]. by apply lookup_seq. }
      by rewrite lookup_app_l in Hx by done. }
    rewrite Forall_lookup in H. by apply (H _ _ Hl1).
Qed.

(** Whoever is chosen, a slot that stays ready comes closer. *)
Lemma chosen_closer ts c n s : (c < 64)%nat -> (1 <= s < 64)%nat -> ready_at ts s -> chosen ts c n ->
  n = s \/ (turn n s < turn c s)%nat.
Proof.
  intros Hc Hs Hr [(Hn & _ & Hmin)|[_ Hno]]; [|by destruct (Hno s Hs)].
  destruct (decide (n = s)) as [|Hne]; [by left | right]. specialize (Hmin s Hs Hr).
  unfold turn in *. rewrite !mod_wrap in * by lia. repeat case_decide; lia.
Qed.

(** ** The switch *)

(** The arrays have their sizes; the idle slot and the current slot are in use. *)
Record sched_shape (s : sched) : Prop := {
  sh_tasks : length (tasks s) = MAX_TASKS;
  sh_guards : length (guard_phys s) = MAX_TASKS;
  sh_parked : length (parked s) = MAX_TASKS;
  sh_waiters : length (pipe_waiters s) = MAX_PIPES;
  sh_cur : exists t, tasks s !! cur s = Some (Some t);
  sh_idle : exists t, tasks s !! 0%nat = Some (Some t)
}.

(** Every suspended call of [schedule] names a slot that is still in use. *)
Definition parked_ok (s : sched) : Prop :=
  forall slot n b, parked s !! slot = Some (Some (n, b)) -> exists t, tasks s !! n = Some (Some t).

Lemma shape_cur s : sched_shape s -> (cur s < 64)%nat.
Proof. intros H. destruct (sh_cur s H) as [t Ht%lookup_lt_Some]. by rewrite (sh_tasks s H) in Ht. Qed.

Lemma set_Some {X} (l : list X) i x y : l !! i = Some x -> set l i y = Done (<[i := y]> l).
Proof. intros H%lookup_lt_Some. by apply set_lt. Qed.

Section spec.
Context {A : Type} {ops : PageOps A} {vops : VmOps A} {arch : ArchOps A}.
Implicit Types k : kernel A.

Definition canary_ok k : Prop :=
  forall g, cur (k_sched k) <> 0%nat -> guard_phys (k_sched k) !! cur (k_sched k) = Some g -> g <> 0 ->
  load64 (vm_mem (k_vm k)) (uadd g GUARD_SIZE) = GUARD_CANARY.

Lemma check_canary_ok k c : c = cur (k_sched k) -> sched_shape (k_sched k) -> canary_ok k -> check_canary c k = Done (tt, k).
Proof.
  intros -> Hsh Hc. unfold check_canary. destruct (Nat.eqb_spec (cur (k_sched k)) 0) as [|Hne]; [done|]. kred.
  destruct (get_lt (guard_phys (k_sched k)) (cur (k_sched k))) as (g & -> & Hg).
  { rewrite (sh_guards _ Hsh). by apply shape_cur. }
  kred. destruct (Z.eqb_spec g 0) as [|Hg0]; [done|]. kred. by rewrite (Hc g), Z.eqb_refl.
Qed.

Lemma get_task_run k slot o : tasks (k_sched k) !! slot = Some o -> get_task slot k = Done (o, k).
Proof. intros H. unfold get_task. kred. by rewrite (get_Some _ _ _ H). Qed.
Lemma set_task_run k slot o x : tasks (k_sched k) !! slot = Some o ->
  set_task slot x k = Done (tt, put_sched (with_tasks (<[slot := x]> (tasks (k_sched k))) (k_sched k)) k).
Proof. intros H. unfold set_task. kred. by rewrite (set_Some _ _ _ _ H). Qed.
Lemma update_task_run k slot t f : tasks (k_sched k) !! slot = Some (Some t) ->
  update_task slot f k = Done (tt, put_sched (with_tasks (<[slot := Some (f t)]> (tasks (k_sched k))) (k_sched k)) k).
Proof.
  intros H. unfold update_task. rewrite (bind_run _ _ _ _ _ (get_task_run k slot _ H)). kred.
  by apply set_task_run with (o := Some t).
Qed.
Lemma set_parked_run k slot o x : parked (k_sched k) !! slot = Some o ->
  set_parked slot x k = Done (tt, put_sched (with_parked (<[slot := x]> (parked (k_sched k))) (k_sched k)) k).
Proof. intros H. unfold set_parked. kred. by rewrite (set_Some _ _ _ _ H). Qed.

Lemma restore_irqs k : restore_interrupt_state (irqs (k_cpu k)) (put_cpu (with_irqs false (k_cpu k)) k) = Done (tt, k).
Proof. destruct k as [? [? ? ? [|] ? ?] ? ? ? ? ?]; done. Qed.

(** The task switched away from, as it is stored. *)
Definition suspended k (t : Task) : Task :=
  with_kernel_sp (sp_reg (k_cpu k)) (with_fs_base (if arch_has_fs then fs_reg (k_cpu k) else 0) t).
Definition root_of (t : Task) : Z := if negb (page_table_phys t =? 0) then page_table_phys t else arch_kernel_root.
Definition entry_stack (t : Task) : Z := if is_user t then stack_top t else 0.

(** The state in which the next task, [t'] in slot [n], begins to run. *)
Definition switched k (t : Task) (n : nat) (t' : Task) : kernel A :=
  let s := k_sched k in
  let c := k_cpu k in
  put_cpu (mk_cpu_state (fs_reg c) (root_of t') (entry_stack t') false (kernel_sp t') (draws c))
    (put_sched (mk_sched (<[cur s := Some (suspended k t)]> (tasks s)) (guard_phys s) n (tick_count s) (tty_waiter s)
      (pipe_waiters s) (next_pid s) (<[cur s := Some (n, irqs c)]> (parked s))) k).

Lemma schedule_out_run k : sched_shape (k_sched k) -> canary_ok k ->
  exists n, chosen (tasks (k_sched k)) (cur (k_sched k)) n /\
    if decide (n = cur (k_sched k)) then schedule_out k = Done (None, k)
    else exists t t', tasks (k_sched k) !! cur (k_sched k) = Some (Some t) /\ tasks (k_sched k) !! n = Some (Some t') /\
      schedule_out k = Done (Some n, switched k t n t').
Proof.
  intros Hsh Hc. destruct (pick_next_chosen (tasks (k_sched k)) (cur (k_sched k)) (sh_tasks _ Hsh) (shape_cur _ Hsh)) as (n & Hp & Hn).
  exists n. split; [done|]. unfold schedule_out. unfold save_and_disable_interrupts, CURRENT. kred.
  rewrite check_canary_ok by done. kred. rewrite Hp. kred. case_decide as E.
  - subst n. rewrite Nat.eqb_refl. kred. by rewrite restore_irqs.
  - apply Nat.eqb_neq in E as ->. destruct (sh_cur _ Hsh) as [t Ht].
    assert (exists t', tasks (k_sched k) !! n = Some (Some t')) as [t' Ht'].
    { destruct Hn as [(_ & (t' & ? & _) & _)|[-> _]]; [by exists t' | apply (sh_idle _ Hsh)]. }
    exists t, t'. split; [done|]. split; [done|]. kred.
    assert (exists o, parked (k_sched k) !! cur (k_sched k) = Some o) as [o Ho].
    { apply lookup_lt_is_Some. rewrite (sh_parked _ Hsh). by apply shape_cur. }
    rewrite (get_task_run _ n (Some t')) by done. kred. unfold set_kernel_stack, switch_address_space, read_fs_base. kred.
    rewrite (update_task_run _ (cur (k_sched k)) t) by done. kred.
    rewrite (update_task_run _ (cur (k_sched k)) (with_fs_base (if arch_has_fs then fs_reg (k_cpu k) else 0) t))
      by (cbn; rewrite list_lookup_insert_eq; [done | by eapply lookup_lt_Some]).
    kred. rewrite (set_parked_run _ (cur (k_sched k)) o) by done. kred. rewrite list_insert_insert_eq. done.
Qed.

(** The state after task [slot] has gone on. *)
Definition resumed k (slot : nat) : kernel A -> Prop := fun k' =>
  k_sched k' = with_parked (<[slot := None]> (parked (k_sched k))) (k_sched k) /\
  k_tty k' = k_tty k /\ k_sys k' = k_sys k /\ k_pool k' = k_pool k /\ k_fs k' = k_fs k /\ k_vm k' = k_vm k /\
  page_root (k_cpu k') = page_root (k_cpu k) /\ entry_sp (k_cpu k') = entry_sp (k_cpu k) /\
  sp_reg (k_cpu k') = sp_reg (k_cpu k) /\ draws (k_cpu k') = draws (k_cpu k).

Lemma resume_run k slot : (slot < length (parked (k_sched k)))%nat -> parked_ok (k_sched k) ->
  (exists t, tasks (k_sched k) !! slot = Some (Some t)) ->
  exists k', resume slot k = Done (tt, k') /\ resumed k slot k' /\
    forall n b t, parked (k_sched k) !! slot = Some (Some (n, b)) -> tasks (k_sched k) !! n = Some (Some t) ->
    arch_has_fs = true -> fs_reg (k_cpu k') = fs_base t.
Proof.
  intros Hlt Hp [ts Hts]. unfold resume. kred. destruct (get_lt _ _ Hlt) as (f & -> & Hf). kred.
  destruct f as [[n b]|].
  - destruct (Hp slot n b Hf) as [t Ht]. kred. rewrite (set_parked_run _ slot _ _ Hf). kred.
    rewrite (get_task_run _ n (Some t)) by done. kred. unfold write_fs_base, restore_interrupt_state.
    destruct arch_has_fs eqn:Ef, b; kred; (eexists; split; [done|]; split; [done|]); intros n' b' t' Hn' Ht' Hfs;
      rewrite Hf in Hn'; by done_inv.
  - kred. rewrite (get_task_run _ slot (Some ts)) by done. kred.
    assert (<[slot := None]> (parked (k_sched k)) = parked (k_sched k)) as E by (by apply list_insert_id).
    assert (with_parked (<[slot := None]> (parked (k_sched k))) (k_sched k) = k_sched k) as Es by (rewrite E; by destruct (k_sched k)).
    destruct (is_user ts); kred; (eexists; split; [done|]; split; [by split|]); intros n b t Hn; by rewrite Hf in Hn.
Qed.

(** A state in which the scheduler can run. *)
Record sched_ok k : Prop := {
  so_shape : sched_shape (k_sched k);
  so_parked : parked_ok (k_sched k);
  so_canary : canary_ok k
}.

Lemma parked_ok_switched k t n t' : parked_ok (k_sched k) -> tasks (k_sched k) !! cur (k_sched k) = Some (Some t) ->
  tasks (k_sched k) !! n = Some (Some t') -> parked_ok (k_sched (switched k t n t')).
Proof.
  intros Hp Ht Ht' slot m b. cbn. intros Hm.
  assert (forall i u, tasks (k_sched k) !! i = Some (Some u) -> exists u', <[cur (k_sched k):=Some (suspended k t)]> (tasks (k_sched k)) !! i = Some (Some u')) as Hins.
  { intros i u Hi. destruct (decide (i = cur (k_sched k))) as [->|].
    - rewrite list_lookup_insert_eq by (by eapply lookup_lt_Some). by eexists.
    - rewrite list_lookup_insert_ne by done. by exists u. }
  apply list_lookup_insert_Some in Hm as [(_ & E & _)|[_ Hm]].
  - done_inv. by eapply Hins.
  - destruct (Hp slot m b Hm) as [u Hu]. by eapply Hins.
Qed.

Lemma schedule_run k : sched_ok k -> exists n, chosen (tasks (k_sched k)) (cur (k_sched k)) n /\
  if decide (n = cur (k_sched k)) then schedule k = Done (tt, k)
  else exists t t' k', tasks (k_sched k) !! cur (k_sched k) = Some (Some t) /\ tasks (k_sched k) !! n = Some (Some t') /\
    schedule k = Done (tt, k') /\ resumed (switched k t n t') n k' /\
    (forall m b u, parked (k_sched k) !! n = Some (Some (m, b)) ->
      tasks (k_sched (switched k t n t')) !! m = Some (Some u) -> arch_has_fs = true -> fs_reg (k_cpu k') = fs_base u).
Proof.
  intros [Hsh Hp Hc]. destruct (schedule_out_run k Hsh Hc) as (n & Hn & H). exists n. split; [done|].
  unfold schedule. kred. case_decide as E; [by rewrite H|].
  destruct H as (t & t' & Ht & Ht' & ->). exists t, t'. kred.
  destruct (resume_run (switched k t n t') n) as (k' & -> & Hr & Hf).
  - cbn. rewrite length_insert, (sh_parked _ Hsh), <- (sh_tasks _ Hsh). by eapply lookup_lt_Some.
  - by apply parked_ok_switched.
  - cbn. exists t'. by rewrite list_lookup_insert_ne by done.
  - exists k'. split; [done|]. split; [done|]. split; [done|]. split; [done|]. intros m b u Hm. apply (Hf m b u).
    cbn. by rewrite list_lookup_insert_ne by done.
Qed.


(** ** Fairness *)

(** Calls of [schedule] with anything in between that leaves the current slot
    alone and slot [s] ready; the states right after each call. *)
Inductive switches (s : nat) : kernel A -> list (kernel A) -> Prop :=
| sw_nil k : switches s k []
| sw_cons k k1 k2 l : cur (k_sched k1) = cur (k_sched k) -> sched_ok k1 -> ready_at (tasks (k_sched k1)) s ->
    schedule k1 = Done (tt, k2) -> switches s k2 l -> switches s k (k2 :: l).

Lemma switches_turn s l : forall k, (1 <= s < 64)%nat -> (cur (k_sched k) < 64)%nat -> switches s k l ->
  (turn (cur (k_sched k)) s < length l)%nat -> Exists (fun k' => cur (k_sched k') = s) l.
Proof.
  induction l as [|k2 l IH]; intros k Hs Hc H Hl; cbn [length] in Hl; [lia|].
  inversion H as [|? k1 ? ? Ec Hok Hr Hsch H2]; subst.
  destruct (schedule_run k1 Hok) as (n & Hn & Hrun).
  assert (cur (k_sched k2) = n) as E2.
  { case_decide as E.
    - rewrite Hrun in Hsch. by done_inv.
    - destruct Hrun as (t & t' & k' & _ & _ & Hrun & (Hsd & _) & _). rewrite Hrun in Hsch. done_inv. by rewrite Hsd. }
  rewrite Ec in Hn. destruct (chosen_closer _ _ _ s Hc Hs Hr Hn) as [->|Hlt]; [by left|]. right.
  apply (IH k2 Hs); [|done | rewrite E2; lia]. rewrite E2. destruct Hn as [(? & _)|[-> _]]; lia.
Qed.

(** C10: No starvation: a task that stays ready gets the processor within 63 calls of
    [schedule], whatever the tasks do in between. *)
Theorem ready_task_runs (s : nat) k (l : list (kernel A)) :
  (1 <= s < 64)%nat -> (cur (k_sched k) < 64)%nat -> switches s k l -> (63 <= length l)%nat ->
  Exists (fun k' => cur (k_sched k') = s) l.
Proof.
  intros Hs Hc H Hl. apply (switches_turn s l k Hs Hc H). destruct (slot_turn _ s Hc Hs). lia.
Qed.

(** Without guard pages the conditions are kept by [schedule] itself. *)
Lemma schedule_keeps k k' : sched_ok k -> Forall (fun g => g = 0) (guard_phys (k_sched k)) -> schedule k = Done (tt, k') ->
  sched_ok k' /\ guard_phys (k_sched k') = guard_phys (k_sched k) /\
  forall s, ready_at (tasks (k_sched k)) s -> ready_at (tasks (k_sched k')) s.
Proof.
  intros Hok Hg H. destruct (schedule_run k Hok) as (n & _ & Hrun). case_decide as E.
  { rewrite Hrun in H. by done_inv. }
  destruct Hrun as (t & t' & k1 & Ht & Ht' & Hrun & (Hs & _) & _). rewrite Hrun in H. done_inv.
  pose proof (parked_ok_switched k t n t' (so_parked _ Hok) Ht Ht') as Hp.
  pose proof (lookup_lt_Some _ _ _ Ht) as Hlt. destruct Hok as [[H1 H2 H3 H4 H5 H6] _ _]. split; [|split; [by rewrite Hs|]].
  - split; [rewrite Hs | rewrite Hs |].
    + split; cbn; rewrite ?length_insert; try done.
      * exists t'. by rewrite list_lookup_insert_ne by done.
      * destruct (decide (cur (k_sched k) = 0%nat)) as [->|].
        -- rewrite list_lookup_insert_eq by (rewrite H1; unfold MAX_TASKS; lia). by eexists.
        -- by rewrite list_lookup_insert_ne by done.
    + intros slot m b. cbn. intros Hm. apply list_lookup_insert_Some in Hm as [(_ & Hm & _)|[_ Hm]]; [done|]. by apply (Hp slot m b).
    + intros g _ Hgl Hne. rewrite Hs in Hgl. cbn in Hgl. rewrite Forall_lookup in Hg. by destruct (Hne (Hg _ _ Hgl)).
  - intros s (u & Hu & Hr). rewrite Hs. cbn. destruct (decide (s = cur (k_sched k))) as [->|].
    + exists (suspended k t). rewrite list_lookup_insert_eq by done. rewrite Ht in Hu. by done_inv.
    + exists u. by rewrite list_lookup_insert_ne by done.
Qed.

Lemma switches_exist s : forall n k, sched_ok k -> Forall (fun g => g = 0) (guard_phys (k_sched k)) ->
  ready_at (tasks (k_sched k)) s -> exists l, length l = n /\ switches s k l.
Proof.
  induction n as [|n IH]; intros k Hok Hg Hr; [exists []; split; [done | constructor]|].
  assert (exists k', schedule k = Done (tt, k')) as [k' E].
  { destruct (schedule_run k Hok) as (m & _ & H). case_decide; [by eexists|]. destruct H as (? & ? & k' & _ & _ & H & _). by eexists. }
  destruct (schedule_keeps k k' Hok Hg E) as (Hok' & Hg' & Hr'). destruct (IH k' Hok') as (l & <- & Hl); [by rewrite Hg' | by apply Hr'|].
  exists (k' :: l). split; [done|]. by apply (sw_cons s k k k').
Qed.

(** [schedule] restores FS.base from the wrong task: task [a] switches away to [b]; when later
    a switch from [b] returns to [a], the register holds what [b] had at that moment, not
    what was saved for [a]. *)
Theorem fs_base_of_other_task k0 k1 k2 k3 (a b : nat) :
  arch_has_fs = true -> sched_ok k0 -> cur (k_sched k0) = a -> schedule k0 = Done (tt, k1) -> cur (k_sched k1) = b -> a <> b ->
  sched_ok k2 -> cur (k_sched k2) = b -> parked (k_sched k2) !! a = parked (k_sched k1) !! a ->
  tasks (k_sched k2) !! a = tasks (k_sched k1) !! a -> schedule k2 = Done (tt, k3) -> cur (k_sched k3) = a ->
  fs_reg (k_cpu k3) = fs_reg (k_cpu k2) /\
  exists t, tasks (k_sched k3) !! a = Some (Some t) /\ fs_base t = fs_reg (k_cpu k0).
Proof.
  intros Hfs Hok0 Ea H01 Eb Hab Hok2 Eb2 Hpk Htk H23 Ea3.
  destruct (schedule_run k0 Hok0) as (n & _ & Hrun). case_decide as E.
  { rewrite Hrun in H01. done_inv. }
  destruct Hrun as (t & t' & k' & Ht & Ht' & Hrun & (Hs & _) & _). rewrite Hrun in H01. done_inv. clear Hrun.
  rewrite Hs in *. cbn in Hpk, Htk, Hab, Eb2, E. clear Hs.
  assert (parked (k_sched k2) !! cur (k_sched k0) = Some (Some (n, irqs (k_cpu k0)))) as Hpa.
  { rewrite Hpk, list_lookup_insert_ne by done. apply list_lookup_insert_eq.
    rewrite (sh_parked _ (so_shape _ Hok0)). by apply shape_cur, Hok0. }
  assert (tasks (k_sched k2) !! cur (k_sched k0) = Some (Some (suspended k0 t))) as Hta.
  { rewrite Htk. apply list_lookup_insert_eq. by eapply lookup_lt_Some. }
  destruct (schedule_run k2 Hok2) as (n' & _ & Hrun). case_decide as E'.
  { rewrite Hrun in H23. done_inv. }
  destruct Hrun as (u & u' & k' & Hu & Hu' & Hrun & (Hs & _) & Hf). rewrite Hrun in H23. done_inv. clear Hrun.
  rewrite Hs in *. cbn in Ea3. subst n'. split.
  - transitivity (fs_base (suspended k2 u)); [|by cbn; rewrite Hfs]. eapply Hf; [exact Hpa | | done].
    cbn. apply list_lookup_insert_eq. by eapply lookup_lt_Some.
  - exists (suspended k0 t). cbn. split; [|by rewrite Hfs]. by rewrite list_lookup_insert_ne by done.
Qed.
End spec.

(** ** Witnesses *)

Section demo.
#[local] Instance demo_arch : ArchOps pages := x86_arch demo_image.

Definition demo_vm0 : vm pages := mk_vm (fun _ => 0) pages_bss.

Lemma demo_sched_ok ts c fs : (length ts <= 63)%nat -> (exists t, tasks (demo_sched ts c) !! c = Some (Some t)) ->
  sched_ok (demo_kernel demo_vm0 ts c fs).
Proof.
  intros Hl Hc. split.
  - split; cbn; try done.
    + rewrite length_app, length_replicate. unfold MAX_TASKS. lia.
    + by eexists.
  - intros slot n b. cbn [demo_kernel demo_sched k_sched parked]. rewrite lookup_replicate. naive_solver.
  - intros g _. cbn [demo_kernel demo_sched k_sched guard_phys]. rewrite lookup_replicate. naive_solver.
Qed.

Definition demo_two : kernel pages :=
  demo_kernel demo_vm0 [Some (demo_task 1 0 Ready 0x11000); Some (demo_task 2 0 Ready 0x22000)] 1 0x11000.
Definition after (m : outcome (unit * kernel pages)) : kernel pages := match m with Done (_, k) => k | Panic => demo_two end.

Lemma demo_two_ok : sched_ok demo_two.
Proof. apply demo_sched_ok; [by vm_compute; lia | by eexists]. Qed.


Lemma ready_task_runs_witness : exists l, switches 2 demo_two l /\ Exists (fun k' => cur (k_sched k') = 2%nat) l.
Proof.
  destruct (switches_exist 2 63 demo_two demo_two_ok) as (l & Hl & H).
  - by repeat constructor.
  - by eexists.
  - exists l. split; [exact H|]. apply (ready_task_runs 2 demo_two l); [lia | cbn; lia | exact H | lia].
Defined.

Lemma after_schedule k : sched_ok k -> schedule k = Done (tt, after (schedule k)).
Proof.
  intros Hok. destruct (schedule_run k Hok) as (n & _ & H). case_decide; [by rewrite H|].
  by destruct H as (t & t' & k' & _ & _ & -> & _).
Qed.

(** Task 1 yields to task 2; task 2 sets its FS.base and yields back. *)
Definition demo_yielded : kernel pages := after (schedule demo_two).
Definition demo_prctl : kernel pages := put_cpu (with_fs_reg 0x33000 (k_cpu demo_yielded)) demo_yielded.
Definition demo_back : kernel pages := after (schedule demo_prctl).

Lemma fs_base_of_other_task_witness :
  fs_reg (k_cpu demo_two) = 0x11000 /\ cur (k_sched demo_back) = 1%nat /\ fs_reg (k_cpu demo_back) = 0x33000.
Proof.
  pose proof (after_schedule demo_two demo_two_ok) as E1.
  destruct (schedule_keeps demo_two demo_yielded demo_two_ok) as (Hok & _ & _); [by repeat constructor | exact E1|].
  assert (sched_ok demo_prctl) as Hok' by (destruct Hok as [H1 H2 H3]; split; [exact H1 | exact H2 | exact H3]).
  pose proof (after_schedule demo_prctl Hok') as E2.
  assert (cur (k_sched demo_yielded) = 2%nat) as C1 by (by vm_compute).
  assert (cur (k_sched demo_back) = 1%nat) as C2 by (by vm_compute).
  destruct (fs_base_of_other_task (arch := demo_arch) demo_two demo_yielded demo_prctl demo_back 1 2
    eq_refl demo_two_ok eq_refl E1 C1 ltac:(discriminate) Hok' C1 eq_refl eq_refl E2 C2) as [H _].
  split; [reflexivity|]. split; [exact C2 | exact H].
Defined.
End demo.
