(* ===== verification/TaskLife.v ===== *)
(** The life of a task (Scheduler.v): exit and wait, fork, and what goes wrong when
    a slot is reaped or a pipe writer is killed. *)
From Stdlib Require Import ZArith Lia.
From stdpp Require Import base option list numbers.
From S2P Require Import Prelude RingBuf Ipc Process PageTable Pages Paging PagingSpec RamFs Elf AbiStack Kernel Scheduler Arch SchedulerSpec.
Local Open Scope Z_scope.

(** ** Searching the task array *)

Lemma find_task_Some p ts : forall i j t, find_task p i ts = Some (j, t) ->
  (i <= j)%nat /\ ts !! (j - i)%nat = Some (Some t) /\ p t = true /\
  forall j' t', (i <= j' < j)%nat -> ts !! (j' - i)%nat = Some (Some t') -> p t' = false.
Proof.
  induction ts as [|[u|] ts IH]; intros i j t H; cbn [find_task] in H; [done | destruct (p u) eqn:E |].
  - done_inv. rewrite Nat.sub_diag. split_and!; [lia | done | done | intros; lia].
  - apply IH in H as (H1 & H2 & H3 & H4). replace (j - i)%nat with (S (j - S i)) by lia.
    split_and!; [lia | done | done |]. intros j' t' Hj Ht. destruct (decide (j' = i)) as [->|].
    + rewrite Nat.sub_diag in Ht. cbn in Ht. by done_inv.
    + apply (H4 j'); [lia|]. by replace (j' - i)%nat with (S (j' - S i)) in Ht by lia.
  - apply IH in H as (H1 & H2 & H3 & H4). replace (j - i)%nat with (S (j - S i)) by lia.
    split_and!; [lia | done | done |]. intros j' t' Hj Ht. destruct (decide (j' = i)) as [->|].
    + by rewrite Nat.sub_diag in Ht.
    + apply (H4 j'); [lia|]. by replace (j' - i)%nat with (S (j' - S i)) in Ht by lia.
Qed.

Lemma find_task_None p ts : forall i, find_task p i ts = None -> forall j t, ts !! j = Some (Some t) -> p t = false.
Proof.
  induction ts as [|[u|] ts IH]; intros i H [|j] t Ht; cbn in *; try done.
  - done_inv. by destruct (p t).
  - destruct (p u); [done|]. by eapply IH.
  - by eapply IH.
Qed.

(** The same over the slots from 1 on. *)
Lemma find_slot_Some p ts slot t : find_task p 1 (drop 1 ts) = Some (slot, t) ->
  (1 <= slot)%nat /\ ts !! slot = Some (Some t) /\ p t = true /\
  forall s u, (1 <= s < slot)%nat -> ts !! s = Some (Some u) -> p u = false.
Proof.
  intros (H1 & H2 & H3 & H4)%find_task_Some. rewrite lookup_drop in H2. replace (1 + (slot - 1))%nat with slot in H2 by lia.
  split_and!; try done. intros s u Hs Hu. apply (H4 s); [done|]. rewrite lookup_drop. by replace (1 + (s - 1))%nat with s by lia.
Qed.
Lemma find_slot_None p ts : find_task p 1 (drop 1 ts) = None -> forall s t, (1 <= s)%nat -> ts !! s = Some (Some t) -> p t = false.
Proof.
  intros H s t Hs Ht. apply (find_task_None _ _ _ H (s - 1) t). rewrite lookup_drop. by replace (1 + (s - 1))%nat with s by lia.
Qed.

(** ** Waking and signalling only nudge a task *)

Record nudged (t t' : Task) : Prop := {
  nd_pid : pid t' = pid t;
  nd_ppid : ppid t' = ppid t;
  nd_code : exit_code t' = exit_code t;
  nd_fds : fd_table t' = fd_table t;
  nd_state : state t' = state t \/ (state t = Blocked /\ state t' = Ready);
  nd_waiting : waiting_for_pid t' = waiting_for_pid t \/ waiting_for_pid t' = 0
}.
Definition nudges (ts ts' : list (option Task)) : Prop := Forall2 (option_Forall2 nudged) ts ts'.

#[export] Instance nudged_refl : Reflexive nudged.
Proof. intros t. split; tauto. Qed.
#[export] Instance nudged_trans : Transitive nudged.
Proof.
  intros a b c [H1 H2 H3 H4 H5 H6] [G1 G2 G3 G4 G5 G6]. split; [congruence..| |].
  - destruct H5 as [H5|[? H5]], G5 as [G5|[? G5]]; rewrite ?G5, ?H5 in *; tauto.
  - destruct H6 as [H6|H6], G6 as [G6|G6]; rewrite ?G6, ?H6; tauto.
Qed.
#[export] Instance nudges_refl : Reflexive nudges.
Proof. intros ts. unfold nudges. reflexivity. Qed.
#[export] Instance nudges_trans : Transitive nudges.
Proof. intros a b c H G. unfold nudges in *. by transitivity b. Qed.

Lemma nudged_wake t : nudged t (wake t).
Proof. unfold wake. case_bool_decide; [|done]. split; cbn; tauto. Qed.
Lemma nudged_wake_waiter e p t : nudged t (wake_waiter e p t).
Proof. unfold wake_waiter. case_bool_decide; cbn [negb]; [|done]. destruct (_ || _); [|done]. split; cbn; tauto. Qed.
Lemma nudged_raise t sig : nudged t (snd (raise_signal t sig)).
Proof. unfold raise_signal. destruct (sig_bit sig =? 0); [done|]. split; cbn; tauto. Qed.

Lemma nudges_insert ts i t t' : ts !! i = Some (Some t) -> nudged t t' -> nudges ts (<[i := Some t']> ts).
Proof.
  intros Hi Hn. unfold nudges. rewrite <- (list_insert_id ts i (Some t) Hi) at 1. apply Forall2_insert; [reflexivity | by constructor].
Qed.
Lemma nudges_wake_child e p ts : nudges ts (wake_child_waiters e p ts).
Proof.
  unfold nudges, wake_child_waiters. induction ts as [|[t|] ts IH]; cbn; constructor; try done; constructor. apply nudged_wake_waiter.
Qed.
Lemma nudges_signal_parent p sig ts : nudges ts (signal_parent p sig ts).
Proof.
  unfold signal_parent. destruct (find_task _ 0 ts) as [[slot t]|] eqn:E; [|done].
  apply find_task_Some in E as (_ & H & _). rewrite Nat.sub_0_r in H. eapply nudges_insert; [done | apply nudged_raise].
Qed.
Lemma nudges_lookup ts ts' i t : nudges ts ts' -> ts !! i = Some (Some t) -> exists t', ts' !! i = Some (Some t') /\ nudged t t'.
Proof.
  intros H Hi. destruct (Forall2_lookup_l _ _ _ _ _ H Hi) as (o & Ho & Hr). inversion Hr; subst. by eexists.
Qed.
Lemma nudges_length ts ts' : nudges ts ts' -> length ts' = length ts.
Proof. intros H. symmetry. by apply Forall2_length in H. Qed.

Section life.
Context {A : Type} {ops : PageOps A} {vops : VmOps A} {arch : ArchOps A}.
Implicit Types k : kernel A.

(** ** Waiting *)

Definition children (ts : list (option Task)) (cur_pid : Z) (p : Task -> Prop) : Prop :=
  exists s t, (1 <= s)%nat /\ ts !! s = Some (Some t) /\ ppid t = cur_pid /\ p t.
Definition with_slot k (slot : nat) (o : option Task) : kernel A :=
  put_sched (with_tasks (<[slot := o]> (tasks (k_sched k))) (k_sched k)) k.

Lemma restore_irqs_tasks k ts : restore_interrupt_state (irqs (k_cpu k))
    (put_sched (with_tasks ts (k_sched k)) (put_cpu (with_irqs false (k_cpu k)) k)) =
  Done (tt, put_sched (with_tasks ts (k_sched k)) k).
Proof. destruct k as [? [? ? ? [|] ? ?] ? ? ? ? ?]; done. Qed.

Lemma living_existsb ts cur_pid :
  existsb (fun o => match o with Some t => living_child cur_pid t | None => false end) (drop 1 ts) = true <->
  children ts cur_pid (fun t => state t <> Zombie).
Proof.
  rewrite existsb_exists. split.
  - intros ([t|] & Hin & H); [|done]. apply list_elem_of_In, list_elem_of_lookup in Hin as [i Hi]. rewrite lookup_drop in Hi.
    exists (1 + i)%nat, t. unfold living_child in H. apply andb_true_iff in H as [H1%Z.eqb_eq H2%negb_true_iff].
    apply bool_decide_eq_false in H2. split_and!; done || lia.
  - intros (s & t & Hs & Ht & Hp & Hz). exists (Some t). split.
    + apply list_elem_of_In, list_elem_of_lookup. exists (s - 1)%nat. rewrite lookup_drop. by replace (1 + (s - 1))%nat with s by lia.
    + unfold living_child. rewrite Hp, Z.eqb_refl. by rewrite bool_decide_eq_false_2.
Qed.

(** C12: One round of waitpid: a zombie child that matches is reaped, the one in the lowest slot:
    its slot becomes free, nothing else changes, its status word is
    stored for the caller and its pid returned; without one the answer is ECHILD when no
    child lives, 0 under WNOHANG, and otherwise the caller is marked blocked on the
    target and the processor given away. *)
Theorem waitpid_round_exact k (cur_pid target status_out : Z) (no_hang : bool) :
  sched_shape (k_sched k) ->
  let matching t := state t = Zombie /\ (target = u64_MAX \/ pid t = target) in
  let m := waitpid_round cur_pid target status_out no_hang k in
  (exists slot t, (1 <= slot)%nat /\ tasks (k_sched k) !! slot = Some (Some t) /\ ppid t = cur_pid /\ matching t /\
     (forall s u, (1 <= s < slot)%nat -> tasks (k_sched k) !! s = Some (Some u) -> ~ (ppid u = cur_pid /\ matching u)) /\
     m = ((if status_out =? 0 then mret tt else user_write_le status_out 4 (Z.shiftl (Z.land (wrap 32 (exit_code t)) 0xFF) 8));;
          mret (Some (pid t))) (with_slot k slot None)) \/
  (~ children (tasks (k_sched k)) cur_pid matching /\
   (~ children (tasks (k_sched k)) cur_pid (fun t => state t <> Zombie) -> m = Done (Some (-10), k)) /\
   (children (tasks (k_sched k)) cur_pid (fun t => state t <> Zombie) ->
     if no_hang then m = Done (Some 0, k)
     else exists t, tasks (k_sched k) !! cur (k_sched k) = Some (Some t) /\
       m = (schedule;; mret None) (with_slot k (cur (k_sched k)) (Some (with_state Blocked (with_waiting target t)))))).
Proof.
  intros Hsh matching m. unfold m, waitpid_round. clear m. unfold save_and_disable_interrupts. kred.
  assert (forall t, zombie_child cur_pid target t = true <-> ppid t = cur_pid /\ matching t) as Hz.
  { intros t. unfold zombie_child, matching. rewrite !andb_true_iff, orb_true_iff, bool_decide_eq_true, !Z.eqb_eq. tauto. }
  destruct (find_task _ 1 _) as [[slot t]|] eqn:E.
  - left. apply find_slot_Some in E as (H1 & H2 & H3 & H4). apply Hz in H3 as [Hp Hm]. exists slot, t.
    split_and!; try done.
    { intros s u Hs Hu Hx%Hz. by rewrite (H4 s u Hs Hu) in Hx. }
    kred. rewrite (set_task_run _ slot (Some t)) by done. kred. by rewrite restore_irqs_tasks.
  - right. pose proof (find_slot_None _ _ E) as Hn. split.
    { intros (s & t & Hs & Ht & Hp & Hm). specialize (Hn s t Hs Ht). by rewrite (proj2 (Hz t) (conj Hp Hm)) in Hn. }
    split.
    + intros Hno. destruct (existsb _ _) eqn:Ex; [by apply living_existsb in Ex|]. kred. by rewrite restore_irqs.
    + intros Hl%living_existsb. rewrite Hl. kred. destruct no_hang; [kred; by rewrite restore_irqs|].
      destruct (sh_cur _ Hsh) as [t Ht]. exists t. split; [done|]. unfold CURRENT. kred.
      rewrite (update_task_run _ _ t) by done. kred.
      rewrite (update_task_run _ _ (with_waiting target t)) by (cbn; apply list_lookup_insert_eq; by eapply lookup_lt_Some).
      kred. rewrite list_insert_insert_eq. clear. by destruct k as [? [? ? ? [|] ? ?] ? ? ? ? ?].
Qed.

(** ** Exiting *)

(** The waiting slots are slots. *)
Definition waiters_ok (s : sched) : Prop :=
  length (pipe_waiters s) = MAX_PIPES /\ forall i q, pipe_waiters s !! i = Some (Some q) -> (q < length (tasks s))%nat.

(** Only tasks that were blocked have changed, and the waiting slots. *)
Record only_nudged k k' : Prop := {
  on_tasks_nudged : nudges (tasks (k_sched k)) (tasks (k_sched k'));
  on_cur : cur (k_sched k') = cur (k_sched k);
  on_pool_same : k_pool k' = k_pool k;
  on_vm_same : k_vm k' = k_vm k;
  on_cpu_same : k_cpu k' = k_cpu k;
  on_waiters : waiters_ok (k_sched k')
}.

Lemma get_task_lt k slot : (slot < length (tasks (k_sched k)))%nat -> exists o, get_task slot k = Done (o, k) /\ tasks (k_sched k) !! slot = Some o.
Proof. intros [o Ho]%lookup_lt_is_Some. exists o. split; [by apply get_task_run | done]. Qed.

Lemma wake_slot_run k q : (q < length (tasks (k_sched k)))%nat -> exists k', wake_slot q k = Done (tt, k') /\
  k' = put_sched (with_tasks (tasks (k_sched k')) (k_sched k)) k /\ nudges (tasks (k_sched k)) (tasks (k_sched k')).
Proof.
  intros Hq. unfold wake_slot, update_if. kred. destruct (get_task_lt k q Hq) as (o & -> & Ho). destruct o as [t|]; kred.
  - rewrite (set_task_run _ q _ _ Ho). eexists. split; [done|]. split; [done|]. cbn. eapply nudges_insert; [done | apply nudged_wake].
  - eexists. split; [done|]. split; [by destruct k as [[] ? ? ? ? ? ?] | done].
Qed.

Lemma pipe_write_open_done P i : pool_wf P -> exists b, pipe_write_open P i = Done b.
Proof.
  intros [Hl _]. unfold pipe_write_open. destruct (Nat.ltb_spec i MAX_PIPES); [|by eexists].
  destruct (get_lt P i) as (s & -> & _); [by rewrite Hl|]. by eexists.
Qed.

Lemma wake_closed_step k i : waiters_ok (k_sched k) -> pool_wf (k_pool k) -> (i < MAX_PIPES)%nat ->
  exists k', wake_closed_pipe_reader i k = Done (tt, k') /\ only_nudged k k'.
Proof.
  intros [Hl Hw] Hwf Hi. unfold wake_closed_pipe_reader. kred.
  destruct (get_lt (pipe_waiters (k_sched k)) i) as (o & -> & Ho); [by rewrite Hl|]. kred.
  destruct o as [q|]; kred; [|by exists k].
  destruct (pipe_write_open_done (k_pool k) i Hwf) as [open ->]. kred. destruct open; kred; [by exists k|].
  rewrite (set_Some _ _ _ _ Ho). kred.
  set (k1 := put_sched (with_pipe_waiters (<[i:=None]> (pipe_waiters (k_sched k))) (k_sched k)) k).
  destruct (wake_slot_run k1 q) as (k' & -> & E & Hn); [by apply (Hw i q Ho)|]. exists k'. split; [done|].
  rewrite E. split; cbn; try done. split; cbn; [by rewrite length_insert|].
  intros j q' Hj. rewrite (nudges_length _ _ Hn). apply list_lookup_insert_Some in Hj as [(_ & ? & _)|[_ Hj]]; [done|]. by apply (Hw j q').
Qed.

Lemma wake_closed_run k : waiters_ok (k_sched k) -> pool_wf (k_pool k) ->
  exists k', wake_closed_pipe_readers k = Done (tt, k') /\ only_nudged k k'.
Proof.
  unfold wake_closed_pipe_readers. intros Hw Hwf.
  assert (Forall (fun i => (i < MAX_PIPES)%nat) (seq 0 MAX_PIPES)) as Hall by (by apply Forall_seq; lia).
  revert k Hw Hwf. induction Hall as [|i l Hi _ IH]; intros k Hw Hwf; cbn [forM].
  - exists k. by split.
  - kred. destruct (wake_closed_step k i Hw Hwf Hi) as (k1 & -> & H1).
    destruct (IH k1) as (k2 & -> & H2); [apply H1 | by rewrite (on_pool_same _ _ H1)|]. exists k2. split; [done|].
    destruct H1, H2. split; try congruence; try done. by etransitivity.
Qed.

Lemma wake_waiter_wakes e p t : state t = Blocked -> (waiting_for_pid t = e \/ waiting_for_pid t = u64_MAX /\ pid t = p) ->
  wake_waiter e p t = with_state Ready (with_waiting 0 t).
Proof.
  intros Hs Hw. unfold wake_waiter. rewrite bool_decide_eq_true_2 by done. cbn [negb].
  destruct Hw as [->|[-> ->]]; rewrite !Z.eqb_refl; [done | by rewrite orb_true_r].
Qed.

End life.

(** ** Fork: inherited pipe ends *)

(** A channel after [a] read ends and [b] write ends of it are added. *)
Definition chan_acquire (a b : nat) (o : option chan) : option chan :=
  o ≫= fun c => Some (mk_chan (ch_data c) (Nat.min 255 (ch_r c + a)) (Nat.min 255 (ch_w c + b))).
Definition acquired (P P' : pool) (rr rw : nat -> nat) : Prop :=
  pool_wf P' /\ forall i, chan_at (pool_view P') i = chan_acquire (rr i) (rw i) (chan_at (pool_view P) i).

Lemma chan_view_wf P i c : pool_wf P -> chan_at (pool_view P) i = Some c -> (ch_r c <= 255 /\ ch_w c <= 255 /\ 0 < ch_r c + ch_w c)%nat.
Proof.
  intros Hwf Hc. destruct (le_lt_dec MAX_PIPES i); [by rewrite chan_at_out in Hc|].
  destruct (pool_wf_get P i Hwf) as (s & Hs & (_ & Hr & Hw & Hu)); [done|]. rewrite (chan_at_view P i s Hs) in Hc.
  unfold slot_view in Hc. destruct (sl_in_use s); [|done]. done_inv. cbn. split_and!; [done | done | by apply Hu].
Qed.

Lemma chan_acquire_Some a b c : chan_acquire a b (Some c) = Some (mk_chan (ch_data c) (Nat.min 255 (ch_r c + a)) (Nat.min 255 (ch_w c + b))).
Proof. done. Qed.
Lemma chan_acquire_0 P i : pool_wf P -> chan_acquire 0 0 (chan_at (pool_view P) i) = chan_at (pool_view P) i.
Proof.
  intros Hwf. destruct (chan_at (pool_view P) i) as [c|] eqn:E; [|done]. destruct (chan_view_wf P i c Hwf E) as (? & ? & _).
  rewrite chan_acquire_Some, !Nat.add_0_r, !Nat.min_r by done. by destruct c.
Qed.
Lemma chan_acquire_compose a b a' b' o : chan_acquire a b (chan_acquire a' b' o) = chan_acquire (a' + a) (b' + b) o.
Proof. destruct o as [[d r w]|]; [|done]. rewrite !chan_acquire_Some. cbn [ch_data ch_r ch_w]. do 2 f_equal; lia. Qed.

Lemma acquired_refl P rr rw : pool_wf P -> (forall i, rr i = 0%nat /\ rw i = 0%nat) -> acquired P P rr rw.
Proof. intros Hwf H. split; [done|]. intros i. destruct (H i) as [-> ->]. symmetry. by apply chan_acquire_0. Qed.
Lemma acquired_trans P P1 P2 rr rw rr' rw' : acquired P P1 rr rw -> acquired P1 P2 rr' rw' ->
  acquired P P2 (fun i => (rr i + rr' i)%nat) (fun i => (rw i + rw' i)%nat).
Proof. intros [_ H1] [Hwf H2]. split; [done|]. intros i. by rewrite H2, H1, chan_acquire_compose. Qed.

Lemma dup_acquired op f rr rw P i : refines_update op f -> pool_wf P ->
  (forall c, (ch_r c <= 255 -> ch_w c <= 255 -> f c = chan_acquire (rr i) (rw i) (Some c))%nat) ->
  (forall j, i <> j -> rr j = 0%nat /\ rw j = 0%nat) ->
  exists P', op P i = Done P' /\ acquired P P' rr rw.
Proof.
  intros Href Hwf Hf H0. destruct (Href P i Hwf) as (P' & -> & Hwf' & Hv). exists P'. split; [done|]. split; [done|].
  intros j. rewrite Hv, chan_at_update. case_decide as E.
  - subst j. destruct (chan_at (pool_view P) i) as [c|] eqn:Ec; [|done]. destruct (chan_view_wf P i c Hwf Ec) as (? & ? & _). by apply Hf.
  - destruct (H0 j E) as [-> ->]. symmetry. by apply chan_acquire_0.
Qed.

Lemma dup_read_acquired P i : pool_wf P -> exists P', dup_pipe_read P i = Done P' /\
  acquired P P' (fun j => one_if (i =? j)%nat) (fun _ => 0%nat).
Proof.
  intros Hwf. apply (dup_acquired _ chan_dup_r); [apply dup_pipe_read_refines | done | |].
  - intros c Hr Hw. rewrite Nat.eqb_refl, chan_acquire_Some, Nat.add_0_r, (Nat.min_r 255 (ch_w c)) by done. done.
  - intros j Hj. by rewrite (proj2 (Nat.eqb_neq i j) Hj).
Qed.
Lemma dup_write_acquired P i : pool_wf P -> exists P', dup_pipe_write P i = Done P' /\
  acquired P P' (fun _ => 0%nat) (fun j => one_if (i =? j)%nat).
Proof.
  intros Hwf. apply (dup_acquired _ chan_dup_w); [apply dup_pipe_write_refines | done | |].
  - intros c Hr Hw. rewrite Nat.eqb_refl, chan_acquire_Some, Nat.add_0_r, (Nat.min_r 255 (ch_r c)) by done. done.
  - intros j Hj. by rewrite (proj2 (Nat.eqb_neq i j) Hj).
Qed.

Lemma dup_entry_acquired e P : pool_wf P -> exists P', dup_entry P e = Done P' /\ acquired P P' (entry_refs_r e) (entry_refs_w e).
Proof.
  intros Hwf. destruct e as [ | | | | | |i|i|i j| | | ]; cbn [dup_entry entry_refs_r entry_refs_w];
    try (exists P; split; [done | by apply acquired_refl]).
  - by apply dup_read_acquired.
  - by apply dup_write_acquired.
  - destruct (dup_read_acquired P i Hwf) as (P1 & -> & H1); mred.
    destruct (dup_write_acquired P1 j) as (P2 & -> & H2); [apply H1|]. exists P2. split; [done|].
    pose proof (acquired_trans _ _ _ _ _ _ _ H1 H2) as [Hwf2 H]. split; [done|]. intros k. rewrite H. by rewrite Nat.add_0_r.
Qed.

Lemma dup_table_acquired t : forall P, pool_wf P -> exists P', foldM dup_entry P t = Done P' /\
  acquired P P' (table_refs_r t) (table_refs_w t).
Proof.
  induction t as [|e t IH]; intros P Hwf; cbn [foldM].
  - exists P. split; [done | by apply acquired_refl].
  - destruct (dup_entry_acquired e P Hwf) as (P1 & -> & H1); mred. destruct (IH P1) as (P2 & -> & H2); [apply H1|].
    exists P2. split; [done|]. exact (acquired_trans _ _ _ _ _ _ _ H1 H2).
Qed.

(** Fork and pipes: the child's inherited descriptors add exactly their references to the
    pipes, and when the child exits they are given back, so that as long as no count
    would pass 255 every pipe is then as it was before the fork. *)
Theorem fork_counts_inherited_pipes (P : pool) (child : Task) (code : Z) :
  pool_wf P -> length (fd_table child) = MAX_FDS ->
  (forall i c, chan_at (pool_view P) i = Some c ->
     (ch_r c + table_refs_r (fd_table child) i <= 255 /\ ch_w c + table_refs_w (fd_table child) i <= 255)%nat) ->
  exists P1 child' P2, foldM dup_entry P (fd_table child) = Done P1 /\
    (forall i c, chan_at (pool_view P) i = Some c -> chan_at (pool_view P1) i =
       Some (mk_chan (ch_data c) (ch_r c + table_refs_r (fd_table child) i) (ch_w c + table_refs_w (fd_table child) i))) /\
    exit child code P1 = Done (child', P2) /\ pool_wf P2 /\
    forall i, chan_at (pool_view P2) i = chan_at (pool_view P) i.
Proof.
  intros Hwf Hl Hfit. destruct (dup_table_acquired (fd_table child) P Hwf) as (P1 & Hd & Hwf1 & H1).
  destruct (exit_run child code P1 Hwf1 Hl) as (P2 & He & Hwf2 & H2).
  eexists P1, _, P2. split; [done|]. split; [|split; [exact He|]; split; [done|]].
  - intros i c Hc. destruct (Hfit i c Hc). rewrite H1, Hc, chan_acquire_Some, !Nat.min_r by lia. done.
  - intros i. rewrite H2, H1. destruct (chan_at (pool_view P) i) as [c|] eqn:Ec; [|done].
    destruct (Hfit i c Ec), (chan_view_wf P i c Hwf Ec) as (_ & _ & Hpos). rewrite chan_acquire_Some, !Nat.min_r by lia.
    unfold chan_release, chan_norm. cbn. rewrite !Nat.add_sub. rewrite decide_True by done. by destruct c.
Qed.

Section fork.
Context {A : Type} {ops : PageOps A} {vops : VmOps A} {arch : ArchOps A}.
Implicit Types k : kernel A.

(** Everything but memory, and the allocator in it, is as before. *)
Definition only_vm k k' : Prop := k' = put_vm (k_vm k') k.

Lemma only_vm_refl k : only_vm k k.
Proof. by destruct k. Qed.
Lemma only_vm_trans k1 k2 k3 : only_vm k1 k2 -> only_vm k2 k3 -> only_vm k1 k3.
Proof. unfold only_vm. intros -> ->. done. Qed.
Lemma on_vm_only {X} (f : vm A -> outcome (X * vm A)) k x k' : on_vm f k = Done (x, k') -> only_vm k k'.
Proof. unfold on_vm. destruct (f (k_vm k)) as [[y v]|]; [|done]. intros H. by done_inv. Qed.
Lemma on_mem_only f k x k' : on_mem f k = Done (x, k') -> only_vm k k'.
Proof. unfold on_mem, modify. intros H. by done_inv. Qed.

Lemma new_kernel_stack_only k r k' : new_kernel_stack k = Done (r, k') -> only_vm k k'.
Proof.
  unfold new_kernel_stack. unfold k_alloc_pages. intros H. apply bind_inv in H as (o & k1 & H1%on_vm_only & H).
  destruct o as [frames|]; [|unfold mret, km_ret in H; by done_inv].
  apply bind_inv in H as (b & k2 & H2%on_vm_only & H). apply bind_inv in H as (u & k3 & H3%on_mem_only & H).
  unfold mret, km_ret in H. done_inv. eapply only_vm_trans; [|exact H3]. by eapply only_vm_trans.
Qed.

Lemma first_vacant_Some ts : forall i j, first_vacant i ts = Some j ->
  (i <= j)%nat /\ (exists o, ts !! (j - i)%nat = Some o /\ vacant o = true) /\
  forall j' o, (i <= j' < j)%nat -> ts !! (j' - i)%nat = Some o -> vacant o = false.
Proof.
  induction ts as [|o ts IH]; intros i j H; cbn [first_vacant] in H; [done|]. destruct (vacant o) eqn:E.
  - done_inv. rewrite Nat.sub_diag. split; [lia|]. split; [by exists o | intros; lia].
  - apply IH in H as (H1 & (x & H2 & H3) & H4). split; [lia|]. split.
    + exists x. by replace (j - i)%nat with (S (j - S i)) by lia.
    + intros j' o' Hj Ho. destruct (decide (j' = i)) as [->|].
      * rewrite Nat.sub_diag in Ho. cbn in Ho. by done_inv.
      * apply (H4 j'); [lia|]. by replace (j' - i)%nat with (S (j' - S i)) in Ho by lia.
Qed.

Lemma vacant_slot_Some ts i : vacant_slot ts = Some i -> (1 <= i)%nat /\ (exists o, ts !! i = Some o /\ vacant o = true) /\
  forall s o, (1 <= s < i)%nat -> ts !! s = Some o -> vacant o = false.
Proof.
  intros (H1 & (o & H2 & H3) & H4)%first_vacant_Some. rewrite lookup_drop in H2. replace (1 + (i - 1))%nat with i in H2 by lia.
  split; [done|]. split; [by exists o|]. intros s o' Hs Ho. apply (H4 s); [done|]. rewrite lookup_drop.
  by replace (1 + (s - 1))%nat with s by lia.
Qed.

Lemma set_inv {X} (l l' : list X) i x : set l i x = Done l' -> l' = <[i := x]> l /\ (i < length l)%nat.
Proof. unfold set. destruct (decide _); [intros H; by done_inv | done]. Qed.

Lemma install_Done k i guard t r k' : install i guard t k = Done (r, k') -> r = Some i /\
  k' = put_sched (mk_sched (<[i := Some t]> (tasks (k_sched k))) (<[i := guard]> (guard_phys (k_sched k))) (cur (k_sched k))
    (tick_count (k_sched k)) (tty_waiter (k_sched k)) (pipe_waiters (k_sched k)) (next_pid (k_sched k))
    (<[i := None]> (parked (k_sched k)))) k.
Proof.
  unfold install, set_task, set_parked. kred. unfold lift. destruct (set (guard_phys _) i guard) as [gs|] eqn:E1; [|done]. kred.
  destruct (set (tasks _) i (Some t)) as [ts|] eqn:E2; [|done]. kred. destruct (set (parked _) i None) as [ps|] eqn:E3; [|done]. kred.
  apply set_inv in E1 as [-> _], E2 as [-> _], E3 as [-> _]. intros H. by done_inv.
Qed.

Lemma gets_Done {X} (f : kernel A -> X) k x k' : gets f k = Done (x, k') -> x = f k /\ k' = k.
Proof. unfold gets. by intros [= <- <-]. Qed.
Lemma current_field_Done {X} (f : Task -> X) d k x k' : current_field f d k = Done (x, k') ->
  k' = k /\ exists o, tasks (k_sched k) !! cur (k_sched k) = Some o /\ x = match o with Some t => f t | None => d end.
Proof.
  unfold current_field, CURRENT, get_task. kred. unfold lift. destruct (get _ _) as [o|] eqn:E; [|done]. kred.
  intros H. done_inv. split; [done|]. exists o. split; [by apply get_Done | done].
Qed.
Lemma get_task_Done k slot o k' : get_task slot k = Done (o, k') -> k' = k /\ tasks (k_sched k) !! slot = Some o.
Proof. unfold get_task. kred. unfold lift. destruct (get _ _) as [x|] eqn:E; [|done]. intros H. done_inv. split; [done | by apply get_Done]. Qed.

(** C13: Fork: on success the child sits in the first vacant slot, ready, with the next pid and the
    caller as its parent; it inherits the descriptors, the directory, the heap end and
    the live FS.base; the pipes count its references; the caller and every other
    task, and all other state but memory, are unchanged. *)
Theorem spawn_fork_child k (user_ip user_sp : Z) (regs saved : list Z) (i : nat) k' :
  pool_wf (k_pool k) ->
  spawn_fork user_ip user_sp regs saved k = Done (Some i, k') ->
  exists parent child,
    tasks (k_sched k) !! cur (k_sched k) = Some (Some parent) /\
    vacant_slot (tasks (k_sched k)) = Some i /\
    tasks (k_sched k') = <[i := Some child]> (tasks (k_sched k)) /\
    pid child = next_pid (k_sched k) /\ next_pid (k_sched k') = uadd (next_pid (k_sched k)) 1 /\
    ppid child = pid parent /\ state child = Ready /\ fd_table child = fd_table parent /\ cwd child = cwd parent /\
    heap_brk child = heap_brk parent /\ fs_base child = (if arch_has_fs then fs_reg (k_cpu k) else 0) /\
    acquired (k_pool k) (k_pool k') (table_refs_r (fd_table parent)) (table_refs_w (fd_table parent)) /\
    cur (k_sched k') = cur (k_sched k) /\ k_fs k' = k_fs k /\ k_cpu k' = k_cpu k.
Proof.
  intros Hwf H. unfold spawn_fork in H.
  apply bind_inv in H as (ppid0 & k1 & [-> (o & Ho & ->)]%current_field_Done & H).
  apply bind_inv in H as (pt0 & k1 & [-> _]%current_field_Done & H).
  apply bind_inv in H as (brk & k1 & [-> (o1 & Ho1 & ->)]%current_field_Done & H).
  apply bind_inv in H as (c & k1 & [-> ->]%gets_Done & H).
  apply bind_inv in H as (o2 & k1 & [-> Ho2]%get_task_Done & H). rewrite Ho in Ho1, Ho2. done_inv.
  destruct o1 as [parent|]; [|done].
  apply bind_inv in H as (fs & k1 & [-> ->]%gets_Done & H).
  apply bind_inv in H as (st & k2 & H2%new_kernel_stack_only & H). destruct st as [[guard stack]|]; [|done].
  apply bind_inv in H as (pt & k3 & H3%on_vm_only & H). destruct pt as [pt|]; [|done].
  apply bind_inv in H as (ksp & k4 & H4 & H). unfold k_init_stack in H4. apply on_vm_only in H4.
  pose proof (only_vm_trans _ _ _ (only_vm_trans _ _ _ H2 H3) H4) as Hv. clear H2 H3 H4 k2 k3.
  apply bind_inv in H as (dir & k5 & [-> (o3 & Ho3 & ->)]%current_field_Done & H).
  apply bind_inv in H as (v & k5 & [-> ->]%gets_Done & H).
  rewrite Hv in Ho3. cbn in Ho3. rewrite Ho in Ho3. apply Some_inj in Ho3 as <-. cbn in H.
  assert (k_sched k4 = k_sched k /\ k_pool k4 = k_pool k /\ k_fs k4 = k_fs k /\ k_cpu k4 = k_cpu k) as (Es & Ep & Ef & Ec)
    by (by rewrite Hv).
  rewrite Es in H. destruct (vacant_slot (tasks (k_sched k))) as [j|] eqn:Ev; [|done].
  apply bind_inv in H as (task & k5 & Ht & H). unfold k_new_task in Ht. revert Ht. kred. intros [= <- <-].
  apply bind_inv in H as (u & k6 & Hp & H).
  destruct (dup_table_acquired (fd_table parent) (k_pool k) Hwf) as (P1 & Hd & Hacq).
  unfold on_pool', on_pool in Hp. cbn in Hp. rewrite Ep, Hd in Hp. cbn in Hp. injection Hp as <- <-.
  apply install_Done in H as [E ->]. injection E as <-. eexists parent, _. cbn. rewrite Es, Ef, Ec.
  by repeat (split; [done|]).
Qed.
End fork.

(** ** What goes wrong *)

Section wrong.
Context {A : Type} {ops : PageOps A} {vops : VmOps A} {arch : ArchOps A}.
Implicit Types k : kernel A.

(** A switch back to a task whose last switch target has been reaped since panics:
    [schedule] unwraps the slot it switched to then, not its own. *)
Theorem reaped_switch_target_panics k (n m : nat) (b : bool) :
  sched_shape (k_sched k) -> canary_ok k -> chosen (tasks (k_sched k)) (cur (k_sched k)) n -> n <> cur (k_sched k) ->
  parked (k_sched k) !! n = Some (Some (m, b)) -> tasks (k_sched k) !! m = Some None ->
  schedule k = Panic.
Proof.
  intros Hsh Hc Hn Hne Hp Hm. destruct (schedule_out_run k Hsh Hc) as (n' & Hn' & H).
  assert (n' = n) as ->.
  { destruct Hn as [(Hn & Hr & Hmin)|[-> Hno]], Hn' as [(Hn1 & Hr1 & Hmin1)|[-> Hno1]]; try done.
    - assert (turn (cur (k_sched k)) n = turn (cur (k_sched k)) n') as E by (apply Nat.le_antisymm; auto).
      destruct (slot_turn (cur (k_sched k)) n (shape_cur _ Hsh) Hn) as [E1 _].
      destruct (slot_turn (cur (k_sched k)) n' (shape_cur _ Hsh) Hn1) as [E2 _]. by rewrite <- E1, <- E2, E.
    - by destruct (Hno1 n Hn).
    - by destruct (Hno n' Hn1). }
  rewrite decide_False in H by done. destruct H as (t & t' & Ht & Ht' & H). unfold schedule. kred. rewrite H. unfold resume. kred.
  assert (cur (k_sched k) <> m) as Hcm by (intros <-; congruence).
  assert (get (<[cur (k_sched k):=Some (n, irqs (k_cpu k))]> (parked (k_sched k))) n = Done (Some (m, b))) as Hg.
  { apply get_Some. by rewrite list_lookup_insert_ne. }
  rewrite (lift_run _ _ _ Hg). kred.
  rewrite (set_parked_run _ n (Some (m, b))) by (cbn; by rewrite list_lookup_insert_ne). kred.
  rewrite (get_task_run _ m None) by (cbn; by rewrite list_lookup_insert_ne). done.
Qed.

Lemma take_any_pid sigs : forall t, pid (snd (take_any t sigs)) = pid t.
Proof.
  induction sigs as [|sig sigs IH]; intros t; cbn [take_any]; [done|]. unfold take_signal. destruct (_ =? 0); cbn; [apply IH | done].
Qed.

(** The reader's slot through one step of the delivery. *)
Definition undisturbed (q : nat) (reader : Task) (ts : list (option Task)) : Prop :=
  ts !! q = Some (Some reader) /\ forall s u, (1 <= s)%nat -> ts !! s = Some (Some u) -> pid u <> 0.

Lemma undisturbed_insert q reader ts s t t' : undisturbed q reader ts -> s <> q -> ts !! s = Some (Some t) -> pid t' = pid t ->
  undisturbed q reader (<[s := Some t']> ts).
Proof.
  intros [Hq Hp] Hs Ht Hpid. split; [by rewrite list_lookup_insert_ne|]. intros s' u Hs' Hu.
  apply list_lookup_insert_Some in Hu as [(-> & E & _)|[_ Hu]]; [|by eapply Hp]. done_inv. rewrite Hpid. by eapply Hp.
Qed.

Lemma wake_waiter_pid e p t : pid (wake_waiter e p t) = pid t.
Proof. apply nudged_wake_waiter. Qed.

Lemma deliver_undisturbed q reader ts P slot ts' P' :
  state reader = Blocked -> pending_signals reader = 0 -> waiting_for_pid reader = 0 -> (1 <= slot)%nat ->
  undisturbed q reader ts -> deliver_signals (ts, P) slot = Done (ts', P') -> undisturbed q reader ts'.
Proof.
  intros Hb Hpend Hw Hs Hu. unfold deliver_signals. destruct (get ts slot) as [o|] eqn:E; [|done]. mred. apply get_Done in E.
  destruct o as [t|]; [|intros Hr; by done_inv]. case_bool_decide; [intros Hr; by done_inv|].
  destruct (Z.eqb_spec (pending_signals t) 0) as [|Hne]; [intros H0; by done_inv|].
  assert (slot <> q) as Hsq. { intros ->. destruct Hu as [Hq _]. rewrite Hq in E. by done_inv. }
  pose proof (take_any_pid LETHAL t) as Hp. destruct (take_any t LETHAL) as [[|] t1] eqn:Et; cbn [snd] in Hp.
  - destruct (exit t1 1 P) as [[t2 P2]|] eqn:Ex; [|done]. mred. intros H0. done_inv.
    assert (pid t2 = pid t1) as Hp2.
    { unfold exit in Ex. destruct (fd_close_all _ _) as [[f P3]|]; [|done]. mred_in Ex. by done_inv. }
    destruct (undisturbed_insert q reader ts slot t t2 Hu Hsq E ltac:(congruence)) as [Hq Hpid].
    split.
    + unfold wake_child_waiters. rewrite list_lookup_fmap, Hq. cbn. do 2 f_equal. unfold wake_waiter.
      rewrite bool_decide_eq_true_2 by done. cbn [negb]. rewrite Hw.
      assert (pid t2 <> 0) as Hz.
      { apply (Hpid slot t2 Hs). apply list_lookup_insert_eq. by eapply lookup_lt_Some. }
      destruct (Z.eqb_spec 0 (pid t2)); [congruence|]. done.
    + intros s u Hs' Hu'. unfold wake_child_waiters in Hu'. rewrite list_lookup_fmap in Hu'.
      destruct (_ !! s) as [[v|]|] eqn:Ev in Hu'; cbn in Hu'; try done. injection Hu' as <-. rewrite wake_waiter_pid. by eapply Hpid.
  - destruct (take_signal t1 SIGCHLD) as [c t2] eqn:Es. intros H0. done_inv.
    apply (undisturbed_insert q reader ts slot t); [done | done | done |].
    assert (pid t2 = pid t1) as Hp2 by (unfold take_signal in Es; destruct (_ =? 0); by done_inv).
    destruct (c && _); cbn; congruence.
Qed.

(** A signal that kills the last writer of a pipe leaves the reader asleep: the delivery closes
    the dead task's descriptors, but neither wakes the tasks that wait on a pipe nor clears
    their entries, so a reader without signals of its own stays blocked. *)
Theorem killed_writer_leaves_reader k k' (i q : nat) (reader : Task) :
  deliver_all_signals k = Done (tt, k') ->
  (forall s u, (1 <= s)%nat -> tasks (k_sched k) !! s = Some (Some u) -> pid u <> 0) ->
  pipe_waiters (k_sched k) !! i = Some (Some q) -> tasks (k_sched k) !! q = Some (Some reader) ->
  state reader = Blocked -> pending_signals reader = 0 -> waiting_for_pid reader = 0 ->
  tasks (k_sched k') !! q = Some (Some reader) /\ pipe_waiters (k_sched k') !! i = Some (Some q).
Proof.
  intros H Hpid Hi Hq Hb Hp Hw. unfold deliver_all_signals in H.
  destruct (foldM _ _ _) as [[ts P]|] eqn:E; [|done]. injection H as <-. split; [|done]. cbn.
  assert (forall l ts0 P0, Forall (fun s => (1 <= s)%nat) l -> undisturbed q reader ts0 ->
    foldM deliver_signals (ts0, P0) l = Done (ts, P) -> undisturbed q reader ts) as G.
  { induction l as [|s l IH]; intros ts0 P0 Hl Hu Hf; cbn [foldM] in Hf; [by done_inv|].
    apply Forall_cons_1 in Hl as [Hs Hl]. destruct (deliver_signals (ts0, P0) s) as [[ts1 P1]|] eqn:Ed; [|done]. mred_in Hf.
    eapply IH; [done | | exact Hf]. by eapply deliver_undisturbed. }
  apply (G _ _ _ ltac:(apply Forall_seq; intros j [Hj _]; exact Hj) (conj Hq Hpid) E).
Qed.
End wrong.

(** ** Witnesses *)

Section demo.
#[local] Instance demo_arch' : ArchOps pages := x86_arch demo_image.
#[local] Instance demo_vops : VmOps pages := x86_ops (im_pml4 demo_image).

Lemma demo_shape ts c fs : (length ts <= 63)%nat -> (exists t, tasks (demo_sched ts c) !! c = Some (Some t)) ->
  sched_shape (k_sched (demo_kernel demo_vm0 ts c fs)).
Proof. intros Hl Hc. apply (demo_sched_ok ts c fs Hl Hc). Qed.
Lemma demo_waiters ts c fs : waiters_ok (k_sched (demo_kernel demo_vm0 ts c fs)).
Proof. split; [done|]. intros i q. cbn [demo_kernel demo_sched k_sched pipe_waiters]. rewrite lookup_replicate. naive_solver. Qed.

(** Task 1 waits for any child; task 2, its child, has exited. *)
Definition demo_family : kernel pages :=
  demo_kernel demo_vm0 [Some (demo_task 1 0 Ready 0); Some (demo_task 2 1 Zombie 0)] 1 0.

Lemma waitpid_round_exact_witness : exists k', waitpid_round 1 u64_MAX 0 false demo_family = Done (Some 2, k') /\
  tasks (k_sched k') !! 2%nat = Some None.
Proof.
  destruct (waitpid_round_exact demo_family 1 u64_MAX 0 false) as [H|[Hno _]].
  - apply demo_shape; [by vm_compute; lia | by eexists].
  - destruct H as (slot & t & Hslot & Ht & Hp & _ & _ & H). cbn [Z.eqb] in H.
    assert (slot = 2%nat /\ pid t = 2) as [-> E2].
    { destruct slot as [|[|[|slot]]]; [lia | | |].
      - injection Ht as <-. discriminate Hp.
      - injection Ht as <-. split; reflexivity.
      - change (replicate 61 None !! slot = Some (Some t)) in Ht. by apply lookup_replicate in Ht as [Ht _]. }
    exists (with_slot demo_family 2 None). rewrite H, E2. split; reflexivity.
  - destruct Hno. exists 2%nat. eexists. split; [lia|]. split; [reflexivity|]. split; [done|]. split; [done | by left].
Defined.

(** Task 1 is blocked in waitpid; task 2, its child, runs and exits with 7. *)
Definition demo_waiting : kernel pages :=
  demo_kernel demo_vm0 [Some (with_waiting u64_MAX (demo_task 1 0 Blocked 0)); Some (demo_task 2 1 Ready 0)] 2 0.


(** One pipe, and a table with both its ends and a duplicate of one. *)
Definition demo_pipes : pool := snd (alloc_pipe POOL_init).
Definition demo_child : Task := with_fds ([PipeRead 0; PipeWrite 0; PipeWrite 0] ++ replicate 13 FdEmpty) (demo_task 2 1 Ready 0).

Lemma demo_pipes_wf : pool_wf demo_pipes.
Proof. unfold demo_pipes. destruct (alloc_pipe_refines POOL_init (proj1 POOL_init_wf)) as (r & P' & -> & H & _). exact H. Qed.

Lemma fork_counts_inherited_pipes_witness : exists P1 child' P2, foldM dup_entry demo_pipes (fd_table demo_child) = Done P1 /\
  chan_at (pool_view P1) 0 = Some (mk_chan [] 2 3) /\ exit demo_child 0 P1 = Done (child', P2) /\
  chan_at (pool_view P2) 0 = Some (mk_chan [] 1 1).
Proof.
  assert (chan_at (pool_view demo_pipes) 0 = Some (mk_chan [] 1 1)) as H0 by reflexivity.
  destruct (fork_counts_inherited_pipes demo_pipes demo_child 0) as (P1 & c & P2 & H1 & H2 & H3 & _ & H4).
  - exact demo_pipes_wf.
  - reflexivity.
  - intros [|i] ch Hc; [rewrite H0 in Hc; injection Hc as <-; cbn; lia|].
    assert (chan_at (pool_view demo_pipes) (S i) = None) as Hn.
    { unfold chan_at. change (pool_view demo_pipes !! S i) with ((slot_view <$> replicate 7 PipeSlot_new) !! i).
      rewrite list_lookup_fmap. destruct (replicate 7 PipeSlot_new !! i) as [s|] eqn:E; [|done].
      by apply lookup_replicate in E as [-> _]. }
    by rewrite Hn in Hc.
  - exists P1, c, P2. split; [exact H1|]. split; [exact (H2 0%nat _ H0)|]. split; [exact H3|]. rewrite H4. exact H0.
Defined.

Lemma spawn_fork_child_witness : exists k' child, spawn_fork 0x8000001000 0x8000010000 (replicate 6 0) (replicate 6 0) demo_two = Done (Some 3%nat, k') /\
  tasks (k_sched k') !! 3%nat = Some (Some child) /\ pid child = 3 /\ ppid child = 1 /\ fs_base child = 0x11000.
Proof.
  assert (match spawn_fork 0x8000001000 0x8000010000 (replicate 6 0) (replicate 6 0) demo_two with Done (Some i, _) => i | _ => 99%nat end = 3%nat)
    as Hrun by (vm_compute; reflexivity).
  destruct (spawn_fork _ _ _ _ demo_two) as [[[i|] k']|] eqn:E; [|discriminate Hrun..]. subst i.
  destruct (spawn_fork_child demo_two _ _ _ _ 3 k' (proj1 POOL_init_wf) E)
    as (parent & child & Hp & _ & Ht & H1 & _ & H2 & _ & _ & _ & _ & H3 & _).
  exists k', child. split; [reflexivity|]. split; [rewrite Ht; reflexivity|]. split; [exact H1|].
  change (tasks (k_sched demo_two) !! cur (k_sched demo_two)) with (Some (Some (demo_task 1 0 Ready 0x11000))) in Hp.
  injection Hp as <-. split; [exact H2 | exact H3].
Defined.

(** Task 1 yields to task 2, which exits; task 3, its parent, reaps it and yields to task 1. *)
Definition demo_three : kernel pages :=
  demo_kernel demo_vm0 [Some (demo_task 1 0 Ready 0); Some (demo_task 2 3 Ready 0); Some (demo_task 3 0 Ready 0)] 1 0.
Definition after_wait (m : outcome (option Z * kernel pages)) : kernel pages := match m with Done (_, k) => k | Panic => demo_two end.
Definition demo_reaped : kernel pages :=
  let k := after (schedule demo_three) in
  let k := after (exit_current 0 k) in
  let k := after_wait (waitpid_round 3 2 0 true k) in
  put_sched (with_tasks (<[3%nat := Some (with_state Blocked (demo_task 3 0 Ready 0))]> (tasks (k_sched k))) (k_sched k)) k.

Lemma reaped_switch_target_panics_witness : cur (k_sched demo_reaped) = 3%nat /\ schedule demo_reaped = Panic.
Proof.
  split; [by vm_compute|]. apply (reaped_switch_target_panics demo_reaped 1 2 true).
  - split; try (by vm_compute); [eexists; vm_compute; reflexivity | eexists; vm_compute; reflexivity].
  - intros g _ Hg Hne. exfalso. apply Hne.
    assert (guard_phys (k_sched demo_reaped) = replicate 64 0) as Hgs by (by vm_compute).
    rewrite Hgs in Hg. by apply lookup_replicate in Hg as [-> _].
  - left. split; [lia|]. split; [eexists; split; [vm_compute; reflexivity | reflexivity]|].
    change (cur (k_sched demo_reaped)) with 3%nat. intros s Hs (t & Ht & _).
    assert (s < 4)%nat as Hs4.
    { destruct (Nat.lt_ge_cases s 4) as [|Hge]; [done|]. exfalso.
      assert (drop 4 (tasks (k_sched demo_reaped)) = replicate 60 None) as Hd by (by vm_compute).
      assert (replicate 60 None !! (s - 4)%nat = Some (Some t)) as Hx.
      { rewrite <- Hd, lookup_drop. by replace (4 + (s - 4))%nat with s by lia. }
      by apply lookup_replicate in Hx as [Hx _]. }
    unfold turn. rewrite !mod_wrap by lia. repeat case_decide; lia.
  - vm_compute. discriminate.
  - vm_compute. reflexivity.
  - vm_compute. reflexivity.
Defined.

(** Task 1 reads from a pipe and sleeps; task 2, the only writer, has SIGKILL pending. *)
Definition demo_reader : Task := with_fds ([Stdin; Stdout; Stderr; PipeRead 0] ++ replicate 12 FdEmpty) (demo_task 1 0 Blocked 0).
Definition demo_writer : Task :=
  with_pending (sig_bit SIGKILL) (with_fds ([Stdin; Stdout; Stderr; PipeWrite 0] ++ replicate 12 FdEmpty) (demo_task 2 0 Ready 0)).
Definition demo_stuck : kernel pages :=
  let k := demo_kernel demo_vm0 [Some demo_reader; Some demo_writer] 2 0 in
  put_pool demo_pipes (put_sched (with_pipe_waiters (Some 1%nat :: replicate 7 None) (k_sched k)) k).

Lemma killed_writer_leaves_reader_witness : exists k', deliver_all_signals demo_stuck = Done (tt, k') /\
  pipe_write_open (k_pool k') 0 = Done false /\ tasks (k_sched k') !! 1%nat = Some (Some demo_reader).
Proof.
  assert (match deliver_all_signals demo_stuck with Done (_, k') => pipe_write_open (k_pool k') 0 | Panic => Panic end = Done false)
    as Hp by (vm_compute; reflexivity).
  destruct (deliver_all_signals demo_stuck) as [[[] k']|] eqn:E; [|discriminate Hp]. exists k'. split; [reflexivity|]. split; [exact Hp|].
  apply (killed_writer_leaves_reader demo_stuck k' 0 1 demo_reader E); try reflexivity.
  intros s u Hs Hu. destruct s as [|[|[|s]]]; [lia | injection Hu as <-; discriminate | injection Hu as <-; discriminate |].
  change (replicate 61 None !! s = Some (Some u)) in Hu. by apply lookup_replicate in Hu as [Hu _].
Defined.
End demo.
