(* ===== verification/Faults.v ===== *)
(** Demand paging: what handling a user page fault (src/kernel/src/scheduler/mod.rs,
    [handle_user_page_fault]) does to the address spaces, for any architecture that keeps
    the promises of PagingSpec.v. *)
From Stdlib Require Import ZArith Lia.
From stdpp Require Import base option list numbers.
From S2P Require Import Prelude Console RingBuf Ipc Process PageTable Pages Paging PagingSpec RamFs Kernel Scheduler Arch SchedulerSpec TaskLife.
Local Open Scope Z_scope.

Section faults.
Context {A : Type} {ops : PageOps A} {laws : PageLaws A ops} {vops : VmOps A} {vlaws : VmLaws vops} {arch : ArchOps A}.
#[local] Existing Instance vl_format.
#[local] Existing Instance vl_format_ok.
Implicit Types k : kernel A.

(** A fresh page of zeros is in no space, and changes no translation. *)
Lemma fresh_zero_page (s : vm A) roots phys p : spaces s roots -> alloc_pages (vm_pages s) 1 = Done (Some phys, p) ->
  let s' := mk_vm (write_bytes (vm_mem s) phys 0 4096) p in
  spaces s' roots /\ page_ok p phys /\
  (forall root path, root ∈ roots -> user_path vl_lo path -> (length path < vl_depth)%nat -> tbl 0 (vm_mem s') root path = tbl 0 (vm_mem s) root path) /\
  (forall root va, root ∈ roots -> vl_user va = true -> translate s' root va = translate s root va) /\
  (forall x, phys <= x < phys + 4096 -> ~ pa_owned (vm_pages s) x).
Proof.
  intros Hs E s'. pose proof (spaces_reach_ok _ _ Hs) as [Hinv _ Hwf _].
  destruct (pa_alloc (vm_pages s) 1 Hinv ltac:(lia)) as (r & p' & E' & _ & Hr). rewrite E in E'. injection E' as <- <-.
  destruct Hr as (Hal & Hpos & Hmax & Hfresh & Hown). unfold in_pages in *.
  assert (forall x, pa_owned (vm_pages s) x -> vm_mem s' x = vm_mem s x) as Hfr.
  { intros x Hx. apply write_bytes_out. intros Hin. apply (Hfresh x); [lia | exact Hx]. }
  assert (forall root path, root ∈ roots -> user_path vl_lo path -> (length path <= vl_depth)%nat -> agree (vm_mem s) (vm_mem s') root path) as Hag.
  { intros root path Hin Hu Hl. eapply frame_agree; [by apply Hwf | exact Hfr | exact Hu | exact Hl]. }
  pose proof (sp_alloc s roots 1 (Some phys) p Hs ltac:(lia) E) as Hs1. split_and!.
  - apply (sp_write _ _ (write_bytes (vm_mem s) phys 0 4096) Hs1). cbn [vm_mem]. intros root path t x Hin Hu Hl Ht Hx.
    destruct (sw_tables _ _ _ _ (Hwf root Hin) path t Hu Hl Ht) as (_ & _ & _ & Ho). by apply Hfr, Ho.
  - split_and!; [done | done | lia|]. intros x Hx. apply Hown. left. lia.
  - intros root path Hin Hu Hl. apply tbl_ext, Hag; [done | done | lia].
  - intros root va Hin Hu. apply xlate_ext, Hag; [done | by apply vl_path | by rewrite vl_length].
  - intros x Hx. apply Hfresh. lia.
Qed.

(** Mapping it keeps it zero. *)
Lemma map_keeps_zero (s : vm A) roots root phys p va pa prot ok s' : spaces s roots -> root ∈ roots -> 0 <= pa < 2 ^ 64 ->
  alloc_pages (vm_pages s) 1 = Done (Some phys, p) ->
  vm_map (mk_vm (write_bytes (vm_mem s) phys 0 4096) p) root va pa prot = Done (ok, s') ->
  forall x, phys <= x < phys + 4096 -> vm_mem s' x = 0.
Proof.
  intros Hs Hin Hpa E Em x Hx. destruct (fresh_zero_page s roots phys p Hs E) as (Hs2 & Hpage & Htbl & _ & Hfresh).
  assert (write_bytes (vm_mem s) phys 0 4096 x = 0) as Hz.
  { unfold write_bytes. destruct (Z.leb_spec phys x), (Z.ltb_spec x (phys + 4096)); cbn; done || lia. }
  destruct (vl_user va) eqn:Hu; [|rewrite vl_map_kernel in Em by done; injection Em as _ <-; exact Hz].
  pose proof (spaces_reach_ok _ _ Hs2) as [_ _ Hwf2 _]. pose proof (vl_map _ root va pa prot (Hwf2 root Hin) Hpa Hu) as Hm.
  rewrite Em in Hm. destruct Hm as (_ & Hev & _). rewrite (ev_frame _ _ _ _ _ Hev); [exact Hz | by apply Hpage |].
  intros (path & i & t & Hup & Hl & Ht & Hx'). destruct (user_path_app _ _ _ Hup) as [Hup' Hi].
  rewrite Htbl in Ht by done. pose proof (spaces_reach_ok _ _ Hs) as [_ _ Hwf _].
  destruct (sw_tables _ _ _ _ (Hwf root Hin) path t Hup' Hl Ht) as (_ & _ & _ & Ho).
  apply (Hfresh x Hx), Ho. unfold entry_addr in Hx'. lia.
Qed.

Definition USER_RWX : Z := Z.lor (Z.lor (Z.lor PROT_READ PROT_WRITE) PROT_EXEC) PROT_USER.

End faults.

(** ** A fault of the demo machine *)

Section demo.
#[local] Instance fault_arch : ArchOps pages := x86_arch demo_image.
#[local] Instance fault_vops : VmOps pages := x86_ops 0x100000.
#[local] Instance fault_laws : VmLaws fault_vops := x86_laws 0x100000.

Definition demo_faulting : Task := with_page_table 0x103000 (demo_task 1 0 Ready 0).
Definition demo_fault : kernel pages := demo_kernel demo_x86' [Some demo_faulting] 1 0.
End demo.
