(* ===== verification/Invariants.v ===== *)
(** The invariant of the kernel, and that every way into the kernel keeps it: every
    system call, first or resumed, every interrupt and every fault.

    [keeps N m Q] is the triple of the proofs: from a state with the invariant and next
    process id [N], a run of [m] that ends leaves such a state, and a result in [Q];
    [spawns N m] allows one new process. *)
From Stdlib Require Import ZArith Lia.
From stdpp Require Import base option list numbers.
From S2P Require Import Prelude Console Bitmap RingBuf Ipc Process PageTable Pages Paging RamFs RamFsSpec Fs Elf AbiStack Kernel Scheduler Drivers Syscall Interrupts Arch SchedulerSpec TaskLife.
Local Open Scope Z_scope.

(** ** Well-typed tasks *)

Definition entry_ok (e : FdEntry) : Prop :=
  match e with
  | VfsFile i off _ => (i < MAX_INODES)%nat /\ 0 <= off < 2 ^ 64
  | VfsDir i _ => (i < MAX_INODES)%nat
  | PipeRead i | PipeWrite i => (i < MAX_PIPES)%nat
  | SocketPair r w => (r < MAX_PIPES)%nat /\ (w < MAX_PIPES)%nat
  | _ => True
  end.
Definition fds_ok (f : FdTable) : Prop := length f = MAX_FDS /\ Forall entry_ok f.
Record task_ok (t : Task) : Prop := { tk_fds : fds_ok (fd_table t); tk_cwd : (cwd t < MAX_INODES)%nat }.

(** Process ids: below the next one, above the parent's, and of one task each. *)
Record pids_ok (np : Z) (ts : list (option Task)) : Prop := {
  pi_range : forall i t, ts !! i = Some (Some t) -> 0 <= pid t < np;
  pi_parent : forall i t, i <> 0%nat -> ts !! i = Some (Some t) -> 0 <= ppid t < pid t;
  pi_unique : forall i j t u, ts !! i = Some (Some t) -> ts !! j = Some (Some u) -> pid t = pid u -> i = j
}.
Definition tasks_ok (ts : list (option Task)) : Prop := forall i t, ts !! i = Some (Some t) -> task_ok t.

Record sched_inv (s : sched) : Prop := {
  si_shape : sched_shape s;
  si_waiters : waiters_ok s;
  si_tty : forall q, tty_waiter s = Some q -> (q < MAX_TASKS)%nat;
  si_tasks : tasks_ok (tasks s);
  si_pids : pids_ok (next_pid s) (tasks s)
}.
Record tty_inv (t : tty) : Prop := {
  ti_serial : rb_wf INPUT_LEN (serial_in t);
  ti_kbd : rb_wf INPUT_LEN (kbd_in t);
  ti_screen : screen_ok (vga t)
}.
Record kernel_inv {A} (k : kernel A) : Prop := {
  kv_sched : sched_inv (k_sched k);
  kv_tty : tty_inv (k_tty k);
  kv_pool : pool_wf (k_pool k);
  kv_fs : fs_wf (k_fs k)
}.

(** A change of tasks that keeps their identities and types. *)
Definition retyped (t t' : Task) : Prop := pid t' = pid t /\ ppid t' = ppid t /\ (task_ok t -> task_ok t').
Definition retypes (ts ts' : list (option Task)) : Prop := Forall2 (option_Forall2 retyped) ts ts'.

Lemma task_ok_same t t' : fd_table t' = fd_table t -> cwd t' = cwd t -> task_ok t -> task_ok t'.
Proof. intros Hf Hc [H1 H2]. split; [by rewrite Hf | by rewrite Hc]. Qed.
Lemma nudges_cwd_wake t : cwd (wake t) = cwd t.
Proof. unfold wake. by case_bool_decide. Qed.
Lemma retyped_wake t : retyped t (wake t).
Proof. destruct (nudged_wake t). split; [done|]; split; [done|]. apply task_ok_same; [done | apply nudges_cwd_wake]. Qed.
Lemma retyped_wake_waiter e p t : retyped t (wake_waiter e p t).
Proof.
  destruct (nudged_wake_waiter e p t). split; [done|]; split; [done|]. apply task_ok_same; [done|].
  unfold wake_waiter. case_bool_decide; cbn [negb]; [|done]. by destruct (_ || _).
Qed.
Lemma retyped_raise t sig : retyped t (snd (raise_signal t sig)).
Proof.
  destruct (nudged_raise t sig). split; [done|]; split; [done|]. apply task_ok_same; [done|]. unfold raise_signal. by destruct (_ =? 0).
Qed.
Lemma retyped_take t sig : retyped t (snd (take_signal t sig)).
Proof. unfold take_signal. destruct (_ =? 0); cbn [snd]; (split; [done|]; split; [done|]); [done | by apply task_ok_same]. Qed.
#[export] Instance retyped_refl : Reflexive retyped.
Proof. by intros t. Qed.
#[export] Instance retyped_trans : Transitive retyped.
Proof. intros a b c (H1 & H2 & H3) (G1 & G2 & G3). split; [congruence|]. split; [congruence | tauto]. Qed.
#[export] Instance retypes_refl : Reflexive retypes.
Proof. intros ts. unfold retypes. reflexivity. Qed.
#[export] Instance retypes_trans : Transitive retypes.
Proof. intros a b c H G. unfold retypes in *. by transitivity b. Qed.

Lemma retypes_insert ts i t t' : ts !! i = Some (Some t) -> retyped t t' -> retypes ts (<[i := Some t']> ts).
Proof.
  intros Hi Hn. unfold retypes. rewrite <- (list_insert_id ts i (Some t) Hi) at 1. apply Forall2_insert; [reflexivity | by constructor].
Qed.
Lemma retypes_wake_child e p ts : retypes ts (wake_child_waiters e p ts).
Proof.
  unfold retypes, wake_child_waiters. induction ts as [|[t|] ts IH]; cbn; constructor; try done; constructor. apply retyped_wake_waiter.
Qed.
Lemma retypes_signal_parent p sig ts : retypes ts (signal_parent p sig ts).
Proof.
  unfold signal_parent. destruct (find_task _ 0 ts) as [[slot t]|] eqn:E; [|done].
  apply find_task_Some in E as (_ & H & _). rewrite Nat.sub_0_r in H. eapply retypes_insert; [done | apply retyped_raise].
Qed.
Lemma retypes_back ts ts' i t' : retypes ts ts' -> ts' !! i = Some (Some t') -> exists t, ts !! i = Some (Some t) /\ retyped t t'.
Proof.
  intros H Hi. destruct (Forall2_lookup_r _ _ _ _ _ H Hi) as (o & Ho & Hr). inversion Hr; subst. by eexists.
Qed.
Lemma retypes_lookup ts ts' i t : retypes ts ts' -> ts !! i = Some (Some t) -> exists t', ts' !! i = Some (Some t').
Proof. intros H Hi. destruct (Forall2_lookup_l _ _ _ _ _ H Hi) as (o & Ho & Hr). inversion Hr; subst. by eexists. Qed.
Lemma retypes_length ts ts' : retypes ts ts' -> length ts' = length ts.
Proof. intros H. symmetry. by apply Forall2_length in H. Qed.

(** The tasks change so; every other static may, within its bounds. *)
Lemma sched_inv_retypes s s' : sched_inv s -> retypes (tasks s) (tasks s') -> next_pid s' = next_pid s ->
  length (guard_phys s') = MAX_TASKS -> length (parked s') = MAX_TASKS ->
  length (pipe_waiters s') = MAX_PIPES -> (forall i q, pipe_waiters s' !! i = Some (Some q) -> (q < MAX_TASKS)%nat) ->
  (exists t, tasks s !! cur s' = Some (Some t)) -> (forall q, tty_waiter s' = Some q -> (q < MAX_TASKS)%nat) -> sched_inv s'.
Proof.
  intros [Hsh Hw Ht Hok [Hr Hp Hu]] H Hn Hg Hpk Hl Hq [tc Hc] Htty. pose proof (retypes_length _ _ H) as Hlen.
  destruct (sh_idle _ Hsh) as [ti Hi]. split.
  - split; rewrite ?Hlen; try done; [by apply sh_tasks | by eapply retypes_lookup..].
  - split; [done|]. rewrite Hlen, (sh_tasks _ Hsh). done.
  - done.
  - intros i t' Hi'. destruct (retypes_back _ _ _ _ H Hi') as (t & Hit & _ & _ & Htk). apply Htk. by eapply Hok.
  - rewrite Hn. split.
    + intros i t' Hi'. destruct (retypes_back _ _ _ _ H Hi') as (t & Hit & -> & _). by eapply Hr.
    + intros i t' Hne Hi'. destruct (retypes_back _ _ _ _ H Hi') as (t & Hit & -> & -> & _). by eapply Hp.
    + intros i j t' u' Hi' Hj'. destruct (retypes_back _ _ _ _ H Hi') as (t & Hit & -> & _), (retypes_back _ _ _ _ H Hj') as (u & Hju & -> & _).
      by eapply Hu.
Qed.

Lemma si_bounds s : sched_inv s -> length (tasks s) = MAX_TASKS /\ length (guard_phys s) = MAX_TASKS /\ length (parked s) = MAX_TASKS /\
  length (pipe_waiters s) = MAX_PIPES /\ (forall i q, pipe_waiters s !! i = Some (Some q) -> (q < MAX_TASKS)%nat) /\
  (exists t, tasks s !! cur s = Some (Some t)) /\ (forall q, tty_waiter s = Some q -> (q < MAX_TASKS)%nat).
Proof.
  intros [[H1 H2 H3 H4 H5 H6] [H7 H8] H9 _ _]. rewrite H1 in H8. done.
Qed.

(** Only the tasks change. *)
Lemma sched_inv_tasks s ts : sched_inv s -> retypes (tasks s) ts -> sched_inv (with_tasks ts s).
Proof. intros Hs H. destruct (si_bounds s Hs) as (? & ? & ? & ? & ? & ? & ?). by apply (sched_inv_retypes s). Qed.

(** ** Triples *)

Section triples.
Context {A : Type} {ops : PageOps A} {vops : VmOps A} {arch : ArchOps A}.
Implicit Types k : kernel A.
Variable N : Z.

Definition keeps {X} (m : KM A X) (Q : X -> Prop) : Prop :=
  forall k x k', kernel_inv k -> next_pid (k_sched k) = N -> m k = Done (x, k') ->
  kernel_inv k' /\ next_pid (k_sched k') = N /\ Q x.
Definition spawns {X} (m : KM A X) : Prop :=
  forall k x k', kernel_inv k -> next_pid (k_sched k) = N -> N < 2 ^ 64 - 1 -> m k = Done (x, k') -> kernel_inv k' /\ (next_pid (k_sched k') = N \/ next_pid (k_sched k') = N + 1).

Local Abbreviation any := (fun _ => True).

Lemma keeps_use {X} (m : KM A X) Q : keeps m Q -> forall k x k', kernel_inv k -> next_pid (k_sched k) = N -> m k = Done (x, k') ->
  kernel_inv k' /\ next_pid (k_sched k') = N /\ Q x.
Proof. auto. Qed.
Lemma keeps_ret {X} (x : X) (Q : X -> Prop) : Q x -> keeps (mret x) Q.
Proof. intros HQ k y k' Hk Hn H. unfold mret, km_ret in H. by done_inv. Qed.
Lemma keeps_bind {X Y} (m : KM A X) (f : X -> KM A Y) Q R : keeps m Q -> (forall x, Q x -> keeps (f x) R) -> keeps (m ≫= f) R.
Proof. intros Hm Hf k y k' Hk Hn H. apply bind_inv in H as (x & k1 & H1 & H2). destruct (Hm _ _ _ Hk Hn H1) as (? & ? & HQ). by eapply Hf. Qed.
Lemma keeps_weaken {X} (m : KM A X) (Q R : X -> Prop) : keeps m Q -> (forall x, Q x -> R x) -> keeps m R.
Proof. intros Hm HR k x k' Hk Hn H. destruct (Hm _ _ _ Hk Hn H) as (? & ? & ?). auto. Qed.
Lemma keeps_any {X} (m : KM A X) Q : keeps m Q -> keeps m any.
Proof. intros H. by eapply keeps_weaken. Qed.
Lemma spawns_keeps {X} (m : KM A X) Q : keeps m Q -> spawns m.
Proof. intros Hm k x k' Hk Hn _ H. destruct (Hm _ _ _ Hk Hn H) as (? & ? & _). split; [done | by left]. Qed.
Lemma spawns_bind {X Y} (m : KM A X) (f : X -> KM A Y) Q : keeps m Q -> (forall x, Q x -> spawns (f x)) -> spawns (m ≫= f).
Proof. intros Hm Hf k y k' Hk Hn Hb H. apply bind_inv in H as (x & k1 & H1 & H2). destruct (Hm _ _ _ Hk Hn H1) as (? & ? & HQ). by eapply Hf. Qed.

Lemma keeps_gets {X} (f : kernel A -> X) (Q : X -> Prop) : (forall k, kernel_inv k -> next_pid (k_sched k) = N -> Q (f k)) -> keeps (gets f) Q.
Proof. intros HQ k x k' Hk Hn [-> ->]%gets_Done. auto. Qed.
Lemma keeps_modify (f : kernel A -> kernel A) : (forall k, kernel_inv k -> kernel_inv (f k) /\ next_pid (k_sched (f k)) = next_pid (k_sched k)) -> keeps (modify f) any.
Proof. intros Hf k x k' Hk Hn H. unfold modify in H. done_inv. destruct (Hf k Hk) as [? ?]. split; [done|]. split; [congruence | done]. Qed.
Lemma keeps_lift {X} (m : outcome X) (Q : X -> Prop) : (forall x, m = Done x -> Q x) -> keeps (lift m) Q.
Proof. intros HQ k x k' Hk Hn H. unfold lift in H. destruct m; [|done]. done_inv. auto. Qed.
Lemma keeps_panic {X} (Q : X -> Prop) : keeps panic Q.
Proof. intros k x k' _ _ H. done. Qed.

Lemma kernel_inv_frame k k' : k_sched k' = k_sched k -> k_tty k' = k_tty k -> k_pool k' = k_pool k -> k_fs k' = k_fs k -> kernel_inv k -> kernel_inv k'.
Proof. intros H1 H2 H3 H4 [? ? ? ?]. split; by rewrite ?H1, ?H2, ?H3, ?H4. Qed.

Lemma keeps_cpu f : keeps (mod_cpu f) any.
Proof. apply keeps_modify. intros k Hk. split; [|done]. by apply (kernel_inv_frame k). Qed.
Lemma keeps_sys f : keeps (mod_sys f) any.
Proof. apply keeps_modify. intros k Hk. split; [|done]. by apply (kernel_inv_frame k). Qed.
Lemma keeps_mem f : keeps (on_mem f) any.
Proof. apply keeps_modify. intros k Hk. split; [|done]. by apply (kernel_inv_frame k). Qed.
Lemma keeps_vm {X} (f : vm A -> outcome (X * vm A)) : keeps (on_vm f) any.
Proof.
  intros k x k' Hk Hn H. unfold on_vm in H. destruct (f (k_vm k)) as [[y v]|]; [|done]. done_inv.
  split; [|done]. by apply (kernel_inv_frame k).
Qed.
Lemma keeps_fs {X} (f : RamFs -> outcome (X * RamFs)) (Q : X -> Prop) :
  (forall fs x fs', fs_wf fs -> f fs = Done (x, fs') -> fs_wf fs' /\ Q x) -> keeps (on_fs f) Q.
Proof.
  intros Hf k x k' [Hs Ht Hp Hfs] Hn H. unfold on_fs in H. destruct (f (k_fs k)) as [[y fs']|] eqn:E; [|done]. done_inv.
  destruct (Hf _ _ _ Hfs E) as [? ?]. split; [by split | done].
Qed.
Lemma keeps_fs_query {X} (f : RamFs -> outcome X) (Q : X -> Prop) : (forall fs x, fs_wf fs -> f fs = Done x -> Q x) -> keeps (fs_query f) Q.
Proof.
  intros Hf. unfold fs_query. apply (keeps_bind _ _ fs_wf); [apply keeps_gets; intros k Hk _; apply Hk|].
  intros fs Hfs. apply keeps_lift. eauto.
Qed.
Lemma keeps_pool_query {X} (f : pool -> outcome X) : keeps (pool_query f) any.
Proof. unfold pool_query. apply (keeps_bind _ _ any); [by apply keeps_gets|]. intros P _. by apply keeps_lift. Qed.
Lemma keeps_pool {X} (f : pool -> outcome (X * pool)) (Q : X -> Prop) :
  (forall P x P', pool_wf P -> f P = Done (x, P') -> pool_wf P' /\ Q x) -> keeps (on_pool f) Q.
Proof.
  intros Hf k x k' [Hs Ht Hp Hfs] Hn H. unfold on_pool in H. destruct (f (k_pool k)) as [[y P']|] eqn:E; [|done]. done_inv.
  destruct (Hf _ _ _ Hp E) as [? ?]. split; [by split | done].
Qed.
Lemma keeps_forM {X} (xs : list X) body : (forall x, keeps (body x) any) -> keeps (forM xs body) any.
Proof.
  intros Hb. induction xs as [|x xs IH]; cbn [forM]; [by apply keeps_ret|]. eapply keeps_bind; [apply Hb | done].
Qed.
Lemma keeps_sched f : (forall s, sched_inv s -> sched_inv (f s) /\ next_pid (f s) = next_pid s) -> keeps (mod_sched f) any.
Proof. intros Hf. apply keeps_modify. intros k [Hs ? ? ?]. destruct (Hf _ Hs). split; [|done]. by split. Qed.
Lemma keeps_tty f : (forall t, tty_inv t -> tty_inv (f t)) -> keeps (mod_tty f) any.
Proof. intros Hf. apply keeps_modify. intros k [? Ht ? ?]. split; [|done]. split; try done. by apply Hf. Qed.

(** ** The statics of the scheduler *)

Definition some_task_ok (o : option Task) : Prop := forall t, o = Some t -> task_ok t /\ 0 <= pid t < N.

Lemma keeps_CURRENT : keeps CURRENT (fun c => (c < MAX_TASKS)%nat).
Proof. apply keeps_gets. intros k Hk _. apply shape_cur. apply Hk. Qed.
Lemma keeps_get_task slot : keeps (get_task slot) some_task_ok.
Proof.
  intros k o k' Hk Hn [-> Ho]%get_task_Done. split; [done|]. split; [done|]. intros t ->.
  destruct Hk as [[_ _ _ Hok [Hr _ _]] _ _ _]. split; [by eapply Hok|]. rewrite <- Hn. by eapply Hr.
Qed.
Lemma keeps_current_field {X} (f : Task -> X) d (Q : X -> Prop) : (forall t, task_ok t -> 0 <= pid t < N -> Q (f t)) -> Q d -> keeps (current_field f d) Q.
Proof.
  intros Hf Hd. unfold current_field. eapply keeps_bind; [apply keeps_CURRENT|]. intros c _.
  eapply keeps_bind; [apply keeps_get_task|]. intros [t|] Ho; apply keeps_ret; [|done]. destruct (Ho t); auto.
Qed.

(** A store of a task over the one in its slot. *)
Lemma inv_insert k slot t t' : kernel_inv k -> tasks (k_sched k) !! slot = Some (Some t) -> retyped t t' ->
  kernel_inv (put_sched (with_tasks (<[slot := Some t']> (tasks (k_sched k))) (k_sched k)) k).
Proof. intros [Hs ? ? ?] Ht Hr. split; try done. apply sched_inv_tasks; [done | by eapply retypes_insert]. Qed.
Lemma set_task_Done k slot o u k' : set_task slot o k = Done (u, k') ->
  k' = put_sched (with_tasks (<[slot := o]> (tasks (k_sched k))) (k_sched k)) k.
Proof. unfold set_task. kred. unfold lift. destruct (set _ _ _) as [l|] eqn:E; [|done]. kred. apply set_inv in E as [-> _]. intros [= _ <-]. reflexivity. Qed.

Lemma keeps_update_task slot f : (forall t, retyped t (f t)) -> keeps (update_task slot f) any.
Proof.
  intros Hf k x k' Hk Hn H. unfold update_task in H. apply bind_inv in H as (o & k1 & [-> Ho]%get_task_Done & H).
  destruct o as [t|]; [|done]. apply set_task_Done in H. subst k'. split; [|done]. by eapply inv_insert.
Qed.
Lemma keeps_update_if slot f : (forall t, retyped t (f t)) -> keeps (update_if slot f) any.
Proof.
  intros Hf k x k' Hk Hn H. unfold update_if in H. apply bind_inv in H as (o & k1 & [-> Ho]%get_task_Done & H).
  destruct o as [t|]; [|unfold mret, km_ret in H; by done_inv]. apply set_task_Done in H. subst k'. split; [|done]. by eapply inv_insert.
Qed.
Lemma keeps_wake_slot slot : keeps (wake_slot slot) any.
Proof. apply keeps_update_if. apply retyped_wake. Qed.
Lemma keeps_on_tasks f : (forall ts, retypes ts (f ts)) -> keeps (on_tasks f) any.
Proof. intros Hf. apply keeps_sched. intros s Hs. split; [|done]. by apply sched_inv_tasks. Qed.

Lemma retyped_same t t' : pid t' = pid t -> ppid t' = ppid t -> fd_table t' = fd_table t -> cwd t' = cwd t -> retyped t t'.
Proof. intros. split; [done|]. split; [done|]. by apply task_ok_same. Qed.
Lemma retyped_fds t f : fds_ok f -> retyped t (with_fds f t).
Proof. intros Hf. split; [done|]. split; [done|]. intros [? ?]. by split. Qed.

Lemma keeps_with_parked l : length l = MAX_TASKS -> keeps (mod_sched (with_parked l)) any.
Proof.
  intros Hl. apply keeps_sched. intros s Hs. split; [|done]. destruct (si_bounds s Hs) as (? & ? & ? & ? & ? & ? & ?).
  by apply (sched_inv_retypes s).
Qed.
Lemma keeps_set_parked slot x : keeps (set_parked slot x) any.
Proof.
  unfold set_parked. apply (keeps_bind _ _ (fun l => length l = MAX_TASKS)).
  { apply keeps_gets. intros k [Hs _ _ _] _. by apply sh_parked, si_shape. }
  intros l Hl. apply (keeps_bind _ _ (fun l => length l = MAX_TASKS)).
  - apply keeps_lift. intros l' [-> _]%set_inv. by rewrite length_insert.
  - intros l' Hl'. by apply keeps_with_parked.
Qed.

Definition slots_ok (ws : list (option nat)) : Prop := length ws = MAX_PIPES /\ forall i q, ws !! i = Some (Some q) -> (q < MAX_TASKS)%nat.
Lemma keeps_get_waiters : keeps (gets (fun k => pipe_waiters (k_sched k))) slots_ok.
Proof. apply keeps_gets. intros k [Hs _ _ _] _. destruct (si_bounds _ Hs) as (? & ? & ? & ? & ? & ? & ?). done. Qed.
Lemma keeps_set_waiters ws i o : slots_ok ws -> (forall q, o = Some q -> (q < MAX_TASKS)%nat) -> keeps (lift (set ws i o)) slots_ok.
Proof.
  intros [Hl Hq] Ho. apply keeps_lift. intros l' [-> Hi]%set_inv. split; [by rewrite length_insert|]. intros j q Hj.
  destruct (decide (j = i)) as [->|]; [|rewrite list_lookup_insert_ne in Hj by done; by eapply Hq].
  rewrite list_lookup_insert_eq in Hj by done. apply Ho. by done_inv.
Qed.
Lemma keeps_with_waiters ws : slots_ok ws -> keeps (mod_sched (with_pipe_waiters ws)) any.
Proof.
  intros [Hl Hq]. apply keeps_sched. intros s Hs. split; [|done]. destruct (si_bounds s Hs) as (? & ? & ? & ? & ? & ? & ?).
  by apply (sched_inv_retypes s).
Qed.
Lemma keeps_with_tty o : (forall q, o = Some q -> (q < MAX_TASKS)%nat) -> keeps (mod_sched (with_tty_waiter o)) any.
Proof.
  intros Ho. apply keeps_sched. intros s Hs. split; [|done]. destruct (si_bounds s Hs) as (? & ? & ? & ? & ? & ? & ?).
  by apply (sched_inv_retypes s).
Qed.
Lemma keeps_with_ticks t : keeps (mod_sched (with_ticks t)) any.
Proof.
  apply keeps_sched. intros s Hs. split; [|done]. destruct (si_bounds s Hs) as (? & ? & ? & ? & ? & ? & ?).
  by apply (sched_inv_retypes s).
Qed.
Lemma keeps_lift_any {X} (m : outcome X) : keeps (lift m) any.
Proof. by apply keeps_lift. Qed.
Lemma keeps_gets_any {X} (f : kernel A -> X) : keeps (gets f) any.
Proof. by apply keeps_gets. Qed.
Lemma keeps_unwrap_task o : some_task_ok o -> keeps (lift (unwrap o)) (fun t => task_ok t /\ 0 <= pid t < N).
Proof. intros Ho. apply keeps_lift. intros t H. destruct o as [u|]; [|done]. cbn in H. done_inv. by apply Ho. Qed.
End triples.

Create HintDb keeps.
#[export] Hint Resolve keeps_cpu keeps_sys keeps_mem keeps_vm keeps_pool_query keeps_CURRENT keeps_get_task keeps_wake_slot
  keeps_set_parked keeps_get_waiters keeps_with_waiters keeps_with_ticks keeps_unwrap_task : keeps.
#[export] Hint Resolve keeps_lift_any keeps_gets_any | 100 : keeps.

(** One step of a triple along the program text. *)
Ltac kstep :=
  match goal with
  | |- keeps _ (mret _) _ => apply keeps_ret; try exact I
  | |- keeps _ panic _ => apply keeps_panic
  | |- keeps _ (if ?b then _ else _) _ => destruct b eqn:?
  | |- keeps _ (match ?x with _ => _ end) _ => destruct x eqn:?
  | |- keeps _ (let _ := _ in _) _ => cbv zeta
  | |- keeps _ (mbind _ _) _ =>
      first [ eapply keeps_bind; [solve [eauto with keeps] | intros ? ?; cbv beta in *]
            | apply (keeps_bind _ _ _ (fun _ => True)); [solve [repeat kstep] | intros ? _] ]
  | |- keeps _ (update_task _ _) _ => solve [apply keeps_update_task; intros; by apply retyped_same]
  | |- keeps _ (update_if _ _) _ => solve [apply keeps_update_if; intros; by apply retyped_same]
  | |- keeps _ _ (fun _ => True) => solve [eauto with keeps | eapply keeps_any; eauto with keeps]
  | |- keeps _ _ _ => solve [eauto with keeps]
  end.
Ltac ksolve := repeat kstep.

Section scheduler.
Context {A : Type} {ops : PageOps A} {vops : VmOps A} {arch : ArchOps A}.
Variable N : Z.
Local Abbreviation any := (fun _ => True).
Local Abbreviation kept m Q := (keeps (A := A) N m Q).
Implicit Types k : kernel A.

Lemma keeps_save_irqs : kept save_and_disable_interrupts any.
Proof. unfold save_and_disable_interrupts. ksolve. Qed.
Lemma keeps_restore_irqs b : kept (restore_interrupt_state b) any.
Proof. unfold restore_interrupt_state. ksolve. Qed.
Lemma keeps_write_fs_base v : kept (write_fs_base v) any.
Proof. unfold write_fs_base. ksolve. Qed.
Lemma keeps_read_fs_base : kept read_fs_base any.
Proof. unfold read_fs_base. ksolve. Qed.
Lemma keeps_entropy_seed : kept entropy_seed any.
Proof. unfold entropy_seed. ksolve. Qed.
Lemma keeps_check_canary slot : kept (check_canary slot) any.
Proof. unfold check_canary. ksolve. Qed.
#[local] Hint Resolve keeps_save_irqs keeps_restore_irqs keeps_write_fs_base keeps_read_fs_base keeps_check_canary : keeps.

Lemma keeps_resume slot : kept (resume slot) any.
Proof. unfold resume. ksolve. Qed.
#[local] Hint Resolve keeps_resume keeps_entropy_seed : keeps.

Lemma pick_next_in_use ts order n t0 : ts !! 0%nat = Some (Some t0) -> pick_next ts order = Done n -> exists t, ts !! n = Some (Some t).
Proof.
  intros H0. induction order as [|slot order IH]; cbn [pick_next]; intros H; [injection H as <-; eauto|].
  destruct (get ts slot) as [o|] eqn:E; [|done]. mred_in H. destruct (state_is Ready o) eqn:Er; [|by apply IH].
  injection H as <-. apply get_Done in E. destruct o as [t|]; [|done]. eauto.
Qed.

(** Naming a slot in use as the current one. *)
Lemma inv_with_cur k n : kernel_inv k -> (exists t, tasks (k_sched k) !! n = Some (Some t)) -> kernel_inv (put_sched (with_cur n (k_sched k)) k).
Proof.
  intros [Hs ? ? ?] Ht. split; try done. destruct (si_bounds _ Hs) as (? & ? & ? & ? & ? & ? & ?). by apply (sched_inv_retypes (k_sched k)).
Qed.

Lemma keeps_schedule_out : kept schedule_out any.
Proof.
  unfold schedule_out. eapply keeps_bind; [apply keeps_save_irqs|]. intros irqs_on _.
  eapply keeps_bind; [apply keeps_CURRENT|]. intros prev _. eapply keeps_bind; [apply keeps_check_canary|]. intros _ _.
  intros k x k' Hk Hn H. apply bind_inv in H as (ts & k1 & [-> ->]%gets_Done & H).
  apply bind_inv in H as (next & k1 & H1 & H). unfold lift in H1. destruct (pick_next _ _) as [n|] eqn:E; [|done]. injection H1 as -> ->.
  pose proof Hk as [[[_ _ _ _ _ [t0 H0]] _ _ _ _] _ _ _].
  destruct (next =? prev)%nat.
  { eapply (keeps_use _ _ any); [|exact Hk | exact Hn | exact H]. ksolve. }
  apply bind_inv in H as (u & k2 & H1 & H). unfold mod_sched, modify in H1. injection H1 as _ <-.
  eapply (inv_with_cur _ next) in Hk; [|by eapply pick_next_in_use].
  eapply (keeps_use _ _ any); [|exact Hk | exact Hn | exact H]. ksolve.
Qed.
#[local] Hint Resolve keeps_schedule_out : keeps.
Lemma keeps_schedule : kept schedule any.
Proof. unfold schedule. ksolve. Qed.
#[local] Hint Resolve keeps_schedule : keeps.

(** ** Signals and the timer *)

Lemma fd_close_all_ok f P f' P' : fds_ok f -> pool_wf P -> fd_close_all f P = Done (f', P') -> fds_ok f' /\ pool_wf P'.
Proof.
  intros [Hl Hf] Hwf H. destruct (close_all_loop MAX_FDS 0 f P Hwf Hl) as (P1 & Hc & Hr).
  unfold fd_close_all in H. rewrite H in Hc. injection Hc as -> ->. split; [|apply Hr].
  split; [done|]. repeat constructor.
Qed.
Lemma exit_ok t code P t' P' : task_ok t -> pool_wf P -> exit t code P = Done (t', P') -> retyped t t' /\ pool_wf P'.
Proof.
  intros [Hf Hc] Hwf H. unfold exit in H. destruct (fd_close_all (fd_table t) P) as [[f P1]|] eqn:E; [|done]. mred_in H. injection H as <- <-.
  apply fd_close_all_ok in E as [? ?]; [|done..]. split; [|done]. split; [done|]. split; [done|]. by constructor.
Qed.

Lemma take_any_retyped sigs : forall t, retyped t (snd (take_any t sigs)).
Proof.
  induction sigs as [|sig sigs IH]; intros t; cbn [take_any]; [done|]. pose proof (retyped_take t sig) as Ht.
  destruct (take_signal t sig) as [[|] t1]; [done|]. etransitivity; [exact Ht | apply IH].
Qed.
Lemma deliver_signals_ok ts P slot ts' P' : tasks_ok ts -> pool_wf P -> deliver_signals (ts, P) slot = Done (ts', P') ->
  retypes ts ts' /\ tasks_ok ts' /\ pool_wf P'.
Proof.
  intros Hok Hwf H. enough (retypes ts ts' /\ pool_wf P') as [Hr ?].
  { split; [done|]. split; [|done]. intros i t' Hi. destruct (retypes_back _ _ _ _ Hr Hi) as (t & Ht & _ & _ & Htk). apply Htk. by eapply Hok. }
  unfold deliver_signals in H. destruct (get ts slot) as [o|] eqn:E; [|done]. mred_in H. apply get_Done in E.
  destruct o as [t|]; [|by injection H as <- <-]. case_bool_decide; [by injection H as <- <-|].
  destruct (pending_signals t =? 0); [by injection H as <- <-|].
  pose proof (take_any_retyped LETHAL t) as Ha. destruct (take_any t LETHAL) as [[|] t1]; cbn [snd] in Ha.
  - destruct (exit t1 1 P) as [[t2 P2]|] eqn:Ex; [|done]. mred_in H. injection H as <- <-.
    apply exit_ok in Ex as [Hx ?]; [|apply Ha; by eapply Hok | done]. split; [|done].
    etransitivity; [|apply retypes_wake_child]. eapply retypes_insert; [exact E | by etransitivity].
  - pose proof (retyped_take t1 SIGCHLD) as Hc. destruct (take_signal t1 SIGCHLD) as [c t2]; cbn [snd] in Hc. injection H as <- <-.
    split; [|done]. eapply retypes_insert; [exact E|]. etransitivity; [exact Ha|]. etransitivity; [exact Hc|].
    destruct (c && _); [|done]. by apply retyped_same.
Qed.

Lemma keeps_deliver_all_signals : kept deliver_all_signals any.
Proof.
  intros k x k' [Hs Ht Hp Hf] Hn H. unfold deliver_all_signals in H.
  assert (forall slots ts P ts' P', tasks_ok ts -> pool_wf P -> foldM deliver_signals (ts, P) slots = Done (ts', P') -> retypes ts ts' /\ pool_wf P') as Hfold.
  { induction slots as [|slot slots IH]; intros ts P ts' P' Hok Hwf Hd; cbn [foldM] in Hd; [by injection Hd as <- <-|].
    destruct (deliver_signals (ts, P) slot) as [[ts1 P1]|] eqn:E; [|done]. mred_in Hd.
    apply deliver_signals_ok in E as (Hr & Hok1 & Hwf1); [|done..]. destruct (IH _ _ _ _ Hok1 Hwf1 Hd) as [Hr' ?].
    split; [by etransitivity | done]. }
  destruct (foldM _ _ _) as [[ts P]|] eqn:E; [|done]. injection H as _ <-.
  apply Hfold in E as [Hr Hwf]; [|apply Hs | done]. split; [|done]. split; try done. by apply sched_inv_tasks.
Qed.
#[local] Hint Resolve keeps_deliver_all_signals : keeps.
Lemma keeps_tick : kept tick any.
Proof. unfold tick. ksolve. Qed.
#[local] Hint Resolve keeps_tick : keeps.

(** ** Exit, wait, wake *)

Lemma keeps_wake_closed_pipe_reader i : kept (wake_closed_pipe_reader i) any.
Proof.
  unfold wake_closed_pipe_reader. eapply keeps_bind; [apply keeps_get_waiters|]. intros ws Hws.
  kstep. kstep; [|ksolve]. kstep. kstep. kstep; [ksolve|].
  eapply keeps_bind; [by apply keeps_set_waiters|]. intros ws' Hws'. ksolve.
Qed.
Lemma keeps_wake_closed_pipe_readers : kept wake_closed_pipe_readers any.
Proof. apply keeps_forM. apply keeps_wake_closed_pipe_reader. Qed.
Lemma keeps_wake_child e p : kept (on_tasks (wake_child_waiters e p)) any.
Proof. apply keeps_on_tasks. intros ts. apply retypes_wake_child. Qed.
Lemma keeps_signal_parent p sig : kept (on_tasks (signal_parent p sig)) any.
Proof. apply keeps_on_tasks. intros ts. apply retypes_signal_parent. Qed.
#[local] Hint Resolve keeps_wake_closed_pipe_readers keeps_wake_child keeps_signal_parent : keeps.

Lemma keeps_exit_task code : kept (exit_task code) any.
Proof.
  unfold exit_task. eapply keeps_bind; [apply keeps_CURRENT|]. intros c _ k x k' Hk Hn H.
  apply bind_inv in H as (o & k1 & [-> Ho]%get_task_Done & H). destruct o as [t|]; [|unfold mret, km_ret in H; by injection H as _ <-].
  apply bind_inv in H as (t' & k1 & H1 & H). unfold on_pool in H1. destruct (exit _ _ _) as [[t1 P1]|] eqn:E; [|done]. injection H1 as -> <-.
  pose proof Hk as [[_ _ _ Hok _] _ Hp _]. apply exit_ok in E as [Hr Hwf]; [|by eapply Hok | done].
  apply bind_inv in H as (u & k2 & ->%set_task_Done & H).
  eapply (keeps_use _ _ any); [| | |exact H]; [ksolve | | exact Hn].
  apply (inv_insert (put_pool P1 k) c t t'); [|done..]. by destruct Hk.
Qed.
#[local] Hint Resolve keeps_exit_task : keeps.
Lemma keeps_exit_current code : kept (exit_current code) any.
Proof. unfold exit_current. ksolve. Qed.

Lemma keeps_user_addr va : kept (user_addr va) any.
Proof. unfold user_addr. ksolve. Qed.
#[local] Hint Resolve keeps_user_addr : keeps.
Lemma keeps_user_read8 va : kept (user_read8 va) any.
Proof. unfold user_read8. ksolve. Qed.
Lemma keeps_user_write8 va b : kept (user_write8 va b) any.
Proof. unfold user_write8. ksolve. Qed.
#[local] Hint Resolve keeps_user_read8 keeps_user_write8 : keeps.
Lemma keeps_user_read n : forall va, kept (user_read va n) any.
Proof. induction n as [|n IH]; intros va; cbn [user_read]; ksolve. Qed.
Lemma keeps_user_write l : forall va, kept (user_write va l) any.
Proof. induction l as [|b l IH]; intros va; cbn [user_write]; ksolve. Qed.
#[local] Hint Resolve keeps_user_read keeps_user_write : keeps.
Lemma keeps_user_read_le va n : kept (user_read_le va n) any.
Proof. unfold user_read_le. ksolve. Qed.
Lemma keeps_user_write_le va n v : kept (user_write_le va n v) any.
Proof. unfold user_write_le. ksolve. Qed.
#[local] Hint Resolve keeps_user_read_le keeps_user_write_le : keeps.

(** Reaping a slot that is neither the idle nor the current one. *)
Lemma inv_reap k slot : kernel_inv k -> slot <> 0%nat -> slot <> cur (k_sched k) ->
  kernel_inv (put_sched (with_tasks (<[slot := None]> (tasks (k_sched k))) (k_sched k)) k).
Proof.
  intros [[[H1 H2 H3 H4 [tc Hc] [ti Hi]] [Hw1 Hw2] Ht Hok [Hr Hp Hu]] ? ? ?] H0 Hne. split; try done.
  assert (forall i t, <[slot := None]> (tasks (k_sched k)) !! i = Some (Some t) -> tasks (k_sched k) !! i = Some (Some t)) as Hsub.
  { intros i t. destruct (decide (i = slot)) as [->|]; [|by rewrite list_lookup_insert_ne].
    destruct (decide (slot < length (tasks (k_sched k)))%nat); [by rewrite list_lookup_insert_eq|].
    rewrite list_insert_ge by lia. done. }
  split.
  - split; cbn; rewrite ?length_insert; try done; [exists tc | exists ti]; by rewrite list_lookup_insert_ne.
  - split; cbn; rewrite ?length_insert; done.
  - done.
  - intros i t Hit%Hsub. by eapply Hok.
  - split; [intros i t Hit%Hsub; by eapply Hr | intros i t Hi0 Hit%Hsub; by eapply Hp | intros i j t u Hit%Hsub Hju%Hsub; by eapply Hu].
Qed.

(** The process id a call of waitpid looks for children of. *)
Definition current_pid_is (p : Z) k : Prop := exists t, tasks (k_sched k) !! cur (k_sched k) = Some (Some t) /\ pid t = p.

Lemma waitpid_round_keeps k cur_pid target status_out no_hang o k' : kernel_inv k -> next_pid (k_sched k) = N -> current_pid_is cur_pid k ->
  waitpid_round cur_pid target status_out no_hang k = Done (o, k') -> kernel_inv k' /\ next_pid (k_sched k') = N.
Proof.
  intros Hk Hn (tc & Hc & Hpid) H. unfold waitpid_round in H. apply bind_inv in H as (b & k1 & H1 & H).
  pose proof (keeps_save_irqs k b k1 Hk Hn H1) as (Hk1 & Hn1 & _).
  assert (k_sched k1 = k_sched k) as Es. { unfold save_and_disable_interrupts in H1. revert H1. kred. intros [= _ <-]. done. }
  apply bind_inv in H as (ts & k2 & [-> ->]%gets_Done & H).
  destruct (find_task _ 1 _) as [[slot t]|] eqn:E.
  - apply find_slot_Some in E as (Hs1 & Hst & Hz & _).
    apply bind_inv in H as (u & k2 & ->%set_task_Done & H).
    enough (slot <> cur (k_sched k1)) as Hne.
    { eapply (keeps_use _ _ any) in H as (? & ? & _); [done| | | exact Hn1]; [ksolve|]. apply inv_reap; [done | lia | done]. }
    intros ->. rewrite Es in Hst, Hs1. rewrite Hc in Hst. injection Hst as <-. unfold zombie_child in Hz.
    assert (ppid tc = cur_pid) as Hpp by (destruct (Z.eqb_spec (ppid tc) cur_pid); [done | by rewrite andb_false_r in Hz]).
    destruct Hk as [[_ _ _ _ [_ Hpar _]] _ _ _]. pose proof (Hpar (cur (k_sched k)) tc ltac:(lia) Hc). lia.
  - eapply (keeps_use _ _ any) in H as (? & ? & _); [done| | exact Hk1 | exact Hn1]. ksolve.
Qed.

Lemma keeps_has_input : kept has_input any.
Proof. unfold has_input. ksolve. Qed.
#[local] Hint Resolve keeps_has_input : keeps.
Lemma keeps_block_on_tty : kept block_on_tty any.
Proof.
  unfold block_on_tty. kstep. kstep. kstep; [|ksolve]. eapply keeps_bind; [apply keeps_CURRENT|]. intros c Hc.
  eapply keeps_bind; [apply keeps_with_tty; by intros q [= <-]|]. intros _ _. ksolve.
Qed.
Lemma keeps_wake_tty_waiter : kept wake_tty_waiter any.
Proof. unfold wake_tty_waiter. kstep. kstep; [|ksolve]. eapply keeps_bind; [by apply keeps_with_tty|]. intros _ _. ksolve. Qed.
Lemma keeps_block_on_pipe i : kept (block_on_pipe i) any.
Proof.
  unfold block_on_pipe. kstep. kstep. kstep. kstep. kstep; [|ksolve].
  eapply keeps_bind; [apply keeps_CURRENT|]. intros c Hc. eapply keeps_bind; [apply keeps_get_waiters|]. intros ws Hws.
  eapply keeps_bind; [apply keeps_set_waiters; [done | by intros q [= <-]]|]. intros ws' Hws'. ksolve.
Qed.
Lemma keeps_wake_pipe_waiter i : kept (wake_pipe_waiter i) any.
Proof.
  unfold wake_pipe_waiter. eapply keeps_bind; [apply keeps_get_waiters|]. intros ws Hws. kstep. kstep; [|ksolve].
  eapply keeps_bind; [by apply keeps_set_waiters|]. intros ws' Hws'. ksolve.
Qed.
Lemma keeps_sleep_round w : kept (sleep_round w) any.
Proof. unfold sleep_round. ksolve. Qed.

Lemma keeps_raise_signal_to_pid p sig : kept (raise_signal_to_pid p sig) any.
Proof.
  intros k x k' Hk Hn H. unfold raise_signal_to_pid in H. apply bind_inv in H as (ts & k1 & [-> ->]%gets_Done & H).
  destruct (find_task _ 0 _) as [[slot t]|] eqn:E; [|unfold mret, km_ret in H; by injection H as _ <-].
  apply find_task_Some in E as (_ & Hst & _). rewrite Nat.sub_0_r in Hst.
  apply bind_inv in H as (u & k1 & ->%set_task_Done & H). unfold mret, km_ret in H. injection H as _ <-.
  split; [|done]. eapply inv_insert; [done | exact Hst |]. etransitivity; [apply retyped_raise | apply retyped_wake].
Qed.
#[local] Hint Resolve keeps_exit_current keeps_block_on_tty keeps_wake_tty_waiter keeps_block_on_pipe keeps_wake_pipe_waiter
  keeps_sleep_round keeps_raise_signal_to_pid : keeps.

(** ** Descriptors *)

Lemma keeps_current_task : kept current_task (some_task_ok N).
Proof. unfold current_task. ksolve. Qed.
#[local] Hint Resolve keeps_current_task : keeps.
Lemma keeps_set_fds f : fds_ok f -> kept (set_fds f) any.
Proof. intros Hf. unfold set_fds. kstep. apply keeps_update_task. intros t. by apply retyped_fds. Qed.

Lemma fds_insert f i e : fds_ok f -> entry_ok e -> fds_ok (<[i := e]> f).
Proof. intros [Hl Hf] He. split; [by rewrite length_insert | by apply Forall_insert]. Qed.
Lemma fds_set f i e f' : fds_ok f -> entry_ok e -> set f i e = Done f' -> fds_ok f'.
Proof. intros Hf He [-> _]%set_inv. by apply fds_insert. Qed.
Lemma fds_get f i e : fds_ok f -> get f i = Done e -> entry_ok e.
Proof. intros [_ Hf] He%get_Done. by eapply Forall_lookup_1. Qed.
Definition some_entry_ok (o : option FdEntry) : Prop := match o with Some e => entry_ok e | None => True end.
Lemma fd_get_ok f fd o : fds_ok f -> fd_get f fd = Done o -> some_entry_ok o.
Proof.
  intros Hf H. destruct o as [e|]; [|done]. unfold fd_get in H. destruct (_ <=? _)%nat; [done|]. destruct (get f fd) as [x|] eqn:E; [|done]. mred_in H.
  apply (fds_get _ _ _ Hf) in E. destruct x; simplify_eq; exact E.
Qed.
Lemma fd_alloc_ok f e r f' : fds_ok f -> entry_ok e -> fd_alloc f e = Done (r, f') -> fds_ok f'.
Proof.
  intros Hf He. unfold fd_alloc. generalize (seq 3 (MAX_FDS - 3)). induction l as [|i l IH]; cbn [fd_alloc_loop]; intros H; [by injection H as _ <-|].
  destruct (get f i) as [x|] eqn:E; [|done]. mred_in H. destruct x; try by apply IH.
  destruct (set f i e) as [f1|] eqn:Es; [|done]. mred_in H. injection H as _ <-. by eapply fds_set.
Qed.
Lemma fd_close_ok f fd r f' : fds_ok f -> fd_close f fd = Done (r, f') -> fds_ok f' /\ some_entry_ok r.
Proof.
  intros Hf. unfold fd_close. destruct (_ <=? _)%nat; intros H; [by injection H as <- <-|].
  destruct (get f fd) as [x|] eqn:E; [|done]. mred_in H. apply (fds_get _ _ _ Hf) in E.
  destruct x; try (injection H as <- <-; split; done);
    (destruct (set f fd FdEmpty) as [f1|] eqn:Es; [|done]; mred_in H; injection H as <- <-; split; [apply (fds_set f fd FdEmpty); [exact Hf | exact I | exact Es] | exact E]).
Qed.
Lemma release_entry_wf e P P' : pool_wf P -> release_entry e P = Done P' -> pool_wf P'.
Proof. intros Hwf H. destruct (release_entry_ok e P Hwf) as (P1 & H1 & Hr). rewrite H in H1. injection H1 as <-. apply Hr. Qed.
Lemma fd_alloc_at_ok f fd e P r f' P' : fds_ok f -> entry_ok e -> pool_wf P -> fd_alloc_at f fd e P = Done (r, f', P') -> pool_wf P' /\ fds_ok f'.
Proof.
  intros Hf He Hwf. unfold fd_alloc_at. destruct (_ <=? _)%nat; intros H; [by injection H as _ <- <-|].
  destruct (get f fd) as [x|] eqn:E; [|done]. mred_in H. destruct (release_entry x P) as [P1|] eqn:Er; [|done]. mred_in H.
  destruct (set f fd e) as [f1|] eqn:Es; [|done]. mred_in H. injection H as _ <- <-.
  split; [by eapply release_entry_wf | by eapply fds_set].
Qed.

Lemma keeps_current_fd_get fd : kept (current_fd_get fd) some_entry_ok.
Proof.
  unfold current_fd_get. eapply keeps_bind; [apply keeps_current_task|]. intros [t|] Ht; [|by apply keeps_ret].
  apply keeps_lift. intros o Ho. eapply fd_get_ok; [|exact Ho]. by apply (Ht t eq_refl).
Qed.
Lemma keeps_current_fd_alloc e : entry_ok e -> kept (current_fd_alloc e) any.
Proof.
  intros He. unfold current_fd_alloc. eapply keeps_bind; [apply keeps_current_task|]. intros [t|] Ht; [|ksolve].
  apply (keeps_bind _ _ _ (fun p => fds_ok (snd p))); [|intros [r f] Hf; eapply keeps_bind; [by apply keeps_set_fds|]; intros _ _; ksolve].
  apply keeps_lift. intros [r f] Hr. eapply fd_alloc_ok; [| exact He | exact Hr]. by apply (Ht t eq_refl).
Qed.
Lemma keeps_current_fd_close fd : kept (current_fd_close fd) some_entry_ok.
Proof.
  unfold current_fd_close. eapply keeps_bind; [apply keeps_current_task|]. intros [t|] Ht; [|by apply keeps_ret].
  apply (keeps_bind _ _ _ (fun p => fds_ok (snd p) /\ some_entry_ok (fst p))).
  - apply keeps_lift. intros [r f] Hr. eapply fd_close_ok; [|exact Hr]. by apply (Ht t eq_refl).
  - intros [r f] [Hf Hr]. eapply keeps_bind; [by apply keeps_set_fds|]. intros _ _. by apply keeps_ret.
Qed.
Lemma keeps_current_fd_dup fd : kept (current_fd_dup fd) any.
Proof.
  unfold current_fd_dup. eapply keeps_bind; [apply keeps_current_task|]. intros [t|] Ht; [|ksolve].
  destruct (Ht t eq_refl) as [[Hfds _] _]. eapply keeps_bind; [apply keeps_lift; by intros o; apply fd_get_ok|]. intros [e|] He; [|ksolve].
  apply (keeps_bind _ _ _ (fun p => fds_ok (snd p))); [|intros [r f] Hf; eapply keeps_bind; [by apply keeps_set_fds|]; intros _ _; ksolve].
  apply keeps_lift. intros [r f] Hr. eapply fd_alloc_ok; [exact Hfds | exact He | exact Hr].
Qed.
Lemma keeps_current_fd_dup2 oldfd newfd : kept (current_fd_dup2 oldfd newfd) any.
Proof.
  unfold current_fd_dup2. eapply keeps_bind; [apply keeps_current_task|]. intros [t|] Ht; [|ksolve].
  destruct (Ht t eq_refl) as [[Hfds _] _]. eapply keeps_bind; [apply keeps_lift; by intros o; apply fd_get_ok|]. intros [e|] He; [|ksolve].
  apply (keeps_bind _ _ _ (fun p => fds_ok (snd p))); [|intros [r f] Hf; eapply keeps_bind; [by apply keeps_set_fds|]; intros _ _; ksolve].
  apply keeps_pool. intros P [r f] P' Hwf H. destruct (fd_alloc_at _ _ _ _) as [[[r1 f1] P1]|] eqn:E; [|done]. mred_in H.
  injection H as <- <- <-. eapply fd_alloc_at_ok; [exact Hfds | exact He | exact Hwf | exact E].
Qed.
Lemma keeps_current_fd_set_offset fd off : 0 <= off < 2 ^ 64 -> kept (current_fd_set_offset fd off) any.
Proof.
  intros Hoff. unfold current_fd_set_offset. kstep. apply keeps_update_if. intros t. split; [done|]. split; [done|]. intros [Hf Hc]. constructor; [|exact Hc].
  cbn [fd_table with_fds]. unfold fd_set_offset. destruct (fd_table t !! fd) as [[]|] eqn:E; try exact Hf.
  apply fds_insert; [exact Hf|]. destruct Hf as [_ Hf]. eapply (Forall_lookup_1 _ _ _ _ Hf) in E. split; [apply E | exact Hoff].
Qed.
Lemma keeps_current_fd_set_offset_uadd fd a b : kept (current_fd_set_offset fd (uadd a b)) any.
Proof. apply keeps_current_fd_set_offset. apply wrap_range. lia. Qed.
Lemma keeps_current_fd_set_offset_u64 fd a : kept (current_fd_set_offset fd (as_u64 a)) any.
Proof. apply keeps_current_fd_set_offset. apply wrap_range. lia. Qed.
Lemma keeps_current_fd_set_dir_pos fd pos : kept (current_fd_set_dir_pos fd pos) any.
Proof.
  unfold current_fd_set_dir_pos. kstep. apply keeps_update_if. intros t. split; [done|]. split; [done|]. intros [Hf Hc]. constructor; [|exact Hc].
  cbn [fd_table with_fds]. unfold fd_set_dir_pos. destruct (fd_table t !! fd) as [[]|] eqn:E; try exact Hf.
  apply fds_insert; [exact Hf|]. destruct Hf as [_ Hf]. by eapply (Forall_lookup_1 _ _ _ _ Hf) in E.
Qed.
Lemma keeps_set_cwd i : (i < MAX_INODES)%nat -> kept (set_cwd i) any.
Proof.
  intros Hi. unfold set_cwd. kstep. apply keeps_update_if. intros t. split; [done|]. split; [done|]. intros [Hf Hc]. by constructor.
Qed.
Lemma keeps_set_heap_brk a : kept (set_heap_brk a) any.
Proof. unfold set_heap_brk. ksolve. Qed.
Lemma keeps_set_fs_base v : kept (set_fs_base v) any.
Proof. unfold set_fs_base. ksolve. Qed.
Lemma keeps_field_any {X} (f : Task -> X) d : kept (current_field f d) any.
Proof. by apply keeps_current_field. Qed.
Lemma keeps_current_cwd : kept current_cwd (fun c => (c < MAX_INODES)%nat).
Proof. apply keeps_current_field; [intros t [_ H] _; exact H | unfold MAX_INODES; lia]. Qed.
Lemma keeps_current_pid : kept current_pid (fun p => 0 <= p < N).
Proof.
  intros k p k' Hk Hn H. apply current_field_Done in H as (-> & o & Ho & ->). split; [done|]. split; [done|].
  destruct Hk as [[[_ _ _ _ [t Hc] _] _ _ _ [Hr _ _]] _ _ _]. rewrite Hc in Ho. injection Ho as <-. rewrite <- Hn. by eapply Hr.
Qed.
#[local] Hint Resolve keeps_current_fd_get keeps_current_fd_close keeps_current_fd_dup keeps_current_fd_dup2 keeps_current_fd_set_offset_uadd keeps_current_fd_set_offset_u64
  keeps_current_fd_set_dir_pos keeps_set_heap_brk keeps_set_fs_base keeps_current_cwd keeps_current_pid : keeps.
#[local] Hint Resolve keeps_field_any | 50 : keeps.

(** ** Creating tasks *)

Lemma keeps_k_alloc_pages n : kept (k_alloc_pages n) any.
Proof. apply keeps_vm. Qed.
#[local] Hint Resolve keeps_k_alloc_pages : keeps.
Lemma keeps_new_kernel_stack : kept new_kernel_stack any.
Proof. unfold new_kernel_stack. ksolve. Qed.
Lemma keeps_k_init_stack f : kept (k_init_stack f) any.
Proof. apply keeps_vm. Qed.
Lemma keeps_map_stack_pages pt va phys idxs : kept (map_stack_pages pt va phys idxs) any.
Proof. induction idxs as [|i idxs IH]; cbn [map_stack_pages]; ksolve. Qed.
#[local] Hint Resolve keeps_new_kernel_stack keeps_k_init_stack keeps_map_stack_pages : keeps.
Lemma keeps_map_user_init_stack pt top : kept (map_user_init_stack pt top) any.
Proof. unfold map_user_init_stack. ksolve. Qed.
Lemma keeps_k_setup_abi_stack a b c d e f g h i : kept (k_setup_abi_stack a b c d e f g h i) any.
Proof. unfold k_setup_abi_stack. ksolve. Qed.
#[local] Hint Resolve keeps_map_user_init_stack keeps_k_setup_abi_stack : keeps.

(** A new task in a slot from 1 on, under the next process id. *)
Lemma inv_install k i guard t : kernel_inv k -> next_pid (k_sched k) = N -> N < 2 ^ 64 - 1 -> (1 <= i < MAX_TASKS)%nat ->
  pid t = N -> 0 <= ppid t < N -> task_ok t ->
  kernel_inv (put_sched (mk_sched (<[i := Some t]> (tasks (k_sched k))) (<[i := guard]> (guard_phys (k_sched k))) (cur (k_sched k))
    (tick_count (k_sched k)) (tty_waiter (k_sched k)) (pipe_waiters (k_sched k)) (uadd N 1) (<[i := None]> (parked (k_sched k)))) k).
Proof.
  intros [[[H1 H2 H3 H4 [tc Hc] [ti Hi]] [Hw1 Hw2] Ht Hok [Hr Hp Hu]] ? ? ?] Hn HN Hi0 Hpid Hppid Htk. split; try done.
  assert (uadd N 1 = N + 1) as EN by (unfold uadd; apply wrap_small; lia).
  assert (forall j u, <[i := Some t]> (tasks (k_sched k)) !! j = Some (Some u) ->
    (j = i /\ u = t) \/ (j <> i /\ tasks (k_sched k) !! j = Some (Some u))) as Hsub.
  { intros j u. destruct (decide (j = i)) as [->|]; [|rewrite list_lookup_insert_ne by done; tauto].
    rewrite list_lookup_insert_eq by lia. intros [= ->]. by left. }
  split.
  - split; cbn [tasks guard_phys parked pipe_waiters cur put_sched k_sched]; rewrite ?length_insert; try done.
    + destruct (decide (cur (k_sched k) = i)) as [->|]; [exists t; apply list_lookup_insert_eq; lia | exists tc; by rewrite list_lookup_insert_ne].
    + exists ti. rewrite list_lookup_insert_ne by lia. done.
  - split; cbn [tasks pipe_waiters put_sched k_sched]; rewrite ?length_insert; done.
  - done.
  - intros j u [[_ ->]|[_ Hj]]%Hsub; [done | by eapply Hok].
  - cbn [next_pid tasks put_sched k_sched]. rewrite EN. split.
    + intros j u [[_ ->]|[_ Hj]]%Hsub; [lia|]. specialize (Hr _ _ Hj). lia.
    + intros j u Hj0 [[_ ->]|[_ Hj]]%Hsub; [lia | by eapply Hp].
    + intros a b u v [[-> ->]|[Ha Hja]]%Hsub [[-> ->]|[Hb Hjb]]%Hsub E; [done | | | by eapply Hu].
      * specialize (Hr _ _ Hjb). lia.
      * specialize (Hr _ _ Hja). lia.
Qed.

Lemma spawns_install (make : Z -> Task * Z) (g : Task -> Task) (mid : Task -> KM A unit) i guard :
  (1 <= i < MAX_TASKS)%nat -> (forall n, snd (make n) = uadd n 1 /\ pid (g (fst (make n))) = n /\ task_ok (g (fst (make n))) /\ (n = N -> 0 <= ppid (g (fst (make n))) < n)) ->
  (forall t k u k', mid t k = Done (u, k') -> kernel_inv k -> k_sched k' = k_sched k /\ kernel_inv k') ->
  spawns N (task ← k_new_task make; mid task;; install i guard (g task)).
Proof.
  intros Hi Hmake Hmid k x k' Hk Hn HN H. apply bind_inv in H as (task & k1 & H1 & H).
  unfold k_new_task in H1. apply bind_inv in H1 as (n & k0 & [-> ->]%gets_Done & H1). rewrite Hn in H1.
  destruct (Hmake N) as (Hs & Hp & Htk & Hpp). destruct (make N) as [t0 n0]; cbn [fst snd] in *. subst n0.
  revert H1. kred. intros [= <- <-].
  apply bind_inv in H as (u & k2 & H2 & H). apply install_Done in H as [_ ->].
  (* [mid] sees a state whose next id has grown; the tasks have not. *)
  assert (kernel_inv (put_sched (with_next_pid (uadd N 1) (k_sched k)) k)) as Hk1.
  { pose proof Hk as [[[? ? ? ? ? ?] [? ?] ? ? [Hr Hpar Hu]] ? ? ?]. split; try done. split; [by split | by split | done | done |].
    cbn [next_pid tasks with_next_pid put_sched k_sched]. pose proof (Hpp eq_refl). unfold uadd. rewrite wrap_small by lia.
    split; [|exact Hpar | exact Hu]. intros j u' Hj. specialize (Hr _ _ Hj). lia. }
  destruct (Hmid _ _ _ _ H2 Hk1) as [Es [_ Ht2 Hp2 Hf2]]. rewrite Es. cbn [tasks guard_phys cur tick_count tty_waiter pipe_waiters next_pid parked with_next_pid put_sched k_sched].
  pose proof (inv_install k i guard (g t0) Hk Hn HN Hi Hp (Hpp eq_refl) Htk) as [Hs' _ _ _]. pose proof (Hpp eq_refl).
  split; [by split|]. right. cbn [next_pid put_sched k_sched]. unfold uadd. apply wrap_small. lia.
Qed.

Lemma vacant_slot_range k i : kernel_inv k -> vacant_slot (tasks (k_sched k)) = Some i -> (1 <= i < MAX_TASKS)%nat.
Proof.
  intros [[Hsh _ _ _ _] _ _ _] (H1 & (o & Ho & _) & _)%vacant_slot_Some. split; [done|]. rewrite <- (sh_tasks _ Hsh). by eapply lookup_lt_Some.
Qed.
Lemma keeps_vacant_slot : kept (gets (fun k => vacant_slot (tasks (k_sched k)))) (fun o => forall i, o = Some i -> (1 <= i < MAX_TASKS)%nat).
Proof. apply keeps_gets. intros k Hk _ i. by apply vacant_slot_range. Qed.

Lemma foldM_dup_wf f P P' : pool_wf P -> foldM dup_entry P f = Done P' -> pool_wf P'.
Proof.
  intros Hwf H. destruct (dup_table_acquired f P Hwf) as (P1 & H1 & Ha). rewrite H in H1. injection H1 as <-. apply Ha.
Qed.

Lemma FdTable_new_ok : fds_ok FdTable_new.
Proof. split; [done|]. repeat constructor. Qed.

(** One step of [spawns] along the program text. *)
Local Ltac sstep :=
  match goal with
  | |- spawns _ (mbind _ _) => eapply spawns_bind; [solve [eauto with keeps]|intros ? ?; cbv beta in *]
  | |- spawns _ (match ?x with _ => _ end) => destruct x eqn:?
  | |- spawns _ (mret None) => apply (spawns_keeps _ _ any); by apply keeps_ret
  end.

Lemma spawn_fork_spawns ip sp regs saved : spawns (A := A) N (spawn_fork ip sp regs saved).
Proof.
  unfold spawn_fork. eapply spawns_bind; [apply keeps_current_pid|]. intros parent_pid Hpp. cbv beta in Hpp.
  do 3 sstep. eapply spawns_bind; [apply keeps_get_task|]. intros [parent|] Hparent; [|sstep].
  destruct (Hparent parent eq_refl) as [[Hfds _] _].
  sstep. sstep. sstep; [|sstep]. sstep. sstep. sstep; [|sstep]. sstep.
  eapply spawns_bind; [apply keeps_current_cwd|]. intros parent_cwd Hcwd. cbv beta in Hcwd.
  eapply spawns_bind; [apply keeps_vacant_slot|]. intros [i|] Hi; [|sstep]. specialize (Hi i eq_refl).
  apply (spawns_install _ (fun task => with_fs_base _ (with_cwd parent_cwd (with_fds (fd_table parent) (with_heap_brk _ task))))
    (fun task => on_pool' (fun P => foldM dup_entry P (fd_table (with_fs_base _ (with_cwd parent_cwd (with_fds (fd_table parent) (with_heap_brk _ task))))))));
    [exact Hi | |].
  - intros n. split; [done|]. split; [done|]. split; [by constructor | intros ->; exact Hpp].
  - intros t k u k' Hm Hk. unfold on_pool', on_pool in Hm. cbn [fd_table with_fs_base with_cwd with_fds] in Hm.
    destruct (foldM _ _ _) as [P1|] eqn:E; [|done]. mred_in Hm. injection Hm as _ <-.
    split; [done|]. destruct Hk as [? ? Hp ?]. split; try done. by eapply foldM_dup_wf.
Qed.

(** Tasks made by the kernel itself, at boot and for the shell. *)
Lemma install_new (make : Z -> Task * Z) (g : Task -> Task) i guard (p : Z) : (1 <= i < MAX_TASKS)%nat -> 0 <= p < N ->
  (forall n, snd (make n) = uadd n 1 /\ pid (g (fst (make n))) = n /\ ppid (g (fst (make n))) = p /\ fd_table (g (fst (make n))) = FdTable_new /\ cwd (g (fst (make n))) = 0%nat) ->
  spawns (A := A) N (task ← k_new_task make; install i guard (g task)).
Proof.
  intros Hi Hp Hmake.
  enough (spawns (A := A) N (task ← k_new_task make; (fun _ => mret tt) task;; install i guard (g task))) as H by exact H.
  apply spawns_install; [done | |].
  - intros n. destruct (Hmake n) as (H1 & H2 & H3 & H4 & H5). split; [done|]. split; [done|]. split.
    + constructor; [rewrite H4; apply FdTable_new_ok | rewrite H5; unfold MAX_INODES; lia].
    + intros ->. by rewrite H3.
  - intros t k u k' H Hk. unfold mret, km_ret in H. injection H as _ <-. done.
Qed.
Lemma spawn_fn_spawns entry : spawns (A := A) N (spawn_fn entry).
Proof.
  unfold spawn_fn. eapply spawns_bind; [apply keeps_current_pid|]. intros parent_pid Hpp. cbv beta in Hpp.
  eapply spawns_bind; [apply keeps_vacant_slot|]. intros [i|] Hi; [|sstep]. specialize (Hi i eq_refl).
  sstep. sstep; [|sstep]. sstep. sstep. by apply (install_new _ (fun t => t) _ _ parent_pid).
Qed.
Lemma spawn_elf_spawns dat argv0 : spawns (A := A) N (spawn_elf dat argv0).
Proof.
  unfold spawn_elf. eapply spawns_bind; [apply keeps_current_pid|]. intros parent_pid Hpp. cbv beta in Hpp.
  sstep. sstep; [|sstep]. sstep. sstep. sstep; [|sstep]. sstep. sstep; [|sstep]. do 4 sstep. sstep.
  sstep; [|sstep]. sstep. sstep; [|sstep]. sstep.
  eapply spawns_bind; [apply keeps_vacant_slot|]. intros [i|] Hi; [|sstep]. specialize (Hi i eq_refl).
  by apply (install_new _ (fun task => with_heap_brk _ (with_context (mk_ctx (ctx_regs (context task)) _ _ (ctx_flags (context task))) task)) _ _ parent_pid).
Qed.

(** ** Replacing the image *)

Lemma keeps_user_cstr_loop n : forall va acc, kept (user_cstr_loop va n acc) any.
Proof. induction n as [|n IH]; intros va acc; cbn [user_cstr_loop]; ksolve. Qed.
#[local] Hint Resolve keeps_user_cstr_loop : keeps.
Lemma keeps_user_cstr p n : kept (user_cstr p n) any.
Proof. unfold user_cstr. ksolve. Qed.
#[local] Hint Resolve keeps_user_cstr : keeps.
Lemma keeps_user_cstr_array_loop n : forall p, kept (user_cstr_array_loop p n) any.
Proof. induction n as [|n IH]; intros p; cbn [user_cstr_array_loop]; ksolve. Qed.
#[local] Hint Resolve keeps_user_cstr_array_loop : keeps.
Lemma keeps_user_cstr_array p n : kept (user_cstr_array p n) any.
Proof. unfold user_cstr_array. ksolve. Qed.
#[local] Hint Resolve keeps_user_cstr_array : keeps.

Lemma keeps_execve_current dat argv0 argv envp : kept (execve_current dat argv0 argv envp) any.
Proof.
  unfold execve_current. do 4 kstep; [|ksolve]. kstep. kstep; [|ksolve]. do 4 kstep. kstep. kstep; [|ksolve]. kstep. kstep; [|ksolve].
  eapply keeps_bind; [apply keeps_CURRENT|]. intros c _ ki xi ko Hk Hn Hm.
  apply bind_inv in Hm as (o & k1 & [-> Ho]%get_task_Done & Hm). destruct o as [t|]; [|unfold mret, km_ret in Hm; by injection Hm as _ <-].
  apply bind_inv in Hm as (u & k1 & ->%set_task_Done & Hm).
  eapply (keeps_use _ _ any); [| | |exact Hm]; [ksolve | | exact Hn]. eapply inv_insert; [done | exact Ho | by apply retyped_same].
Qed.

Lemma keeps_map_zero_pages pt prot n : forall va, kept (map_zero_pages pt prot va n) any.
Proof. induction n as [|n IH]; intros va; cbn [map_zero_pages]; ksolve. Qed.
Lemma keeps_handle_user_page_fault va : kept (handle_user_page_fault va) any.
Proof. unfold handle_user_page_fault. ksolve. Qed.
#[local] Hint Resolve keeps_user_cstr_array keeps_execve_current keeps_map_zero_pages keeps_handle_user_page_fault : keeps.

(** ** Drivers and console *)

Lemma rb_push_wf rb b r rb' : rb_wf INPUT_LEN rb -> rb_push INPUT_LEN rb b = Done (r, rb') -> rb_wf INPUT_LEN rb'.
Proof.
  intros Hwf H. pose proof (fifo_step_refines (push := rb_push INPUT_LEN) (pop := rb_pop INPUT_LEN) rb (OpPush b) Hwf) as (q & Hq & Hw & _).
  cbn [fifo_step] in Hq. rewrite H in Hq. mred_in Hq. by injection Hq as _ <-.
Qed.
Lemma rb_pop_wf rb r rb' : rb_wf INPUT_LEN rb -> rb_pop INPUT_LEN rb = Done (r, rb') -> rb_wf INPUT_LEN rb'.
Proof.
  intros Hwf H. pose proof (fifo_step_refines (push := rb_push INPUT_LEN) (pop := rb_pop INPUT_LEN) rb OpPop Hwf) as (q & Hq & Hw & _).
  cbn [fifo_step] in Hq. rewrite H in Hq. mred_in Hq. by injection Hq as _ <-.
Qed.

(** Reading a part of the terminal state, a pure step on it, and storing the result. *)
Lemma keeps_tty_field {X Y} (f : tty -> X) (op : X -> outcome (Y * X)) (store : X -> tty -> tty) (wf : X -> Prop) :
  (forall t, tty_inv t -> wf (f t)) -> (forall x y x', wf x -> op x = Done (y, x') -> wf x') ->
  (forall x t, wf x -> tty_inv t -> tty_inv (store x t)) ->
  kept (x ← gets (fun k => f (k_tty k)); '(y, x) ← lift (op x); mod_tty (store x);; mret y) any.
Proof.
  intros Hf Hop Hst. apply (keeps_bind _ _ _ wf); [apply keeps_gets; intros k Hk _; apply Hf, Hk|]. intros x Hx.
  apply (keeps_bind _ _ _ (fun p => wf (snd p))); [apply keeps_lift; intros [y x'] H; by eapply Hop|]. intros [y x'] Hx'.
  eapply keeps_bind; [apply keeps_tty; intros t; by apply Hst|]. intros _ _. by apply keeps_ret.
Qed.
Lemma keeps_tty_field' {X Y} (f : tty -> X) (op : X -> outcome (Y * X)) (store : X -> tty -> tty) (wf : X -> Prop) (rest : KM A unit) :
  (forall t, tty_inv t -> wf (f t)) -> (forall x y x', wf x -> op x = Done (y, x') -> wf x') ->
  (forall x t, wf x -> tty_inv t -> tty_inv (store x t)) -> kept rest any ->
  kept (x ← gets (fun k => f (k_tty k)); '(y, x) ← lift (op x); mod_tty (store x);; rest) any.
Proof.
  intros Hf Hop Hst Hr. apply (keeps_bind _ _ _ wf); [apply keeps_gets; intros k Hk _; apply Hf, Hk|]. intros x Hx.
  apply (keeps_bind _ _ _ (fun p => wf (snd p))); [apply keeps_lift; intros [y x'] H; by eapply Hop|]. intros [y x'] Hx'.
  eapply keeps_bind; [apply keeps_tty; intros t; by apply Hst|]. done.
Qed.
Lemma tty_serial x t : rb_wf INPUT_LEN x -> tty_inv t -> tty_inv (with_serial_in x t).
Proof. intros ? [? ? ?]. by split. Qed.
Lemma tty_kbd x t : rb_wf INPUT_LEN x -> tty_inv t -> tty_inv (with_kbd_in x t).
Proof. intros ? [? ? ?]. by split. Qed.
Lemma tty_sent l t : tty_inv t -> tty_inv (sent l t).
Proof. intros [? ? ?]. by split. Qed.

Lemma keeps_read_byte : kept read_byte any.
Proof. apply (keeps_tty_field serial_in (rb_pop INPUT_LEN) _ (rb_wf INPUT_LEN)); [by intros t [] | apply rb_pop_wf | apply tty_serial]. Qed.
Lemma keeps_read_scancode : kept read_scancode any.
Proof. apply (keeps_tty_field kbd_in (rb_pop INPUT_LEN) _ (rb_wf INPUT_LEN)); [by intros t [] | apply rb_pop_wf | apply tty_kbd]. Qed.
Lemma keeps_serial_push b : kept (serial_push b) any.
Proof.
  unfold serial_push. apply (keeps_bind _ _ _ (rb_wf INPUT_LEN)); [apply keeps_gets; intros k Hk _; apply Hk|]. intros x Hx.
  apply (keeps_bind _ _ _ (fun p => rb_wf INPUT_LEN (snd p))); [apply keeps_lift; intros [y x'] H; by eapply rb_push_wf|]. intros [y x'] Hx'.
  apply keeps_tty. intros t. by apply tty_serial.
Qed.
Lemma keeps_serial_handle_irq rx : kept (serial_handle_irq rx) any.
Proof. unfold serial_handle_irq. eapply keeps_bind; [apply keeps_forM, keeps_serial_push|]. intros _ _. ksolve. Qed.
Lemma keeps_keyboard_handle_irq st sc : kept (keyboard_handle_irq st sc) any.
Proof.
  unfold keyboard_handle_irq. destruct (try_read st sc) as [c|]; [|ksolve].
  apply (keeps_tty_field' kbd_in (fun r => rb_push INPUT_LEN r c) _ (rb_wf INPUT_LEN)); [by intros t [] | intros x y x'; apply rb_push_wf | apply tty_kbd | ksolve].
Qed.
Lemma keeps_write_byte b : kept (write_byte b) any.
Proof. apply keeps_tty. apply tty_sent. Qed.
#[local] Hint Resolve keeps_read_byte keeps_read_scancode keeps_serial_handle_irq keeps_keyboard_handle_irq keeps_write_byte : keeps.
Lemma keeps_print_bytes l : kept (print_bytes l) any.
Proof. apply keeps_forM. intros b. ksolve. Qed.
Lemma keeps_eoi irq : kept (eoi irq) any.
Proof. apply keeps_tty. intros t [? ? ?]. by split. Qed.

Lemma print_byte_ok b s s' : screen_ok s -> print_byte b s = Done s' -> screen_ok s'.
Proof. intros Hs H. destruct (print_byte_exact b s Hs) as (E & Hok & _). rewrite E in H. by injection H as <-. Qed.
Lemma keeps_console_print_byte b : kept (console_print_byte b) any.
Proof.
  unfold console_print_byte. eapply keeps_bind; [apply keeps_tty, tty_sent|]. intros _ _.
  apply (keeps_bind _ _ _ screen_ok); [apply keeps_gets; intros k Hk _; apply Hk|]. intros s Hs.
  apply (keeps_bind _ _ _ screen_ok); [apply keeps_lift; intros s'; by apply print_byte_ok|]. intros s' Hs'.
  apply keeps_tty. intros t [? ? ?]. by split.
Qed.
Lemma keeps_console_print_str l : kept (console_print_str l) any.
Proof. apply keeps_forM. apply keeps_console_print_byte. Qed.
#[local] Hint Resolve keeps_print_bytes keeps_eoi keeps_console_print_str : keeps.
Lemma keeps_console_print_hex v : kept (console_print_hex v) any.
Proof. unfold console_print_hex. ksolve. Qed.
#[local] Hint Resolve keeps_console_print_hex : keeps.
Lemma keeps_dump l : kept (dump l) any.
Proof. apply keeps_forM. intros [s v]. ksolve. Qed.
Lemma keeps_dump_words s p : kept (dump_words s p) any.
Proof. apply keeps_forM. intros i. ksolve. Qed.
#[local] Hint Resolve keeps_dump keeps_dump_words : keeps.

(** ** Interrupts and faults *)

Lemma keeps_halt_exception m : kept (halt_exception m) any.
Proof. unfold halt_exception. ksolve. Qed.
Lemma keeps_timer_irq : kept timer_irq any.
Proof. unfold timer_irq. ksolve. Qed.
Lemma keeps_finish_irq h : kept (finish_irq h) any.
Proof. unfold finish_irq. ksolve. Qed.
#[local] Hint Resolve keeps_halt_exception keeps_timer_irq : keeps.
Lemma keeps_common_dispatch v rx st sc : kept (common_dispatch v rx st sc) any.
Proof. unfold common_dispatch. ksolve. Qed.
Lemma keeps_pagefault va err rip gprs : kept (pagefault_handler_x86 va err rip gprs) any.
Proof. unfold pagefault_handler_x86. ksolve. Qed.
Lemma keeps_gpf gprs err rip cs sp : kept (gpf_handler gprs err rip cs sp) any.
Proof. unfold gpf_handler. ksolve. Qed.
End scheduler.

#[export] Hint Resolve keeps_save_irqs keeps_restore_irqs keeps_write_fs_base keeps_read_fs_base keeps_check_canary keeps_resume 
  keeps_entropy_seed keeps_schedule_out keeps_schedule keeps_deliver_all_signals keeps_tick 
  keeps_wake_closed_pipe_readers keeps_wake_child keeps_signal_parent keeps_exit_task keeps_user_addr 
  keeps_user_read8 keeps_user_write8 keeps_user_read keeps_user_write keeps_user_read_le keeps_user_write_le 
  keeps_has_input keeps_exit_current keeps_block_on_tty keeps_wake_tty_waiter keeps_block_on_pipe 
  keeps_wake_pipe_waiter keeps_sleep_round keeps_raise_signal_to_pid keeps_current_task keeps_current_fd_get 
  keeps_current_fd_close keeps_current_fd_dup keeps_current_fd_dup2 keeps_current_fd_set_offset_uadd keeps_current_fd_set_offset_u64
  keeps_current_fd_set_dir_pos keeps_set_heap_brk keeps_set_fs_base keeps_current_cwd keeps_current_pid 
  keeps_k_alloc_pages keeps_new_kernel_stack keeps_k_init_stack keeps_map_stack_pages 
  keeps_map_user_init_stack keeps_k_setup_abi_stack keeps_user_cstr_loop keeps_user_cstr 
  keeps_user_cstr_array_loop keeps_user_cstr_array keeps_execve_current keeps_map_zero_pages 
  keeps_handle_user_page_fault keeps_read_byte keeps_read_scancode keeps_serial_handle_irq 
  keeps_keyboard_handle_irq keeps_write_byte keeps_print_bytes keeps_eoi keeps_console_print_str 
  keeps_console_print_hex keeps_dump keeps_dump_words keeps_halt_exception keeps_timer_irq 
  keeps_common_dispatch keeps_pagefault keeps_gpf keeps_finish_irq : keeps.
#[export] Hint Resolve keeps_field_any | 50 : keeps.
