(* ===== verification/SystemInv.v ===== *)
(** The invariant of the kernel over every system call, first or resumed, and over the tasks the
    kernel makes, kills or boots with.  The runs made of these steps are in Machine.v. *)
From Stdlib Require Import ZArith Lia.
From stdpp Require Import base option list numbers.
From S2P Require Import Prelude Console Bitmap RingBuf Ipc Process PageTable Pages Paging RamFs RamFsSpec Fs Elf AbiStack Kernel Scheduler Drivers Syscall Interrupts Arch SchedulerSpec TaskLife Invariants.
Local Open Scope Z_scope.

(** ** The file system under the descriptors *)

Definition inode_in (o : option nat) : Prop := match o with Some i => (i < MAX_INODES)%nat | None => True end.

Lemma resolve_in fs path cwd o : fs_wf fs -> (cwd < MAX_INODES)%nat -> resolve fs path cwd = Done o -> inode_in o.
Proof. intros Hwf Hc H. pose proof (resolve_spec fs path cwd Hwf Hc) as Hr. rewrite H in Hr. apply Hr. Qed.
Lemma open_inode_in fs path cwd u g w o : fs_wf fs -> (cwd < MAX_INODES)%nat -> open_inode fs path cwd u g w = Done o -> inode_in o.
Proof.
  intros Hwf Hc H. unfold open_inode, open_check in H. destruct (resolve fs path cwd) as [r|] eqn:E; [|done]. mred_in H.
  apply resolve_in in E; [|done..]. destruct r as [i|]; [|by injection H as <-].
  destruct (get fs i) as [n|]; [|done]. mred_in H. case_decide; [by injection H as <-|].
  destruct (perm fs i u g _) as [ok|]; [|done]. mred_in H. injection H as <-. by destruct ok.
Qed.
Lemma open_dir_in fs path cwd o : fs_wf fs -> (cwd < MAX_INODES)%nat -> open_dir fs path cwd = Done o -> inode_in o.
Proof.
  intros Hwf Hc H. unfold open_dir in H. destruct (vfs_is_dir fs path cwd) as [r|]; [|done]. mred_in H.
  destruct r as [[|]|]; [|by injection H as <-..]. by eapply resolve_in.
Qed.

Lemma step_wf fs m b fs' : runs m (step_ok fs 0 0) -> m = Done (b, fs') -> fs_wf fs'.
Proof. intros H ->. apply H. Qed.

Lemma inode_write_wf fs idx off dat n fs' : fs_wf fs -> inode_write fs idx off dat = Done (n, fs') -> fs_wf fs'.
Proof.
  intros Hwf H. unfold inode_write in H. destruct (_ <=? _)%nat; [by injection H as _ <-|].
  destruct (get fs idx) as [nd|] eqn:E; [|done]. mred_in H. apply get_Done in E.
  destruct (wf_lookup fs idx nd Hwf E) as [Hn Hi].
  destruct (used nd) eqn:Hu; cbn [negb orb] in H; [|by injection H as _ <-]. case_bool_decide as Hk; [by injection H as _ <-|].
  destruct (_ =? 0)%nat; [by injection H as _ <-|]. destruct (slice dat _ _) as [src|]; [|done]. mred_in H.
  destruct (blit (data nd) _ _ src) as [d|] eqn:Eb; [|done]. mred_in H.
  destruct (set fs idx _) as [fs1|] eqn:Es; [|done]. mred_in H. injection H as _ <-. apply set_inv in Es as [-> _].
  apply wf_insert; [done | |].
  - intros ->. destruct (wf_root _ Hwf) as (r & Hr & _ & Hd & _). rewrite E in Hr. injection Hr as <-. done.
  - pose proof Hn as (_ & _ & Hd & Hs & _). apply wf_with_data; [done | rewrite (blit_length _ _ _ _ _ Eb); exact Hd |].
    destruct (_ <? _); [lia | done].
Qed.

Lemma inode_size_range fs i n : fs_wf fs -> inode_size fs i = Done n -> 0 <= Z.of_nat n < 2 ^ 64.
Proof.
  intros Hwf H. unfold inode_size in H. change (fs_get_inode fs i) with (ramfs_get_inode fs i) in H. unfold ramfs_get_inode in H.
  destruct (_ <? _)%nat; [|mred_in H; injection H as <-; lia].
  destruct (get fs i) as [nd|] eqn:E; [|done]. mred_in H. apply get_Done in E. destruct (wf_lookup fs i nd Hwf E) as [(_ & _ & _ & Hs & _) _].
  assert (Z.of_nat MAX_DATA < 2 ^ 64) as Hm by (vm_compute; reflexivity).
  destruct (used nd); mred_in H; injection H as <-; lia.
Qed.

(** ** The system calls *)

Section syscalls.
Context {A : Type} {ops : PageOps A} {vops : VmOps A} {arch : ArchOps A}.
Variables (N : Z) (version_full : bytes) (tgt : target).
Local Abbreviation any := (fun _ => True).
Local Abbreviation kept m Q := (keeps (A := A) N m Q).
Implicit Types k : kernel A.
(** A result that is not a wait for a child. *)
Definition quiet (r : sysret) : Prop := match r with Again (Waiting _ _ _ _) => False | _ => True end.

Lemma keeps_query_any {X} (f : RamFs -> outcome X) : kept (fs_query f) any.
Proof. by apply keeps_fs_query. Qed.
Lemma keeps_fs_step {X} (f : RamFs -> outcome (X * RamFs)) : (forall fs x fs', fs_wf fs -> f fs = Done (x, fs') -> fs_wf fs') -> kept (on_fs f) any.
Proof. intros Hf. apply keeps_fs. intros fs x fs' Hwf H. split; [exact (Hf fs x fs' Hwf H) | exact I]. Qed.
Lemma keeps_write_inode i off dat : kept (on_fs (fun fs => write_inode fs i off dat)) any.
Proof. apply keeps_fs_step. intros fs n fs' Hwf H. exact (inode_write_wf _ _ _ _ _ _ Hwf H). Qed.
Lemma keeps_touch path cwd : (cwd < MAX_INODES)%nat -> kept (on_fs (fun fs => vfs_touch fs path cwd 0 0)) any.
Proof. intros Hc. apply keeps_fs_step. intros fs b fs' Hwf H. eapply step_wf; [|exact H]. by apply touch_step. Qed.
Lemma keeps_mkdir path cwd m : (cwd < MAX_INODES)%nat -> kept (on_fs (fun fs => vfs_mkdir fs path cwd 0 0 m)) any.
Proof. intros Hc. apply keeps_fs_step. intros fs b fs' Hwf H. eapply step_wf; [|exact H]. by apply mkdir_step. Qed.
Lemma keeps_rmdir path cwd : (cwd < MAX_INODES)%nat -> kept (on_fs (fun fs => vfs_rmdir fs path cwd 0 0)) any.
Proof. intros Hc. apply keeps_fs_step. intros fs b fs' Hwf H. eapply step_wf; [|exact H]. by apply rmdir_step. Qed.
Lemma keeps_unlink path cwd : (cwd < MAX_INODES)%nat -> kept (on_fs (fun fs => vfs_unlink fs path cwd 0 0)) any.
Proof. intros Hc. apply keeps_fs_step. intros fs b fs' Hwf H. eapply step_wf; [|exact H]. by apply unlink_step. Qed.
#[local] Hint Resolve keeps_query_any keeps_write_inode keeps_touch keeps_mkdir keeps_rmdir keeps_unlink : keeps.

Lemma keeps_read_path_loop n : forall va, kept (read_path_loop va n) any.
Proof. induction n as [|n IH]; intros va; cbn [read_path_loop]; ksolve. Qed.
#[local] Hint Resolve keeps_read_path_loop : keeps.
Lemma keeps_read_path p : kept (read_path p) any.
Proof. unfold read_path. ksolve. Qed.
#[local] Hint Resolve keeps_read_path : keeps.
Lemma keeps_with_path p f : (forall path, kept (f path) quiet) -> kept (with_path p f) quiet.
Proof. intros Hf. unfold with_path. kstep. kstep; [|ksolve]. kstep; [ksolve | apply Hf]. Qed.
Lemma keeps_ret_fd o : kept (ret_fd o) quiet.
Proof. unfold ret_fd. ksolve. Qed.
Lemma keeps_ret_bool e b : kept (ret_bool e b) quiet.
Proof. unfold ret_bool. ksolve. Qed.
#[local] Hint Resolve keeps_ret_fd keeps_ret_bool : keeps.

Lemma keeps_echo b : kept (echo_stdin_byte b) any.
Proof. unfold echo_stdin_byte. ksolve. Qed.
#[local] Hint Resolve keeps_echo : keeps.
Lemma keeps_got_byte buf b : kept (got_byte buf b) quiet.
Proof. unfold got_byte. ksolve. Qed.
#[local] Hint Resolve keeps_got_byte : keeps.
Lemma keeps_read_tty buf : kept (read_tty buf) quiet.
Proof. unfold read_tty. ksolve. Qed.

Lemma alloc_pipe_ok P o P' : pool_wf P -> alloc_pipe P = (o, P') -> pool_wf P' /\ match o with Some i => (i < MAX_PIPES)%nat | None => True end.
Proof.
  intros Hwf H. destruct (alloc_pipe_refines P Hwf) as (r & P1 & E & Hwf' & Hc). rewrite H in E. injection E as -> ->.
  split; [done|]. unfold chan_alloc in Hc. destruct (list_find _ _) as [[j v]|] eqn:El; injection Hc as <- _; [|done].
  apply list_find_Some in El as (Hj%lookup_lt_Some & _). unfold pool_view in Hj. rewrite length_fmap in Hj. by rewrite (proj1 Hwf) in Hj.
Qed.
Lemma keeps_pipe_read idx buf : kept (on_pool (fun P => '(n, out, P) ← pipe_read P idx buf; Done (n, out, P))) any.
Proof.
  apply keeps_pool. intros P [n out] P' Hwf H. destruct (pipe_read_refines P idx buf Hwf) as (P1 & E & Hwf' & _).
  rewrite E in H. destruct (read_answer _ _ _) as [n1 o1]. mred_in H. injection H as _ _ <-. done.
Qed.
Lemma keeps_pipe_write idx dat : kept (on_pool (fun P => pipe_write P idx dat)) any.
Proof.
  apply keeps_pool. intros P n P' Hwf H. destruct (pipe_write_refines P idx dat Hwf) as (P1 & E & Hwf' & _).
  rewrite E in H. injection H as _ <-. done.
Qed.
Lemma keeps_update op f idx : refines_update op f -> kept (on_pool' (fun P => op P idx)) any.
Proof.
  intros Hr. apply keeps_pool. intros P u P' Hwf H. destruct (Hr P idx Hwf) as (P1 & E & Hwf' & _). rewrite E in H. mred_in H.
  by injection H as _ <-.
Qed.
Lemma keeps_close_read idx : kept (on_pool' (fun P => close_pipe_read P idx)) any.
Proof. eapply keeps_update, close_pipe_read_refines. Qed.
Lemma keeps_close_write idx : kept (on_pool' (fun P => close_pipe_write P idx)) any.
Proof. eapply keeps_update, close_pipe_write_refines. Qed.
Lemma keeps_alloc_pipe : kept (on_pool (fun P => Done (alloc_pipe P))) (fun o => match o with Some i => (i < MAX_PIPES)%nat | None => True end).
Proof. apply keeps_pool. intros P o P' Hwf H. injection H as H. by eapply alloc_pipe_ok. Qed.
#[local] Hint Resolve keeps_read_tty keeps_pipe_read keeps_pipe_write keeps_close_read keeps_close_write keeps_alloc_pipe : keeps.

Lemma keeps_read_pipe idx buf len : kept (read_pipe idx buf len) quiet.
Proof. unfold read_pipe. ksolve. Qed.
Lemma keeps_write_pipe idx buf len : kept (write_pipe idx buf len) quiet.
Proof. unfold write_pipe. ksolve. Qed.
Lemma keeps_entropy_bytes n : kept (entropy_bytes n) any.
Proof. induction n as [|n IH]; cbn [entropy_bytes]; ksolve. Qed.
#[local] Hint Resolve keeps_read_pipe keeps_write_pipe keeps_entropy_bytes : keeps.

(** A continuation [c] belongs to process [p]: waitpid remembers the id of its caller. *)
Definition cont_of (p : Z) (c : cont) : Prop := match c with Waiting cur_pid _ _ _ => cur_pid = p | _ => True end.
Definition result_of (p : Z) (r : sysret) : Prop := match r with Again c => cont_of p c | Return _ => True end.
Lemma quiet_result p r : quiet r -> result_of p r.
Proof. destruct r as [|[]]; done. Qed.

Lemma keeps_continue c : (forall p tg st nh, c <> Waiting p tg st nh) -> kept (continue_call c) quiet.
Proof. intros Hc. destruct c as [buf|idx buf len|cp tg st nh|w|p sig|v]; cbn [continue_call]; [ksolve | ksolve | by destruct (Hc cp tg st nh) | ksolve..]. Qed.
Lemma waiting_keeps k p tg st nh r k' : kernel_inv k -> next_pid (k_sched k) = N -> current_pid_is p k ->
  continue_call (Waiting p tg st nh) k = Done (r, k') -> kernel_inv k' /\ next_pid (k_sched k') = N /\ result_of p r.
Proof.
  intros Hk Hn Hc H. cbn [continue_call] in H. apply bind_inv in H as (o & k1 & H1 & H).
  destruct (waitpid_round_keeps N k p tg st nh o k1 Hk Hn Hc H1) as [? ?].
  destruct o; unfold mret, km_ret in H; by injection H as <- <-.
Qed.
Lemma continue_call_keeps c k p r k' : kernel_inv k -> next_pid (k_sched k) = N -> current_pid_is p k -> cont_of p c ->
  continue_call c k = Done (r, k') -> kernel_inv k' /\ next_pid (k_sched k') = N /\ result_of p r.
Proof.
  intros Hk Hn Hp Hc H. destruct c as [buf|idx buf len|cp tg st nh|w|q sig|v].
  3: { cbn in Hc. subst cp. by eapply waiting_keeps. }
  all: match type of H with continue_call ?c0 _ = _ => assert (kept (continue_call c0) quiet) as Hc0 by (by apply keeps_continue) end;
    destruct (Hc0 _ _ _ Hk Hn H) as (? & ? & ?); split; [done|]; split; [done | by apply quiet_result].
Qed.

Lemma keeps_sys_read fd buf len : kept (sys_read fd buf len) quiet.
Proof. unfold sys_read. repeat first [progress kstep | by apply keeps_continue]. Qed.
Lemma keeps_sys_write fd buf len : kept (sys_write fd buf len) quiet.
Proof. unfold sys_write. ksolve. Qed.

Lemma keeps_open_path path flags get_cwd : kept get_cwd (fun c => (c < MAX_INODES)%nat) -> kept (open_path path flags get_cwd) quiet.
Proof.
  intros Hg. unfold open_path. destruct (open_dev_path path) as [dev|] eqn:Ed.
  - eapply keeps_bind; [apply keeps_current_fd_alloc | intros ? _; ksolve]. unfold open_dev_path in Ed.
    repeat (match type of Ed with (if ?b then _ else _) = _ => destruct b end; [by injection Ed as <-|]). done.
  - cbv zeta. eapply keeps_bind; [exact Hg|]. intros cwd Hc. kstep.
    apply (keeps_bind _ _ _ inode_in); [apply keeps_fs_query; intros fs0 o0 Hwf0 Ho0; exact (open_inode_in _ _ _ _ _ _ _ Hwf0 Hc Ho0)|]. intros [inode|] Hi.
    + kstep. apply (keeps_bind _ _ _ (fun off => 0 <= off < 2 ^ 64)).
      { kstep; [|apply keeps_ret; lia]. apply (keeps_bind _ _ _ (fun n => 0 <= Z.of_nat n < 2 ^ 64)); [|intros n Hn0; by apply keeps_ret].
        apply keeps_fs_query. intros fs0 n Hwf0 H0. by apply (inode_size_range fs0 inode). }
      intros offset Hoff. eapply keeps_bind; [apply keeps_current_fd_alloc; split; [exact Hi | exact Hoff]|]. intros ? _. ksolve.
    + kstep; [ksolve|]. apply (keeps_bind _ _ _ inode_in); [apply keeps_fs_query; intros fs0 o0 Hwf0 Ho0; exact (open_dir_in _ _ _ _ Hwf0 Hc Ho0)|]. intros [d|] Hd; [|ksolve].
      eapply keeps_bind; [by apply keeps_current_fd_alloc|]. intros ? _. ksolve.
Qed.
Lemma keeps_at_cwd dirfd : kept (at_cwd dirfd) (fun c => (c < MAX_INODES)%nat).
Proof.
  unfold at_cwd. kstep; [apply keeps_current_cwd|]. eapply keeps_bind; [apply keeps_current_fd_get|].
  intros [[]|] He; try apply keeps_current_cwd; apply keeps_ret; [exact (proj1 He) | exact He].
Qed.
#[local] Hint Resolve keeps_at_cwd : keeps.
Lemma keeps_sys_open p flags : kept (sys_open p flags) quiet.
Proof. unfold sys_open. kstep; [ksolve|]. apply keeps_with_path. intros path. apply keeps_open_path, keeps_current_cwd. Qed.
Lemma keeps_sys_openat d p flags : kept (sys_openat d p flags) quiet.
Proof. unfold sys_openat. kstep; [ksolve|]. apply keeps_with_path. intros path. apply keeps_open_path, keeps_at_cwd. Qed.
Lemma keeps_wake_if_closed idx : kept (wake_if_closed idx) any.
Proof. unfold wake_if_closed. ksolve. Qed.
#[local] Hint Resolve keeps_wake_if_closed : keeps.
Lemma keeps_sys_close fd : kept (sys_close fd) quiet.
Proof. unfold sys_close. ksolve. Qed.
Lemma keeps_put_stat buf s : kept (put_stat buf s) quiet.
Proof. unfold put_stat. ksolve. Qed.
#[local] Hint Resolve keeps_put_stat : keeps.
Lemma keeps_fill_inode_stat buf i : kept (fill_inode_stat buf i) quiet.
Proof. unfold fill_inode_stat. ksolve. Qed.
#[local] Hint Resolve keeps_fill_inode_stat : keeps.
Lemma keeps_stat_path buf path get_cwd Q : kept get_cwd Q -> kept (stat_path buf path get_cwd) quiet.
Proof. intros Hg. unfold stat_path. kstep; [ksolve|]. eapply keeps_bind; [exact Hg|]. intros cwd _. ksolve. Qed.
Lemma keeps_sys_stat p buf : kept (sys_stat p buf) quiet.
Proof. unfold sys_stat. kstep; [ksolve|]. apply keeps_with_path. intros path. eapply keeps_stat_path, keeps_current_cwd. Qed.
Lemma keeps_sys_fstat fd buf : kept (sys_fstat fd buf) quiet.
Proof. unfold sys_fstat. ksolve. Qed.
#[local] Hint Resolve keeps_sys_fstat : keeps.
Lemma keeps_sys_newfstatat d p buf : kept (sys_newfstatat d p buf) quiet.
Proof.
  unfold sys_newfstatat. kstep; [ksolve|]. kstep. kstep; [|ksolve]. kstep; [ksolve|]. eapply keeps_stat_path, keeps_at_cwd.
Qed.
Lemma keeps_sys_brk a : kept (sys_brk a) quiet.
Proof. unfold sys_brk. ksolve. Qed.
Lemma keeps_sys_mmap a b c d : kept (sys_mmap a b c d) quiet.
Proof. unfold sys_mmap. ksolve. Qed.
Lemma keeps_sys_ioctl a b c : kept (sys_ioctl a b c) quiet.
Proof. unfold sys_ioctl. ksolve. Qed.
Lemma keeps_sys_dup a : kept (sys_dup a) quiet.
Proof. unfold sys_dup. ksolve. Qed.
#[local] Hint Resolve keeps_sys_dup : keeps.
Lemma keeps_sys_dup2 a b : kept (sys_dup2 a b) quiet.
Proof. unfold sys_dup2. ksolve. Qed.
Lemma keeps_sys_fcntl a b : kept (sys_fcntl a b) quiet.
Proof. unfold sys_fcntl. ksolve. Qed.
#[local] Hint Resolve keeps_sys_read keeps_sys_write keeps_sys_open keeps_sys_openat keeps_sys_close keeps_sys_stat keeps_sys_newfstatat
  keeps_sys_brk keeps_sys_mmap keeps_sys_ioctl keeps_sys_dup2 keeps_sys_fcntl : keeps.

Lemma keeps_sys_pipe p : kept (sys_pipe p) quiet.
Proof.
  unfold sys_pipe. kstep; [ksolve|]. eapply keeps_bind; [apply keeps_alloc_pipe|]. intros [idx|] Hi; [|ksolve].
  do 2 (eapply keeps_bind; [by apply keeps_current_fd_alloc|]; intros ? _). ksolve.
Qed.
Lemma keeps_close_both o : kept (close_both o) any.
Proof. unfold close_both. ksolve. Qed.
#[local] Hint Resolve keeps_close_both : keeps.
Lemma keeps_sys_socketpair p : kept (sys_socketpair p) quiet.
Proof.
  unfold sys_socketpair. kstep; [ksolve|].
  eapply keeps_bind; [apply keeps_alloc_pipe|]. intros oa Ha. eapply keeps_bind; [apply keeps_alloc_pipe|]. intros ob Hb. cbv beta in *.
  destruct oa as [a|]; [|ksolve]. destruct ob as [b|]; [|ksolve].
  do 2 (eapply keeps_bind; [by apply keeps_current_fd_alloc|]; intros ? _). ksolve.
Qed.
Lemma keeps_sys_getcwd a b : kept (sys_getcwd a b) quiet.
Proof. unfold sys_getcwd. ksolve. Qed.
Lemma keeps_sys_chdir p : kept (sys_chdir p) quiet.
Proof.
  apply keeps_with_path. intros path. eapply keeps_bind; [apply keeps_current_cwd|]. intros cwd Hc. cbv beta in Hc.
  apply (keeps_bind _ _ _ inode_in); [apply keeps_fs_query; intros fs0 o0 Hwf0 Ho0; exact (open_dir_in _ _ _ _ Hwf0 Hc Ho0)|].
  intros [i|] Hi; [|ksolve]. eapply keeps_bind; [by apply keeps_set_cwd|]. intros ? _. ksolve.
Qed.
Lemma keeps_sys_mkdir a b : kept (sys_mkdir a b) quiet.
Proof. apply keeps_with_path. intros path. ksolve. Qed.
Lemma keeps_sys_rmdir a : kept (sys_rmdir a) quiet.
Proof. apply keeps_with_path. intros path. ksolve. Qed.
Lemma keeps_sys_unlink a : kept (sys_unlink a) quiet.
Proof. apply keeps_with_path. intros path. ksolve. Qed.
Lemma keeps_sys_unlinkat a b c : kept (sys_unlinkat a b c) quiet.
Proof. apply keeps_with_path. intros path. ksolve. Qed.
Lemma keeps_sys_mkdirat a b c : kept (sys_mkdirat a b c) quiet.
Proof. apply keeps_with_path. intros path. ksolve. Qed.
Lemma keeps_sys_getdents64 a b c : kept (sys_getdents64 a b c) quiet.
Proof. unfold sys_getdents64. ksolve. Qed.
#[local] Hint Resolve keeps_sys_pipe keeps_sys_socketpair keeps_sys_getcwd keeps_sys_chdir keeps_sys_mkdir keeps_sys_rmdir keeps_sys_unlink
  keeps_sys_unlinkat keeps_sys_mkdirat keeps_sys_getdents64 : keeps.

Lemma keeps_set_exec_ctx a b c : kept (set_exec_ctx a b c) any.
Proof. unfold set_exec_ctx. ksolve. Qed.
Lemma keeps_take_exec_ctx : kept take_exec_ctx any.
Proof. unfold take_exec_ctx. ksolve. Qed.
#[local] Hint Resolve keeps_set_exec_ctx : keeps.
Lemma keeps_sys_execve a b c : kept (sys_execve a b c) quiet.
Proof. unfold sys_execve. kstep; [ksolve|]. apply keeps_with_path. intros path. ksolve. Qed.
Lemma keeps_sys_exit c : kept (sys_exit c) quiet.
Proof. unfold sys_exit. ksolve. Qed.
Lemma keeps_sys_yield : kept sys_yield quiet.
Proof. unfold sys_yield. ksolve. Qed.
Lemma keeps_sys_getpid : kept sys_getpid quiet.
Proof. unfold sys_getpid. ksolve. Qed.
Lemma keeps_sys_getppid : kept sys_getppid quiet.
Proof. unfold sys_getppid, current_ppid. ksolve. Qed.
Lemma keeps_sleep_deadline t : kept (sleep_deadline t) any.
Proof. unfold sleep_deadline. ksolve. Qed.
#[local] Hint Resolve keeps_sleep_deadline : keeps.
Lemma keeps_sys_nanosleep a : kept (sys_nanosleep a) quiet.
Proof.
  unfold sys_nanosleep. kstep; [ksolve|]. kstep. kstep. kstep; [ksolve|]. cbv zeta. kstep; [|ksolve].
  kstep. by apply keeps_continue.
Qed.
Lemma keeps_sys_kill a b : kept (sys_kill a b) quiet.
Proof. unfold sys_kill. cbv zeta. kstep; [ksolve|]. kstep. kstep; [ksolve|]. by apply keeps_continue. Qed.
Lemma keeps_poll_in i ev : kept (poll_in i ev) any.
Proof. unfold poll_in. ksolve. Qed.
Lemma keeps_poll_out i ev : kept (poll_out i ev) any.
Proof. unfold poll_out. ksolve. Qed.
#[local] Hint Resolve keeps_poll_in keeps_poll_out : keeps.
Lemma keeps_poll_entry e ev : kept (poll_entry e ev) any.
Proof. unfold poll_entry. ksolve. Qed.
#[local] Hint Resolve keeps_poll_entry : keeps.
Lemma keeps_poll_loop n : forall ptr r, kept (poll_loop ptr n r) any.
Proof. induction n as [|n IH]; intros ptr r; cbn [poll_loop]; ksolve. Qed.
#[local] Hint Resolve keeps_poll_loop : keeps.
Lemma keeps_sys_poll a b c : kept (sys_poll a b c) quiet.
Proof. unfold sys_poll. ksolve. Qed.
Lemma keeps_sys_sigaltstack a b : kept (sys_sigaltstack a b) quiet.
Proof. unfold sys_sigaltstack. ksolve. Qed.
Lemma keeps_sys_rt_sigaction a b c d : kept (sys_rt_sigaction a b c d) quiet.
Proof. unfold sys_rt_sigaction. ksolve. Qed.
Lemma keeps_sys_rt_sigprocmask a b c : kept (sys_rt_sigprocmask a b c) quiet.
Proof. unfold sys_rt_sigprocmask. ksolve. Qed.
Lemma keeps_sys_uname a : kept (sys_uname version_full tgt a) quiet.
Proof. unfold sys_uname. ksolve. Qed.
Lemma keeps_sys_lseek a b c : kept (sys_lseek a b c) quiet.
Proof. unfold sys_lseek. ksolve. Qed.
Lemma keeps_sys_getrandom a b : kept (sys_getrandom a b) quiet.
Proof. unfold sys_getrandom. ksolve. Qed.
Lemma keeps_sys_futex a b c : kept (sys_futex a b c) quiet.
Proof. unfold sys_futex. ksolve. Qed.
Lemma keeps_sys_arch_prctl a b : kept (sys_arch_prctl a b) quiet.
Proof. unfold sys_arch_prctl, get_fs_base. ksolve. Qed.
Lemma keeps_sys_clock_gettime a b : kept (sys_clock_gettime a b) quiet.
Proof. unfold sys_clock_gettime, get_tick_count. ksolve. Qed.
#[local] Hint Resolve keeps_sys_execve keeps_sys_exit keeps_sys_yield keeps_sys_getpid keeps_sys_getppid keeps_sys_nanosleep keeps_sys_kill
  keeps_sys_poll keeps_sys_sigaltstack keeps_sys_rt_sigaction keeps_sys_rt_sigprocmask keeps_sys_uname keeps_sys_lseek keeps_sys_getrandom
  keeps_sys_futex keeps_sys_arch_prctl keeps_sys_clock_gettime keeps_sys_dup : keeps.

(** ** The dispatcher *)

(** What a call from process [p] leaves: the invariant, and an answer that is [p]'s. *)
Definition call_ok (p : Z) (m : KM A sysret) : Prop := forall k r k', kernel_inv k -> current_pid_is p k ->
  next_pid (k_sched k) < 2 ^ 64 - 1 -> next_pid (k_sched k) = N -> m k = Done (r, k') -> kernel_inv k' /\ result_of p r.

Lemma call_quiet p m : kept m quiet -> call_ok p m.
Proof. intros Hm k r k' Hk _ _ Hn H. destruct (Hm _ _ _ Hk Hn H) as (? & _ & ?). split; [done | by apply quiet_result]. Qed.
Lemma spawns_then {X Y} (m : KM A X) (f : X -> KM A Y) : spawns N m ->
  (forall M x, keeps M (f x) any) -> spawns N (m ≫= f).
Proof.
  intros Hm Hf k y k' Hk Hn HN H. apply bind_inv in H as (x & k1 & H1 & H2).
  destruct (Hm _ _ _ Hk Hn HN H1) as [Hk1 Hn1]. destruct (Hf _ x k1 y k' Hk1 eq_refl H2) as (? & -> & _). done.
Qed.
Lemma spawn_fork_with_sp_spawns sp : spawns N (spawn_fork_with_sp sp).
Proof.
  unfold spawn_fork_with_sp. eapply spawns_bind; [by apply keeps_gets_any|]. intros ip _.
  destruct (ip =? 0); [apply (spawns_keeps _ _ any); by apply keeps_ret|].
  do 2 (eapply spawns_bind; [by apply keeps_gets_any|]; intros ? _).
  apply spawns_then; [apply spawn_fork_spawns|]. intros M [slot|]; [|by apply keeps_ret]. unfold task_pid. ksolve.
Qed.
Lemma spawn_fork_returns sp k r k' : spawn_fork_with_sp sp k = Done (r, k') -> exists v, r = Return v.
Proof.
  intros H. unfold spawn_fork_with_sp in H. apply bind_inv in H as (ip & k1 & _ & H).
  destruct (ip =? 0); [unfold mret, km_ret in H; injection H as <- _; by eexists|].
  apply bind_inv in H as (regs & k2 & _ & H). apply bind_inv in H as (cs & k3 & _ & H). apply bind_inv in H as (o & k4 & _ & H).
  destruct o as [slot|]; [apply bind_inv in H as (q & k5 & _ & H)|]; unfold mret, km_ret in H; injection H as <- _; by eexists.
Qed.
Lemma call_fork p sp : call_ok p (spawn_fork_with_sp sp).
Proof.
  intros k r k' Hk _ HN Hn H. split; [eapply spawn_fork_with_sp_spawns; [exact Hk | exact Hn | lia | exact H]|].
  by destruct (spawn_fork_returns _ _ _ _ H) as [v ->].
Qed.
Lemma call_gets {X} p (f : kernel A -> X) (m : X -> KM A sysret) : (forall x, call_ok p (m x)) -> call_ok p (x ← gets f; m x).
Proof. intros Hm k r k' Hk Hp HN Hn H. apply bind_inv in H as (x & k1 & [-> ->]%gets_Done & H). by eapply Hm. Qed.

Lemma waitpid_start_Done k p k' : waitpid_start k = Done (p, k') -> k_sched k' = k_sched k /\ exists o, tasks (k_sched k) !! cur (k_sched k) = Some o /\ p = match o with Some t => pid t | None => 0 end.
Proof.
  unfold waitpid_start. intros H. apply bind_inv in H as (b & k1 & H1 & H).
  assert (k_sched k1 = k_sched k) as E1. { unfold save_and_disable_interrupts in H1. revert H1. kred. intros [= _ <-]. done. }
  apply bind_inv in H as (q & k2 & H2 & H). apply current_field_Done in H2 as (-> & o & Ho & Hq).
  apply bind_inv in H as (u & k3 & H3 & H).
  assert (k_sched k3 = k_sched k1) as E3. { unfold restore_interrupt_state in H3. revert H3. destruct b; [|intros [= _ <-]; done]. kred. intros [= _ <-]. done. }
  unfold mret, km_ret in H. injection H as <- <-. rewrite E3, E1. split; [done|]. rewrite E1 in Ho. eauto.
Qed.
Lemma keeps_waitpid_start : kept waitpid_start any.
Proof. unfold waitpid_start. ksolve. Qed.
Lemma call_wait4 p a b c : call_ok p (sys_wait4 a b c).
Proof.
  intros k r k' Hk (t & Ht & Hp) _ Hn H. unfold sys_wait4 in H. cbv zeta in H. apply bind_inv in H as (q & k1 & H1 & H).
  destruct (waitpid_start_Done _ _ _ H1) as (Es & o & Ho & ->). rewrite Ht in Ho. injection Ho as <-. rewrite Hp in H.
  destruct (keeps_waitpid_start _ _ _ Hk Hn H1) as (Hk1 & Hn1 & _).
  eapply waiting_keeps in H as (? & _ & ?); [done | exact Hk1 | exact Hn1 |]. exists t. by rewrite Es.
Qed.

Lemma call_dispatch p nr a0 a1 a2 a3 a4 a5 : call_ok p (dispatch version_full tgt nr a0 a1 a2 a3 a4 a5).
Proof.
  intros k r k' Hk Hp HN Hn H. unfold dispatch in H. apply bind_inv in H as (u & k1 & H1 & H).
  unfold mod_sys, modify in H1. injection H1 as _ <-. revert H.
  match goal with |- ?m _ = _ -> _ => enough (call_ok p m) as Hm end.
  { intros H. eapply Hm; [| | | |exact H]; [by apply (kernel_inv_frame k) | exact Hp | exact HN | exact Hn]. }
  repeat match goal with
  | |- call_ok _ (if ?b then _ else _) => destruct b;
      [first [ solve [apply call_quiet; first [by apply keeps_ret | solve [eauto with keeps]]]
             | apply call_wait4 | apply call_gets; intros; apply call_fork | idtac ]|]
  end.
  - unfold sys_clone. destruct (has_flag _ _); [apply call_quiet; by apply keeps_ret|]. apply call_gets. intros x. apply call_fork.
  - apply call_quiet; by apply keeps_ret.
Qed.
Lemma call_syscall p nr a0 a1 a2 a3 a4 a5 ip sp : call_ok p (syscall_entry_rust version_full tgt nr a0 a1 a2 a3 a4 a5 ip sp).
Proof.
  intros k r k' Hk Hp HN Hn H. unfold syscall_entry_rust, set_user_ctx in H. apply bind_inv in H as (u & k1 & H1 & H).
  unfold mod_sys, modify in H1. injection H1 as _ <-.
  eapply call_dispatch; [| | | |exact H]; [by apply (kernel_inv_frame k) | exact Hp | exact HN | exact Hn].
Qed.
End syscalls.

(** ** Tasks the kernel makes or kills, and the boot sequence *)

Section boot.
Context {A : Type} {ops : PageOps A} {vops : VmOps A} {arch : ArchOps A}.
Implicit Types k : kernel A.

Lemma spawn_user_spawns N prog : spawns (A := A) N (spawn_user prog).
Proof.
  unfold spawn_user. destruct (_ <? _); [apply (spawns_keeps _ _ (fun _ => True)); by apply keeps_ret|].
  eapply spawns_bind; [apply keeps_current_pid|]. intros parent_pid Hpp. cbv beta in Hpp.
  repeat match goal with
  | |- spawns _ (mret None) => apply (spawns_keeps _ _ (fun _ => True)); by apply keeps_ret
  | |- spawns _ (match ?x with _ => _ end) => destruct x
  | |- spawns _ (let _ := _ in _) => cbv zeta
  | |- spawns _ (mbind _ (gets (fun k => vacant_slot _))) => eapply spawns_bind; [apply keeps_vacant_slot|]; intros [i|] Hi
  | |- spawns _ (mbind _ (k_new_task _)) => fail 1
  | |- spawns _ (mbind _ _) => eapply spawns_bind; [solve [eauto with keeps]|intros ? ?; cbv beta in *]
  end.
  by apply (install_new _ _ (fun task => with_context (mk_ctx (ctx_regs (context task)) _ _ (ctx_flags (context task))) task) _ _ parent_pid); [apply Hi|..].
Qed.
End boot.
