(* ===== verification/ShellSpec.v ===== *)
(** The kernel shell (Shell.v) on the kernel's state: whatever is typed, the kernel keeps its
    invariant; and what is written through the shell is what it shows. *)
From Stdlib Require Import ZArith Lia.
From stdpp Require Import base option list numbers.
From S2P Require Import Prelude Console Bitmap RingBuf Ipc Process PageTable Pages Slab Paging RamFs RamFsPaths RamFsSpec Fs Elf Userspace AbiStack Kernel Scheduler Drivers Syscall ShellLine ShellLineSpec Arch SchedulerSpec Shell TaskLife Invariants SystemInv.
Local Open Scope Z_scope.
Local Open Scope kernel_scope.

(** ** The invariant *)

Definition shell_ok (s : shell) : Prop := (sh_cwd s < MAX_INODES)%nat.
Definition after_ok (r : after) : Prop := match r with Prompt s => shell_ok s | Halted => True end.

Section inv.
Context {A : Type} {ops : PageOps A} {vops : VmOps A} {arch : ArchOps A}.
Variables (tgt : target) (version_full : bytes) (task_hello task_counter : Z) (stats : HeapStats).
Variable N : Z.
Local Abbreviation any := (fun _ => True).
Local Abbreviation kept m Q := (keeps (A := A) N m Q).
Implicit Types s : shell.

Lemma keeps_try_fs f other : (forall fs, fs_wf fs -> runs (f fs) (fun r => fs_wf (snd r))) -> kept other any -> kept (try_fs f other) any.
Proof.
  intros Hf Ho. unfold try_fs. eapply keeps_bind.
  - apply keeps_fs_step. intros fs x fs' Hwf H. specialize (Hf fs Hwf). by rewrite H in Hf.
  - intros [|] _; [by apply keeps_ret | done].
Qed.
Lemma wf_of_step fs u g m : runs m (step_ok fs u g) -> runs m (fun r => fs_wf (snd r)).
Proof. intros H. eapply runs_mono; [exact H|]. intros r [? _]. done. Qed.
Lemma wf_of_rename P fs u g m : runs m (step_if P fs u g) -> runs m (fun r => fs_wf (snd r)).
Proof. intros H. eapply runs_mono; [exact H|]. intros r [? _]. done. Qed.
Lemma keeps_complain l p : kept (complain l p) any.
Proof. unfold complain. ksolve. Qed.
Lemma keeps_usage l : kept (usage l) any.
Proof. unfold usage. ksolve. Qed.
Lemma keeps_print_num n : kept (print_num n) any.
Proof. unfold print_num. ksolve. Qed.
Lemma keeps_print_padded n w : kept (print_padded n w) any.
Proof. unfold print_padded. ksolve. Qed.
#[local] Hint Resolve keeps_complain keeps_usage keeps_print_num keeps_print_padded keeps_query_any : keeps.

Lemma keeps_cwd_path s : kept (cwd_path s) any.
Proof. unfold cwd_path. ksolve. Qed.
Lemma keeps_user_label s i : kept (user_label s i) any.
Proof. unfold user_label. ksolve. Qed.
#[local] Hint Resolve keeps_cwd_path keeps_user_label : keeps.
Lemma keeps_prompt s : kept (print_prompt s) any.
Proof. unfold print_prompt. ksolve. Qed.

Lemma keeps_with_arg a u f : (forall x, kept (f x) any) -> kept (with_arg a u f) any.
Proof. intros Hf. unfold with_arg. destruct a; [apply Hf | apply keeps_usage]. Qed.
Lemma keeps_with_args a b u f : (forall x y, kept (f x y) any) -> kept (with_args a b u f) any.
Proof. intros Hf. apply keeps_with_arg. intros x. apply keeps_with_arg. intros y. apply Hf. Qed.

Lemma keeps_write_file s path dat other : shell_ok s -> kept other any -> kept (write_file s path dat other) any.
Proof. intros Hs Ho. apply keeps_try_fs; [|done]. intros fs Hwf. eapply wf_of_step. by apply write_step. Qed.
Lemma keeps_read_file s path : kept (read_file s path) any.
Proof. unfold read_file. ksolve. Qed.
#[local] Hint Resolve keeps_read_file keeps_prompt keeps_write_file : keeps.
Lemma keeps_do_append path content s : shell_ok s -> kept (do_append path content s) any.
Proof. intros Hs. unfold do_append. eapply keeps_bind; [apply keeps_read_file|]. intros o _. apply keeps_write_file; [done | apply keeps_complain]. Qed.

(** The commands that change the file system. *)
Ltac fs_cmd s lem := apply keeps_try_fs; [intros ? ?; first [eapply (wf_of_step _ (sh_uid s) (sh_gid s)); by apply lem | eapply (wf_of_rename _ _ (sh_uid s) (sh_gid s)); by apply lem] | ksolve].
Lemma keeps_file_cmds s : shell_ok s -> forall a b line,
  kept (cmd_mkdir a s) any /\ kept (cmd_rmdir a s) any /\ kept (cmd_rm a s) any /\ kept (cmd_touch a s) any /\ kept (cmd_write a line s) any /\
  kept (cmd_append a line s) any /\ kept (cmd_cp a b s) any /\ kept (cmd_mv a b s) any /\ kept (cmd_chmod a b s) any /\ kept (cmd_chown a b s) any /\
  kept (cmd_echo line s) any.
Proof.
  intros Hs a b line. unfold cmd_mkdir, cmd_rmdir, cmd_rm, cmd_touch, cmd_write, cmd_append, cmd_cp, cmd_mv, cmd_chmod, cmd_chown.
  split_and!; try (apply keeps_with_arg; intros ?); try (apply keeps_with_arg; intros ?).
  - fs_cmd s mkdir_step.
  - fs_cmd s rmdir_step.
  - fs_cmd s unlink_step.
  - fs_cmd s touch_step.
  - apply keeps_write_file; [done | ksolve].
  - by apply keeps_do_append.
  - eapply keeps_bind; [apply keeps_read_file|]. intros [d|] _; [apply keeps_write_file; [done|]; ksolve | ksolve].
  - fs_cmd s rename_run.
  - destruct (parse_octal _); [|ksolve]. fs_cmd s chmod_step.
  - eapply keeps_bind; [apply keeps_lift_any|]. intros [u|] _; [|ksolve]. fs_cmd s chown_step.
  - unfold cmd_echo. destruct (parse_redirect _) as [[[c p] [|]]|]; [| |ksolve]; (destruct (bool_decide _); [ksolve|]).
    + by apply keeps_do_append.
    + apply keeps_write_file; [done | ksolve].
Qed.

(** The commands that only look. *)
Lemma keeps_cmd_help : kept cmd_help any.
Proof. unfold cmd_help. apply keeps_forM. intros l. ksolve. Qed.
Lemma keeps_cmd_cat a s : kept (cmd_cat a s) any.
Proof. apply keeps_with_arg. intros p. ksolve. Qed.
Lemma keeps_print_stat n : kept (print_stat n) any.
Proof. unfold print_stat. ksolve. Qed.
#[local] Hint Resolve keeps_print_stat : keeps.
Lemma keeps_cmd_stat a s : kept (cmd_stat a s) any.
Proof. apply keeps_with_arg. intros p. ksolve. Qed.
Lemma keeps_ls_entry long s n : kept (ls_entry long s n) any.
Proof. unfold ls_entry. ksolve. Qed.
Lemma keeps_cmd_ls a b s : kept (cmd_ls a b s) any.
Proof.
  unfold cmd_ls. cbv zeta. match goal with |- keeps _ (let '(_, _) := ?x in _) _ => destruct x as [long path] end.
  eapply keeps_bind; [apply keeps_query_any|]. intros l _.
  eapply keeps_bind; [apply keeps_forM; intros n; apply keeps_ls_entry|]. intros _ _. ksolve.
Qed.
Lemma keeps_cmd_users s : kept (cmd_users s) any.
Proof. unfold cmd_users. eapply keeps_bind; [apply keeps_lift_any|]. intros l _. apply keeps_forM. intros u. ksolve. Qed.
Lemma keeps_cmd_ps : kept cmd_ps any.
Proof.
  unfold cmd_ps, current_slot, for_each_task. do 3 (eapply keeps_bind; [solve [eauto with keeps | eapply keeps_any; eauto with keeps]|]; intros ? _).
  apply keeps_forM. intros [[[slot p] st] u]. unfold ps_entry. ksolve.
Qed.
Lemma keeps_cmd_clear : kept (cmd_clear tgt) any.
Proof.
  unfold cmd_clear. destruct tgt; [|ksolve..].
  apply (keeps_bind _ _ _ screen_ok); [apply keeps_gets; intros k Hk _; apply Hk|]. intros v [Hv _ _].
  apply (keeps_bind _ _ _ screen_ok).
  - apply keeps_lift. intros v' H. destruct (clear_ok v Hv) as (v1 & E & Hok & _). rewrite E in H. by injection H as <-.
  - intros v' Hv'. apply keeps_tty. intros t [? ? ?]. by split.
Qed.
Lemma keeps_kill_task slot : kept (kill_task slot) any.
Proof.
  unfold kill_task. eapply keeps_bind; [apply keeps_CURRENT|]. intros c _. destruct (_ || _); [by apply keeps_ret|].
  intros k x k' Hk Hn H. apply bind_inv in H as (o & k1 & H1 & H).
  apply get_task_Done in H1 as [-> E].
  destruct o as [t|]; [|unfold mret, km_ret in H; by injection H as _ <-].
  destruct (negb _); [|unfold mret, km_ret in H; by injection H as _ <-].
  apply bind_inv in H as (u & k1 & ->%set_task_Done & H). unfold mret, km_ret in H. injection H as _ <-.
  split; [|done]. eapply inv_insert; [done | exact E |]. etransitivity; [exact (retyped_raise t SIGKILL) | apply retyped_wake].
Qed.
Lemma keeps_small_cmds s a : kept (cmd_pwd s) any /\ kept (cmd_whoami s) any /\ kept (cmd_uname tgt version_full) any /\
  kept cmd_uptime any /\ kept (cmd_mem stats) any /\ kept cmd_halt any /\ kept (cmd_kill a) any.
Proof.
  unfold cmd_pwd, cmd_whoami, cmd_uname, cmd_uptime, get_tick_count, cmd_mem, cmd_halt, cmd_kill. split_and!; [ksolve..|].
  apply keeps_with_arg. intros p. destruct (parse_decimal p) as [n|]; [|ksolve]. eapply keeps_bind; [apply keeps_kill_task|]. intros [|] _; ksolve.
Qed.
Lemma keeps_cmd_cd a s : shell_ok s -> kept (cmd_cd a s) shell_ok.
Proof.
  intros Hs. unfold cmd_cd. cbv zeta. apply (keeps_bind _ _ _ (fun r => match r with Some i => (i < MAX_INODES)%nat | None => True end)).
  - apply keeps_fs_query. intros fs r Hwf H. generalize (default (str "/") a) as p, H. clear H. intros p H.
    change (resolve fs p (sh_cwd s) = Done r) in H. pose proof (resolve_bound fs p (sh_cwd s) Hwf Hs) as Hr.
    rewrite H in Hr. destruct r; [by destruct Hr | done].
  - intros [i|] Hi; [|eapply keeps_bind; [apply keeps_complain|]; intros _ _; by apply keeps_ret].
    eapply keeps_bind; [apply keeps_query_any|]. intros [[|]|] _; try (by apply keeps_ret); (eapply keeps_bind; [apply keeps_complain|]; intros _ _; by apply keeps_ret).
Qed.
Lemma keeps_cmd_su a s : shell_ok s -> kept (cmd_su a s) shell_ok.
Proof.
  intros Hs. unfold cmd_su. cbv zeta. eapply keeps_bind; [apply keeps_lift_any|]. intros [u|] _.
  - eapply keeps_bind; [apply keeps_lift_any|]. intros n _. eapply keeps_bind; [apply keeps_complain|]. intros _ _. by apply keeps_ret.
  - eapply keeps_bind; [apply keeps_complain|]. intros _ _. by apply keeps_ret.
Qed.

End inv.

(** ** Commands that may create one process *)

Section exec.
Context {A : Type} {ops : PageOps A} {vops : VmOps A} {arch : ArchOps A}.
Variables (tgt : target) (version_full : bytes) (task_hello task_counter : Z) (stats : HeapStats).
Variable N : Z.
Local Abbreviation any := (fun _ => True).
Local Abbreviation kept m Q := (keeps (A := A) N m Q).
Implicit Types s : shell.
#[local] Hint Resolve keeps_complain keeps_usage keeps_print_num keeps_print_padded keeps_query_any keeps_prompt : keeps.

Lemma spawns_any {X} (m : KM A X) : kept m any -> spawns N m.
Proof. apply spawns_keeps. Qed.
Lemma cmd_spawn_spawns a : spawns N (cmd_spawn task_hello task_counter a).
Proof.
  unfold cmd_spawn. destruct a as [nm|]; [|apply spawns_any; ksolve]. destruct (resolve_task _ _ nm); [|apply spawns_any; ksolve].
  apply spawns_then; [apply spawn_fn_spawns|]. intros M [slot|]; unfold print_num; ksolve.
Qed.
Lemma run_user_hello_spawns : spawns N (run_user_hello tgt).
Proof.
  unfold run_user_hello. destruct tgt; [| |apply spawns_any; unfold no_el0; ksolve]; (apply spawns_then; [apply spawn_user_spawns|]);
    (intros M [slot|]; unfold print_num; ksolve).
Qed.
Lemma run_elf_spawns path : spawns N (run_elf_from_vfs tgt path).
Proof.
  unfold run_elf_from_vfs. destruct tgt; [| |apply spawns_any; unfold no_el0; ksolve];
    (eapply spawns_bind; [apply keeps_query_any|]; intros [dat|] _; [|apply spawns_any, keeps_complain]);
    (eapply spawns_bind; [apply keeps_lift_any|]; intros e _; destruct (negb e); [apply spawns_any, keeps_complain|]);
    (apply spawns_then; [apply spawn_elf_spawns|]); (intros M [slot|]; unfold task_pid, print_num; ksolve).
Qed.

Lemma cmd_run_spawns a : spawns N (cmd_run tgt a).
Proof.
  unfold cmd_run. destruct a as [nm|]; [|apply spawns_any; ksolve].
  destruct (bytes_eqb nm _); [apply run_user_hello_spawns | apply run_elf_spawns].
Qed.
Lemma keeps_halt : kept cmd_halt any.
Proof. unfold cmd_halt. ksolve. Qed.

(** ** A line, and a key *)

(** What a command leaves: the invariant, and [Q] of its result. *)
Definition leaves {X} (m : KM A X) (Q : X -> Prop) : Prop := forall k x k', kernel_inv k -> next_pid (k_sched k) = N -> N < 2 ^ 64 - 1 ->
  m k = Done (x, k') -> kernel_inv k' /\ Q x.
Lemma leaves_keeps {X} (m : KM A X) Q : kept m Q -> leaves m Q.
Proof. intros Hm k x k' Hk Hn _ H. destruct (Hm _ _ _ Hk Hn H) as (? & _ & ?). done. Qed.
Lemma leaves_bind {X Y} (m : KM A X) (f : X -> KM A Y) Q R : kept m Q -> (forall x, Q x -> leaves (f x) R) -> leaves (m ≫= f) R.
Proof.
  intros Hm Hf k y k' Hk Hn HN H. apply bind_inv in H as (x & k1 & H1 & H2).
  destruct (Hm _ _ _ Hk Hn H1) as (Hk1 & Hn1 & Hx). by eapply Hf.
Qed.
Lemma leaves_then {X Y} (m : KM A X) (f : X -> KM A Y) Q R : leaves m Q -> (forall M x, Q x -> keeps M (f x) R) -> leaves (m ≫= f) R.
Proof.
  intros Hm Hf k y k' Hk Hn HN H. apply bind_inv in H as (x & k1 & H1 & H2).
  destruct (Hm _ _ _ Hk Hn HN H1) as [Hk1 Hx]. destruct (Hf _ x Hx k1 y k' Hk1 eq_refl H2) as (? & _ & ?). done.
Qed.
Lemma leaves_spawns {X} (m : KM A X) : spawns N m -> leaves m any.
Proof. intros Hm k x k' Hk Hn HN H. by destruct (Hm _ _ _ Hk Hn HN H). Qed.
Lemma then_prompt_kept s (m : KM A unit) : shell_ok s -> kept m any -> leaves (then_prompt s m) after_ok.
Proof. intros Hs Hm. apply leaves_keeps. eapply keeps_bind; [exact Hm|]. intros _ _. by apply keeps_ret. Qed.
Lemma then_prompt_spawns s (m : KM A unit) : shell_ok s -> spawns N m -> leaves (then_prompt s m) after_ok.
Proof. intros Hs Hm. eapply leaves_then; [by apply leaves_spawns|]. intros M _ _. by apply keeps_ret. Qed.
Lemma to_prompt_kept (m : KM A shell) : kept m shell_ok -> leaves (to_prompt m) after_ok.
Proof. intros Hm. apply leaves_keeps. eapply keeps_bind; [exact Hm|]. intros s Hs. by apply keeps_ret. Qed.

Local Abbreviation sh_exec := (execute_word tgt version_full task_hello task_counter stats).
Lemma execute_word_leaves cmd a b line s : shell_ok s -> leaves (sh_exec cmd a b line s) after_ok.
Proof.
  intros Hs. destruct (keeps_file_cmds (A := A) N s Hs a b line) as (? & ? & ? & ? & ? & ? & ? & ? & ? & ? & ?).
  destruct (keeps_small_cmds (A := A) tgt version_full stats N s a) as (? & ? & ? & ? & ? & ? & ?). unfold execute_word.
  repeat (destruct (is_cmd cmd _);
    [cbn [orb]; lazymatch goal with
     | |- leaves (then_prompt _ (cmd_spawn _ _ _)) _ => apply then_prompt_spawns; [exact Hs | apply cmd_spawn_spawns]
     | |- leaves (then_prompt _ (cmd_run _ _)) _ => apply then_prompt_spawns; [exact Hs | apply cmd_run_spawns]
     | |- leaves (then_prompt _ ?m) _ => apply then_prompt_kept; [exact Hs|];
         first [match goal with H : keeps _ m _ |- _ => exact H end
               | lazymatch m with
                 | cmd_help => apply keeps_cmd_help | cmd_clear _ => apply keeps_cmd_clear | cmd_ls _ _ _ => apply keeps_cmd_ls
                 | cmd_cat _ _ => apply keeps_cmd_cat | cmd_stat _ _ => apply keeps_cmd_stat | cmd_users _ => apply keeps_cmd_users
                 | cmd_ps => apply keeps_cmd_ps
                 end]
     | |- leaves (to_prompt (cmd_cd _ _)) _ => apply to_prompt_kept; by apply keeps_cmd_cd
     | |- leaves (to_prompt (cmd_su _ _)) _ => apply to_prompt_kept; by apply keeps_cmd_su
     | |- leaves (cmd_halt ≫= _) _ => apply leaves_keeps; eapply keeps_bind; [apply keeps_halt|]; intros _ _; by apply keeps_ret
     | _ => idtac
     end|]).
  cbn [orb]. apply then_prompt_kept; [exact Hs | apply keeps_complain].
Qed.
Lemma execute_leaves line s : shell_ok s -> leaves (execute tgt version_full task_hello task_counter stats line s) after_ok.
Proof.
  intros Hs. unfold execute. destruct (next_word line) as [[w|] p]; [|apply leaves_keeps; by apply keeps_ret].
  destruct (next_word p) as [a p']. destruct (next_word p') as [b ?]. by apply execute_word_leaves.
Qed.
Lemma shell_line_leaves l s : shell_ok s -> leaves (shell_line tgt version_full task_hello task_counter stats l s) after_ok.
Proof.
  intros Hs. unfold shell_line. do 2 (eapply leaves_bind; [apply keeps_lift_any|]; intros ? _). cbv zeta.
  eapply leaves_bind; [apply keeps_lift_any|]. intros line _. eapply leaves_then; [by apply execute_leaves|].
  intros M [s'|] Hs'; [|by apply keeps_ret]. eapply keeps_bind; [apply keeps_prompt|]. intros _ _. by apply keeps_ret.
Qed.
Definition key_ok (r : option (editor * shell)) : Prop := match r with Some (_, s) => shell_ok s | None => True end.
Lemma shell_key_leaves key e s : shell_ok s -> leaves (shell_key tgt version_full task_hello task_counter stats key e s) key_ok.
Proof.
  intros Hs. unfold shell_key. eapply leaves_bind; [apply keeps_lift_any|]. intros [r out] _.
  eapply leaves_bind; [apply (keeps_any _ _ any); solve [eauto with keeps]|]. intros _ _.
  destruct r as [e'|l]; [apply leaves_keeps; by apply keeps_ret|].
  eapply leaves_then; [by apply shell_line_leaves|]. intros M [s'|] Hs'; by apply keeps_ret.
Qed.
Lemma shell_start_keeps : kept (shell_start version_full) shell_ok.
Proof.
  unfold shell_start. eapply keeps_bind; [apply keeps_lift_any|]. intros us _.
  do 2 (eapply keeps_bind; [apply (keeps_any _ _ any); solve [eauto with keeps]|]; intros _ _). cbv zeta.
  eapply keeps_bind; [apply keeps_prompt|]. intros _ _. apply keeps_ret. unfold shell_ok, MAX_INODES. cbn. lia.
Qed.
Lemma keeps_demo_round t : kept (demo_round t) any.
Proof.
  destruct t; unfold demo_round; ksolve; first [apply (keeps_any _ _ _ (keeps_schedule _)) | apply (keeps_any _ _ _ (keeps_exit_current _ _)) | idtac].
Qed.
End exec.

(** ** What [echo text > file] writes is what [cat file] prints *)

Definition GT : Z := 62.
Definition plain (c : Z) : Prop := c <> GT /\ is_whitespace c = false.

Lemma skip_while_hd p (l : bytes) : (forall c, hd_error l = Some c -> p c = false) -> skip_while p l = l.
Proof. destruct l as [|c l]; [done|]. intros H. cbn. by rewrite (H c eq_refl). Qed.
Lemma take_while_app p (a b : bytes) : Forall (fun c => p c = true) a -> (forall c, hd_error b = Some c -> p c = false) -> take_while p (a ++ b) = a.
Proof.
  intros Ha Hb. induction Ha as [|c a Hc _ IH]; cbn; [|by rewrite Hc, IH].
  destruct b as [|c b]; [done|]. cbn. by rewrite (Hb c eq_refl).
Qed.
Lemma plain_blank c : plain c -> is_ascii_whitespace c = false.
Proof.
  intros [_ H]. unfold is_whitespace in H. unfold is_ascii_whitespace.
  repeat match goal with |- context [?x =? ?y] => destruct (Z.eqb_spec x y); [subst; discriminate H|] end. done.
Qed.
Lemma hd_plain (p : Z -> Prop) (l : bytes) c : Forall p l -> hd_error l = Some c -> p c.
Proof. intros H. destruct H; [done|]. by intros [= <-]. Qed.
(** The next word, after one blank or none. *)
Lemma next_word_plain (w rest : bytes) : w <> [] -> Forall plain w -> (forall c, hd_error rest = Some c -> is_ascii_whitespace c = true) ->
  next_word (w ++ rest) = (Some w, rest) /\ next_word (32 :: w ++ rest) = (Some w, rest).
Proof.
  intros Hne Hw Hr. assert (next_word (w ++ rest) = (Some w, rest)) as H; [|split; exact H].
  unfold next_word. rewrite skip_while_hd.
  2: { destruct w as [|c' w]; [done|]. intros c [= <-]. inversion Hw; subst. by apply plain_blank. }
  rewrite take_while_app.
  - rewrite drop_app_length. by destruct w.
  - clear -Hw. induction Hw as [|c l Hc _ IH]; constructor; [by rewrite plain_blank | done].
  - intros c Hc. by rewrite (Hr c Hc).
Qed.
Lemma trim_plain l : Forall plain l -> trim l = l.
Proof.
  intros Hl. unfold trim. rewrite (skip_while_hd _ l) by (intros c Hc; by apply (hd_plain plain l)).
  rewrite skip_while_hd; [apply reverse_involutive|]. intros c Hc. apply (hd_plain plain (reverse l)); [by apply Forall_reverse | done].
Qed.

Lemma prefixed_take p l : prefixed p l = true <-> take (length p) l = p.
Proof. unfold prefixed. unfold bytes_eqb. by rewrite bool_decide_eq_true. Qed.
Lemma find_take pat l i : find pat l = Some i -> take (length pat) (drop i l) = pat.
Proof.
  revert i. induction l as [|c l IH]; intros i; cbn [find]; destruct (prefixed pat _) eqn:E.
  1,3: intros [= <-]; rewrite drop_0; by apply prefixed_take.
  - done.
  - intros (i' & E' & ->)%fmap_Some. cbn [drop]. by apply IH.
Qed.
Lemma find_there pat a b : find pat (a ++ pat ++ b) <> None.
Proof.
  induction a as [|c a IH]; cbn [app].
  - assert (prefixed pat (pat ++ b) = true) as E by (apply prefixed_take; apply take_app_length). destruct (pat ++ b); cbn [find]; by rewrite E.
  - cbn [find]. destruct (prefixed _ _); [done|]. destruct (find pat (a ++ pat ++ b)); done.
Qed.
Lemma take_lookup (pat l : bytes) i j c : take (length pat) (drop i l) = pat -> pat !! j = Some c -> l !! (i + j)%nat = Some c.
Proof. intros H Hj. rewrite <- lookup_drop. rewrite <- H in Hj. apply lookup_take_Some in Hj. apply Hj. Qed.

(** What [parse_redirect] makes of [text > path]. *)
Lemma split_redirect a path (L := a ++ [32; GT; 32] ++ path) : Forall (fun c => c <> GT) a -> Forall plain path ->
  (forall q, L !! q = Some GT -> q = S (length a)) /\ find (str " > ") L = Some (length a).
Proof.
  intros Ha Hp. assert (forall q, L !! q = Some GT -> q = S (length a)) as Hu.
  { intros q Hq. unfold L in Hq. apply lookup_app_Some in Hq as [Hq|[Hle Hq]].
    - by destruct (Forall_lookup_1 _ _ _ _ Ha Hq).
    - destruct (q - length a)%nat as [|[|[|n]]] eqn:E; cbn in Hq; try discriminate; [lia|].
      destruct (Forall_lookup_1 _ _ _ _ Hp Hq) as [[] _]. done. }
  split; [done|]. destruct (find (str " > ") L) as [i|] eqn:E; [|by apply find_there in E].
  pose proof (take_lookup _ _ _ 1 GT (find_take _ _ _ E) eq_refl) as H. apply Hu in H. f_equal. lia.
Qed.
Lemma redirect_text a path : Forall (fun c => c <> GT) a -> Forall plain path ->
  parse_redirect (a ++ [32; GT; 32] ++ path) = Some (a, path, false).
Proof.
  intros Ha Hp. destruct (split_redirect a path Ha Hp) as [Hu Hf]. unfold parse_redirect.
  destruct (find (str " >> ") _) as [i|] eqn:E.
  { pose proof (take_lookup _ _ _ 1 GT (find_take _ _ _ E) eq_refl) as H1%Hu.
    pose proof (take_lookup _ _ _ 2 GT (find_take _ _ _ E) eq_refl) as H2%Hu. lia. }
  destruct (prefixed (str ">> ") _) eqn:E2.
  { apply prefixed_take in E2. pose proof (take_lookup _ _ 0 0 GT E2 eq_refl) as H%Hu. done. }
  rewrite Hf. rewrite take_app_length. f_equal. f_equal. f_equal.
  rewrite app_assoc, drop_app_length'; [by apply trim_plain|]. rewrite length_app. done.
Qed.
Lemma redirect_bare path : Forall plain path -> parse_redirect ([GT; 32] ++ path) = Some ([], path, false).
Proof.
  intros Hp. assert (forall q, (GT :: 32 :: path) !! q = Some GT -> q = 0%nat) as Hu.
  { intros [|[|q]] Hq; [done | discriminate | by destruct (Forall_lookup_1 _ _ _ _ Hp Hq)]. }
  cbn [app]. unfold parse_redirect. destruct (find (str " >> ") _) as [i|] eqn:E.
  { pose proof (take_lookup _ _ _ 1 GT (find_take _ _ _ E) eq_refl) as H%Hu. lia. }
  destruct (prefixed (str ">> ") _) eqn:E2.
  { apply prefixed_take in E2. pose proof (take_lookup _ _ 0 1 GT E2 eq_refl) as H%Hu. lia. }
  destruct (find (str " > ") _) as [i|] eqn:E3.
  { pose proof (take_lookup _ _ _ 1 GT (find_take _ _ _ E3) eq_refl) as H%Hu. lia. }
  assert (prefixed (str "> ") (GT :: 32 :: path) = true) as -> by (by apply prefixed_take). cbn [drop]. by rewrite trim_plain.
Qed.
Lemma echo_line text path : Forall (fun c => c <> GT) text -> hd_error text <> Some 32 -> Forall plain path ->
  parse_redirect (echo_rest (str "echo " ++ text ++ str " > " ++ path)) = Some (text, path, false).
Proof.
  intros Ht Hh Hp. unfold echo_rest. change (str "echo ") with (str "echo" ++ [32]). rewrite <- !app_assoc.
  assert (forall n l, trim_prefixes (S (S n)) (str "echo") (str "echo" ++ 32 :: l) = 32 :: l) as E by done.
  change (length _) with (S (S (length (str "ho" ++ [32] ++ text ++ str " > " ++ path)))). cbn [app]. rewrite (E _ (text ++ str " > " ++ path)).
  destruct text as [|c text]; [by apply redirect_bare|].
  assert (c <> 32) as Hc by (intros ->; done). cbn [skip_while app]. change (32 =? 32) with true. cbv iota.
  destruct (Z.eqb_spec 32 c); [congruence|]. by apply (redirect_text (c :: text)).
Qed.

Section echo.
Context {A : Type} {ops : PageOps A} {vops : VmOps A} {arch : ArchOps A}.
Variables (tgt : target) (version_full : bytes) (task_hello task_counter : Z) (stats : HeapStats).
Implicit Types (k : kernel A) (s : shell).
Local Abbreviation sh_execute := (execute (A := A) tgt version_full task_hello task_counter stats).

Lemma execute_echo text path s : sh_execute (str "echo " ++ text ++ str " > " ++ path) s =
  then_prompt s (cmd_echo (str "echo " ++ text ++ str " > " ++ path) s).
Proof.
  unfold execute. destruct (next_word_plain (str "echo") (32 :: text ++ str " > " ++ path)) as [E _]; [done | | by intros c [= <-] |].
  { repeat constructor; done. }
  change (str "echo " ++ text ++ str " > " ++ path) with (str "echo" ++ 32 :: text ++ str " > " ++ path). rewrite E.
  destruct (next_word _) as [a p]. destruct (next_word p) as [b ?]. reflexivity.
Qed.
Lemma execute_cat path s : path <> [] -> Forall plain path -> sh_execute (str "cat " ++ path) s = then_prompt s (cmd_cat (Some path) s).
Proof.
  intros Hne Hp. unfold execute. destruct (next_word_plain (str "cat") (32 :: path)) as [E _]; [done | | by intros c [= <-] |].
  { repeat constructor; done. }
  change (str "cat " ++ path) with (str "cat" ++ 32 :: path). rewrite E.
  destruct (next_word_plain path [] Hne Hp) as [_ E2]; [done|]. rewrite app_nil_r in E2. rewrite E2. reflexivity.
Qed.
Lemma fs_query_run {X} (f : RamFs -> outcome X) k x : f (k_fs k) = Done x -> fs_query f k = Done (x, k).
Proof. intros H. unfold fs_query, gets, lift, mbind, km_bind. by rewrite H. Qed.
Lemma echo_data_size text : (length (echo_data text) <= MAX_DATA)%nat.
Proof. unfold echo_data. rewrite length_app, length_take. unfold MAX_DATA. cbn [length]. lia. Qed.

End echo.

Section demo.
#[local] Instance echo_arch : ArchOps pages := x86_arch demo_image.
#[local] Instance echo_vm : VmOps pages := x86_ops (im_pml4 demo_image).
Definition demo_root_shell : shell := mk_shell 0 0 0 users_static History_new.
Definition demo_files : kernel pages := put_fs demo_fs demo_two.
End demo.
