(* ===== verification/PipeCalls.v ===== *)
(** The pipe system calls on the abstract channels of Ipc.v: what [read] and [write] on a
    pipe do on every branch, what [pipe] makes, and the ends that [dup] and a full
    descriptor table leave behind. *)
From Stdlib Require Import ZArith Lia.
From stdpp Require Import base option list numbers.
From S2P Require Import Prelude Console Bitmap RingBuf Ipc Process X86Asm Context PageTable Pages Paging PagingSpec RamFs RamFsSpec Fs Elf AbiStack Kernel Scheduler Drivers Syscall Arch SchedulerSpec TaskLife Invariants.
Local Open Scope Z_scope.

Section pipes.
Context {A : Type} {ops : PageOps A} {vops : VmOps A} {arch : ArchOps A}.
Implicit Types k : kernel A.

(** Descriptor [fd] of the running task is [e]. *)
Definition cur_fd k (fd : nat) (e : FdEntry) : Prop :=
  exists t, tasks (k_sched k) !! cur (k_sched k) = Some (Some t) /\ length (fd_table t) = MAX_FDS /\ fd_table t !! fd = Some e.
(** The channel of pipe [i]. *)
Definition channel k (i : nat) : option chan := chan_at (pool_view (k_pool k)) i.

Lemma as_fd_nat fd : (fd < MAX_FDS)%nat -> as_fd (Z.of_nat fd) = fd.
Proof. unfold as_fd. lia. Qed.
Lemma cur_fd_lt k fd e : cur_fd k fd e -> (fd < MAX_FDS)%nat.
Proof. intros (t & _ & Hl & H). rewrite <- Hl. by eapply lookup_lt_Some. Qed.
Lemma current_task_run k t : tasks (k_sched k) !! cur (k_sched k) = Some (Some t) -> current_task k = Done (Some t, k).
Proof. intros H. unfold current_task, CURRENT. kred. by apply get_task_run. Qed.
Lemma cur_fd_get k fd e : cur_fd k fd e -> e <> FdEmpty -> current_fd_get fd k = Done (Some e, k).
Proof.
  intros H Hne. pose proof (cur_fd_lt _ _ _ H) as Hfd. destruct H as (t & Ht & Hl & He). unfold current_fd_get.
  rewrite (bind_run _ _ _ _ _ (current_task_run k t Ht)). unfold fd_get. destruct (Nat.leb_spec MAX_FDS fd); [lia|].
  rewrite (get_Some _ _ _ He). mred. destruct e; done.
Qed.

Lemma wake_pipe_waiter_run k i : waiters_ok (k_sched k) -> (i < MAX_PIPES)%nat -> exists k', wake_pipe_waiter i k = Done (tt, k') /\
  k' = put_sched (k_sched k') k /\ pipe_waiters (k_sched k') = <[i := None]> (pipe_waiters (k_sched k)) /\
  (cur (k_sched k') = cur (k_sched k) /\ nudges (tasks (k_sched k)) (tasks (k_sched k'))) /\
  forall q t, pipe_waiters (k_sched k) !! i = Some (Some q) -> tasks (k_sched k) !! q = Some (Some t) ->
    tasks (k_sched k') !! q = Some (Some (wake t)).
Proof.
  intros [Hl Hw] Hi. unfold wake_pipe_waiter. kred. destruct (get_lt (pipe_waiters (k_sched k)) i) as (o & -> & Ho); [by rewrite Hl|]. kred.
  destruct o as [q|].
  - rewrite (set_Some _ _ _ _ Ho). kred. unfold wake_slot, update_if.
    set (k1 := put_sched _ k). destruct (get_task_lt k1 q (Hw i q Ho)) as (o & Eo & Hq). rewrite (bind_run _ _ _ _ _ Eo).
    destruct o as [t|].
    + rewrite (set_task_run k1 q _ _ Hq). eexists. split; [done|]. split; [done|]. split; [done|].
      split; [split; [done | by eapply nudges_insert, nudged_wake]|]. intros q' t'. rewrite Ho. intros [= <-] Ht'. cbn in Hq. rewrite Ht' in Hq. injection Hq as ->.
      cbn [k_sched put_sched tasks with_tasks]. apply list_lookup_insert_eq. cbn. by eapply lookup_lt_Some.
    + exists k1. split; [done|]. split; [done|]. split; [done|]. split; [done|]. intros q' t'. rewrite Ho. intros [= <-] Ht'. cbn in Hq. congruence.
  - exists k. split; [done|]. split; [by destruct k|]. split; [by rewrite list_insert_id|]. split; [done|]. intros q t. by rewrite Ho.
Qed.

(** Whether an end is open, as the calls ask. *)
Definition has_reader k i : bool := match channel k i with Some c => (0 <? ch_r c)%nat | None => false end.
Definition has_writer k i : bool := match channel k i with Some c => (0 <? ch_w c)%nat | None => false end.
Lemma read_open_run k i : pool_wf (k_pool k) -> pool_query (fun P => pipe_read_open P i) k = Done (has_reader k i, k).
Proof. intros H. unfold pool_query. kred. destruct (pipe_open_refines (k_pool k) i H) as [-> _]. reflexivity. Qed.
Lemma write_open_run k i : pool_wf (k_pool k) -> pool_query (fun P => pipe_write_open P i) k = Done (has_writer k i, k).
Proof. intros H. unfold pool_query. kred. destruct (pipe_open_refines (k_pool k) i H) as [_ ->]. reflexivity. Qed.
Lemma channel_lt k i c : pool_wf (k_pool k) -> channel k i = Some c -> (i < MAX_PIPES)%nat.
Proof. intros H Hc. destruct (decide (i < MAX_PIPES)%nat); [done|]. unfold channel in Hc. rewrite chan_at_out in Hc; [done | done | lia]. Qed.

(** C14: [write] on the write end of a pipe: with no reader left, EPIPE and nothing changes; else
    the bytes that fit are appended to the channel and counted in the answer, and when there
    are any, the task recorded as waiting on the pipe is made ready and unrecorded. *)
Theorem sys_write_pipe_exact k (fd i : nat) (buf len : Z) (dat : bytes) :
  kernel_inv k -> cur_fd k fd (PipeWrite i) -> 0 < len -> buf <> 0 -> user_read buf (Z.to_nat len) k = Done (dat, k) ->
  if has_reader k i then
    exists c k', channel k i = Some c /\ sys_write (Z.of_nat fd) buf len k = Done (Return (Z.of_nat (chan_room c dat)), k') /\
      pool_view (k_pool k') = chan_update (chan_write dat) (pool_view (k_pool k)) i /\
      (chan_room c dat = 0%nat -> k_sched k' = k_sched k) /\
      ((0 < chan_room c dat)%nat -> pipe_waiters (k_sched k') = <[i := None]> (pipe_waiters (k_sched k)) /\
        forall q t, pipe_waiters (k_sched k) !! i = Some (Some q) -> tasks (k_sched k) !! q = Some (Some t) ->
          tasks (k_sched k') !! q = Some (Some (wake t)))
  else sys_write (Z.of_nat fd) buf len k = Done (Return (-32), k).
Proof.
  intros Hk Hfd Hlen Hbuf Hread. pose proof Hk as [[_ Hw _ _ _] _ Hp _].
  assert (sys_write (Z.of_nat fd) buf len k = write_pipe i buf len k) as ->.
  { unfold sys_write. destruct (Z.eqb_spec len 0); [lia|]. destruct (Z.eqb_spec buf 0); [done|].
    rewrite as_fd_nat by (by eapply cur_fd_lt). by rewrite (bind_run _ _ _ _ _ (cur_fd_get _ _ _ Hfd ltac:(done))). }
  unfold write_pipe. rewrite (bind_run _ _ _ _ _ (read_open_run k i Hp)). destruct (has_reader k i) eqn:Ho; cbn [negb]; [|done].
  unfold has_reader in Ho. destruct (channel k i) as [c|] eqn:Ec; [|done]. pose proof (channel_lt _ _ _ Hp Ec) as Hi.
  rewrite (bind_run _ _ _ _ _ Hread). destruct (pipe_write_refines (k_pool k) i dat Hp) as (P' & E & _ & Hv).
  unfold write_answer in E. fold (channel k i) in E. rewrite Ec in E. rewrite (bind_run _ _ _ _ _ (on_pool_run _ _ _ _ E)).
  exists c. destruct (Nat.ltb_spec 0 (chan_room c dat)) as [H0|H0].
  - destruct (wake_pipe_waiter_run (put_pool P' k) i Hw Hi) as (k' & Ek & Es & Hpw & _ & Hq).
    rewrite (bind_run _ _ _ _ _ Ek). exists k'. split; [done|]. split; [done|]. rewrite Es. split; [exact Hv|]. split; [lia|].
    intros _. split; [exact Hpw | exact Hq].
  - kred. eexists. split; [done|]. split; [done|]. split; [exact Hv|]. split; [done | lia].
Qed.

(** The running task [t] goes to sleep as the reader of pipe [i]. *)
Definition blocked_on k (i : nat) (t : Task) : kernel A :=
  let c := cur (k_sched k) in
  put_sched (with_tasks (<[c := Some (with_state Blocked t)]> (tasks (k_sched k)))
    (with_pipe_waiters (<[i := Some c]> (pipe_waiters (k_sched k))) (k_sched k))) k.

Lemma block_on_pipe_run k i c t : kernel_inv k -> channel k i = Some c -> ch_data c = [] -> (0 < ch_w c)%nat ->
  tasks (k_sched k) !! cur (k_sched k) = Some (Some t) -> block_on_pipe i k = schedule (blocked_on k i t).
Proof.
  intros [[_ [Hl _] _ _ _] _ Hp _] Hc Hd Hw Ht. pose proof (channel_lt _ _ _ Hp Hc) as Hi. unfold block_on_pipe, save_and_disable_interrupts, CURRENT. kred.
  rewrite (pipe_has_data_refines _ _ _ Hp Hc), Hd. change (negb (bool_decide ([] = ([] : bytes)))) with false. kred. destruct (pipe_open_refines (k_pool k) i Hp) as [_ ->].
  fold (channel k i). rewrite Hc. kred. destruct (Nat.ltb_spec 0 (ch_w c)); [|lia]. cbn [negb andb]. kred.
  destruct (get_lt (pipe_waiters (k_sched k)) i) as (o & _ & Ho); [by rewrite Hl|]. rewrite (set_Some _ _ _ _ Ho). kred.
  match goal with |- context [update_task ?s ?g ?K] => rewrite (update_task_run K s t g Ht) end. kred.
  match goal with |- context [restore_interrupt_state ?b ?K] => assert (restore_interrupt_state b K = Done (tt, blocked_on k i t)) as E end.
  { unfold restore_interrupt_state, blocked_on. destruct k as [s [f r e [|] sp d] ? ? ? ? ?]; reflexivity. }
  rewrite E. reflexivity.
Qed.

(** The bytes in flight in pipe [i]. *)
Definition in_flight k i : bytes := match channel k i with Some c => ch_data c | None => [] end.

(** C15: [read] on the read end of a pipe: the oldest bytes, as many as are there and fit, leave the
    channel and are stored at the buffer; with none there, end of file when no writer
    is left, and otherwise the task is blocked as the pipe's reader, another task is run, and
    the call is to be tried again. *)
Theorem sys_read_pipe_exact k (fd i : nat) (buf len : Z) (t : Task) :
  kernel_inv k -> cur_fd k fd (PipeRead i) -> 0 < len -> buf <> 0 -> tasks (k_sched k) !! cur (k_sched k) = Some (Some t) ->
  let n := Nat.min (Z.to_nat len) (length (in_flight k i)) in
  exists P', pool_view P' = chan_update (chan_read n) (pool_view (k_pool k)) i /\
  sys_read (Z.of_nat fd) buf len k =
    if decide (0 < n)%nat then (user_write buf (take n (in_flight k i));; mret (Return (Z.of_nat n))) (put_pool P' k)
    else if has_writer k i then (schedule;; mret (Again (ReadPipe i buf len))) (blocked_on (put_pool P' k) i t)
    else Done (Return 0, put_pool P' k).
Proof.
  intros Hk Hfd Hlen Hbuf Ht n. pose proof Hk as [Hs Htt Hp Hf].
  assert (sys_read (Z.of_nat fd) buf len k = read_pipe i buf len k) as ->.
  { unfold sys_read. destruct (Z.eqb_spec len 0); [lia|]. destruct (Z.eqb_spec buf 0); [done|].
    rewrite as_fd_nat by (by eapply cur_fd_lt). by rewrite (bind_run _ _ _ _ _ (cur_fd_get _ _ _ Hfd ltac:(done))). }
  unfold read_pipe. destruct (pipe_read_refines (k_pool k) i (replicate (Z.to_nat len) 0) Hp) as (P' & E & Hp' & Hv).
  assert (fst (read_answer (pool_view (k_pool k)) i (replicate (Z.to_nat len) 0)) = n /\
    (take n (snd (read_answer (pool_view (k_pool k)) i (replicate (Z.to_nat len) 0))) = take n (in_flight k i))) as [En Eo].
  { unfold n, in_flight, read_answer. fold (channel k i). destruct (channel k i) as [c|]; cbn [fst snd].
    - rewrite length_replicate. split; [done|]. set (j := Nat.min _ _). assert (j <= length (ch_data c))%nat by (unfold j; lia).
      rewrite take_app_le by (rewrite length_take; lia). by rewrite take_take, Nat.min_id.
    - rewrite Nat.min_0_r. split; [done|]. by rewrite !take_0. }
  rewrite En in Hv. exists P'. split; [exact Hv|]. destruct (read_answer _ _ _) as [n' out]; cbn [fst snd] in *. subst n'.
  assert (on_pool (fun P => '(n, out, P) ← pipe_read P i (replicate (Z.to_nat len) 0); Done (n, out, P)) k = Done (n, out, put_pool P' k)) as Er.
  { apply on_pool_run. rewrite E. reflexivity. }
  rewrite (bind_run _ _ _ _ _ Er). destruct (Nat.ltb_spec 0 n) as [H0|H0]; [rewrite decide_True by done; by rewrite Eo|].
  rewrite decide_False by lia. rewrite (bind_run _ _ _ _ _ (write_open_run (put_pool P' k) i Hp')).
  assert (n = 0%nat) as N0 by lia. assert (channel (put_pool P' k) i = channel k i) as Ec.
  { unfold channel. cbn [k_pool put_pool]. rewrite Hv, N0. unfold chan_update, chan_at.
    destruct (pool_view (k_pool k) !! i) as [[c|]|] eqn:El; rewrite ?El; [|done..].
    rewrite list_lookup_insert_eq by (by eapply lookup_lt_Some). unfold chan_read. rewrite drop_0. by destruct c. }
  unfold has_writer in *. rewrite Ec. destruct (channel k i) as [c|] eqn:Ek; [|reflexivity].
  destruct (Nat.ltb_spec 0 (ch_w c)); cbn [negb]; [|reflexivity].
  assert (ch_data c = []) as Hd. { unfold n, in_flight in N0. rewrite Ek in N0. apply nil_length_inv. lia. }
  unfold mbind at 1, km_bind at 1. rewrite (block_on_pipe_run (put_pool P' k) i c t); [reflexivity | by split | by rewrite Ec | done | done | exact Ht].
Qed.

(** ** Descriptors of the running task *)

Definition with_table k (t : Task) (f : FdTable) : kernel A :=
  put_sched (with_tasks (<[cur (k_sched k) := Some (with_fds f t)]> (tasks (k_sched k))) (k_sched k)) k.
Lemma with_table_fd k t f fd e : tasks (k_sched k) !! cur (k_sched k) = Some (Some t) -> length f = MAX_FDS -> f !! fd = Some e ->
  cur_fd (with_table k t f) fd e.
Proof.
  intros Ht Hl He. exists (with_fds f t). split; [|done]. cbn [with_table put_sched k_sched with_tasks tasks cur].
  apply list_lookup_insert_eq. by eapply lookup_lt_Some.
Qed.
Lemma set_fds_run k t f : tasks (k_sched k) !! cur (k_sched k) = Some (Some t) -> set_fds f k = Done (tt, with_table k t f).
Proof. intros Ht. unfold set_fds, CURRENT. kred. by apply update_task_run. Qed.

Lemma fd_alloc_unfold f e : fd_alloc f e = fd_alloc_loop f e (seq 3 (MAX_FDS - 3)).
Proof. reflexivity. Qed.
Lemma fd_alloc_cases f e r f' : length f = MAX_FDS -> fd_alloc f e = Done (r, f') ->
  match r with Some n => f' = <[n := e]> f /\ f !! n = Some FdEmpty /\ (3 <= n < MAX_FDS)%nat | None => f' = f end.
Proof.
  intros Hl H. rewrite fd_alloc_unfold in H. assert (length f = (3 + (MAX_FDS - 3))%nat) as Hl' by (rewrite Hl; reflexivity).
  destruct (fd_alloc_loop_spec f e (MAX_FDS - 3) 3 Hl') as [(n & H1 & H2 & Hf & _ & E)|[_ E]].
  - assert (Done (Some n, <[n := e]> f) = Done (r, f')) as E' by (transitivity (fd_alloc_loop f e (seq 3 (MAX_FDS - 3))); [symmetry; exact E | exact H]). injection E' as <- <-. split; [reflexivity|].
    assert (n < MAX_FDS)%nat as Hn by (unfold MAX_FDS in *; lia). split; [|lia]. unfold fd_map in Hf.
    destruct (lookup_lt_is_Some_2 f n) as [x Hx]; [lia|]. rewrite Hx in Hf |- *. by destruct x.
  - assert (Done (None, f) = Done (r, f')) as E' by (transitivity (fd_alloc_loop f e (seq 3 (MAX_FDS - 3))); [symmetry; exact E | exact H]). by injection E' as <- <-.
Qed.
Lemma current_fd_alloc_run k t e r f : tasks (k_sched k) !! cur (k_sched k) = Some (Some t) -> fd_alloc (fd_table t) e = Done (r, f) ->
  current_fd_alloc e k = Done (r, with_table k t f).
Proof.
  intros Ht Hf. unfold current_fd_alloc. rewrite (bind_run _ _ _ _ _ (current_task_run k t Ht)), Hf. kred. by rewrite (set_fds_run k t f Ht).
Qed.
#[local] Opaque fd_alloc.
Lemma with_table_cur k t f : tasks (k_sched k) !! cur (k_sched k) = Some (Some t) ->
  tasks (k_sched (with_table k t f)) !! cur (k_sched (with_table k t f)) = Some (Some (with_fds f t)).
Proof. intros Ht. apply list_lookup_insert_eq. by eapply lookup_lt_Some. Qed.

Lemma close_write_run k i : pool_wf (k_pool k) -> exists P', on_pool' (fun P => close_pipe_write P i) k = Done (tt, put_pool P' k) /\
  pool_wf P' /\ pool_view P' = chan_update chan_close_w (pool_view (k_pool k)) i.
Proof. intros H. destruct (close_pipe_write_refines (k_pool k) i H) as (P' & E & ? & ?). exists P'. split; [|done]. apply on_pool_run. by rewrite E. Qed.
Lemma close_read_run k i : pool_wf (k_pool k) -> exists P', on_pool' (fun P => close_pipe_read P i) k = Done (tt, put_pool P' k) /\
  pool_wf P' /\ pool_view P' = chan_update chan_close_r (pool_view (k_pool k)) i.
Proof. intros H. destruct (close_pipe_read_refines (k_pool k) i H) as (P' & E & ? & ?). exists P'. split; [|done]. apply on_pool_run. by rewrite E. Qed.

(** [pipe] with room for one descriptor only answers EMFILE and gives the pipe back, but the
    descriptor of the read end stays in the table: it names a pipe that is free, and that the
    next call of [pipe], by any process, hands out. *)
Theorem pipe_emfile_keeps_read_end k (p : Z) (i r : nat) (t : Task) (f1 f2 : FdTable) V :
  kernel_inv k -> p <> 0 -> chan_alloc (pool_view (k_pool k)) = (Some i, V) -> tasks (k_sched k) !! cur (k_sched k) = Some (Some t) ->
  fd_alloc (fd_table t) (PipeRead i) = Done (Some r, f1) -> fd_alloc f1 (PipeWrite i) = Done (None, f2) ->
  exists k', sys_pipe p k = Done (Return (-24), k') /\ cur_fd k' r (PipeRead i) /\
    pool_view (k_pool k') = pool_view (k_pool k) /\ channel k' i = None.
Proof.
  intros [[_ _ _ Hok _] _ Hp _] Hp0 Hal Ht Hf1 Hf2. destruct (Hok _ _ Ht) as [[Hl _] _].
  destruct (fd_alloc_cases _ _ _ _ Hl Hf1) as (E1 & He1 & Hr). assert (length f1 = MAX_FDS) as Hl1 by (rewrite E1, length_insert; exact Hl).
  pose proof (fd_alloc_cases _ _ _ _ Hl1 Hf2) as E2. cbn in E2. subst f2.
  unfold sys_pipe. destruct (Z.eqb_spec p 0); [done|]. destruct (alloc_pipe_refines (k_pool k) Hp) as (r' & P1 & Ea & Hp1 & Hc).
  rewrite Hal in Hc. injection Hc as <- HV. assert (on_pool (fun P => Done (alloc_pipe P)) k = Done (Some i, put_pool P1 k)) as Er.
  { apply on_pool_run. by rewrite Ea. }
  rewrite (bind_run _ _ _ _ _ Er). set (k1 := put_pool P1 k) in *. assert (tasks (k_sched k1) !! cur (k_sched k1) = Some (Some t)) as Ht1 by exact Ht.
  rewrite (bind_run _ _ _ _ _ (current_fd_alloc_run k1 t _ _ _ Ht1 Hf1)).
  rewrite (bind_run _ _ _ _ _ (current_fd_alloc_run _ (with_fds f1 t) (PipeWrite i) None f1 (with_table_cur k1 t f1 Ht1) Hf2)).
  set (k2 := with_table (with_table k1 t f1) (with_fds f1 t) f1). destruct (close_read_run k2 i Hp1) as (P2 & Ec1 & Hp2 & Hv2).
  rewrite (bind_run _ _ _ _ _ Ec1). destruct (close_write_run (put_pool P2 k2) i Hp2) as (P3 & Ec2 & _ & Hv3).
  rewrite (bind_run _ _ _ _ _ Ec2). eexists. split; [reflexivity|]. cbn [k_pool put_pool]. cbn [k_pool put_pool] in Hv3. rewrite Hv2 in Hv3.
  unfold chan_alloc in Hal. destruct (list_find (eq None) (pool_view (k_pool k))) as [[j v]|] eqn:Ef; [|done]. injection Hal as -> HVi.
  apply list_find_Some in Ef as (Hj & <- & _). assert (i < length (pool_view (k_pool k)))%nat as Hi by (by eapply lookup_lt_Some).
  change (k_pool k2) with P1 in Hv3. rewrite <- HV, <- HVi in Hv3. unfold chan_update in Hv3. rewrite !list_lookup_insert_eq in Hv3 by (rewrite ?length_insert; exact Hi).
  change (chan_close_r (mk_chan [] 1 1)) with (Some (mk_chan [] 0 1)) in Hv3.
  change (chan_close_w (mk_chan [] 0 1)) with (@None chan) in Hv3. cbv iota in Hv3.
  rewrite !list_insert_insert_eq, list_insert_id in Hv3 by exact Hj. split.
  - apply (with_table_fd (with_table k1 t f1) (with_fds f1 t) f1); [by apply with_table_cur | done |]. rewrite E1. apply list_lookup_insert_eq. lia.
  - split; [exact Hv3|]. unfold channel, chan_at. cbn [k_pool put_pool]. rewrite Hv3, Hj. done.
Qed.

Lemma cur_fd_nudged k k' fd e : nudges (tasks (k_sched k)) (tasks (k_sched k')) -> cur (k_sched k') = cur (k_sched k) ->
  cur_fd k fd e -> cur_fd k' fd e.
Proof.
  intros Hn Hc (t & Ht & Hl & He). destruct (nudges_lookup _ _ _ _ Hn Ht) as (t' & Ht' & Hnt). exists t'. rewrite Hc.
  split; [done|]. rewrite (nd_fds _ _ Hnt). done.
Qed.

Lemma fd_get_run f fd e : length f = MAX_FDS -> f !! fd = Some e -> e <> FdEmpty -> fd_get f fd = Done (Some e).
Proof.
  intros Hl He Hne. unfold fd_get. destruct (Nat.leb_spec MAX_FDS fd) as [H|]; [apply lookup_lt_Some in He; lia|].
  rewrite (get_Some _ _ _ He). mred. by destruct e.
Qed.
Lemma fd_close_run f fd e : length f = MAX_FDS -> f !! fd = Some e -> e <> FdEmpty -> fd_close f fd = Done (Some e, <[fd := FdEmpty]> f).
Proof.
  intros Hl He Hne. unfold fd_close. destruct (Nat.leb_spec MAX_FDS fd) as [H|]; [apply lookup_lt_Some in He; lia|].
  rewrite (get_Some _ _ _ He). mred. rewrite set_lt by (by eapply lookup_lt_Some). by destruct e.
Qed.
Lemma current_fd_dup_Done k t fd e r k1 : tasks (k_sched k) !! cur (k_sched k) = Some (Some t) -> length (fd_table t) = MAX_FDS ->
  fd_table t !! fd = Some e -> e <> FdEmpty -> current_fd_dup fd k = Done (r, k1) ->
  exists f, fd_alloc (fd_table t) e = Done (r, f) /\ k1 = with_table k t f.
Proof.
  intros Ht Hl He Hne H. unfold current_fd_dup in H. rewrite (bind_run _ _ _ _ _ (current_task_run k t Ht)) in H.
  apply bind_inv in H as (o & k3 & H1 & H). unfold lift in H1. rewrite (fd_get_run _ _ _ Hl He Hne) in H1. injection H1 as <- <-.
  apply bind_inv in H as ([r1 f1] & k3 & H1 & H). unfold lift in H1. destruct (fd_alloc (fd_table t) e) as [[r2 f2]|] eqn:Ea; [|done].
  injection H1 as -> -> <-. rewrite (bind_run _ _ _ _ _ (set_fds_run k t f1 Ht)) in H. unfold mret, km_ret in H. injection H as <- <-. by exists f1.
Qed.
Lemma current_fd_close_run k t fd e : tasks (k_sched k) !! cur (k_sched k) = Some (Some t) -> length (fd_table t) = MAX_FDS ->
  fd_table t !! fd = Some e -> e <> FdEmpty -> current_fd_close fd k = Done (Some e, with_table k t (<[fd := FdEmpty]> (fd_table t))).
Proof.
  intros Ht Hl He Hne. unfold current_fd_close. rewrite (bind_run _ _ _ _ _ (current_task_run k t Ht)).
  assert (lift (fd_close (fd_table t) fd) k = Done (Some e, <[fd := FdEmpty]> (fd_table t), k)) as E.
  { unfold lift. by rewrite (fd_close_run _ _ _ Hl He Hne). }
  rewrite (bind_run _ _ _ _ _ E), (bind_run _ _ _ _ _ (set_fds_run k t _ Ht)). reflexivity.
Qed.
(** Closing the last writer's descriptor wakes the reader, and touches no other descriptor. *)
Lemma sys_close_writer k t n fd i e : kernel_inv k -> tasks (k_sched k) !! cur (k_sched k) = Some (Some t) -> length (fd_table t) = MAX_FDS ->
  (n < MAX_FDS)%nat -> fd_table t !! n = Some (PipeWrite i) -> (i < MAX_PIPES)%nat -> fd <> n -> fd_table t !! fd = Some e ->
  option_map ch_w (channel k i) = Some 1%nat ->
  exists k', sys_close (Z.of_nat n) k = Done (Return 0, k') /\ cur_fd k' fd e /\ has_writer k' i = false.
Proof.
  intros [[_ [Hwl Hwq] _ _ _] _ Hp _] Ht Hl Hn Hnt Hi Hne He Hc. unfold sys_close. rewrite as_fd_nat by exact Hn.
  rewrite (bind_run _ _ _ _ _ (current_fd_close_run k t n (PipeWrite i) Ht Hl Hnt ltac:(discriminate))).
  set (k3 := with_table k t (<[n := FdEmpty]> (fd_table t))).
  assert (cur_fd k3 fd e) as Hfd3.
  { apply (with_table_fd k t); [exact Ht | rewrite length_insert; exact Hl | rewrite list_lookup_insert_ne by congruence; exact He]. }
  destruct (close_write_run k3 i Hp) as (P1 & Ec & Hp1 & Hv). rewrite (bind_run _ _ _ _ _ Ec).
  assert (has_writer (put_pool P1 k3) i = false) as Hno.
  { unfold has_writer, channel in *. cbn [k_pool put_pool]. rewrite Hv, chan_at_update, decide_True by done. change (k_pool k3) with (k_pool k).
    destruct (chan_at _ i) as [c|]; [|reflexivity]. cbn in Hc. injection Hc as Hc. cbn. unfold chan_close_w, chan_norm. rewrite Hc. case_decide; done. }
  destruct (wake_pipe_waiter_run (put_pool P1 k3) i) as (k5 & E5 & Es & _ & [Hcur Hnu] & _); [|exact Hi|].
  { split; [exact Hwl|]. intros j q Hj. specialize (Hwq j q Hj). cbn. by rewrite length_insert. }
  exists k5. split; [|split; [by eapply (cur_fd_nudged k3) | unfold has_writer, channel; rewrite Es; exact Hno]].
  assert (wake_if_closed i (put_pool P1 k3) = Done (tt, k5)) as E.
  { unfold wake_if_closed. rewrite (bind_run _ _ _ _ _ (write_open_run (put_pool P1 k3) i Hp1)), Hno. exact E5. }
  rewrite (bind_run _ _ _ _ _ E). reflexivity.
Qed.

(** Duplicating the only write end of a pipe and closing the duplicate closes the pipe for writing,
    although the first descriptor is still open: [dup] does not count the new reference.
    From then on readers see end of file. *)
Theorem dup_close_loses_end k (fd i : nat) (c : chan) (n : Z) k1 (r : sysret) k2 :
  kernel_inv k -> cur_fd k fd (PipeWrite i) -> channel k i = Some c -> ch_w c = 1%nat ->
  sys_dup (Z.of_nat fd) k = Done (Return n, k1) -> 0 <= n -> sys_close n k1 = Done (r, k2) ->
  r = Return 0 /\ cur_fd k2 fd (PipeWrite i) /\ has_writer k2 i = false.
Proof.
  intros Hk Hfd Hc Hw Hdup Hn Hclose. pose proof Hk as [_ _ Hp _]. pose proof (channel_lt _ _ _ Hp Hc) as Hi.
  pose proof (cur_fd_lt _ _ _ Hfd) as Hfd'. destruct Hfd as (t & Ht & Hl & He).
  pose proof (keeps_current_fd_dup (next_pid (k_sched k)) fd k) as Hkeep.
  unfold sys_dup in Hdup. rewrite as_fd_nat in Hdup by exact Hfd'. apply bind_inv in Hdup as (o & k0 & H1 & Hdup).
  destruct (Hkeep _ _ Hk eq_refl H1) as (Hk0 & _). destruct (current_fd_dup_Done k t fd (PipeWrite i) o k0 Ht Hl He ltac:(discriminate) H1) as (f & Ea & ->).
  destruct o as [m|]; unfold mret, km_ret in Hdup; injection Hdup as <- <-; [|lia].
  destruct (fd_alloc_cases _ _ _ _ Hl Ea) as (-> & Hm & Hm'). assert (fd <> m) as Hne by (intros ->; congruence).
  destruct (sys_close_writer (with_table k t (<[m := PipeWrite i]> (fd_table t))) (with_fds (<[m := PipeWrite i]> (fd_table t)) t) m fd i (PipeWrite i))
    as (k' & E & H2 & H3); [exact Hk0 | by apply with_table_cur | | lia | | exact Hi | exact Hne | | |].
  - cbn [fd_table with_fds]. rewrite length_insert. exact Hl.
  - apply list_lookup_insert_eq. lia.
  - cbn [fd_table with_fds]. rewrite list_lookup_insert_ne by congruence. exact He.
  - change (option_map ch_w (channel k i) = Some 1%nat). rewrite Hc. cbn. by rewrite Hw.
  - rewrite E in Hclose. injection Hclose as <- <-. done.
Qed.
End pipes.

(** ** Examples *)

Section demo.
(** The demo machine with an identity map. *)
#[local] Instance flat_arch : ArchOps pages :=
  let x := x86_arch (A := pages) demo_image in {|
  arch_protect_guard := arch_protect_guard (ArchOps := x);
  arch_kernel_root := arch_kernel_root (ArchOps := x);
  arch_user_code_va := arch_user_code_va (ArchOps := x);
  arch_user_stack_top := arch_user_stack_top (ArchOps := x);
  arch_init_stack := arch_init_stack (ArchOps := x);
  arch_init_user_stack := arch_init_user_stack (ArchOps := x);
  arch_init_fork_stack := arch_init_fork_stack (ArchOps := x);
  arch_callee_saved := arch_callee_saved (ArchOps := x);
  arch_has_fs := arch_has_fs (ArchOps := x);
  arch_seed := arch_seed (ArchOps := x);
  arch_walk := fun _ _ va => Some va
|}.
#[local] Instance flat_vops : VmOps pages := x86_ops (im_pml4 demo_image).

(** Tasks in the slots from 1 on with ids in order and parents among them. *)
Definition demo_tasks_ok (ts : list (option Task)) : Prop :=
  forall i t, ts !! i = Some (Some t) -> pid t = 1 + Z.of_nat i /\ 0 <= ppid t < pid t /\ task_ok t.
Definition demo_system (P : pool) (ws : list (option nat)) (ts : list (option Task)) (c : nat) : kernel pages :=
  let k := demo_kernel demo_vm0 ts c 0 in
  put_pool P (put_fs boot_fs (put_sched (with_pipe_waiters ws (k_sched k)) k)).

Lemma demo_system_lookup P ws ts c i t : (length ts <= 63)%nat -> tasks (k_sched (demo_system P ws ts c)) !! i = Some (Some t) ->
  (i = 0%nat /\ t = Task_idle) \/ (exists j, i = S j /\ ts !! j = Some (Some t)).
Proof.
  intros Hl H. change ((Some Task_idle :: ts ++ replicate (63 - length ts) None) !! i = Some (Some t)) in H.
  destruct i as [|j]; [left; by injection H as <-|]. right. exists j. split; [done|].
  change ((ts ++ replicate (63 - length ts) None) !! j = Some (Some t)) in H.
  destruct (decide (j < length ts)%nat); [by rewrite lookup_app_l in H|]. rewrite lookup_app_r in H by lia. by apply lookup_replicate in H as [H _].
Qed.
Lemma demo_system_inv P ws ts c : pool_wf P -> length ws = MAX_PIPES -> (forall i q, ws !! i = Some (Some q) -> (q < MAX_TASKS)%nat) ->
  (length ts <= 63)%nat -> demo_tasks_ok ts -> (exists t, tasks (demo_sched ts c) !! c = Some (Some t)) -> kernel_inv (demo_system P ws ts c).
Proof.
  intros HP Hws Hq Hl Hts Hc. pose proof (demo_system_lookup P ws ts c) as Hlk.
  assert (length (tasks (k_sched (demo_system P ws ts c))) = MAX_TASKS) as Hlen.
  { cbn. rewrite length_app, length_replicate. unfold MAX_TASKS. lia. }
  split; [|split; [exact (proj1 (rb_new_wf 64 (Nat.lt_0_succ 63)))..|split; [reflexivity | apply Nat.lt_0_succ..]] | exact HP | exact boot_fs_wf].
  split.
  - split; try reflexivity; [exact Hlen | exact Hws | exact Hc | by eexists].
  - split; [exact Hws|]. rewrite Hlen. exact Hq.
  - done.
  - intros i t [[_ ->]|(j & _ & Hj)]%Hlk; [|by apply (Hts j t Hj) | exact Hl].
    split; [apply FdTable_new_ok | cbn; unfold MAX_INODES; lia].
  - change (next_pid (k_sched (demo_system P ws ts c))) with (1 + Z.of_nat (length ts)). split.
    + intros i t [[_ ->]|(j & _ & Hj)]%Hlk; [cbn; lia | | exact Hl]. destruct (Hts j t Hj) as (-> & _). apply lookup_lt_Some in Hj. lia.
    + intros i t Hi [[-> _]|(j & _ & Hj)]%Hlk; [done | by apply (Hts j t Hj) | exact Hl].
    + intros a b t u [[-> ->]|(i & -> & Hi)]%Hlk [[-> ->]|(j & -> & Hj)]%Hlk; try exact Hl; intros E; [done | | |].
      * destruct (Hts j u Hj) as (Hp & _). cbn in E. lia.
      * destruct (Hts i t Hi) as (Hp & _). cbn in E. lia.
      * destruct (Hts j u Hj) as (Hp & _), (Hts i t Hi) as (Hp' & _). f_equal. lia.
Qed.

(** Task 1 sleeps on a pipe that task 2 writes to. *)
Definition with_fds_of (l : list FdEntry) (t : Task) : Task := with_fds (l ++ replicate (MAX_FDS - length l) FdEmpty) t.
Definition demo_sleeper : Task := with_fds_of [Stdin; Stdout; Stderr; PipeRead 0] (demo_task 1 0 Blocked 0).
Definition demo_source : Task := with_fds_of [Stdin; Stdout; Stderr; PipeWrite 0] (demo_task 2 0 Ready 0).
Definition demo_sink : Task := with_state Ready demo_sleeper.
Definition demo_sleeping : kernel pages := demo_system demo_pipes (Some 1%nat :: replicate 7 None) [Some demo_sleeper; Some demo_source] 2.
Definition demo_reading : kernel pages := demo_system demo_pipes (replicate 8 None) [Some demo_sink; Some demo_source] 1.
(** All but one of the descriptors are taken. *)
Definition demo_full : Task := with_fds_of (Stdin :: Stdout :: Stderr :: replicate 12 DevNull) (demo_task 1 0 Ready 0).
Definition demo_crowded : kernel pages := demo_system POOL_init (replicate 8 None) [Some demo_full] 1.

Definition demo_task_ok (i : nat) (t : Task) : Prop := pid t = 1 + Z.of_nat i /\ 0 <= ppid t < pid t /\ task_ok t.
Lemma demo_tasks_nil i : forall j t, ([] : list (option Task)) !! j = Some (Some t) -> demo_task_ok (i + j) t.
Proof. done. Qed.
Lemma demo_tasks_cons i t ts : demo_task_ok i t -> (forall j u, ts !! j = Some (Some u) -> demo_task_ok (S i + j) u) ->
  forall j u, (Some t :: ts) !! j = Some (Some u) -> demo_task_ok (i + j) u.
Proof.
  intros Ht Hts [|j] u H; [injection H as <-; by rewrite Nat.add_0_r|]. replace (i + S j)%nat with (S i + j)%nat by lia. by apply Hts.
Qed.
Lemma demo_task_fds_ok p st l : (length l <= MAX_FDS)%nat -> Forall entry_ok l -> task_ok (with_fds_of l (demo_task p 0 st 0)).
Proof.
  intros Hl Hf. split; [|cbn; unfold MAX_INODES; lia]. split; cbn [fd_table with_fds_of with_fds]; [rewrite length_app, length_replicate; lia|].
  apply Forall_app. split; [exact Hf|]. apply Forall_replicate. exact I.
Qed.
Lemma demo_sleeper_ok : demo_task_ok 0 demo_sleeper.
Proof. split; [reflexivity|]. split; [cbn; lia|]. apply demo_task_fds_ok; [cbn; unfold MAX_FDS; lia | repeat constructor]. Qed.
Lemma demo_sink_ok : demo_task_ok 0 demo_sink.
Proof. destruct demo_sleeper_ok as (H1 & H2 & [H3 H4]). split; [exact H1|]. split; [exact H2|]. by split. Qed.
Lemma demo_source_ok : demo_task_ok 1 demo_source.
Proof. split; [reflexivity|]. split; [cbn; lia|]. apply demo_task_fds_ok; [cbn; unfold MAX_FDS; lia | repeat constructor]. Qed.
Lemma demo_full_ok : demo_task_ok 0 demo_full.
Proof. split; [reflexivity|]. split; [cbn; lia|]. apply demo_task_fds_ok; [cbn; unfold MAX_FDS; lia | repeat constructor]. Qed.
Lemma demo_waiters_lt n i q : (Some 1%nat :: replicate n (@None nat)) !! i = Some (Some q) -> (q < MAX_TASKS)%nat.
Proof. destruct i as [|i]; intros H; [injection H as <-; unfold MAX_TASKS; lia|]. cbn in H. by apply lookup_replicate in H as [H _]. Qed.
Lemma demo_sleeping_inv : kernel_inv demo_sleeping.
Proof.
  apply demo_system_inv; [exact demo_pipes_wf | reflexivity | apply demo_waiters_lt | cbn; lia | | by eexists].
  exact (demo_tasks_cons 0 _ _ demo_sleeper_ok (demo_tasks_cons 1 _ _ demo_source_ok (demo_tasks_nil 2))).
Qed.
Lemma no_waiters n i q : replicate n (@None nat) !! i = Some (Some q) -> (q < MAX_TASKS)%nat.
Proof. intros H. by apply lookup_replicate in H as [H _]. Qed.
Lemma demo_reading_inv : kernel_inv demo_reading.
Proof.
  apply demo_system_inv; [exact demo_pipes_wf | reflexivity | apply no_waiters | cbn; lia | | by eexists].
  exact (demo_tasks_cons 0 _ _ demo_sink_ok (demo_tasks_cons 1 _ _ demo_source_ok (demo_tasks_nil 2))).
Qed.
Lemma demo_crowded_inv : kernel_inv demo_crowded.
Proof.
  apply demo_system_inv; [apply POOL_init_wf | reflexivity | apply no_waiters | cbn; lia | | by eexists].
  exact (demo_tasks_cons 0 _ _ demo_full_ok (demo_tasks_nil 1)).
Qed.

Lemma sys_write_pipe_exact_witness : exists k', sys_write 3 0x5000 3 demo_sleeping = Done (Return 3, k') /\
  channel k' 0 = Some (mk_chan [0; 0; 0] 1 1) /\ tasks (k_sched k') !! 1%nat = Some (Some demo_sink).
Proof.
  pose proof (sys_write_pipe_exact demo_sleeping 3 0 0x5000 3 [0; 0; 0] demo_sleeping_inv) as H.
  assert (cur_fd demo_sleeping 3 (PipeWrite 0)) as Hfd by (exists demo_source; split; [reflexivity | split; reflexivity]).
  specialize (H Hfd ltac:(lia) ltac:(lia) eq_refl). change (has_reader demo_sleeping 0) with true in H. cbv iota in H.
  destruct H as (c & k' & Hc & E & Hv & _ & Hw). change (channel demo_sleeping 0) with (Some (mk_chan [] 1 1)) in Hc. injection Hc as <-.
  change (chan_room (mk_chan [] 1 1) [0; 0; 0]) with 3%nat in *. exists k'. split; [exact E|]. split.
  - unfold channel. rewrite Hv. reflexivity.
  - destruct Hw as [_ Hw]; [lia|]. rewrite (Hw 1%nat demo_sleeper eq_refl eq_refl). reflexivity.
Defined.
Lemma sys_read_pipe_exact_witness : exists P', sys_read 3 0x5000 4 demo_reading =
  (schedule;; mret (Again (ReadPipe 0 0x5000 4))) (blocked_on (put_pool P' demo_reading) 0 demo_sink).
Proof.
  assert (cur_fd demo_reading 3 (PipeRead 0)) as Hfd by (exists demo_sink; split; [reflexivity | split; reflexivity]).
  destruct (sys_read_pipe_exact demo_reading 3 0 0x5000 4 demo_sink demo_reading_inv Hfd) as (P' & _ & E); [lia | lia | reflexivity|].
  exists P'. assert (Nat.min (Z.to_nat 4) (length (in_flight demo_reading 0)) = 0%nat) as N0 by (vm_compute; reflexivity).
  assert (has_writer demo_reading 0 = true) as Hw by (vm_compute; reflexivity).
  rewrite N0, Hw, decide_False in E by lia. exact E.
Defined.
Lemma pipe_emfile_keeps_read_end_witness : exists k', sys_pipe 0x5000 demo_crowded = Done (Return (-24), k') /\
  cur_fd k' 15 (PipeRead 0) /\ channel k' 0 = None.
Proof.
  destruct (pipe_emfile_keeps_read_end demo_crowded 0x5000 0 15 demo_full (<[15%nat := PipeRead 0]> (fd_table demo_full))
    (<[15%nat := PipeRead 0]> (fd_table demo_full)) (Some (mk_chan [] 1 1) :: replicate 7 None)) as (k' & H1 & H2 & _ & H3);
    [exact demo_crowded_inv | lia | reflexivity..|]. exists k'. done.
Defined.
Lemma dup_close_loses_end_witness : exists k1 k2, sys_dup 3 demo_sleeping = Done (Return 4, k1) /\ sys_close 4 k1 = Done (Return 0, k2) /\
  cur_fd k2 3 (PipeWrite 0) /\ has_writer k2 0 = false.
Proof.
  assert (cur_fd demo_sleeping 3 (PipeWrite 0)) as Hfd by (exists demo_source; split; [reflexivity | split; reflexivity]).
  assert (match sys_dup 3 demo_sleeping with Done (Return 4, k1) => match sys_close 4 k1 with Done _ => True | Panic => False end | _ => False end) as Hrun
    by (vm_compute; exact I).
  destruct (sys_dup 3 demo_sleeping) as [[[n|] k1]|] eqn:E1; [|destruct Hrun..].
  assert (n = 4) as -> by (destruct n as [|[[|[]|]|[|[]|]|]|]; first [reflexivity | destruct Hrun]).
  destruct (sys_close 4 k1) as [[r k2]|] eqn:E2; [|destruct Hrun].
  destruct (dup_close_loses_end demo_sleeping 3 0 (mk_chan [] 1 1) 4 k1 r k2 demo_sleeping_inv Hfd eq_refl eq_refl E1 ltac:(lia) E2) as (-> & H1 & H2).
  exists k1, k2. done.
Defined.
End demo.
