(* ===== verification/RiscvHandler.v ===== *)
(** The RISC-V trap handler (src/kernel/src/arch/riscv64/trap.rs, [trap_handler]) and the interrupt
    controller it calls (src/kernel/src/boards/qemu_virt_riscv64/plic.rs), on the kernel's state.

    What the control registers scause, time, stval and sepc, and the claim register of the controller,
    read is an argument; the frame is the one RiscvTrap.v saves.  Output goes to the firmware, byte by byte. *)
From Stdlib Require Import ZArith Lia.
From stdpp Require Import base option list numbers.
From S2P Require Import Prelude Console Bitmap RingBuf Ipc Process RiscvAsm RiscvContext RiscvTrap PageTable Pages Paging RamFs RamFsSpec Fs Elf AbiStack Kernel Scheduler Drivers Syscall ShellLine Arch RiscvArch SchedulerSpec TaskLife Invariants SystemInv PipeCalls.
Local Open Scope Z_scope.
Local Open Scope kernel_scope.

Record TrapFrame := mk_frame { tf : xreg -> Z; tf_sepc : Z; tf_sstatus : Z }.
Definition with_reg (r : xreg) (v : Z) (f : TrapFrame) : TrapFrame :=
  mk_frame (fun x => if decide (x = r) then v else tf f x) (tf_sepc f) (tf_sstatus f).
Definition with_sepc (v : Z) (f : TrapFrame) : TrapFrame := mk_frame (tf f) v (tf_sstatus f).

Definition INTERRUPT_BIT : Z := Z.shiftl 1 63.
Definition CAUSE_MASK : Z := wrap 64 (Z.lnot (Z.shiftl 1 63)).
Definition CAUSE_TIMER : Z := 5.
Definition CAUSE_EXT : Z := 9.
Definition CAUSE_SYSCALL : Z := 8.
Definition CAUSE_S_ECALL : Z := 9.
Definition UART_IRQ : Z := 10.

(** What is asked of the firmware and of the interrupt controller. *)
Inductive request := SetTimer (t : Z) | PlicComplete (source : Z).
(** How the handler ends: it returns to the stub with the frame; it waits for interrupts for ever; the timer
    is set again when the interrupted task goes on; the system call goes on when its task runs next. *)
Inductive trap_end := Sret (f : TrapFrame) (rs : list request) | Wfi | RearmLater (f : TrapFrame) | Blocked (c : cont) (f : TrapFrame).

Section riscv.
Context {A : Type} {ops : PageOps A} {vops : VmOps A} {arch : ArchOps A}.
Variables (version_full : bytes) (tgt : target).
Implicit Types k : kernel A.

(** [console::print_str] of the board. *)
Definition sbi_print (s : bytes) : KM A unit := forM s (fun b => mod_tty (sent [b])).
Definition hex_nibble (n : Z) : Z := if n <? 10 then 48 + n else 97 + n - 10.
Definition trap_hex (v : Z) : bytes := (fun j => hex_nibble (Z.land (Z.shiftr v (60 - j * 4)) 0xF)) <$> seqZ 0 16.

Definition plic_handle (source : Z) (rx : bytes) : KM A (list request) :=
  (if source =? UART_IRQ then serial_handle_irq rx else mret tt);;
  mret [PlicComplete source].

(** [time + 100_000] *)
Definition rearm (time : Z) : list request := [SetTimer (uadd time 100000)].
Definition timer_trap (time : Z) (frame : TrapFrame) : KM A trap_end :=
  c ← CURRENT;
  tick;;
  c' ← CURRENT;
  mret (if (c' =? c)%nat then Sret frame (rearm time) else RearmLater frame).
(** After [dispatch] has answered. *)
Definition syscall_return (ret : Z) (frame : TrapFrame) : KM A trap_end :=
  let frame := with_reg A0 (as_u64 ret) frame in
  o ← take_exec_ctx;
  match o with
  | Some (new_ip, new_sp, new_pt) =>
      switch_address_space new_pt;;
      mret (Sret (with_reg SP new_sp (with_sepc new_ip frame)) [])
  | None => mret (Sret (with_sepc (uadd (tf_sepc frame) 4) frame) [])
  end.
Definition page_fault_trap (stval : Z) (frame : TrapFrame) : KM A trap_end :=
  let from_user := Z.land (Z.shiftr (tf_sstatus frame) 8) 1 =? 0 in
  ok ← (if from_user then handle_user_page_fault stval else mret false);
  if ok : bool then mret (Sret frame [])
  else if from_user then exit_current 139;; mret Wfi
  else
    sbi_print (str "[TRAP] kernel page fault sepc=0x");; sbi_print (trap_hex (tf_sepc frame));;
    sbi_print (str " stval=0x");; sbi_print (trap_hex stval);; sbi_print [10];;
    mret Wfi.
Definition unhandled_trap (cause sepc stval : Z) : KM A trap_end :=
  sbi_print (str "[TRAP] unhandled exception cause=");;
  n ← lift (print_u64 cause); sbi_print n;;
  sbi_print (str " sepc=0x");; sbi_print (trap_hex sepc);;
  sbi_print (str " stval=0x");; sbi_print (trap_hex stval);; sbi_print [10];;
  mret Wfi.

Definition trap_handler (scause time stval sepc source : Z) (rx : bytes) (frame : TrapFrame) : KM A trap_end :=
  let is_interrupt := negb (Z.land scause INTERRUPT_BIT =? 0) in
  let cause := Z.land scause CAUSE_MASK in
  if is_interrupt then
    if cause =? CAUSE_TIMER then timer_trap time frame
    else if cause =? CAUSE_EXT then rs ← plic_handle source rx; mret (Sret frame rs)
    else mret (Sret frame [])
  else if cause =? CAUSE_SYSCALL then
    set_user_ctx (uadd (tf_sepc frame) 4) (tf frame SP);;
    ret ← dispatch version_full tgt (tf frame A7) (tf frame A0) (tf frame A1) (tf frame A2) (tf frame A3) (tf frame A4) (tf frame A5);
    match ret with
    | Return v => syscall_return v frame
    | Again c => mret (Blocked c frame)
    end
  else if cause =? CAUSE_S_ECALL then mret (Sret (with_sepc (uadd (tf_sepc frame) 4) frame) [])
  else if (cause =? 12) || (cause =? 13) || (cause =? 15) then page_fault_trap stval frame
  else unhandled_trap cause sepc stval.
(** The rest of the handler, when a task that gave up the processor in it runs again. *)
Definition trap_resume (time : Z) (e : trap_end) : KM A trap_end :=
  match e with
  | RearmLater f => mret (Sret f (rearm time))
  | Blocked c f =>
      r ← continue_call c;
      match r with Return v => syscall_return v f | Again c => mret (Blocked c f) end
  | e => mret e
  end.
End riscv.

(** ** What a trap does *)

Section spec.
Context {A : Type} {ops : PageOps A} {vops : VmOps A} {arch : ArchOps A}.
Variables (version_full : bytes) (tgt : target).
Implicit Types k : kernel A.
Variable N : Z.
Local Abbreviation any := (fun _ => True).
Local Abbreviation kept m Q := (keeps (A := A) N m Q).

Lemma keeps_sbi_print s : kept (sbi_print s) any.
Proof. apply keeps_forM. intros b. apply keeps_tty. intros t [? ? ?]. by split. Qed.
#[local] Hint Resolve keeps_sbi_print keeps_take_exec_ctx : keeps.
Lemma keeps_plic source rx : kept (plic_handle source rx) any.
Proof. unfold plic_handle. ksolve. Qed.
Lemma keeps_timer_trap time frame : kept (timer_trap time frame) (fun r => r = Sret frame (rearm time) \/ r = RearmLater frame).
Proof.
  unfold timer_trap. do 3 (eapply keeps_bind; [eapply keeps_any; eauto with keeps|]; intros ? _).
  apply keeps_ret. case_match; [by left | by right].
Qed.
Lemma keeps_page_fault_trap stval frame : kept (page_fault_trap stval frame) (fun r => r = Sret frame [] \/ r = Wfi).
Proof.
  unfold page_fault_trap. cbv zeta. apply (keeps_bind _ _ _ any); [ksolve|]. intros [] _; [apply keeps_ret; by left|].
  ksolve; by right.
Qed.
Lemma keeps_unhandled_trap cause sepc stval : kept (unhandled_trap cause sepc stval) (fun r => r = Wfi).
Proof. unfold unhandled_trap. ksolve. done. Qed.

(** After a system call: where the task goes on, and what its registers hold. *)
Definition returned (ret : Z) (x : option (Z * Z * Z)) (frame f : TrapFrame) : Prop :=
  tf f A0 = as_u64 ret /\
  match x with
  | Some (ip, sp, _) => tf_sepc f = ip /\ tf f SP = sp
  | None => tf_sepc f = uadd (tf_sepc frame) 4 /\ tf f SP = tf frame SP
  end.
Definition same_rest (frame f : TrapFrame) : Prop :=
  tf_sstatus f = tf_sstatus frame /\ forall r, r <> A0 -> r <> SP -> tf f r = tf frame r.

Lemma syscall_return_Done ret frame k e k' : syscall_return ret frame k = Done (e, k') ->
  exists f, e = Sret f [] /\ same_rest frame f /\ returned ret (exec_request (k_sys k)) frame f /\
    page_root (k_cpu k') = match exec_request (k_sys k) with Some (_, _, root) => root | None => page_root (k_cpu k) end /\
    exec_request (k_sys k') = None.
Proof.
  unfold syscall_return, take_exec_ctx. kred. unfold mod_sys. kred. destruct (exec_request _) as [[[ip sp] root]|] eqn:E; kred.
  - unfold switch_address_space, mod_cpu. kred. intros [= <- <-]. eexists. split; [reflexivity|].
    split; [split; [done|]; intros r ? ?; cbn; by rewrite !decide_False|]. repeat split.
  - intros [= <- <-]. eexists. split; [reflexivity|]. split; [split; [done|]; intros r ? ?; cbn; by rewrite !decide_False|]. repeat split.
Qed.
Lemma keeps_syscall_return ret frame : kept (syscall_return ret frame) any.
Proof. unfold syscall_return, switch_address_space. ksolve. Qed.

End spec.

Section exact.
Context {A : Type} {ops : PageOps A} {vops : VmOps A} {arch : ArchOps A}.
Variables (version_full : bytes) (tgt : target).
Implicit Types k : kernel A.

Definition trap_is_syscall (scause : Z) : bool := (Z.land scause INTERRUPT_BIT =? 0) && (Z.land scause CAUSE_MASK =? CAUSE_SYSCALL).
Definition trap_is_s_ecall (scause : Z) : bool := (Z.land scause INTERRUPT_BIT =? 0) && (Z.land scause CAUSE_MASK =? CAUSE_S_ECALL).
(** The frame after a trap that is not a system call. *)
Definition untouched (scause : Z) (frame f : TrapFrame) : Prop :=
  tf_sstatus f = tf_sstatus frame /\ (forall r, tf f r = tf frame r) /\
  tf_sepc f = if trap_is_s_ecall scause then uadd (tf_sepc frame) 4 else tf_sepc frame.
Definition trap_exact (p : Z) (scause : Z) (frame : TrapFrame) (call : kernel A -> outcome (sysret * kernel A)) k (e : trap_end) k' : Prop :=
  match e with
  | Sret f _ =>
      if trap_is_syscall scause then
        exists ret k1, call k = Done (Return ret, k1) /\ same_rest frame f /\ returned ret (exec_request (k_sys k1)) frame f /\
          exec_request (k_sys k') = None
      else untouched scause frame f
  | Wfi => trap_is_syscall scause = false
  | RearmLater f => trap_is_syscall scause = false /\ f = frame
  | Blocked c f => f = frame /\ cont_of p c /\ call k = Done (Again c, k')
  end.

Lemma trap_call (ctx : KM A unit) (m : KM A sysret) k u k1 r k2 : ctx k = Done (u, k1) -> m k1 = Done (r, k2) -> (ctx;; m) k = Done (r, k2).
Proof. intros H1 H2. unfold mbind, km_bind. by rewrite H1. Qed.
Lemma not_syscall scause e frame p call k k' : trap_is_syscall scause = false ->
  match e with Sret f _ => untouched scause frame f | RearmLater f => f = frame | Wfi => True | Blocked _ _ => False end ->
  trap_exact p scause frame call k e k'.
Proof. intros Hs. destruct e; cbn [trap_exact]; rewrite ?Hs; intuition. Qed.
Lemma interrupt_flags scause : (Z.land scause INTERRUPT_BIT =? 0) = false -> trap_is_syscall scause = false /\ trap_is_s_ecall scause = false.
Proof. intros E. unfold trap_is_syscall, trap_is_s_ecall. by rewrite E. Qed.
Lemma untouched_same scause frame : trap_is_s_ecall scause = false -> untouched scause frame frame.
Proof. intros E. unfold untouched. by rewrite E. Qed.

Lemma trap_handler_spec p scause time stval sepc source rx frame k e k' :
  kernel_inv k -> current_pid_is p k -> next_pid (k_sched k) < 2 ^ 64 - 1 ->
  trap_handler version_full tgt scause time stval sepc source rx frame k = Done (e, k') ->
  kernel_inv k' /\
  trap_exact p scause frame (syscall_entry_rust version_full tgt (tf frame A7) (tf frame A0) (tf frame A1) (tf frame A2)
    (tf frame A3) (tf frame A4) (tf frame A5) (uadd (tf_sepc frame) 4) (tf frame SP)) k e k'.
Proof.
  intros Hk Hp HN. pose proof (fun X (m : KM A X) Q (Hm : keeps (next_pid (k_sched k)) m Q) y k1 => Hm k y k1 Hk eq_refl) as use.
  unfold trap_handler. cbv zeta. destruct (Z.land scause INTERRUPT_BIT =? 0) eqn:Ei; cbn [negb].
  - destruct (Z.land scause CAUSE_MASK =? CAUSE_SYSCALL) eqn:Es.
    + assert (trap_is_syscall scause = true) as Hs by (unfold trap_is_syscall; by rewrite Ei, Es).
      intros H. apply bind_inv in H as (u & k1 & H1 & H). apply bind_inv in H as (r & k2 & H2 & H).
      pose proof (trap_call _ _ _ _ _ _ _ H1 H2) as Hc.
      destruct (call_syscall _ version_full tgt p _ _ _ _ _ _ _ _ _ _ _ _ Hk Hp HN eq_refl Hc) as [Hk2 Hr].
      destruct r as [v|c]; [|unfold mret, km_ret in H; by injection H as <- <-].
      split; [eapply keeps_syscall_return; [exact Hk2 | reflexivity | exact H]|].
      apply syscall_return_Done in H as (f & -> & Hsame & Hret & _ & Hx). cbn [trap_exact]. rewrite Hs. eauto 6.
    + assert (trap_is_syscall scause = false) as Hs by (unfold trap_is_syscall; by rewrite Ei, Es).
      destruct (Z.land scause CAUSE_MASK =? CAUSE_S_ECALL) eqn:Ee;
        [|assert (trap_is_s_ecall scause = false) as He by (unfold trap_is_s_ecall; by rewrite Ei, Ee); destruct (_ || _)].
      * intros [= <- <-]. split; [done|]. apply not_syscall; [done|]. unfold untouched, trap_is_s_ecall. by rewrite Ei, Ee.
      * intros H. apply (use _ _ _ (keeps_page_fault_trap _ stval frame)) in H as (? & _ & [-> | ->]); (split; [done|]); apply not_syscall; try done.
        by apply untouched_same.
      * intros H. apply (use _ _ _ (keeps_unhandled_trap _ _ _ _)) in H as (? & _ & ->). split; [done|]. by apply not_syscall.
  - destruct (interrupt_flags _ Ei) as [Hs He]. destruct (_ =? CAUSE_TIMER).
    + intros H. apply (use _ _ _ (keeps_timer_trap _ time frame)) in H as (? & _ & [-> | ->]); (split; [done|]); apply not_syscall; try done.
      by apply untouched_same.
    + destruct (_ =? CAUSE_EXT).
      * intros H. apply bind_inv in H as (rs & k1 & H1 & H). apply (use _ _ _ (keeps_plic _ source rx)) in H1 as (? & _ & _).
        unfold mret, km_ret in H. injection H as <- <-. split; [done|]. apply not_syscall; [done|]. by apply untouched_same.
      * intros [= <- <-]. split; [done|]. apply not_syscall; [done|]. by apply untouched_same.
Qed.
Lemma trap_handler_keeps p scause time stval sepc source rx frame k e k' :
  kernel_inv k -> current_pid_is p k -> next_pid (k_sched k) < 2 ^ 64 - 1 ->
  trap_handler version_full tgt scause time stval sepc source rx frame k = Done (e, k') ->
  kernel_inv k' /\ match e with Blocked c _ => cont_of p c | _ => True end.
Proof.
  intros Hk Hp Hn H. destruct (trap_handler_spec _ _ _ _ _ _ _ _ _ _ _ Hk Hp Hn H) as [? He]. split; [done|]. destruct e; [done..|]. apply He.
Qed.
(** A call that goes on when its task runs again. *)
Lemma trap_resume_keeps p c time frame k e k' : kernel_inv k -> current_pid_is p k -> cont_of p c ->
  trap_resume time (Blocked c frame) k = Done (e, k') -> kernel_inv k' /\ match e with Blocked c' _ => cont_of p c' | _ => True end.
Proof.
  intros Hk Hp Hc H. apply bind_inv in H as (r & k1 & H1 & H).
  destruct (continue_call_keeps _ _ _ _ _ _ Hk eq_refl Hp Hc H1) as (Hk1 & _ & Hr). destruct r as [v|c'].
  - split; [eapply keeps_syscall_return; [exact Hk1 | reflexivity | exact H]|].
    by apply syscall_return_Done in H as (f & -> & _).
  - unfold mret, km_ret in H. by injection H as <- <-.
Qed.

(** C23: a RISC-V trap in a task with process id [p] keeps the kernel's invariant, and what the
    handler leaves in the trap frame is exact.  A system call enters [dispatch] with the registers
    a7 and a0 to a5, the address after the ecall and the user's stack pointer; when it returns, a0
    holds its answer, every other register but sp and sstatus are the task's own, and the task goes on behind
    the ecall with its stack pointer, or, after an execve, at the new program's entry and
    stack, the request for it being taken; a call that waits leaves the frame as it was.  Every other trap,
    timer, external interrupt, page fault or unknown, that returns leaves each register and sstatus
    alone and retries the interrupted instruction, except an ecall of the kernel itself, which is skipped. *)
Theorem trap_handler_exact p scause time stval sepc source rx frame k e k' :
  kernel_inv k -> current_pid_is p k -> next_pid (k_sched k) < 2 ^ 64 - 1 ->
  trap_handler version_full tgt scause time stval sepc source rx frame k = Done (e, k') ->
  kernel_inv k' /\
  trap_exact p scause frame (syscall_entry_rust version_full tgt (tf frame A7) (tf frame A0) (tf frame A1) (tf frame A2)
    (tf frame A3) (tf frame A4) (tf frame A5) (uadd (tf_sepc frame) 4) (tf frame SP)) k e k'.
Proof. apply trap_handler_spec. Qed.
End exact.

(** Task 1 asks for its process id. *)
Section demo.
#[local] Instance demo_rv_arch : ArchOps pages := rv_arch demo_rv_image.
#[local] Instance demo_rv_vm : VmOps pages := sv39_ops (rim_root demo_rv_image).

Definition demo_frame : TrapFrame := mk_frame (fun r => match r with A7 => SYS_GETPID | SP => 0x10fff000 | _ => 7 end) 0x100001000 0x40020.
Local Abbreviation demo_trap := (trap_handler [] Riscv64 CAUSE_SYSCALL 0 0 0x100001000 0 [] demo_frame).
Lemma demo_trap_run : runs (demo_trap demo_reading) (fun '(e, _) => exists f, e = Sret f [] /\ tf f A0 = 1 /\ tf_sepc f = 0x100001004).
Proof. vm_compute. by eexists. Qed.
Lemma trap_handler_exact_witness : exists f k', demo_trap demo_reading = Done (Sret f [], k') /\ kernel_inv k' /\
  tf f A0 = 1 /\ tf_sepc f = 0x100001004 /\ tf f A1 = 7.
Proof.
  pose proof demo_trap_run as Hr. destruct (demo_trap demo_reading) as [[e k']|] eqn:E; [|done].
  destruct Hr as (f & -> & Ha & Hs). exists f, k'. split; [reflexivity|].
  destruct (trap_handler_exact [] Riscv64 1 CAUSE_SYSCALL 0 0 0x100001000 0 [] demo_frame demo_reading (Sret f []) k' demo_reading_inv) as [Hk He];
    [by eexists | by vm_compute | exact E |].
  split; [exact Hk|]. cbn [trap_exact] in He. change (trap_is_syscall CAUSE_SYSCALL) with true in He. cbn iota in He.
  destruct He as (ret & k1 & _ & [_ Hsame] & _). split; [exact Ha|]. split; [exact Hs|]. by apply (Hsame A1).
Defined.
End demo.
