(* ===== verification/ArmHandler.v ===== *)
(** The interrupts of AArch64 on the kernel's state: the dispatchers of the two boards
    (src/kernel/src/boards/qemu_virt_aarch64/gic.rs, src/kernel/src/boards/raspberrypi3/intc.rs) behind
    [aarch64_irq_handler], and the fatal handler of src/kernel/src/arch/aarch64/exceptions.rs.

    What the registers of the controllers and the exception registers read is an argument; what is written to the
    controller and to the timer is a list of requests. *)
From Stdlib Require Import ZArith Lia.
From stdpp Require Import base option list numbers.
From S2P Require Import Prelude Console Bitmap RingBuf Ipc Process PageTable Pages Paging RamFs Fs Elf AbiStack Kernel Scheduler Drivers RiscvHandler SchedulerSpec TaskLife Invariants.
Local Open Scope Z_scope.
Local Open Scope kernel_scope.

(** gic.rs *)
Definition TIMER_IRQ : Z := 30.
Definition UART_IRQ : Z := 33.
Definition SPURIOUS : Z := 1023.
(** intc.rs *)
Definition CORE0_SRC_CNTPNSIRQ : Z := Z.shiftl 1 1.
Definition CORE0_SRC_GPU : Z := Z.shiftl 1 8.
Definition RPI_UART_IRQ : Z := 57.

Inductive arm_request := TimerRearm | GicEoi (id : Z).
(** How a dispatcher ends: it is done; or the tick gave up the processor, and the rest comes when the interrupted task goes on. *)
Inductive irq_end := IrqDone (rs : list arm_request) | GicLater (id : Z) | IntcLater (source : Z).

Section arm.
Context {A : Type} {ops : PageOps A} {vops : VmOps A} {arch : ArchOps A}.

(** [tick], and whether the same task goes on after it. *)
Definition tick_stays : KM A bool := c ← CURRENT; tick;; c' ← CURRENT; mret (c' =? c)%nat.

Definition gic_handle (iar : Z) (rx : bytes) : KM A irq_end :=
  let id := Z.land iar 0x3FF in
  if id =? TIMER_IRQ then stays ← tick_stays; mret (if stays : bool then IrqDone [TimerRearm; GicEoi id] else GicLater id)
  else
    (if id =? UART_IRQ then serial_handle_irq rx else mret tt);;
    mret (IrqDone (if negb (id =? SPURIOUS) then [GicEoi id] else [])).
(** The second test of intc.rs. *)
Definition intc_gpu (source pending : Z) (rx : bytes) (rs : list arm_request) : KM A irq_end :=
  (if negb (Z.land source CORE0_SRC_GPU =? 0) && negb (Z.land pending (Z.shiftl 1 (RPI_UART_IRQ - 32)) =? 0) then serial_handle_irq rx else mret tt);;
  mret (IrqDone rs).
Definition intc_handle (source pending : Z) (rx : bytes) : KM A irq_end :=
  if negb (Z.land source CORE0_SRC_CNTPNSIRQ =? 0) then
    stays ← tick_stays;
    if stays : bool then intc_gpu source pending rx [TimerRearm] else mret (IntcLater source)
  else intc_gpu source pending rx [].
(** The rest, when the interrupted task goes on; [pending] is read then. *)
Definition irq_resume (pending : Z) (rx : bytes) (e : irq_end) : KM A irq_end :=
  match e with
  | GicLater id => mret (IrqDone [TimerRearm; GicEoi id])
  | IntcLater source => intc_gpu source pending rx [TimerRearm]
  | IrqDone rs => mret (IrqDone rs)
  end.
(** [aarch64_irq_handler] on the board that is built. *)
Inductive arm_irq := GicIrq (iar : Z) | IntcIrq (source pending : Z).
Definition aarch64_irq_handler (i : arm_irq) (rx : bytes) : KM A irq_end :=
  match i with GicIrq iar => gic_handle iar rx | IntcIrq source pending => intc_handle source pending rx end.

(** [console::print_str]: each byte to the UART; then the core waits for ever. *)
Definition arm_print_str (s : bytes) : KM A unit := forM s (fun b => mod_tty (sent [b])).
Definition aarch64_fatal_handler (esr far elr : Z) : KM A unit :=
  arm_print_str (str "[TRAP] unhandled aarch64 exception esr=0x");; arm_print_str (trap_hex esr);;
  arm_print_str (str " far=0x");; arm_print_str (trap_hex far);;
  arm_print_str (str " elr=0x");; arm_print_str (trap_hex elr);; arm_print_str [10].
End arm.

Section spec.
Context {A : Type} {ops : PageOps A} {vops : VmOps A} {arch : ArchOps A}.
Variable N : Z.
Local Abbreviation any := (fun _ => True).
Local Abbreviation kept m Q := (keeps (A := A) N m Q).

Lemma keeps_tick_stays : kept tick_stays any.
Proof. unfold tick_stays. ksolve. Qed.
#[local] Hint Resolve keeps_tick_stays : keeps.
Lemma keeps_intc_gpu source pending rx rs : kept (intc_gpu source pending rx rs) any.
Proof. unfold intc_gpu. ksolve. Qed.
#[local] Hint Resolve keeps_intc_gpu : keeps.
Lemma keeps_aarch64_irq i rx : kept (aarch64_irq_handler i rx) any.
Proof. destruct i; unfold aarch64_irq_handler, gic_handle, intc_handle; ksolve. Qed.
Lemma keeps_irq_resume pending rx e : kept (irq_resume pending rx e) any.
Proof. destruct e; unfold irq_resume; ksolve. Qed.
Lemma keeps_arm_print s : kept (arm_print_str s) any.
Proof. apply keeps_forM. intros b. apply keeps_tty. intros t [? ? ?]. by split. Qed.
#[local] Hint Resolve keeps_arm_print : keeps.
Lemma keeps_aarch64_fatal esr far elr : kept (aarch64_fatal_handler esr far elr) any.
Proof. unfold aarch64_fatal_handler. ksolve. Qed.
End spec.
