(* ===== verification/Devices.v ===== *)
(** The programming of the devices: serial lines (boards/qemu_pc/console.rs, drivers/serial/src/com1.rs,
    ns16550.rs, pl011.rs), timers (drivers/timer/src/), the keyboard controller (drivers/keyboard/src/ps2.rs),
    the pins of the Raspberry Pi (boards/raspberrypi3/gpio.rs) and the set-up of the interrupt controllers
    (boards/qemu_virt_aarch64/gic.rs, boards/raspberrypi3/intc.rs, boards/qemu_virt_riscv64/plic.rs), all under src/kernel/src/.

    The functions are programs over any device; what devices answer is in DevicesSpec.v.  A memory-mapped register
    is named by its address, an I/O port by its number. *)
From Stdlib Require Import ZArith.
From stdpp Require Import base option list numbers.
From S2P Require Import Prelude Drivers Pic ArmPaging RiscvHandler ArmHandler.
Local Open Scope Z_scope.

(** What can be read from and written to. *)
Class Device (D : Type) := { dev_read : Z -> D -> Z * D; dev_write : Z -> Z -> D -> D }.
Definition IO (D A : Type) : Type := D -> A * D.
#[global] Instance io_ret {D} : MRet (IO D) := fun _ a d => (a, d).
#[global] Instance io_bind {D} : MBind (IO D) := fun _ _ f m d => let '(a, d') := m d in f a d'.

Section programs.
Context {D : Type} {dev : Device D}.

Definition read_reg (r : Z) : IO D Z := fun d => dev_read r d.
Definition write_reg (r v : Z) : IO D unit := fun d => (tt, dev_write r v d).
Definition write_all (l : list (Z * Z)) : IO D unit := fun d => (tt, foldl (fun d w => dev_write w.1 w.2 d) d l).

(** A loop that reads a register while it is busy, at most [n] times; whether it was left ready. *)
Fixpoint poll (r : Z) (busy : Z -> bool) (n : nat) : IO D bool :=
  match n with
  | O => mret false
  | S n => v ← read_reg r; if busy v then poll r busy n else mret true
  end.
(** A wait for a bit, of a device that lets [n] reads pass at most, then the write. *)
Definition write_when (n : nat) (r : Z) (busy : Z -> bool) (data v : Z) : IO D bool :=
  ok ← poll r busy n; if ok : bool then write_reg data v;; mret true else mret false.

(** boards/qemu_pc/console.rs; com1.rs *)
Definition COM1 : Z := 0x3F8.
Definition LSR : Z := COM1 + 5.
Definition LSR_RX_READY : Z := 0x01.
Definition LSR_TX_EMPTY : Z := 0x20.
Definition serial_init : IO D unit :=
  write_all [(COM1 + 1, 0x00); (COM1 + 3, 0x80); (COM1 + 0, 0x01); (COM1 + 1, 0x00); (COM1 + 3, 0x03); (COM1 + 2, 0x00); (COM1 + 4, 0x0B)].
Definition pic_unmask_io (irq : Z) : IO D unit :=
  v ← read_reg (pic_line irq).1; write_all (pic_unmask (fun _ => v) irq).
Definition com1_init : IO D unit := write_reg (COM1 + 2) 0x01;; write_reg (COM1 + 1) 0x01;; pic_unmask_io 4.
Definition tx_busy (v : Z) : bool := Z.land v LSR_TX_EMPTY =? 0.
Definition com1_write_byte (n : nat) (b : Z) : IO D bool := write_when n LSR tx_busy COM1 b.
Definition com1_rx_ready : IO D bool := v ← read_reg LSR; mret (negb (Z.land v LSR_RX_READY =? 0)).
Definition com1_read_data : IO D Z := read_reg COM1.
(** common.rs, [handle_irq]: the bytes pushed, in [n] rounds at most. *)
Fixpoint drain (rx_ready : IO D bool) (read_data : IO D Z) (n : nat) : IO D bytes :=
  match n with
  | O => mret []
  | S n => r ← rx_ready; if r : bool then b ← read_data; l ← drain rx_ready read_data n; mret (b :: l) else mret []
  end.

(** ns16550.rs *)
Definition NS16550_BASE : Z := 0x10000000.
Definition ns16550_init : IO D unit :=
  write_all ((fun w => (NS16550_BASE + w.1, w.2)) <$> [(1, 0x00); (3, 0x80); (0, 0x01); (1, 0x00); (3, 0x03); (2, 0xC7); (4, 0x0B); (1, 0x01)]).
Definition ns16550_write_byte (n : nat) (b : Z) : IO D bool := write_when n (NS16550_BASE + 5) tx_busy (NS16550_BASE + 0) b.
Definition ns16550_rx_ready : IO D bool := v ← read_reg (NS16550_BASE + 5); mret (negb (Z.land v LSR_RX_READY =? 0)).
Definition ns16550_read_data : IO D Z := read_reg (NS16550_BASE + 0).

(** pl011.rs; the base depends on the board. *)
Definition UARTDR : Z := 0x00.
Definition UARTFR : Z := 0x18.
Definition UARTIMSC : Z := 0x38.
Definition UARTICR : Z := 0x44.
Definition UARTFR_RXFE : Z := Z.shiftl 1 4.
Definition UARTFR_TXFF : Z := Z.shiftl 1 5.
Definition RXIM : Z := Z.shiftl 1 4.
Definition PL011_VIRT : Z := 0x09000000.
Definition PL011_RPI : Z := PERIPHERAL_BASE + 0x00201000.
Definition tx_full (v : Z) : bool := negb (Z.land v UARTFR_TXFF =? 0).
Definition pl011_init (base : Z) : IO D unit := write_reg (base + UARTICR) 0x7FF;; write_reg (base + UARTIMSC) RXIM.
Definition pl011_write_byte (base : Z) (n : nat) (b : Z) : IO D bool := write_when n (base + UARTFR) tx_full (base + UARTDR) b.
Definition pl011_rx_ready (base : Z) : IO D bool := v ← read_reg (base + UARTFR); mret (Z.land v UARTFR_RXFE =? 0).
Definition pl011_read_data (base : Z) : IO D Z := v ← read_reg (base + UARTDR); mret (wrap 8 v).

(** pit.rs, clint.rs, generic_timer.rs *)
Definition PIT_CHANNEL0 : Z := 0x40.
Definition PIT_CMD : Z := 0x43.
Definition pit_init : IO D unit :=
  let divisor := 11931 in
  write_reg PIT_CMD 0x36;; write_reg PIT_CHANNEL0 (Z.land divisor 0xFF);; write_reg PIT_CHANNEL0 (Z.shiftr divisor 8).
(** The time asked for, and the new sie. *)
Definition clint_init (time sie : Z) : Z * Z := (uadd time 100000, Z.lor sie 0x20).
(** INTERVAL, CNTP_TVAL and CNTP_CTL. *)
Definition generic_timer_init (freq : Z) : Z * Z * Z := let interval := freq / 100 in (interval, interval, 1).
Definition generic_timer_rearm (INTERVAL : Z) : Z := INTERVAL.

(** ps2.rs *)
Definition PS2_DATA : Z := 0x60.
Definition PS2_STATUS : Z := 0x64.
Definition PS2_CMD : Z := 0x64.
Definition STATUS_IBF : Z := Z.shiftl 1 1.
(** The counter passes 100000 at the read number 100001. *)
Definition PS2_READS : nat := Z.to_nat 100001.
Definition wait_ibf_clear : IO D bool := poll PS2_STATUS (fun v => negb (Z.land v STATUS_IBF =? 0)) PS2_READS.
Definition wait_obf_set : IO D bool := poll PS2_STATUS (fun v => Z.land v STATUS_OBF =? 0) PS2_READS.
Definition ps2_flush : IO D unit :=
  st ← read_reg PS2_STATUS; if negb (Z.land st STATUS_OBF =? 0) then _ ← read_reg PS2_DATA; mret tt else mret tt.
(** A byte to one of the ports, and a byte back. *)
Definition ps2_send (port v : Z) : IO D unit := _ ← wait_ibf_clear; write_reg port v.
Definition ps2_receive : IO D Z := _ ← wait_obf_set; read_reg PS2_DATA.
Definition ps2_init : IO D unit :=
  ps2_flush;;
  ps2_send PS2_CMD 0x20;; cmd ← ps2_receive;
  let new_cmd := Z.land (Z.lor cmd 0x01) (Z.lnot 0x10) in
  ps2_send PS2_CMD 0x60;; ps2_send PS2_DATA new_cmd;;
  ps2_send PS2_DATA 0xF4;; _ ← ps2_receive; mret tt.

(** gpio.rs *)
Definition GPIO_BASE : Z := PERIPHERAL_BASE + 0x00200000.
Definition GPFSEL1 : Z := GPIO_BASE + 0x04.
Definition GPPUD : Z := GPIO_BASE + 0x94.
Definition GPPUDCLK0 : Z := GPIO_BASE + 0x98.
Definition init_uart_pins : IO D unit :=
  fsel ← read_reg GPFSEL1;
  let fsel := Z.land fsel (Z.lnot (Z.lor (Z.shiftl 7 12) (Z.shiftl 7 15))) in
  let fsel := Z.lor fsel (Z.lor (Z.shiftl 4 12) (Z.shiftl 4 15)) in
  write_reg GPFSEL1 fsel;;
  write_reg GPPUD 0;; write_reg GPPUDCLK0 (Z.lor (Z.shiftl 1 14) (Z.shiftl 1 15));; write_reg GPPUD 0;; write_reg GPPUDCLK0 0.

(** gic.rs *)
Definition GICD_BASE : Z := 0x08000000.
Definition GICC_BASE : Z := 0x08010000.
Definition GICD_CTLR : Z := 0x000.
Definition GICD_ISENABLER : Z := 0x100.
Definition GICD_ICENABLER : Z := 0x180.
Definition GICD_ITARGETSR : Z := 0x800.
Definition GICC_CTLR : Z := 0x000.
Definition GICC_PMR : Z := 0x004.
Definition GICC_EOIR : Z := 0x010.
Definition gic_enable (id : Z) : IO D unit :=
  (if 32 <=? id then write_reg (GICD_BASE + GICD_ITARGETSR + id) 1 else mret tt);;
  write_reg (GICD_BASE + (GICD_ISENABLER + id / 32 * 4)) (Z.shiftl 1 (id mod 32)).
Definition gic_disable (id : Z) : IO D unit := write_reg (GICD_BASE + (GICD_ICENABLER + id / 32 * 4)) (Z.shiftl 1 (id mod 32)).
Definition gic_init : IO D unit :=
  write_reg (GICD_BASE + GICD_CTLR) 1;; write_reg (GICC_BASE + GICC_PMR) 0xFF;; write_reg (GICC_BASE + GICC_CTLR) 1;;
  gic_enable TIMER_IRQ;; gic_enable ArmHandler.UART_IRQ.

(** intc.rs *)
Definition CORE0_TIMER_IRQCNTL : Z := 0x40000000 + 0x40.
Definition ENABLE_IRQS_2 : Z := PERIPHERAL_BASE + 0xB200 + 0x14.
Definition RPI_TIMER_IRQ : Z := 1.
Definition intc_init : IO D unit :=
  ctl ← read_reg CORE0_TIMER_IRQCNTL; write_reg CORE0_TIMER_IRQCNTL (Z.lor ctl CORE0_SRC_CNTPNSIRQ);;
  write_reg ENABLE_IRQS_2 (Z.shiftl 1 (RPI_UART_IRQ - 32)).
Definition intc_enable (id : Z) : IO D unit :=
  if id =? RPI_TIMER_IRQ then ctl ← read_reg CORE0_TIMER_IRQCNTL; write_reg CORE0_TIMER_IRQCNTL (Z.lor ctl CORE0_SRC_CNTPNSIRQ)
  else if id =? RPI_UART_IRQ then write_reg ENABLE_IRQS_2 (Z.shiftl 1 (RPI_UART_IRQ - 32)) else mret tt.
Definition intc_disable (id : Z) : IO D unit :=
  if id =? RPI_TIMER_IRQ then ctl ← read_reg CORE0_TIMER_IRQCNTL; write_reg CORE0_TIMER_IRQCNTL (Z.land ctl (Z.lnot CORE0_SRC_CNTPNSIRQ)) else mret tt.

(** plic.rs *)
Definition PLIC_BASE : Z := 0x0C000000.
Definition CONTEXT : Z := 1.
Definition priority_reg (source : Z) : Z := PLIC_BASE + source * 4.
Definition enable_reg (context source : Z) : Z := PLIC_BASE + 0x2000 + context * 0x80 + source / 32 * 4.
Definition threshold_reg (context : Z) : Z := PLIC_BASE + 0x200000 + context * 0x1000.
Definition plic_init : IO D unit :=
  write_reg (priority_reg RiscvHandler.UART_IRQ) 1;;
  (let reg := enable_reg CONTEXT RiscvHandler.UART_IRQ in
   val ← read_reg reg; write_reg reg (Z.lor val (Z.shiftl 1 (RiscvHandler.UART_IRQ mod 32))));;
  write_reg (threshold_reg CONTEXT) 0.

(** The order at boot on a PC: [boards::current::init], [unmask_default_irqs], [drivers::init]. *)
Definition pic_init_io : IO D unit := m1 ← read_reg PIC1_DATA; m2 ← read_reg PIC2_DATA; write_all (pic_init m1 m2).
Definition unmask_default_irqs : IO D unit := pic_unmask_io 0;; pic_unmask_io 1.
Definition pc_drivers_init : IO D unit := pit_init;; ps2_init;; com1_init.
Definition pc_bring_up : IO D unit := pic_init_io;; serial_init;; unmask_default_irqs;; pc_drivers_init.
End programs.
