(* ===== verification/DevicesSpec.v ===== *)
(** What the programs of Devices.v make of the devices, which are given here as their data sheets describe them:
    the 16550 serial line, the keyboard controller, the interval timer, the two interrupt controllers of a PC
    (Pic.v) and the machine they make up; the GIC; and devices that are plain registers. *)
From Stdlib Require Import ZArith Lia.
From stdpp Require Import base option list numbers.
From S2P Require Import Prelude Drivers Pic ArmPaging RiscvHandler ArmHandler Devices.
Local Open Scope Z_scope.

(** ** Programs over any device *)

Lemma io_bind_eq {D A B} (m : IO D A) (f : A -> IO D B) d : (m ≫= f) d = f (m d).1 (m d).2.
Proof. unfold mbind, io_bind. by destruct (m d). Qed.
Lemma io_ret_eq {D A} (a : A) (d : D) : (mret a : IO D A) d = (a, d).
Proof. done. Qed.
(** A device that is busy for [b] reads. *)
Lemma poll_countdown {D} {dev : Device D} r busy (st : nat -> D) n b :
  (forall k, exists v, dev_read r (st (S k)) = (v, st k) /\ busy v = true) ->
  (exists v, dev_read r (st O) = (v, st O) /\ busy v = false) -> (b < n)%nat -> poll r busy n (st b) = (true, st O).
Proof.
  intros Hs H0. revert n. induction b as [|b IH]; intros [|n] Hn; try lia.
  - destruct H0 as (v & E & Hv). cbn [poll]. rewrite io_bind_eq. unfold read_reg. rewrite E. cbn [fst snd]. by rewrite Hv.
  - destruct (Hs b) as (v & E & Hv). cbn [poll]. rewrite io_bind_eq. unfold read_reg. rewrite E. cbn [fst snd]. rewrite Hv. apply IH. lia.
Qed.
(** Any device, with a count of the accesses. *)
#[local] Instance counted {D} (dev : Device D) : Device (D * Z) := {|
  dev_read r d := let '(v, d') := dev_read r d.1 in (v, (d', d.2 + 1));
  dev_write r v d := (dev_write r v d.1, d.2 + 1)
|}.
Section counting.
Context {D : Type} (dev : Device D).
(** At most [n] accesses. *)
Definition costs {A} (m : IO (D * Z) A) (n : Z) : Prop := forall d, (m d).2.2 <= d.2 + n.
Lemma costs_ret {A} (a : A) : costs (mret a) 0.
Proof. intros d. cbn. lia. Qed.
Lemma costs_bind {A B} (m : IO (D * Z) A) (f : A -> IO (D * Z) B) a b : costs m a -> (forall x, costs (f x) b) -> costs (m ≫= f) (a + b).
Proof. intros Hm Hf d. rewrite io_bind_eq. specialize (Hm d). specialize (Hf (m d).1 (m d).2). lia. Qed.
Lemma costs_read r : costs (read_reg r) 1.
Proof. intros d. unfold read_reg. cbn. by destruct (dev_read r d.1). Qed.
Lemma costs_write r v : costs (write_reg r v) 1.
Proof. intros d. cbn. lia. Qed.
Lemma costs_poll r busy n : costs (poll r busy n) (Z.of_nat n).
Proof.
  induction n as [|n IH]; [apply costs_ret|]. rewrite Nat2Z.inj_succ, <- Z.add_1_l. apply costs_bind; [apply costs_read|].
  intros v. destruct (busy v); [exact IH|]. intros d. cbn. lia.
Qed.
Lemma costs_le {A} (m : IO (D * Z) A) a b : costs m a -> a <= b -> costs m b.
Proof. intros Hm Hab d. specialize (Hm d). lia. Qed.
End counting.

(** ** The serial line *)

(** [u_busy] reads of the status pass before the byte being sent is out, [u_delay] for the next one. *)
Record uart := mk_uart { u_ier : Z; u_fcr : Z; u_lcr : Z; u_mcr : Z; u_dll : Z; u_dlm : Z; u_rx : bytes; u_tx : bytes; u_busy : nat; u_delay : nat }.
Definition u_dlab (u : uart) : bool := Z.testbit (u_lcr u) 7.
Definition with_rx (l : bytes) (u : uart) : uart := mk_uart (u_ier u) (u_fcr u) (u_lcr u) (u_mcr u) (u_dll u) (u_dlm u) l (u_tx u) (u_busy u) (u_delay u).
Definition with_busy (n : nat) (u : uart) : uart := mk_uart (u_ier u) (u_fcr u) (u_lcr u) (u_mcr u) (u_dll u) (u_dlm u) (u_rx u) (u_tx u) n (u_delay u).
Definition transmitted (b : Z) (u : uart) : uart :=
  mk_uart (u_ier u) (u_fcr u) (u_lcr u) (u_mcr u) (u_dll u) (u_dlm u) (u_rx u) (u_tx u ++ [b]) (u_delay u) (u_delay u).
Definition uart_read (off : Z) (u : uart) : Z * uart :=
  if off =? 0 then
    if u_dlab u then (u_dll u, u) else match u_rx u with b :: l => (b, with_rx l u) | [] => (0, u) end
  else if off =? 1 then (if u_dlab u then u_dlm u else u_ier u, u)
  else if off =? 3 then (u_lcr u, u)
  else if off =? 4 then (u_mcr u, u)
  else if off =? 5 then
    ((match u_rx u with [] => 0 | _ => 1 end) + (match u_busy u with O => 0x20 | _ => 0 end), with_busy (pred (u_busy u)) u)
  else (0, u).
(** A byte written before the last one is out is lost; both queues are emptied when the bit that enables
    them changes, the receive queue also by its own bit. *)
Definition uart_write (off v : Z) (u : uart) : uart :=
  let '(mk_uart ier fcr lcr mcr dll dlm rx tx busy delay) := u in
  if off =? 0 then
    if u_dlab u then mk_uart ier fcr lcr mcr v dlm rx tx busy delay
    else match busy with O => transmitted v u | _ => u end
  else if off =? 1 then mk_uart (if u_dlab u then ier else v) fcr lcr mcr dll (if u_dlab u then v else dlm) rx tx busy delay
  else if off =? 2 then
    mk_uart ier v lcr mcr dll dlm (if Z.testbit v 1 || xorb (Z.testbit v 0) (Z.testbit fcr 0) then [] else rx) tx busy delay
  else if off =? 3 then mk_uart ier fcr v mcr dll dlm rx tx busy delay
  else if off =? 4 then mk_uart ier fcr lcr v dll dlm rx tx busy delay
  else u.
Definition uart_at (base : Z) : Device uart := {| dev_read r u := uart_read (r - base) u; dev_write r v u := uart_write (r - base) v u |}.

(** 8 bits, no parity, one stop bit, the divisor's value for 115200 baud, interrupts when a byte arrives. *)
Record line_ready (u : uart) : Prop := {
  lr_lcr : u_lcr u = 3;
  lr_divisor : u_dll u + 256 * u_dlm u = 1;
  lr_ier : u_ier u = 1;
  lr_mcr : u_mcr u = 0x0B;
  lr_fifo : Z.testbit (u_fcr u) 0 = true
}.
Section line.
Context {D : Type} {dev : Device D} (base : Z) (put : uart -> D).
Hypothesis Hread : forall off u, 0 <= off < 8 -> dev_read (base + off) (put u) = let '(v, u') := uart_read off u in (v, put u').
Hypothesis Hwrite : forall off v u, 0 <= off < 8 -> dev_write (base + off) v (put u) = put (uart_write off v u).

(** A byte is sent once the last one is out. *)
Lemma line_sends n u b : line_ready u -> (u_busy u < n)%nat ->
  write_when n (base + 5) tx_busy (base + 0) b (put u) = (true, put (transmitted b (with_busy O u))).
Proof.
  intros [Hl _ _ _ _] Hn. unfold write_when. rewrite io_bind_eq.
  assert (poll (base + 5) tx_busy n (put u) = (true, put (with_busy O u))) as ->.
  { replace (put u) with (put (with_busy (u_busy u) u)) by (by destruct u).
    apply (poll_countdown _ _ (fun k => put (with_busy k u))); [| |done].
    - intros k. rewrite Hread by lia. eexists. split; [reflexivity|]. destruct u as [? ? ? ? ? ? [|] ? ? ?]; reflexivity.
    - rewrite Hread by lia. eexists. split; [reflexivity|]. destruct u as [? ? ? ? ? ? [|] ? ? ?]; reflexivity. }
  cbn [fst snd]. rewrite io_bind_eq. unfold write_reg. cbn [fst snd]. rewrite Hwrite by lia.
  destruct u as [ier fcr lcr mcr dll dlm rx tx busy delay]. cbn in Hl. subst lcr. reflexivity.
Qed.
(** The bytes received are read in order, to the last. *)
Lemma line_drains u n rdy rd : line_ready u -> (length (u_rx u) < n)%nat ->
  rdy = (v ← read_reg (base + 5); mret (negb (Z.land v LSR_RX_READY =? 0)) : IO D bool) -> rd = read_reg (base + 0) ->
  (drain rdy rd n (put u)).1 = u_rx u /\ exists k, (drain rdy rd n (put u)).2 = put (with_rx [] (with_busy k u)).
Proof.
  intros [Hl _ _ _ _] Hn -> ->. revert u Hl Hn. induction n as [|n IH]; intros u Hl Hn; [lia|]. cbn [drain].
  assert (forall rest : bool -> IO D bytes, ((v ← read_reg (base + 5); mret (negb (Z.land v LSR_RX_READY =? 0))) ≫= rest) (put u) =
    rest (match u_rx u with [] => false | _ => true end) (put (with_busy (pred (u_busy u)) u))) as ->.
  { intros rest. rewrite !io_bind_eq. unfold read_reg. rewrite Hread by lia. destruct u as [? ? ? ? ? ? [|] ? [|] ?]; reflexivity. }
  destruct (u_rx u) as [|b l] eqn:E.
  - split; [done|]. exists (pred (u_busy u)). destruct u. cbn in *. by subst.
  - rewrite !io_bind_eq. unfold read_reg at 1 4. rewrite !Hread by lia.
    assert (uart_read 0 (with_busy (pred (u_busy u)) u) = (b, with_rx l (with_busy (pred (u_busy u)) u))) as ->.
    { destruct u. cbn in *. subst. reflexivity. }
    cbn [fst snd]. set (u' := with_rx l _). destruct (IH u') as [H1 [k H2]]; [done | cbn in *; lia|].
    rewrite io_ret_eq. cbn [fst snd]. rewrite H1. split; [done|]. exists k. rewrite H2. by destruct u.
Qed.
End line.

(** ** The keyboard controller *)

(** [kb_out]: bytes for the processor; [kb_pending]: the next data byte is the configuration;
    a write makes it busy for [kb_delay] reads of the status, and is ignored while it is busy. *)
Record i8042 := mk_8042 { kb_out : list Z; kb_config : Z; kb_pending : bool; kb_scanning : bool; kb_busy : nat; kb_delay : nat }.
Definition kb_status (k : i8042) : Z :=
  match kb_busy k with O => match kb_out k with [] => 0 | _ => 1 end | _ => 2 end.
Definition kb_wait (n : nat) (k : i8042) : i8042 := mk_8042 (kb_out k) (kb_config k) (kb_pending k) (kb_scanning k) n (kb_delay k).
Definition kb_read (port : Z) (k : i8042) : Z * i8042 :=
  if port =? PS2_STATUS then (kb_status k, kb_wait (pred (kb_busy k)) k)
  else match kb_busy k, kb_out k with
    | O, b :: l => (b, mk_8042 l (kb_config k) (kb_pending k) (kb_scanning k) O (kb_delay k))
    | _, _ => (0, k)
    end.
Definition kb_write (port v : Z) (k : i8042) : i8042 :=
  match kb_busy k with
  | S _ => k
  | O =>
    let '(mk_8042 out config pending scanning _ delay) := k in
    if port =? PS2_CMD then
      if v =? 0x20 then mk_8042 (out ++ [config]) config pending scanning delay delay
      else if v =? 0x60 then mk_8042 out config true scanning delay delay else mk_8042 out config pending scanning delay delay
    else if pending then mk_8042 out v false scanning delay delay
    else if v =? 0xF4 then mk_8042 (out ++ [0xFA]) config false true delay delay else mk_8042 out config false scanning delay delay
  end.
#[local] Instance kb_device : Device i8042 := {| dev_read := kb_read; dev_write := kb_write |}.

Section keyboard.
Context {D : Type} {dev : Device D} (put : i8042 -> D).
Hypothesis Hread : forall p k, p = PS2_STATUS \/ p = PS2_DATA -> dev_read p (put k) = let '(v, k') := kb_read p k in (v, put k').
Hypothesis Hwrite : forall p v k, p = PS2_CMD \/ p = PS2_DATA -> dev_write p v (put k) = put (kb_write p v k).

Lemma kb_reads p k : p = PS2_STATUS \/ p = PS2_DATA -> read_reg p (put k) = let '(v, k') := kb_read p k in (v, put k').
Proof. apply Hread. Qed.
Lemma kb_polls busy k : (kb_busy k < PS2_READS)%nat -> busy 2 = true -> busy (kb_status (kb_wait O k)) = false ->
  poll PS2_STATUS busy PS2_READS (put k) = (true, put (kb_wait O k)).
Proof.
  intros Hb H2 H0. replace (put k) with (put (kb_wait (kb_busy k) k)) by (by destruct k).
  apply (poll_countdown _ _ (fun b => put (kb_wait b k))); [| |done].
  - intros b. rewrite Hread by (by left). eexists. split; [reflexivity | exact H2].
  - rewrite Hread by (by left). eexists. split; [reflexivity | exact H0].
Qed.
Lemma kb_sends port v k k' : port = PS2_CMD \/ port = PS2_DATA -> (kb_busy k < PS2_READS)%nat -> kb_write port v (kb_wait O k) = k' ->
  ps2_send port v (put k) = (tt, put k').
Proof.
  intros Hp Hb <-. unfold ps2_send, wait_ibf_clear. rewrite io_bind_eq, kb_polls by (first [done | by destruct k as [[|]]]).
  cbn [fst snd]. unfold write_reg. by rewrite Hwrite.
Qed.
Lemma kb_receives k b l : kb_out k = b :: l -> (kb_busy k < PS2_READS)%nat ->
  ps2_receive (put k) = (b, put (mk_8042 l (kb_config k) (kb_pending k) (kb_scanning k) O (kb_delay k))).
Proof.
  intros E Hb. unfold ps2_receive, wait_obf_set. rewrite io_bind_eq, kb_polls by (first [done | destruct k; cbn in *; by subst]).
  cbn [fst snd]. unfold read_reg. rewrite Hread by (by right). unfold kb_read. cbn [PS2_DATA PS2_STATUS Z.eqb Pos.eqb kb_wait kb_busy kb_out]. by rewrite E.
Qed.
(** The keyboard's interrupt and clock are on, it scans, and nothing is left to read. *)
Lemma ps2_init_done out config scanning delay : (length out <= 1)%nat -> (delay < PS2_READS)%nat ->
  ps2_init (put (mk_8042 out config false scanning O delay)) =
  (tt, put (mk_8042 [] (Z.land (Z.lor config 1) (Z.lnot 0x10)) false true O delay)).
Proof.
  intros Hout Hd. assert (0 < PS2_READS)%nat as Hp by lia. unfold ps2_init.
  assert (ps2_flush (put (mk_8042 out config false scanning O delay)) = (tt, put (mk_8042 [] config false scanning O delay))) as E.
  { unfold ps2_flush. rewrite io_bind_eq, kb_reads by (by left).
    destruct out as [|b [|]]; [reflexivity | | cbn in Hout; lia]. change (kb_read PS2_STATUS (mk_8042 [b] config false scanning O delay)) with (1, mk_8042 [b] config false scanning O delay).
    cbn [fst snd]. change (negb (Z.land 1 STATUS_OBF =? 0)) with true. cbv iota. by rewrite io_bind_eq, kb_reads by (by right). }
  rewrite io_bind_eq, E. cbn [fst snd].
  rewrite io_bind_eq, (kb_sends _ _ _ (mk_8042 [config] config false scanning delay delay)) by (first [exact Hp | by left | reflexivity]). cbn [fst snd].
  rewrite io_bind_eq, (kb_receives _ config []) by (reflexivity || exact Hd). cbn [fst snd kb_config kb_pending kb_scanning kb_delay]. cbv zeta.
  set (c := Z.land _ _).
  rewrite io_bind_eq, (kb_sends _ _ _ (mk_8042 [] config true scanning delay delay)) by (first [exact Hp | by left | reflexivity]). cbn [fst snd].
  rewrite io_bind_eq, (kb_sends _ _ _ (mk_8042 [] c false scanning delay delay)) by (first [exact Hd | by right | reflexivity]). cbn [fst snd].
  rewrite io_bind_eq, (kb_sends _ _ _ (mk_8042 [0xFA] c false true delay delay)) by (first [exact Hd | by right | reflexivity]). cbn [fst snd].
  by rewrite io_bind_eq, (kb_receives _ 0xFA []) by (reflexivity || exact Hd).
Qed.
End keyboard.

Lemma costs_flush {D} (dev : Device D) : costs (D := D) ps2_flush 2.
Proof.
  apply (costs_bind _ _ 1 1); [apply costs_read|]. intros v. case_match; [apply (costs_bind _ _ 1 0); [apply costs_read | intros; apply costs_ret] | intros d; cbn; lia].
Qed.
Lemma costs_send {D} (dev : Device D) port v : costs (D := D) (ps2_send port v) (Z.of_nat PS2_READS + 1).
Proof. apply costs_bind; [apply costs_poll | intros; apply costs_write]. Qed.
Lemma costs_receive {D} (dev : Device D) : costs (D := D) ps2_receive (Z.of_nat PS2_READS + 1).
Proof. apply costs_bind; [apply costs_poll | intros; apply costs_read]. Qed.
(** Programming the keyboard controller ends whatever the ports read, after at most 600014
    accesses: a machine without the controller boots too. *)
Theorem ps2_init_terminates {D : Type} (dev : Device D) (d : D) : (ps2_init (dev := counted dev) (d, 0)).2.2 <= 600014.
Proof.
  assert (costs (D := D) ps2_init (2 + ((Z.of_nat PS2_READS + 1) + ((Z.of_nat PS2_READS + 1) + ((Z.of_nat PS2_READS + 1) + ((Z.of_nat PS2_READS + 1) +
    ((Z.of_nat PS2_READS + 1) + ((Z.of_nat PS2_READS + 1) + 0)))))))) as H.
  { unfold ps2_init. apply costs_bind; [apply costs_flush | intros _].
    repeat (apply costs_bind; [first [apply costs_send | apply costs_receive] | intros; cbv zeta]). apply costs_ret. }
  specialize (H (d, 0)). unfold PS2_READS in H. rewrite Z2Nat.id in H by lia. cbn [snd] in H. lia.
Qed.

(** ** A PC *)

Record pit := mk_pit { pit_mode : Z; pit_low : option Z; pit_reload : Z }.
Definition pit_write (port v : Z) (p : pit) : pit :=
  if port =? PIT_CMD then mk_pit v None (pit_reload p)
  else match pit_low p with None => mk_pit (pit_mode p) (Some v) (pit_reload p) | Some l => mk_pit (pit_mode p) None (l + 256 * v) end.
Record pc := mk_pc { pc_pic : i8259 * i8259; pc_uart : uart; pc_kbd : i8042; pc_pit : pit }.
Definition with_pic (x : i8259 * i8259) (p : pc) : pc := mk_pc x (pc_uart p) (pc_kbd p) (pc_pit p).
Definition with_uart (x : uart) (p : pc) : pc := mk_pc (pc_pic p) x (pc_kbd p) (pc_pit p).
Definition with_kbd (x : i8042) (p : pc) : pc := mk_pc (pc_pic p) (pc_uart p) x (pc_pit p).
Definition with_pit (x : pit) (p : pc) : pc := mk_pc (pc_pic p) (pc_uart p) (pc_kbd p) x.
Definition is_com1 (r : Z) : bool := (COM1 <=? r) && (r <? COM1 + 8).
Definition is_pic (r : Z) : bool := bool_decide (r ∈ [PIC1_CMD; PIC1_DATA; PIC2_CMD; PIC2_DATA]).
Definition pc_read (r : Z) (p : pc) : Z * pc :=
  if is_com1 r then let '(v, u) := uart_read (r - COM1) (pc_uart p) in (v, with_uart u p)
  else if is_pic r then (inb (pc_pic p) r, p)
  else if bool_decide (r ∈ [PS2_DATA; PS2_STATUS]) then let '(v, k) := kb_read r (pc_kbd p) in (v, with_kbd k p)
  else (0, p).
Definition pc_write (r v : Z) (p : pc) : pc :=
  if is_com1 r then with_uart (uart_write (r - COM1) v (pc_uart p)) p
  else if is_pic r then with_pic (outb (pc_pic p) (r, v)) p
  else if bool_decide (r ∈ [PS2_DATA; PS2_CMD]) then with_kbd (kb_write r v (pc_kbd p)) p
  else if bool_decide (r ∈ [PIT_CHANNEL0; PIT_CMD]) then with_pit (pit_write r v (pc_pit p)) p
  else p.
#[local] Instance pc_device : Device pc := {| dev_read := pc_read; dev_write := pc_write |}.

Lemma pc_pic_writes l p : Forall (fun w => is_pic w.1 = true) l -> foldl (fun d w => dev_write w.1 w.2 d) p l = with_pic (outs (pc_pic p) l) p.
Proof.
  intros H. revert p. induction H as [|[r v] l Hr _ IH]; intros p; [by destruct p|]. cbn [foldl fst snd]. rewrite IH.
  cbn [fst] in Hr. cbn [dev_write pc_device]. unfold pc_write. rewrite Hr. destruct (is_com1 r) eqn:E; [|by destruct p].
  exfalso. unfold is_pic in Hr. apply bool_decide_eq_true in Hr. unfold is_com1, COM1 in E.
  repeat (apply elem_of_cons in Hr as [->|Hr]; [vm_compute in E; discriminate|]). by apply elem_of_nil in Hr.
Qed.
Lemma pc_pic_init p : pic_init_io p = (tt, with_pic (outs (pc_pic p) (pic_init (i_mask (pc_pic p).1) (i_mask (pc_pic p).2))) p).
Proof.
  unfold pic_init_io. rewrite io_bind_eq. change (read_reg PIC1_DATA p) with (i_mask (pc_pic p).1, p). cbn [fst snd].
  rewrite io_bind_eq. change (read_reg PIC2_DATA p) with (i_mask (pc_pic p).2, p). cbn [fst snd].
  unfold write_all. rewrite pc_pic_writes by (by repeat constructor). done.
Qed.
Lemma pc_unmask irq p : 0 <= irq < 16 -> pic_unmask_io irq p = (tt, with_pic (outs (pc_pic p) (pic_unmask (inb (pc_pic p)) irq)) p).
Proof.
  intros Hirq. unfold pic_unmask_io. rewrite io_bind_eq. unfold pic_unmask, pic_line. destruct (Z.ltb_spec irq 8); cbn [fst].
  - change (read_reg PIC1_DATA p) with (inb (pc_pic p) PIC1_DATA, p). cbn [fst snd]. unfold write_all. by rewrite pc_pic_writes by (by repeat constructor).
  - change (read_reg PIC2_DATA p) with (inb (pc_pic p) PIC2_DATA, p). cbn [fst snd]. unfold write_all. by rewrite pc_pic_writes by (by repeat constructor).
Qed.
Lemma pc_serial_init p : exists u, serial_init p = (tt, with_uart u p) /\ u_lcr u = 3 /\ u_dll u = 1 /\ u_dlm u = 0 /\ u_mcr u = 0x0B /\ u_fcr u = 0 /\ u_tx u = u_tx (pc_uart p).
Proof. destruct p as [pic [ier fcr lcr mcr dll dlm rx tx busy delay] kbd t]. eexists. split; [reflexivity | done]. Qed.
Lemma pc_com1_init p : u_lcr (pc_uart p) = 3 -> exists u, com1_init p = (pic_unmask_io 4 (with_uart u p)) /\ u_lcr u = 3 /\ u_dll u = u_dll (pc_uart p) /\ u_dlm u = u_dlm (pc_uart p) /\
  u_mcr u = u_mcr (pc_uart p) /\ u_fcr u = 1 /\ u_ier u = 1 /\ u_tx u = u_tx (pc_uart p) /\ (u_fcr (pc_uart p) = 0 -> u_rx u = []).
Proof.
  destruct p as [pic [ier fcr lcr mcr dll dlm rx tx busy delay] kbd t]. cbn [pc_uart u_lcr]. intros ->. eexists. split; [|split_and!].
  1: { unfold com1_init. rewrite !io_bind_eq. reflexivity. }
  all: try reflexivity. cbn. by intros ->.
Qed.
Lemma pc_pit_init p : pit_init p = (tt, with_pit (mk_pit 0x36 None 11931) p).
Proof. by destruct p. Qed.
(** The keyboard controller as the firmware leaves it: idle, with at most one byte not read yet, and answering within the driver's waits. *)
Record kb_idle (k : i8042) : Prop := { ki_out : (length (kb_out k) <= 1)%nat; ki_pending : kb_pending k = false; ki_busy : kb_busy k = O; ki_delay : (kb_delay k < PS2_READS)%nat }.
Lemma pc_ps2_init p : kb_idle (pc_kbd p) -> ps2_init p = (tt, with_kbd (mk_8042 [] (Z.land (Z.lor (kb_config (pc_kbd p)) 1) (Z.lnot 0x10)) false true O (kb_delay (pc_kbd p))) p).
Proof.
  destruct p as [pic u [out config pending scanning busy delay] t]. intros [H1 H2 H3 H4]. cbn [pc_kbd kb_out kb_pending kb_busy kb_delay kb_config] in *. subst.
  apply (ps2_init_done (fun k => mk_pc pic u k t)); [| |done..].
  - by intros r k [->| ->].
  - by intros r v k [->| ->].
Qed.
(** The lines opened one by one. *)
Lemma unmask_lines l q : pic_ready q -> Forall (fun irq => 0 <= irq < 16) l -> let q' := foldl (fun q irq => outs q (pic_unmask (inb q) irq)) q l in
  pic_ready q' /\ forall i, 0 <= i < 16 -> line_vector q' i = line_vector q i /\ line_masked q' i = line_masked q i && negb (bool_decide (i ∈ l)).
Proof.
  intros Hq Hl. revert q Hq. induction Hl as [|irq l Hirq Hl IH]; intros q Hq; cbn [foldl].
  - split; [done|]. intros i Hi. split; [done|]. rewrite bool_decide_false by apply not_elem_of_nil. by rewrite andb_true_r.
  - destruct (IH (outs q (pic_unmask (inb q) irq))) as [R H]; [by apply (pic_unmask_line q irq 0)|]. split; [exact R|].
    intros i Hi. destruct (H i Hi) as [V M]. destruct (pic_unmask_line q irq i Hq Hirq Hi) as (E & _ & V'). split; [by rewrite V|].
    rewrite M, E, <- andb_assoc, <- negb_orb. do 2 f_equal. destruct (Z.eqb_spec i irq) as [->|]; [by rewrite (bool_decide_true (irq ∈ irq :: l)) by left|].
    apply bool_decide_ext. rewrite elem_of_cons. split; [by right | by intros [?|?]].
Qed.
Lemma kb_enabled c : Z.testbit (Z.land (Z.lor c 1) (Z.lnot 0x10)) 0 = true /\ Z.testbit (Z.land (Z.lor c 1) (Z.lnot 0x10)) 4 = false.
Proof. by rewrite !Z.land_spec, !Z.lor_spec, orb_true_r, andb_false_r. Qed.

(** The machine that [pc_bring_up] leaves. *)
Lemma pc_bring_up_eq p : kb_idle (pc_kbd p) -> exists u,
  (pc_bring_up p).2 = mk_pc (foldl (fun q irq => outs q (pic_unmask (inb q) irq)) (outs (pc_pic p) (pic_init (i_mask (pc_pic p).1) (i_mask (pc_pic p).2))) [0; 1; 4])
    u (mk_8042 [] (Z.land (Z.lor (kb_config (pc_kbd p)) 1) (Z.lnot 0x10)) false true O (kb_delay (pc_kbd p))) (mk_pit 0x36 None 11931) /\
  line_ready u /\ u_tx u = u_tx (pc_uart p) /\ u_rx u = [].
Proof.
  intros Hk. unfold pc_bring_up. rewrite io_bind_eq, pc_pic_init. cbn [fst snd]. set (p1 := with_pic _ p).
  destruct (pc_serial_init p1) as (u1 & E1 & L1 & D1 & D2 & M1 & F1 & T1). rewrite io_bind_eq, E1. cbn [fst snd].
  rewrite io_bind_eq. unfold unmask_default_irqs. rewrite (io_bind_eq (pic_unmask_io 0)), pc_unmask by lia. cbn [fst snd]. rewrite pc_unmask by lia. cbn [fst snd].
  unfold pc_drivers_init. rewrite io_bind_eq, pc_pit_init. cbn [fst snd]. rewrite io_bind_eq, pc_ps2_init by done. cbn [fst snd].
  destruct (pc_com1_init (with_kbd (mk_8042 [] (Z.land (Z.lor (kb_config (pc_kbd p)) 1) (Z.lnot 0x10)) false true O (kb_delay (pc_kbd p)))
    (with_pit (mk_pit 0x36 None 11931) (with_pic (outs (outs (pc_pic p1) (pic_unmask (inb (pc_pic p1)) 0)) (pic_unmask (inb (outs (pc_pic p1) (pic_unmask (inb (pc_pic p1)) 0))) 1))
    (with_uart u1 p1))))) as (u2 & E2 & L2 & D3 & D4 & M2 & F2 & I2 & T2 & R2); [exact L1|].
  exists u2. split; [|split; [|split]].
  - etransitivity; [|reflexivity]. etransitivity; [apply f_equal, E2|]. by rewrite pc_unmask by lia.
  - constructor; [exact L2 | rewrite D3, D4; cbn [pc_uart with_kbd with_pit with_pic with_uart]; lia | exact I2 | by rewrite M2 | by rewrite F2].
  - by rewrite T2.
  - by apply R2.
Qed.

(** C37: what the boot of a PC leaves its devices in, whatever they were before: both interrupt controllers
    give the vectors 32 to 47 and let through exactly the timer, the keyboard and the serial line (and the
    cascade, when it was open before); the serial line is set to 115200 baud, 8 bits, and raises an interrupt for each byte;
    a byte written to it is sent once the line is free, and the bytes it has received are read in order, to the last;
    the keyboard scans and interrupts; and the timer ticks 100 times a second. *)
Theorem pc_bring_up_exact (p : pc) : kb_idle (pc_kbd p) -> let q := (pc_bring_up p).2 in
  pic_ready (pc_pic q) /\
  (forall irq, 0 <= irq < 16 -> line_vector (pc_pic q) irq = 32 + irq /\
    line_masked (pc_pic q) irq = (if irq =? 2 then Z.testbit (i_mask (pc_pic p).1) 2 else negb (bool_decide (irq ∈ [0; 1; 4])))) /\
  line_ready (pc_uart q) /\ u_rx (pc_uart q) = [] /\
  (forall b n, (u_busy (pc_uart q) < n)%nat -> let '(sent, q') := com1_write_byte n b q in sent = true /\ u_tx (pc_uart q') = u_tx (pc_uart p) ++ [b]) /\
  (forall l n, (length l < n)%nat -> let '(got, q') := drain com1_rx_ready com1_read_data n (with_uart (with_rx l (pc_uart q)) q) in got = l /\ u_rx (pc_uart q') = []) /\
  kb_scanning (pc_kbd q) = true /\ kb_out (pc_kbd q) = [] /\ Z.testbit (kb_config (pc_kbd q)) 0 = true /\ Z.testbit (kb_config (pc_kbd q)) 4 = false /\
  pit_mode (pc_pit q) = 0x36 /\ 1193182 / pit_reload (pc_pit q) = 100.
Proof.
  intros Hk q. destruct (pc_bring_up_eq p Hk) as (u & E & Lu & Tu & Ru). fold q in E. rewrite E. cbn [pc_pic pc_uart pc_kbd pc_pit].
  set (pic1 := outs (pc_pic p) _). destruct (unmask_lines [0; 1; 4] pic1) as [R H]; [done | repeat constructor; lia|].
  split; [exact R|]. split.
  { intros irq Hirq. destruct (H irq Hirq) as [-> ->]. destruct (pic_init_lines (pc_pic p) (i_mask (pc_pic p).1) (i_mask (pc_pic p).2) irq Hirq) as [V M].
    split; [exact V|]. etransitivity; [apply f_equal2; [exact M | reflexivity]|]. destruct (Z.eqb_spec irq 2) as [->|]; [by rewrite andb_true_r | done]. }
  split; [exact Lu|]. split; [exact Ru|]. set (kbd := mk_8042 _ _ _ _ _ _). set (t := mk_pit _ _ _). set (pic2 := foldl _ _ _). clearbody pic2.
  assert (forall off v, 0 <= off < 8 -> dev_read (COM1 + off) (mk_pc pic2 v kbd t) = let '(x, u') := uart_read off v in (x, mk_pc pic2 u' kbd t)) as Hr.
  { intros off v Ho. cbn [dev_read pc_device]. unfold pc_read, is_com1. rewrite (proj2 (Z.leb_le _ _)), (proj2 (Z.ltb_lt _ _)) by lia. cbn [andb pc_uart].
    by replace (COM1 + off - COM1) with off by lia. }
  assert (forall off x v, 0 <= off < 8 -> dev_write (COM1 + off) x (mk_pc pic2 v kbd t) = mk_pc pic2 (uart_write off x v) kbd t) as Hw.
  { intros off x v Ho. cbn [dev_write pc_device]. unfold pc_write, is_com1. rewrite (proj2 (Z.leb_le _ _)), (proj2 (Z.ltb_lt _ _)) by lia. cbn [andb pc_uart].
    by replace (COM1 + off - COM1) with off by lia. }
  split.
  { intros b n Hn. unfold com1_write_byte. pose proof (line_sends COM1 (fun u => mk_pc pic2 u kbd t) Hr Hw n u b Lu Hn) as S.
    change (COM1 + 0) with COM1 in S. change LSR with (COM1 + 5). rewrite S. cbn. by rewrite Tu. }
  split; [|split_and!; first [done | apply kb_enabled]]. intros l n Hn.
  destruct (line_drains COM1 (fun u => mk_pc pic2 u kbd t) Hr (with_rx l u) n com1_rx_ready com1_read_data) as [G [k K]]; [by destruct Lu | done | done | done|].
  cbn in G, K. unfold with_uart. cbn [pc_pic pc_kbd pc_pit]. destruct (drain _ _ _ _) as [got q']. cbn in G, K. by rewrite G, K.
Qed.
(** A machine as a firmware might leave it; a key was pressed before. *)
Definition pc_demo : pc :=
  mk_pc (mk_8259 0 8 0 false 0xB8 0, mk_8259 0 0x70 0 false 0x8F 0) (mk_uart 0 0 0 0 12 0 [13] [65] 3 2) (mk_8042 [0x1C] 0x74 false false O 2) (mk_pit 0 None 0).
Lemma pc_demo_idle : kb_idle (pc_kbd pc_demo).
Proof. constructor; [done | done | done |]. unfold PS2_READS. cbn [pc_demo pc_kbd kb_delay]. lia. Qed.
Lemma pc_bring_up_exact_witness : line_masked (pc_pic (pc_bring_up pc_demo).2) 4 = false /\ line_masked (pc_pic (pc_bring_up pc_demo).2) 12 = true /\
  (forall n, (u_busy (pc_uart (pc_bring_up pc_demo).2) < n)%nat -> u_tx (pc_uart (com1_write_byte n 66 (pc_bring_up pc_demo).2).2) = [65; 66]) /\
  kb_scanning (pc_kbd (pc_bring_up pc_demo).2) = true.
Proof.
  destruct (pc_bring_up_exact pc_demo pc_demo_idle) as (_ & H & _ & _ & S & _ & K & _). set (q := (pc_bring_up pc_demo).2) in *. clearbody q.
  split; [rewrite (proj2 (H 4 ltac:(lia))); reflexivity|]. split; [rewrite (proj2 (H 12 ltac:(lia))); reflexivity|]. split; [|exact K].
  intros n Hn. specialize (S 66 n Hn). destruct (com1_write_byte n 66 q) as [sent q']. destruct S as [_ T]. exact T.
Defined.

(** ** The GIC *)

Record gic := mk_gic { g_dist : Z; g_cpu : Z; g_pmr : Z; g_enabled : Z -> bool; g_target : Z -> Z; g_ended : list Z }.
(** The word of 32 interrupts at [base] that a register names. *)
Definition in_word (base r id : Z) : bool := id / 32 =? (r - base) / 4.
Definition gic_write (r v : Z) (g : gic) : gic :=
  let '(mk_gic dist cpu pmr en tgt ended) := g in
  let off := r - GICD_BASE in
  if off =? GICD_CTLR then mk_gic v cpu pmr en tgt ended
  else if (GICD_ISENABLER <=? off) && (off <? GICD_ICENABLER) then
    mk_gic dist cpu pmr (fun id => if in_word GICD_ISENABLER off id && Z.testbit v (id mod 32) then true else en id) tgt ended
  else if (GICD_ICENABLER <=? off) && (off <? 0x200) then
    mk_gic dist cpu pmr (fun id => if in_word GICD_ICENABLER off id && Z.testbit v (id mod 32) then false else en id) tgt ended
  else if (GICD_ITARGETSR <=? off) && (off <? 0xC00) then
    mk_gic dist cpu pmr en (fun id => if id =? off - GICD_ITARGETSR then v else tgt id) ended
  else if r =? GICC_BASE + GICC_CTLR then mk_gic dist v pmr en tgt ended
  else if r =? GICC_BASE + GICC_PMR then mk_gic dist cpu v en tgt ended
  else if r =? GICC_BASE + GICC_EOIR then mk_gic dist cpu pmr en tgt (ended ++ [v])
  else g.
#[local] Instance gic_device : Device gic := {| dev_read _ g := (0, g); dev_write := gic_write |}.
(** The distributor sends [id] to CPU 0; the first 32 are the CPU's own. *)
Definition gic_delivers (g : gic) (id : Z) : bool :=
  Z.testbit (g_dist g) 0 && Z.testbit (g_cpu g) 0 && g_enabled g id && ((id <? 32) || Z.testbit (g_target g id) 0).

Lemma word_bit id i : 0 <= id -> 0 <= i -> (i / 32 =? id / 32) && Z.testbit (Z.shiftl 1 (id mod 32)) (i mod 32) = (i =? id).
Proof.
  intros Hid Hi. rewrite testbit_shiftl_1 by (apply Z.mod_pos_bound; lia). pose proof (Z.div_mod i 32). pose proof (Z.div_mod id 32).
  destruct (Z.eqb_spec i id) as [->|Hne]; [by rewrite !Z.eqb_refl|].
  destruct (Z.eqb_spec (i / 32) (id / 32)) as [E|]; [|done]. cbn [andb]. apply Z.eqb_neq. lia.
Qed.
(** Enabling and disabling one interrupt. *)
Lemma gic_set_spec id g : 0 <= id < 1020 -> let g' := (gic_enable id g).2 in
  (forall i, 0 <= i -> g_enabled g' i = (i =? id) || g_enabled g i) /\ g_dist g' = g_dist g /\ g_cpu g' = g_cpu g /\ g_pmr g' = g_pmr g /\
  (forall i, g_target g' i = if (32 <=? id) && (i =? id) then 1 else g_target g i).
Proof.
  intros Hid g'. assert (id / 32 * 4 < 128 /\ 0 <= id / 32) as [Hw Hw0] by (pose proof (Z.div_mod id 32); pose proof (Z.mod_pos_bound id 32); lia).
  assert (forall h, gic_write (GICD_BASE + (GICD_ISENABLER + id / 32 * 4)) (Z.shiftl 1 (id mod 32)) h =
    mk_gic (g_dist h) (g_cpu h) (g_pmr h) (fun i => if (i / 32 =? id / 32) && Z.testbit (Z.shiftl 1 (id mod 32)) (i mod 32) then true else g_enabled h i) (g_target h) (g_ended h)) as Ew.
  { intros [dist cpu pmr en tgt ended]. unfold gic_write, in_word, GICD_CTLR, GICD_ISENABLER, GICD_ICENABLER.
    replace (GICD_BASE + (0x100 + id / 32 * 4) - GICD_BASE) with (0x100 + id / 32 * 4) by lia. rewrite (proj2 (Z.eqb_neq _ _)), (proj2 (Z.leb_le _ _)), (proj2 (Z.ltb_lt _ _)) by lia.
    cbn [andb g_dist g_cpu g_pmr g_enabled g_target g_ended]. by replace ((0x100 + id / 32 * 4 - 0x100) / 4) with (id / 32) by (rewrite Z.add_simpl_l, Z.div_mul; lia). }
  assert (g' = gic_write (GICD_BASE + (GICD_ISENABLER + id / 32 * 4)) (Z.shiftl 1 (id mod 32)) ((if 32 <=? id then write_reg (GICD_BASE + GICD_ITARGETSR + id) 1 else mret tt) g).2) as ->
    by (unfold g', gic_enable; by rewrite io_bind_eq).
  rewrite Ew. cbn [g_dist g_cpu g_pmr g_enabled g_target].
  assert (forall i, 0 <= i -> forall b : bool, (if (i / 32 =? id / 32) && Z.testbit (Z.shiftl 1 (id mod 32)) (i mod 32) then true else b) = (i =? id) || b) as Hb.
  { intros i Hi b. rewrite word_bit by lia. by destruct (i =? id). }
  destruct (Z.leb_spec 32 id) as [H32|H32]; cbn [andb snd].
  - assert ((write_reg (GICD_BASE + GICD_ITARGETSR + id) 1 g).2 = mk_gic (g_dist g) (g_cpu g) (g_pmr g) (g_enabled g) (fun i => if i =? id then 1 else g_target g i) (g_ended g)) as ->.
    { destruct g as [dist cpu pmr en tgt ended]. cbn [write_reg snd dev_write gic_device]. unfold gic_write, GICD_CTLR, GICD_ISENABLER, GICD_ICENABLER, GICD_ITARGETSR.
      replace (GICD_BASE + 0x800 + id - GICD_BASE) with (0x800 + id) by lia. rewrite (proj2 (Z.eqb_neq _ _)) by lia.
      rewrite (proj2 (Z.ltb_ge (0x800 + id) 0x180)), (proj2 (Z.ltb_ge (0x800 + id) 0x200)), (proj2 (Z.leb_le 0x800 (0x800 + id))), (proj2 (Z.ltb_lt (0x800 + id) 0xC00)) by lia.
      rewrite !andb_false_r. cbn [andb]. by replace (0x800 + id - 0x800) with id by lia. }
    split; [intros i Hi; by apply Hb | done].
  - split; [intros i Hi; by apply Hb | done].
Qed.
Lemma gic_clear_spec id g : 0 <= id < 1020 -> let g' := (gic_disable id g).2 in
  (forall i, 0 <= i -> g_enabled g' i = negb (i =? id) && g_enabled g i) /\ g_dist g' = g_dist g /\ g_cpu g' = g_cpu g /\ g_pmr g' = g_pmr g /\ g_target g' = g_target g.
Proof.
  intros Hid g'. assert (id / 32 * 4 < 128 /\ 0 <= id / 32) as [Hw Hw0] by (pose proof (Z.div_mod id 32); pose proof (Z.mod_pos_bound id 32); lia).
  destruct g as [dist cpu pmr en tgt ended]. unfold g', gic_disable. cbn [write_reg snd dev_write gic_device]. unfold gic_write, in_word, GICD_CTLR, GICD_ISENABLER, GICD_ICENABLER.
  replace (GICD_BASE + (0x180 + id / 32 * 4) - GICD_BASE) with (0x180 + id / 32 * 4) by lia.
  rewrite (proj2 (Z.eqb_neq _ _)), (proj2 (Z.ltb_ge (0x180 + id / 32 * 4) 0x180)), (proj2 (Z.leb_le 0x180 _)), (proj2 (Z.ltb_lt (0x180 + id / 32 * 4) 0x200)) by lia. rewrite andb_false_r. cbn [andb g_enabled g_dist g_cpu g_pmr g_target].
  split; [|done]. intros i Hi. replace ((0x180 + id / 32 * 4 - 0x180) / 4) with (id / 32) by (rewrite Z.add_simpl_l, Z.div_mul; lia).
  rewrite word_bit by lia. by destruct (i =? id).
Qed.
(** The GIC after [init]: of all interrupts exactly the timer and the serial line are newly enabled, both are
    delivered to CPU 0, and no other line's target changes; [enable] and [disable] then change their own line only. *)
Theorem gic_driver_exact (g : gic) : let g1 := (gic_init g).2 in
  g_pmr g1 = 0xFF /\ gic_delivers g1 TIMER_IRQ = true /\ gic_delivers g1 ArmHandler.UART_IRQ = true /\
  (forall i, 0 <= i -> g_enabled g1 i = (i =? TIMER_IRQ) || (i =? ArmHandler.UART_IRQ) || g_enabled g i) /\
  (forall i, i <> ArmHandler.UART_IRQ -> g_target g1 i = g_target g i) /\
  forall id h, 0 <= id < 1020 ->
    (forall i, 0 <= i -> g_enabled (gic_enable id h).2 i = (i =? id) || g_enabled h i) /\
    (forall i, 0 <= i -> g_enabled (gic_disable id h).2 i = negb (i =? id) && g_enabled h i) /\
    (Z.testbit (g_dist h) 0 = true -> Z.testbit (g_cpu h) 0 = true -> gic_delivers (gic_enable id h).2 id = true) /\
    gic_delivers (gic_disable id h).2 id = false.
Proof.
  assert (forall id h, 0 <= id < 1020 -> Z.testbit (g_dist h) 0 = true -> Z.testbit (g_cpu h) 0 = true -> gic_delivers (gic_enable id h).2 id = true) as Hen.
  { intros id h Hid Hd Hc. destruct (gic_set_spec id h Hid) as (E & Ed & Ec & _ & Et). unfold gic_delivers. rewrite Ed, Ec, Hd, Hc, E, Et, Z.eqb_refl by lia. cbn [andb orb].
    destruct (Z.ltb_spec id 32), (Z.leb_spec 32 id); done || lia. }
  intros g1. set (g0 := mk_gic 1 1 0xFF (g_enabled g) (g_target g) (g_ended g)).
  assert (g1 = (gic_enable ArmHandler.UART_IRQ (gic_enable TIMER_IRQ g0).2).2) as E1.
  { unfold g1, gic_init. rewrite !io_bind_eq. by destruct g. }
  destruct (gic_set_spec TIMER_IRQ g0) as (A1 & A2 & A3 & A4 & A5); [by vm_compute|]. set (ga := (gic_enable TIMER_IRQ g0).2) in *.
  destruct (gic_set_spec ArmHandler.UART_IRQ ga) as (B1 & B2 & B3 & B4 & B5); [by vm_compute|]. rewrite <- E1 in *.
  split; [by rewrite B4, A4|]. split.
  { unfold gic_delivers. rewrite B1, B2, B3, A1, A2, A3 by done. reflexivity. }
  split; [unfold gic_delivers; rewrite B1, B2, B3, B5, A2, A3 by done; reflexivity|].
  split; [intros i Hi; rewrite B1, A1 by done; cbn [g_enabled g0]; by destruct (i =? TIMER_IRQ), (i =? ArmHandler.UART_IRQ)|].
  split; [intros i Hi; rewrite B5, A5; apply Z.eqb_neq in Hi; rewrite Hi; reflexivity|].
  intros id h Hid. split; [apply gic_set_spec, Hid|]. destruct (gic_clear_spec id h Hid) as (C1 & _). split; [exact C1|]. split; [by apply Hen|].
  unfold gic_delivers. rewrite C1, Z.eqb_refl by lia. cbn [negb andb]. by rewrite andb_false_r.
Qed.
Definition gic_demo : gic := mk_gic 0 0 0 (fun _ => false) (fun _ => 0) [].
Lemma gic_driver_exact_witness : let g1 := (gic_init gic_demo).2 in
  gic_delivers g1 33 = true /\ g_enabled g1 34 = false /\ gic_delivers (gic_enable 34 g1).2 34 = true /\ gic_delivers (gic_disable 33 g1).2 33 = false.
Proof.
  destruct (gic_driver_exact gic_demo) as (_ & _ & U & E & _ & H). split; [exact U|]. split; [rewrite (E 34) by lia; reflexivity|]. split.
  - destruct (H 34 (gic_init gic_demo).2) as (_ & _ & D & _); [lia|]. apply D; reflexivity.
  - apply (H 33 (gic_init gic_demo).2). lia.
Defined.

(** ** Devices that are plain registers *)

#[local] Instance registers : Device (Z -> Z) := {| dev_read r d := (d r, d); dev_write r v d := fun x => if x =? r then v else d x |}.

(** The serial line's source of the PLIC has a priority above the threshold of its context and is enabled there; no other source is touched. *)
Lemma plic_init_exact d : let d' := (plic_init d).2 in let word := enable_reg CONTEXT RiscvHandler.UART_IRQ in
  d' (threshold_reg CONTEXT) < d' (priority_reg RiscvHandler.UART_IRQ) /\
  (forall i, 0 <= i -> Z.testbit (d' word) i = Z.testbit (d word) i || (i =? RiscvHandler.UART_IRQ)) /\
  (forall r, ~ r ∈ [word; priority_reg RiscvHandler.UART_IRQ; threshold_reg CONTEXT] -> d' r = d r).
Proof.
  unfold plic_init. rewrite !io_bind_eq. cbn [write_reg read_reg fst snd dev_read dev_write registers]. split; [reflexivity|]. split.
  - intros i Hi. etransitivity; [|by apply (set_testbit _ RiscvHandler.UART_IRQ)]. reflexivity.
  - intros r Hr. rewrite !not_elem_of_cons in Hr. destruct Hr as (H1 & H2 & H3 & _). by rewrite !(proj2 (Z.eqb_neq _ _)) by done.
Qed.
(** The three bits of pin [10 + n] in the function register. *)
Lemma pin_function f n : 0 <= n < 10 -> Z.land (Z.lor (Z.land f (Z.lnot (Z.lor (Z.shiftl 7 12) (Z.shiftl 7 15)))) (Z.lor (Z.shiftl 4 12) (Z.shiftl 4 15))) (Z.shiftl 7 (3 * n)) =
  if (n =? 4) || (n =? 5) then Z.shiftl 4 (3 * n) else Z.land f (Z.shiftl 7 (3 * n)).
Proof.
  intros Hn. apply Z.bits_inj'. intros i Hi. assert (forall v, 0 <= v < 8 -> 30 <= i -> Z.testbit (Z.shiftl v (3 * n)) i = false) as Hhigh.
  { intros v Hv H. rewrite Z.shiftl_spec by done. destruct (Z.eq_dec v 0) as [->|]; [apply Z.testbit_0_l|].
    apply Z.bits_above_log2; [lia|]. apply Z.lt_le_trans with 3; [apply Z.log2_lt_pow2; lia | lia]. }
  destruct (Z.lt_ge_cases i 30) as [Hs|Hl]; [|by destruct ((n =? 4) || (n =? 5)); rewrite ?Z.land_spec, !Hhigh, ?andb_false_r by (done || lia)].
  assert (exists k, (k < 10)%nat /\ n = Z.of_nat k) as (k & Hk & ->) by (exists (Z.to_nat n); lia).
  assert (exists j, (j < 30)%nat /\ i = Z.of_nat j) as (j & Hj & ->) by (exists (Z.to_nat i); lia). clear Hhigh Hs Hi Hn.
  do 30 (destruct j as [|j]; [rewrite !Z.land_spec, Z.lor_spec, Z.land_spec, Z.lnot_spec by lia; do 10 (destruct k as [|k]; [cbv [Z.of_nat Pos.of_succ_nat Pos.succ]; cbn [Z.eqb Pos.eqb orb]; rewrite ?Z.land_spec; cbn; rewrite ?andb_true_r, ?andb_false_r, ?orb_false_r, ?orb_true_r; reflexivity|]); lia|]). lia.
Qed.
(** The pins of the Raspberry Pi: 14 and 15 carry the serial line, without pull resistors, the function of the others is kept. *)
Lemma uart_pins_exact d n : 0 <= n < 10 -> let d' := (init_uart_pins d).2 in
  Z.land (d' GPFSEL1) (Z.shiftl 7 (3 * n)) = (if (n =? 4) || (n =? 5) then Z.shiftl 4 (3 * n) else Z.land (d GPFSEL1) (Z.shiftl 7 (3 * n))) /\
  d' GPPUD = 0 /\ d' GPPUDCLK0 = 0.
Proof. intros Hn. split; [|done]. etransitivity; [|by apply pin_function]. reflexivity. Qed.
(** The timer's bit of the local block; the serial line can be enabled only. *)
Lemma intc_exact d i : 0 <= i -> let bit f := Z.testbit ((f d).2 CORE0_TIMER_IRQCNTL) i in
  bit intc_init = Z.testbit (d CORE0_TIMER_IRQCNTL) i || (i =? 1) /\ (intc_init d).2 ENABLE_IRQS_2 = Z.shiftl 1 25 /\
  bit (intc_enable RPI_TIMER_IRQ) = Z.testbit (d CORE0_TIMER_IRQCNTL) i || (i =? 1) /\ (intc_enable RPI_UART_IRQ d).2 ENABLE_IRQS_2 = Z.shiftl 1 25 /\
  bit (intc_disable RPI_TIMER_IRQ) = Z.testbit (d CORE0_TIMER_IRQCNTL) i && negb (i =? 1) /\ (intc_disable RPI_UART_IRQ d).2 = d.
Proof.
  intros Hi bit. split_and!; try reflexivity.
  - etransitivity; [|by apply (set_testbit _ 1)]. reflexivity.
  - etransitivity; [|by apply (set_testbit _ 1)]. reflexivity.
  - etransitivity; [|by apply (mask_testbit _ 1)]. reflexivity.
Qed.
Lemma pl011_init_exact base d : (pl011_init base d).2 (base + UARTIMSC) = RXIM /\ (pl011_init base d).2 (base + UARTICR) = 0x7FF.
Proof. unfold pl011_init. rewrite io_bind_eq. cbn [write_reg fst snd dev_write registers]. rewrite !Z.eqb_refl, (proj2 (Z.eqb_neq _ _)) by (unfold UARTICR, UARTIMSC; lia). done. Qed.

(** ** The serial line of the RISC-V board *)

Lemma ns16550_exact u : exists u', ns16550_init (dev := uart_at NS16550_BASE) u = (tt, u') /\ line_ready u' /\ u_rx u' = [] /\ u_tx u' = u_tx u /\
  (forall n b, (u_busy u' < n)%nat -> ns16550_write_byte (dev := uart_at NS16550_BASE) n b u' = (true, transmitted b (with_busy O u'))) /\
  (forall n l, (length l < n)%nat -> (drain (D := uart) (ns16550_rx_ready (dev := uart_at NS16550_BASE)) (ns16550_read_data (dev := uart_at NS16550_BASE)) n (with_rx l u')).1 = l).
Proof.
  assert (exists u', ns16550_init (dev := uart_at NS16550_BASE) u = (tt, u') /\ line_ready u' /\ u_rx u' = [] /\ u_tx u' = u_tx u) as (u' & E & L & R & T).
  { destruct u as [ier fcr lcr mcr dll dlm rx tx busy delay]. eexists. split; [reflexivity|]. split; [by constructor | done]. }
  exists u'. do 4 (split; [done|]).
  assert (forall off v, 0 <= off < 8 -> dev_read (Device := uart_at NS16550_BASE) (NS16550_BASE + off) v = let '(x, w) := uart_read off v in (x, w)) as Hr.
  { intros off v _. cbn [dev_read uart_at]. rewrite Z.add_simpl_l. by destruct (uart_read off v). }
  assert (forall off x v, 0 <= off < 8 -> dev_write (Device := uart_at NS16550_BASE) (NS16550_BASE + off) x v = uart_write off x v) as Hw.
  { intros off x v _. cbn [dev_write uart_at]. by rewrite Z.add_simpl_l. }
  split.
  - intros n b Hn. exact (line_sends NS16550_BASE (fun u => u) Hr Hw n u' b L Hn).
  - intros n l Hn. refine (proj1 (line_drains NS16550_BASE (fun u => u) Hr (with_rx l u') n _ _ _ Hn eq_refl eq_refl)). by destruct L.
Qed.
