(* ===== verification/Machine.v ===== *)
(** The machine: the kernel of a booted system under every sequence of system
    calls, resumed calls, interrupts, faults, RISC-V traps, AArch64 interrupts, task creations, keys typed at the kernel shell
    and user-mode steps, and the properties every state it reaches has.  The architecture is the
    instances of [ArchOps] and [VmOps]; the steps of all three processors are steps of the machine. *)
From Stdlib Require Import ZArith Lia.
From stdpp Require Import base option list numbers gmap.
From S2P Require Import Prelude Console Bitmap RingBuf Ipc Process X86Asm Context RiscvAsm RiscvTrap PageTable Pages Slab Paging PagingSpec RamFs RamFsSpec Fs Elf AbiStack Kernel Scheduler Drivers Syscall ShellLine ShellLineSpec Shell Interrupts Boot Arch SchedulerSpec TaskLife Invariants SystemInv ShellSpec RiscvHandler ArmHandler.
Local Open Scope Z_scope.

(** The kernel, the calls in progress by process id, and the kernel shell: nothing before it has
    started and after it has halted, else the line being edited and its state. *)
Record machine (A : Type) := mk_machine { m_kernel : kernel A; m_calls : gmap Z cont; m_shell : option (editor * shell) }.
Arguments mk_machine {A}. Arguments m_kernel {A}. Arguments m_calls {A}. Arguments m_shell {A}.

Section machine.
Context {A : Type} {ops : PageOps A} {vops : VmOps A} {arch : ArchOps A}.
Variables (version_full INIT_ELF : bytes) (shell_run task_hello task_counter : Z) (tgt : target).
Implicit Types k : kernel A.

(** The answer to process [p]: the call is over, or goes on. *)
Definition answer (p : Z) (r : sysret) (calls : gmap Z cont) : gmap Z cont :=
  match r with Return _ => delete p calls | Again c => <[p := c]> calls end.

Inductive mstep : machine A -> machine A -> Prop :=
| step_syscall k calls sh p nr a0 a1 a2 a3 a4 a5 ip sp r k' :
    current_pid_is p k -> calls !! p = None ->
    syscall_entry_rust version_full tgt nr a0 a1 a2 a3 a4 a5 ip sp k = Done (r, k') ->
    mstep (mk_machine k calls sh) (mk_machine k' (answer p r calls) sh)
| step_resume k calls sh p c r k' :
    current_pid_is p k -> calls !! p = Some c -> continue_call c k = Done (r, k') ->
    mstep (mk_machine k calls sh) (mk_machine k' (answer p r calls) sh)
| step_exec_taken k calls sh r k' :
    take_exec_ctx k = Done (r, k') -> mstep (mk_machine k calls sh) (mk_machine k' calls sh)
| step_interrupt k calls sh vector rx status sc h k' :
    common_dispatch vector rx status sc k = Done (h, k') -> mstep (mk_machine k calls sh) (mk_machine k' calls sh)
| step_interrupt_end k calls sh irq h k' :
    finish_irq (EoiLater irq) k = Done (h, k') -> mstep (mk_machine k calls sh) (mk_machine k' calls sh)
| step_page_fault k calls sh va err rip gprs h k' :
    pagefault_handler_x86 va err rip gprs k = Done (h, k') -> mstep (mk_machine k calls sh) (mk_machine k' calls sh)
| step_protection_fault k calls sh gprs err rip cs sp h k' :
    gpf_handler gprs err rip cs sp k = Done (h, k') -> mstep (mk_machine k calls sh) (mk_machine k' calls sh)
| step_trap k calls sh p scause time stval sepc source rx frame e k' :
    current_pid_is p k -> calls !! p = None ->
    trap_handler version_full tgt scause time stval sepc source rx frame k = Done (e, k') ->
    mstep (mk_machine k calls sh) (mk_machine k' (match e with Blocked c _ => <[p := c]> calls | _ => calls end) sh)
| step_trap_resume k calls sh p c time frame e k' :
    current_pid_is p k -> calls !! p = Some c -> trap_resume time (Blocked c frame) k = Done (e, k') ->
    mstep (mk_machine k calls sh) (mk_machine k' (match e with Blocked c' _ => <[p := c']> calls | _ => delete p calls end) sh)
| step_arm_interrupt k calls sh i rx e k' :
    aarch64_irq_handler i rx k = Done (e, k') -> mstep (mk_machine k calls sh) (mk_machine k' calls sh)
| step_arm_interrupt_end k calls sh pending rx e e' k' :
    irq_resume pending rx e k = Done (e', k') -> mstep (mk_machine k calls sh) (mk_machine k' calls sh)
| step_spawn_fn k calls sh entry o k' :
    spawn_fn entry k = Done (o, k') -> mstep (mk_machine k calls sh) (mk_machine k' calls sh)
| step_spawn_user k calls sh prog o k' :
    spawn_user prog k = Done (o, k') -> mstep (mk_machine k calls sh) (mk_machine k' calls sh)
| step_spawn_elf k calls sh dat argv0 o k' :
    spawn_elf dat argv0 k = Done (o, k') -> mstep (mk_machine k calls sh) (mk_machine k' calls sh)
| step_user_mode k calls sh v cpu :
    mstep (mk_machine k calls sh) (mk_machine (put_vm v (put_cpu cpu k)) calls sh)
| step_shell_start k calls s k' :
    shell_start version_full k = Done (s, k') -> mstep (mk_machine k calls None) (mk_machine k' calls (Some (editor_new, s)))
| step_shell_key k calls key stats e s r k' :
    shell_key tgt version_full task_hello task_counter stats key e s k = Done (r, k') ->
    mstep (mk_machine k calls (Some (e, s))) (mk_machine k' calls r)
| step_demo_task k calls sh t u k' :
    demo_round t k = Done (u, k') -> mstep (mk_machine k calls sh) (mk_machine k' calls sh).

Definition booted (m : machine A) : Prop :=
  exists cpu s v, screen_ok s /\
  kernel_main tgt INIT_ELF shell_run (statics cpu s v) = Done (tt, m_kernel m) /\ m_calls m = ∅ /\ m_shell m = None.

(** Runs that create fewer than 2^64 processes. *)
Inductive reachable : machine A -> Prop :=
| reach_boot m : booted m -> reachable m
| reach_step m m' : reachable m -> next_pid (k_sched (m_kernel m)) < 2 ^ 64 - 1 -> mstep m m' -> reachable m'.

(** ** The boot state *)

Lemma fs_init_ok : exists fs, fs_init tgt ramfs_new = Done fs /\ fs_wf fs.
Proof.
  assert (match fs_init tgt ramfs_new with Done fs => fs_wfb fs | Panic => false end = true) as H by (destruct tgt; vm_compute; reflexivity).
  destruct (fs_init tgt ramfs_new) as [fs|]; [|discriminate]. exists fs. split; [reflexivity | by apply fs_wfb_ok].
Qed.
Lemma sched_boot_inv : sched_inv (with_tasks (<[0%nat := Some Task_idle]> (tasks sched_bss)) sched_bss).
Proof.
  assert (forall i t, <[0%nat := Some Task_idle]> (tasks sched_bss) !! i = Some (Some t) -> i = 0%nat /\ t = Task_idle) as Hl.
  { intros [|i] t H; [by injection H as <-|]. rewrite list_lookup_insert_ne in H by done.
    cbn [tasks sched_bss] in H. by apply lookup_replicate in H as [H _]. }
  split.
  - by split; try (eexists; reflexivity).
  - split; [done|]. intros i q H. by apply lookup_replicate in H as [H _].
  - done.
  - intros i t [_ ->]%Hl. split; [apply FdTable_new_ok | cbn; unfold MAX_INODES; lia].
  - split.
    + intros i t [_ ->]%Hl. cbn. lia.
    + intros i t Hi [-> _]%Hl. done.
    + intros i j t u [-> _]%Hl [-> _]%Hl. done.
Qed.
Lemma boot_tables_inv cpu s v u k : screen_ok s -> boot_tables tgt (statics (A := A) cpu s v) = Done (u, k) ->
  kernel_inv k /\ next_pid (k_sched k) = 1.
Proof.
  intros Hs H. unfold boot_tables in H. apply bind_inv in H as (u1 & k1 & H1 & H). unfold on_fs in H1.
  destruct fs_init_ok as (fs & E & Hfs). cbn [k_fs statics] in H1. rewrite E in H1. mred_in H1. injection H1 as _ <-.
  apply set_task_Done in H. subst k. split; [|reflexivity]. split; cbn [k_sched k_tty k_pool k_fs put_sched put_fs statics].
  - apply sched_boot_inv.
  - split; [exact (proj1 (rb_new_wf 64 (Nat.lt_0_succ 63))) | exact (proj1 (rb_new_wf 64 (Nat.lt_0_succ 63))) | exact Hs].
  - apply POOL_init_wf.
  - done.
Qed.
Lemma booted_inv m : booted m -> kernel_inv (m_kernel m).
Proof.
  intros (cpu & s & v & Hs & H & _). unfold kernel_main in H. apply bind_inv in H as (u & k1 & H1 & H).
  destruct (boot_tables_inv _ _ _ _ _ Hs H1) as [Hk1 Hn1]. clear H1.
  assert (forall prog k r k', kernel_inv k -> (next_pid (k_sched k) = 1 \/ next_pid (k_sched k) = 2) ->
    (_ ← spawn_user prog; mret tt) k = Done (r, k') -> kernel_inv k') as Huser.
  { intros prog k r k' Hk Hn Hd. apply bind_inv in Hd as (o & k2 & H2 & Hd). unfold mret, km_ret in Hd. injection Hd as _ <-.
    eapply spawn_user_spawns in H2; [apply H2 | done | reflexivity | lia]. }
  unfold boot_tasks in H. destruct tgt as [| |b f].
  - apply bind_inv in H as (elf & k2 & H2 & H). unfold lift in H2. destruct (is_elf INIT_ELF) as [e|]; [|done]. injection H2 as -> <-.
    destruct elf; apply bind_inv in H as (o & k2 & H2 & H).
    + unfold mret, km_ret in H. injection H as <-. eapply spawn_elf_spawns in H2; [apply H2 | done | exact Hn1 | lia].
    + eapply spawn_fn_spawns in H2 as [? ?]; [|done | exact Hn1 | lia]. by eapply Huser.
  - apply bind_inv in H as (o & k2 & H2 & H). eapply spawn_fn_spawns in H2 as [? ?]; [|done | exact Hn1 | lia]. by eapply Huser.
  - apply bind_inv in H as (o & k2 & H2 & H). unfold mret, km_ret in H. injection H as <-.
    eapply spawn_fn_spawns in H2; [apply H2 | done | exact Hn1 | lia].
Qed.

(** ** The invariant of runs *)

Definition calls_ok (calls : gmap Z cont) : Prop := forall p c, calls !! p = Some c -> cont_of p c.
Definition machine_inv (m : machine A) : Prop := kernel_inv (m_kernel m) /\ calls_ok (m_calls m) /\ key_ok (m_shell m).

Lemma answer_ok p r calls : result_of p r -> calls_ok calls -> calls_ok (answer p r calls).
Proof.
  intros Hr Hc q c. destruct r as [v|c']; cbn [answer].
  - intros [_ H]%lookup_delete_Some. by apply Hc.
  - intros [[-> ->]|[_ H]]%lookup_insert_Some; [done | by apply Hc].
Qed.
Lemma keeps_step {X} (m : KM A X) Q k x k' : keeps (next_pid (k_sched k)) m Q -> kernel_inv k -> m k = Done (x, k') -> kernel_inv k'.
Proof. intros Hm Hk H. exact (proj1 (Hm _ _ _ Hk eq_refl H)). Qed.
Lemma spawns_step {X} (m : KM A X) k x k' : spawns (next_pid (k_sched k)) m -> kernel_inv k -> next_pid (k_sched k) < 2 ^ 64 - 1 ->
  m k = Done (x, k') -> kernel_inv k'.
Proof. intros Hm Hk Hn H. exact (proj1 (Hm _ _ _ Hk eq_refl Hn H)). Qed.
Lemma mstep_inv m m' : machine_inv m -> next_pid (k_sched (m_kernel m)) < 2 ^ 64 - 1 -> mstep m m' -> machine_inv m'.
Proof.
  intros (Hk & Hc & Hs) Hn H. destruct H as [k calls sh p nr a0 a1 a2 a3 a4 a5 ip sp r k' Hp Hnone H|k calls sh p c r k' Hp Hcall H| | | | | |
    k calls sh p scause time stval sepc source rx frame e k' Hp Hnone H|k calls sh p c time frame e k' Hp Hcall H| | | | | | | |
    k calls key stats e s r k' H|]; cbn [m_kernel m_calls m_shell] in *.
  - eapply call_syscall in H as [? ?]; [|exact Hk | exact Hp | exact Hn | reflexivity]. split; [done | split; [by apply answer_ok | done]].
  - eapply continue_call_keeps in H as (? & _ & ?); [|exact Hk | reflexivity | exact Hp | by apply Hc]. split; [done | split; [by apply answer_ok | done]].
  - split; [eapply keeps_step; [apply keeps_take_exec_ctx | exact Hk | eassumption] | done].
  - split; [eapply keeps_step; [apply keeps_common_dispatch | exact Hk | eassumption] | done].
  - split; [eapply keeps_step; [apply keeps_finish_irq | exact Hk | eassumption] | done].
  - split; [eapply keeps_step; [apply keeps_pagefault | exact Hk | eassumption] | done].
  - split; [eapply keeps_step; [apply keeps_gpf | exact Hk | eassumption] | done].
  - pose proof (trap_handler_keeps version_full tgt p _ _ _ _ _ _ _ _ _ _ Hk Hp Hn H) as [? He]. split; [done | split; [|done]].
    destruct e; try done. by apply (answer_ok p (Again c)).
  - pose proof (trap_resume_keeps p _ _ _ _ _ _ Hk Hp (Hc _ _ Hcall) H) as [? He]. split; [done | split; [|done]].
    destruct e as [f rs| |f|c' f]; [by apply (answer_ok p (Return 0))..|by apply (answer_ok p (Again c'))].
  - split; [eapply keeps_step; [apply keeps_aarch64_irq | exact Hk | eassumption] | done].
  - split; [eapply keeps_step; [apply keeps_irq_resume | exact Hk | eassumption] | done].
  - split; [eapply spawns_step; [apply spawn_fn_spawns | exact Hk | exact Hn | eassumption] | done].
  - split; [eapply spawns_step; [apply spawn_user_spawns | exact Hk | exact Hn | eassumption] | done].
  - split; [eapply spawns_step; [apply spawn_elf_spawns | exact Hk | exact Hn | eassumption] | done].
  - split; [by apply (kernel_inv_frame k) | done].
  - match goal with H : shell_start _ _ = _ |- _ => apply (shell_start_keeps _ _ _ _ _ Hk eq_refl) in H as (? & _ & ?) end. done.
  - apply (shell_key_leaves tgt version_full task_hello task_counter stats _ key e s Hs _ _ _ Hk eq_refl Hn) in H as [? ?]. done.
  - split; [eapply keeps_step; [apply keeps_demo_round | exact Hk | eassumption] | done].
Qed.
Lemma reachable_inv m : reachable m -> machine_inv m.
Proof.
  induction 1 as [m Hm|m m' _ IH Hn Hs]; [|by eapply mstep_inv].
  split; [by apply booted_inv|]. destruct Hm as (_ & _ & _ & _ & _ & -> & ->). split; [|done]. intros p c H. by rewrite lookup_empty in H.
Qed.

(** ** What the descriptors of a running task can be used for *)

Definition ok {X} (m : outcome X) : Prop := runs m (fun _ => True).
(** What [read], [write], [getdents64] and [close] do with an entry, on the files and the pipes. *)
Definition pipe_usable (P : pool) (i : nat) : Prop :=
  (forall buf, ok (pipe_read P i buf)) /\ (forall dat, ok (pipe_write P i dat)) /\
  ok (close_pipe_read P i) /\ ok (close_pipe_write P i).
Definition entry_usable (fs : RamFs) (P : pool) (e : FdEntry) : Prop :=
  match e with
  | VfsFile i off _ => (forall buf, ok (read_inode fs i off buf)) /\
      (forall dat, Z.of_nat (length dat) < 2 ^ 63 -> ok (write_inode fs i off dat))
  | VfsDir i _ => ok (list_dir_indexed fs i)
  | PipeRead i | PipeWrite i => pipe_usable P i
  | SocketPair r w => pipe_usable P r /\ pipe_usable P w
  | _ => True
  end.

Lemma ok_Done {X} (m : outcome X) x : m = Done x -> ok m.
Proof. by intros ->. Qed.
Lemma inode_read_ok fs i off buf : fs_wf fs -> ok (inode_read fs i off buf).
Proof.
  intros Hwf. unfold inode_read. destruct (Nat.leb_spec MAX_INODES i) as [|Hi]; [exact I|].
  destruct (get_lt fs i) as (nd & E & Hl); [rewrite (wf_length _ Hwf); exact Hi|]. rewrite E. mred.
  destruct (_ || _); [exact I|]. destruct (wf_lookup fs i nd Hwf Hl) as [(_ & _ & Hd & Hs & _) _].
  rewrite slice_ok by lia. mred. rewrite blit_ok; [exact I | lia |]. rewrite length_take, length_drop. lia.
Qed.
Lemma inode_write_ok fs i off dat : fs_wf fs -> 0 <= off < 2 ^ 64 -> Z.of_nat (length dat) < 2 ^ 63 -> ok (inode_write fs i off dat).
Proof.
  intros Hwf Ho Hl. destruct (decide (i < MAX_INODES)%nat) as [Hi|Hi].
  2: { unfold inode_write. destruct (Nat.leb_spec MAX_INODES i); [exact I | lia]. }
  destruct (get_lt fs i) as (nd & E & Hnd); [rewrite (wf_length _ Hwf); exact Hi|].
  destruct (used nd) eqn:Hu; [destruct (kind nd) eqn:Hk|].
  - eapply runs_mono; [by apply (inode_write_spec fs i nd off dat)|]. done.
  - unfold inode_write. destruct (_ <=? _)%nat; [exact I|]. rewrite E. mred. rewrite Hu, bool_decide_true by done. exact I.
  - unfold inode_write. destruct (_ <=? _)%nat; [exact I|]. rewrite E. mred. rewrite Hu. exact I.
Qed.
Lemma children_ok fs d l : (forall i, i ∈ l -> (i < length fs)%nat) -> ok (children_loop fs d l).
Proof.
  induction l as [|i l IH]; intros Hl; cbn [children_loop]; [exact I|].
  destruct (get_lt fs i) as (nd & -> & _); [apply Hl, list_elem_of_here|]. mred.
  specialize (IH (fun j Hj => Hl j (list_elem_of_further _ _ _ Hj))). destruct (children_loop fs d l); [exact I | done].
Qed.
Lemma list_dir_ok fs i : fs_wf fs -> ok (list_dir_indexed fs i).
Proof.
  intros Hwf. unfold list_dir_indexed, ramfs_list_dir_indexed. destruct (Nat.leb_spec MAX_INODES i) as [|Hi]; [exact I|].
  destruct (get_lt fs i) as (nd & -> & _); [rewrite (wf_length _ Hwf); exact Hi|]. mred. destruct (_ || _); [exact I|].
  apply children_ok. intros j [_ Hj]%elem_of_seq. rewrite (wf_length _ Hwf). exact Hj.
Qed.
Lemma pipe_usable_wf P i : pool_wf P -> pipe_usable P i.
Proof.
  intros Hwf. split; [|split; [|split]].
  - intros buf. destruct (pipe_read_refines P i buf Hwf) as (P' & E & _). destruct (read_answer _ _ _). by eapply ok_Done.
  - intros dat. destruct (pipe_write_refines P i dat Hwf) as (P' & E & _). by eapply ok_Done.
  - destruct (close_pipe_read_refines P i Hwf) as (P' & E & _). by eapply ok_Done.
  - destruct (close_pipe_write_refines P i Hwf) as (P' & E & _). by eapply ok_Done.
Qed.
Lemma entry_ok_usable fs P e : fs_wf fs -> pool_wf P -> entry_ok e -> entry_usable fs P e.
Proof.
  intros Hfs HP. destruct e; cbn [entry_ok entry_usable]; try done; intros He.
  - split; [intros buf; by apply inode_read_ok | intros dat Hd; apply inode_write_ok; [done | apply He | done]].
  - by apply list_dir_ok.
  - by apply pipe_usable_wf.
  - by apply pipe_usable_wf.
  - split; by apply pipe_usable_wf.
Qed.
Lemma current_fd_get_runs k fd : kernel_inv k -> exists o, current_fd_get fd k = Done (o, k) /\ some_entry_ok o.
Proof.
  intros Hk. assert (exists o, current_fd_get fd k = Done (o, k)) as [o H].
  { destruct Hk as [[[_ _ _ _ [t Hc] _] _ _ Hok _] _ _ _]. destruct (Hok _ _ Hc) as [[Hl _] _].
    unfold current_fd_get, current_task. kred. unfold CURRENT, get_task. kred. unfold lift. rewrite (get_Some _ _ _ Hc). kred.
    unfold fd_get. destruct (Nat.leb_spec MAX_FDS fd) as [|Hfd]; [eauto|]. destruct (get_lt (fd_table t) fd) as (e & -> & _); [lia|].
    mred. destruct e; eauto. }
  exists o. split; [done|]. exact (proj2 (proj2 (keeps_current_fd_get _ fd k o k Hk eq_refl H))).
Qed.

(** C1: in every state the booted kernel reaches, by system calls, resumed calls, interrupts,
    faults, RISC-V traps, AArch64 interrupts, new tasks, lines typed at the kernel shell and user-mode steps, the scheduler's tables have their sizes, the current
    slot holds a task, process ids are unique and above their parents', every waiting slot
    exists, every task's descriptors are well typed, the input rings, the screen, the pipe pool
    and the file system are well formed, a pending wait belongs to its caller, and the shell's
    working directory is a node of the file system. *)
Theorem kernel_invariant (m : machine A) : reachable m ->
  kernel_inv (m_kernel m) /\ (forall p c, m_calls m !! p = Some c -> cont_of p c) /\
  forall e s, m_shell m = Some (e, s) -> (sh_cwd s < MAX_INODES)%nat.
Proof.
  intros H. destruct (reachable_inv m H) as (Hk & Hc & Hs). split; [exact Hk|]. split; [exact Hc|].
  intros e s E. rewrite E in Hs. exact Hs.
Qed.

End machine.

(** ** A booted machine *)

Section demo.
#[local] Instance demo_x86_arch : ArchOps pages := x86_arch demo_image.
#[local] Instance demo_x86_vm : VmOps pages := x86_ops (im_pml4 demo_image).

Definition demo_cpu : cpu_state := mk_cpu_state 0 0x1000 0 false 0 0.
Definition demo_version : bytes := str "0.1.0".
Definition demo_shell : Z := 0x8000.
Definition demo_screen : screen := match clear screen_off with Done s => s | Panic => screen_off end.
Definition demo_hello : Z := 0x9000.
Definition demo_counter : Z := 0xA000.
(** The system boots; the idle task yields; task 1, the shell, asks for its process id, shows its
    prompt and is sent an empty line. *)
Local Abbreviation demo_call nr := (syscall_entry_rust demo_version X86_64 nr 0 0 0 0 0 0 0 0).
Local Abbreviation demo_key key := (shell_key X86_64 demo_version demo_hello demo_counter (mk_stats 0 0 0 0) key).
Definition running (p : Z) (k : kernel pages) : Prop :=
  match tasks (k_sched k) !! cur (k_sched k) with Some (Some t) => pid t = p | _ => False end.
(** What the example checks of the last state. *)
Definition demo_facts (k : kernel pages) : Prop :=
  cur (k_sched k) = 1%nat /\ next_pid (k_sched k) = 3 /\
  match current_fd_get 0 k with Done (Some Stdin, _) => True | _ => False end.

Definition demo_expected (x : kernel pages * sysret * kernel pages * sysret * kernel pages * shell * kernel pages * option (editor * shell) * kernel pages) : Prop :=
  let '(k0, r1, k1, r2, k2, s, k3, r4, k4) := x in
  r1 = Again (ThenReturn 0) /\ r2 = Return 1 /\ running 0 k0 /\ running 1 k1 /\
  next_pid (k_sched k0) = 3 /\ next_pid (k_sched k1) = 3 /\ next_pid (k_sched k2) = 3 /\ next_pid (k_sched k3) = 3 /\
  r4 = Some (editor_new, s) /\ demo_facts k4.
Lemma demo_run_check : runs
  ('(_, k0) ← kernel_main X86_64 [] demo_shell (statics demo_cpu demo_screen demo_vm);
   '(r1, k1) ← demo_call SYS_YIELD k0;
   '(r2, k2) ← demo_call SYS_GETPID k1;
   '(s, k3) ← shell_start demo_version k2;
   '(r4, k4) ← demo_key Enter editor_new s k3;
   Done (k0, r1, k1, r2, k2, s, k3, r4, k4)) demo_expected.
Proof. vm_compute. repeat split. Qed.
Lemma runs_bind_inv {X Y} (m : outcome X) (f : X -> outcome Y) Q : runs (m ≫= f) Q -> exists x, m = Done x /\ runs (f x) Q.
Proof. destruct m as [x|]; [|done]. intros H. by exists x. Qed.
Lemma running_pid p k : running p k -> current_pid_is p k.
Proof. unfold running, current_pid_is. destruct (_ !! _) as [[t|]|]; [|done..]. intros H. by exists t. Qed.
Lemma demo_screen_ok : screen_ok demo_screen.
Proof. destruct (clear_ok screen_off) as (s & E & H & _); [vm_compute; reflexivity|]. unfold demo_screen. rewrite E. exact H. Qed.
Local Abbreviation demo_reach := (reachable demo_version [] demo_shell demo_hello demo_counter X86_64).
Lemma demo_step m m' : demo_reach m -> next_pid (k_sched (m_kernel m)) = 3 ->
  mstep demo_version demo_hello demo_counter X86_64 m m' -> demo_reach m'.
Proof. intros H E Hs. eapply reach_step; [exact H | rewrite E; reflexivity | exact Hs]. Qed.
Lemma demo_reachable : exists m, demo_reach m /\ demo_facts (m_kernel m) /\ exists e s, m_shell m = Some (e, s).
Proof.
  pose proof demo_run_check as H. apply runs_bind_inv in H as ([[] k0] & Eb & H). apply runs_bind_inv in H as ([r1 k1] & Ey & H).
  apply runs_bind_inv in H as ([r2 k2] & Eg & H). apply runs_bind_inv in H as ([s k3] & Es & H). apply runs_bind_inv in H as ([r4 k4] & Ek & H).
  destruct H as (-> & -> & H0 & H1 & N0 & N1 & N2 & N3 & -> & Hf). set (c1 := answer 0 (Again (ThenReturn 0)) ∅).
  exists (mk_machine k4 (answer 1 (Return 1) c1) (Some (editor_new, s))). split; [|split; [exact Hf | by exists editor_new, s]].
  apply (demo_step (mk_machine k3 (answer 1 (Return 1) c1) (Some (editor_new, s)))); [|exact N3 | eapply step_shell_key, Ek].
  apply (demo_step (mk_machine k2 (answer 1 (Return 1) c1) None)); [|exact N2 | eapply step_shell_start, Es].
  apply (demo_step (mk_machine k1 c1 None)); [|exact N1 | eapply step_syscall; [by apply running_pid | reflexivity | exact Eg]].
  apply (demo_step (mk_machine k0 ∅ None)); [|exact N0 | eapply step_syscall; [by apply running_pid | reflexivity | exact Ey]].
  apply reach_boot. exists demo_cpu, demo_screen, demo_vm. split; [exact demo_screen_ok|]. split; [exact Eb | split; reflexivity].
Qed.

Lemma kernel_invariant_witness : exists m : machine pages, demo_facts (m_kernel m) /\ kernel_inv (m_kernel m) /\
  exists e s, m_shell m = Some (e, s) /\ (sh_cwd s < MAX_INODES)%nat.
Proof.
  destruct demo_reachable as (m & Hm & Hf & e & s & E). exists m. split; [exact Hf|].
  destruct (kernel_invariant demo_version [] demo_shell demo_hello demo_counter X86_64 m Hm) as (Hk & _ & Hs).
  split; [exact Hk|]. exists e, s. split; [exact E | exact (Hs e s E)].
Defined.
End demo.
