(* ===== verification/SyscallSpec.v ===== *)
(** Calls that must not leave a trace half-way: execve, which replaces a process or changes nothing;
    and the order of the timer interrupt: the switch comes before the end of interrupt. *)
From Stdlib Require Import ZArith Lia.
From stdpp Require Import base option list numbers.
From S2P Require Import Prelude Console Bitmap RingBuf Ipc Process X86Asm Context PageTable Pages Paging PagingSpec RamFs RamFsSpec Fs Elf AbiStack Kernel Scheduler Drivers Syscall Interrupts Boot Arch SchedulerSpec TaskLife Invariants SystemInv PipeCalls.
Local Open Scope Z_scope.

(** ** Parts of the state an operation leaves alone *)

Section frames.
Context {A : Type}.
Implicit Types k : kernel A.

Definition same {X Y} (f : kernel A -> Y) (m : KM A X) : Prop := forall k x k', m k = Done (x, k') -> f k' = f k.

Context {Y : Type} (f : kernel A -> Y).
Lemma same_ret {X} (x : X) : same f (mret x).
Proof. intros k y k' H. unfold mret, km_ret in H. by injection H as _ <-. Qed.
Lemma same_bind {X Z} (m : KM A X) (g : X -> KM A Z) : same f m -> (forall x, same f (g x)) -> same f (m ≫= g).
Proof. intros Hm Hg k y k' H. apply bind_inv in H as (x & k1 & H1 & H2). rewrite (Hg x _ _ _ H2). by eapply Hm. Qed.
Lemma same_gets {X} (g : kernel A -> X) : same f (gets g).
Proof. by intros k x k' [_ ->]%gets_Done. Qed.
Lemma same_lift {X} (m : outcome X) : same f (lift m).
Proof. intros k x k' H. unfold lift in H. destruct m; [|done]. by injection H as _ <-. Qed.
Lemma same_panic {X} : same f (panic (X := X)).
Proof. done. Qed.
Lemma same_modify g : (forall k, f (g k) = f k) -> same f (modify g).
Proof. intros Hg k x k' H. unfold modify in H. by injection H as _ <-. Qed.
Lemma same_forM {X} (xs : list X) body : (forall x, same f (body x)) -> same f (forM xs body).
Proof. intros Hb. induction xs as [|x xs IH]; cbn [forM]; [apply same_ret | by apply same_bind]. Qed.
End frames.

(** [on_vm] changes only the memory, and so on. *)
Lemma same_on_vm {A X Y} (f : kernel A -> Y) (g : vm A -> outcome (X * vm A)) : (forall v k, f (put_vm v k) = f k) -> same f (on_vm g).
Proof. intros Hf k x k' H. unfold on_vm in H. destruct (g (k_vm k)) as [[y v]|]; [|done]. injection H as _ <-. apply Hf. Qed.
Lemma same_on_pool {A X Y} (f : kernel A -> Y) (g : pool -> outcome (X * pool)) : (forall P k, f (put_pool P k) = f k) -> same f (on_pool g).
Proof. intros Hf k x k' H. unfold on_pool in H. destruct (g (k_pool k)) as [[y v]|]; [|done]. injection H as _ <-. apply Hf. Qed.
Lemma same_on_fs {A X Y} (f : kernel A -> Y) (g : RamFs -> outcome (X * RamFs)) : (forall s k, f (put_fs s k) = f k) -> same f (on_fs g).
Proof. intros Hf k x k' H. unfold on_fs in H. destruct (g (k_fs k)) as [[y v]|]; [|done]. injection H as _ <-. apply Hf. Qed.

Create HintDb frames.
Ltac fstep :=
  match goal with
  | |- same _ (mret _) => apply same_ret
  | |- same _ panic => apply same_panic
  | |- same _ (gets _) => apply same_gets
  | |- same _ (lift _) => apply same_lift
  | |- same _ (mbind _ _) => apply same_bind; [|intros ?]
  | |- same _ (forM _ _) => apply same_forM; intros ?
  | |- same _ (on_vm _) => apply same_on_vm; reflexivity
  | |- same _ (on_pool _) => apply same_on_pool; reflexivity
  | |- same _ (on_fs _) => apply same_on_fs; reflexivity
  | |- same _ (if ?b then _ else _) => destruct b
  | |- same _ (match ?x with _ => _ end) => destruct x
  | |- same _ (let _ := _ in _) => cbv zeta
  | |- same _ _ => solve [auto with frames] || (apply same_modify; reflexivity)
  end.
Ltac fsolve := repeat fstep.
(** Past an operation that leaves [f] alone. *)
Ltac skip f :=
  match goal with
  | H : (?m ≫= _) ?k = Done (_, _) |- _ =>
      let x := fresh "x" in let k1 := fresh "k" in let H1 := fresh "Hs" in
      apply bind_inv in H as (x & k1 & H1 & H);
      let E := fresh "Es" in
      assert (same f m) as E by fsolve;
      apply E in H1; clear E; cbv beta in H
  end.

(** ** The timer *)

Section timer.
Context {A : Type} {ops : PageOps A} {vops : VmOps A} {arch : ArchOps A}.
Implicit Types k : kernel A.

Lemma tty_set_task slot o : same (A := A) k_tty (set_task slot o).
Proof. unfold set_task. fsolve. Qed.
#[local] Hint Resolve tty_set_task : frames.
Lemma tty_get_task slot : same (A := A) k_tty (get_task slot).
Proof. unfold get_task. fsolve. Qed.
#[local] Hint Resolve tty_get_task : frames.
Lemma tty_update_task slot f : same (A := A) k_tty (update_task slot f).
Proof. unfold update_task. fsolve. Qed.
Lemma tty_set_parked slot x : same (A := A) k_tty (set_parked slot x).
Proof. unfold set_parked. fsolve. Qed.
#[local] Hint Resolve tty_update_task tty_set_parked : frames.
Lemma tty_irqs b : same (A := A) k_tty (restore_interrupt_state b).
Proof. unfold restore_interrupt_state. fsolve. Qed.
Lemma tty_write_fs v : same (A := A) k_tty (write_fs_base v).
Proof. unfold write_fs_base. fsolve. Qed.
#[local] Hint Resolve tty_irqs tty_write_fs : frames.
Lemma tty_resume slot : same (A := A) k_tty (resume slot).
Proof. unfold resume. fsolve. Qed.
Lemma tty_schedule_out : same (A := A) k_tty schedule_out.
Proof. unfold schedule_out, save_and_disable_interrupts, check_canary, CURRENT, set_kernel_stack, switch_address_space, read_fs_base. fsolve. Qed.
#[local] Hint Resolve tty_resume tty_schedule_out : frames.
Lemma tty_schedule : same (A := A) k_tty schedule.
Proof. unfold schedule. fsolve. Qed.
Lemma tty_deliver : same (A := A) k_tty deliver_all_signals.
Proof. intros k x k' H. unfold deliver_all_signals in H. destruct (foldM _ _ _) as [[ts P]|]; [|done]. by injection H as _ <-. Qed.
#[local] Hint Resolve tty_schedule tty_deliver : frames.
Lemma tty_tick : same (A := A) k_tty tick.
Proof. unfold tick. fsolve. Qed.

(** What a switch does to the slot that runs and to the suspended calls. *)
Definition slot_of k : nat * list (option (nat * bool)) := (cur (k_sched k), parked (k_sched k)).
Lemma slot_set_task slot o : same (A := A) slot_of (set_task slot o).
Proof. unfold set_task. fsolve. Qed.
#[local] Hint Resolve slot_set_task : frames.
Lemma slot_get_task slot : same (A := A) slot_of (get_task slot).
Proof. unfold get_task. fsolve. Qed.
#[local] Hint Resolve slot_get_task : frames.
Lemma slot_update_task slot f : same (A := A) slot_of (update_task slot f).
Proof. unfold update_task, get_task. fsolve. Qed.
#[local] Hint Resolve slot_update_task : frames.
Lemma slot_irqs b : same (A := A) slot_of (restore_interrupt_state b).
Proof. unfold restore_interrupt_state. fsolve. Qed.
Lemma slot_write_fs v : same (A := A) slot_of (write_fs_base v).
Proof. unfold write_fs_base. fsolve. Qed.

Lemma slot_canary c : same (A := A) slot_of (check_canary c).
Proof. unfold check_canary. fsolve. Qed.
#[local] Hint Resolve slot_irqs slot_write_fs slot_canary : frames.
Lemma slot_deliver : same (A := A) slot_of deliver_all_signals.
Proof. intros k x k' H. unfold deliver_all_signals in H. destruct (foldM _ _ _) as [[ts P]|]; [|done]. by injection H as _ <-. Qed.

#[local] Hint Resolve slot_deliver : frames.

Lemma set_parked_Done k slot x u k' : set_parked slot x k = Done (u, k') ->
  slot_of k' = (cur (k_sched k), <[slot := x]> (parked (k_sched k))).
Proof. unfold set_parked. kred. unfold lift. destruct (set _ _ _) as [l|] eqn:E; [|done]. kred. apply set_inv in E as [-> _]. by intros [= _ <-]. Qed.

Lemma schedule_out_moves k o k1 : schedule_out k = Done (o, k1) ->
  match o with
  | None => slot_of k1 = slot_of k
  | Some n => n <> cur (k_sched k) /\ exists b, slot_of k1 = (n, <[cur (k_sched k) := Some (n, b)]> (parked (k_sched k)))
  end.
Proof.
  intros H. unfold schedule_out, save_and_disable_interrupts, CURRENT, set_kernel_stack, switch_address_space, read_fs_base in H. skip slot_of. apply bind_inv in H as (prev & k3 & [-> ->]%gets_Done & H).
  do 3 skip slot_of. match goal with H : context [if ?b then _ else _] |- _ => destruct b eqn:Hb end.
  - skip slot_of. apply Nat.eqb_eq in Hb. unfold mret, km_ret in H. injection H as <- <-. congruence.
  - apply Nat.eqb_neq in Hb. apply bind_inv in H as (u & k5 & Hm & H). unfold mod_sched, modify in Hm. injection Hm as _ <-.
    cbv zeta in H. do 9 skip slot_of. apply bind_inv in H as (u1 & kl & Hl%set_parked_Done & H).
    unfold mret, km_ret in H. injection H as <- <-. unfold slot_of in *. cbn [put_sched k_sched with_cur cur parked] in *. simplify_eq.
    split; [congruence|]. exists x. f_equal; congruence.
Qed.
(** A switch to a task that never ran enters it; a user task, with interrupts on. *)
Lemma schedule_enters k u k' : schedule k = Done (u, k') -> cur (k_sched k') <> cur (k_sched k) ->
  parked (k_sched k) !! cur (k_sched k') = Some None ->
  (exists t, tasks (k_sched k') !! cur (k_sched k') = Some (Some t) /\ is_user t = true) -> irqs (k_cpu k') = true.
Proof.
  intros H Hc Hp (t & Ht & Hu). unfold schedule in H. apply bind_inv in H as (o & k1 & H1%schedule_out_moves & H).
  destruct o as [n|]; [|unfold mret, km_ret in H; injection H as _ <-; by injection H1].
  destruct H1 as (Hn & b & H1). unfold slot_of in H1. injection H1 as E1 E2. unfold resume in H.
  apply bind_inv in H as (fs & k2 & [-> ->]%gets_Done & H). apply bind_inv in H as (f & k2 & H1 & H).
  unfold lift in H1. destruct (get _ n) as [f'|] eqn:Ef; [|done]. injection H1 as -> <-. apply get_Done in Ef. destruct f as [[next irqs_on]|].
  - assert (cur (k_sched k') = n) as En.
    { enough (slot_of k' = slot_of (put_sched (with_parked (<[n := None]> (parked (k_sched k1))) (k_sched k1)) k1)) as E3 by (injection E3 as E3 _; congruence).
      apply bind_inv in H as (u1 & kl & Hl%set_parked_Done & H). skip slot_of. skip slot_of.
      assert (same (A := A) slot_of (write_fs_base (fs_base x0);; restore_interrupt_state irqs_on)) as E by fsolve. apply E in H.
      etransitivity; [exact H|]. rewrite Hs0, Hs, Hl. reflexivity. }
    rewrite En in Hp. rewrite E2, list_lookup_insert_ne in Ef by done. congruence.
  - apply bind_inv in H as (o & k2 & [-> Ho]%get_task_Done & H). apply bind_inv in H as (t' & k2 & H1 & H).
    destruct o as [t0|]; [|done]. cbn in H1. injection H1 as <- <-.
    destruct (is_user t0) eqn:Eu; [unfold mod_cpu, modify in H; injection H as _ <-; reflexivity|].
    unfold mret, km_ret in H. injection H as _ <-. rewrite E1, Ho in Ht. congruence.
Qed.

Lemma tick_enters k u k' : tick k = Done (u, k') -> cur (k_sched k') <> cur (k_sched k) ->
  parked (k_sched k) !! cur (k_sched k') = Some None ->
  (exists t, tasks (k_sched k') !! cur (k_sched k') = Some (Some t) /\ is_user t = true) -> irqs (k_cpu k') = true.
Proof.
  intros H Hc Hp Ht. unfold tick in H. do 3 skip slot_of. assert (slot_of k2 = slot_of k) as E by congruence.
  injection E as E1 E2. destruct (_ =? 0).
  - eapply schedule_enters; [exact H | congruence | congruence | exact Ht].
  - unfold mret, km_ret in H. injection H as _ <-. congruence.
Qed.

(** When the timer interrupt switches to a task that never ran, a user task is entered with
    interrupts enabled although no end of interrupt has been written: it follows only when the
    interrupted task runs again.  Until then the controller, whose line 0 is still in service,
    delivers no interrupt, the timer's included. *)
Theorem timer_switch_before_eoi k h k' rx status sc :
  common_dispatch 32 rx status sc k = Done (h, k') -> cur (k_sched k') <> cur (k_sched k) ->
  h = EoiLater 0 /\ pic_writes (k_tty k') = pic_writes (k_tty k) /\
  (parked (k_sched k) !! cur (k_sched k') = Some None ->
   (exists t, tasks (k_sched k') !! cur (k_sched k') = Some (Some t) /\ is_user t = true) -> irqs (k_cpu k') = true).
Proof.
  intros H Hc. change (timer_irq k = Done (h, k')) in H. unfold timer_irq in H.
  apply bind_inv in H as (c & k1 & [-> ->]%gets_Done & H). apply bind_inv in H as (u & k1 & H1 & H).
  apply bind_inv in H as (c' & k2 & [-> ->]%gets_Done & H). pose proof (tty_tick _ _ _ H1) as Et.
  destruct (Nat.eqb_spec (cur (k_sched k1)) (cur (k_sched k))) as [E|E].
  - apply bind_inv in H as (u1 & k3 & H2 & H). unfold eoi, mod_tty, modify in H2. injection H2 as _ <-.
    unfold mret, km_ret in H. injection H as <- <-. done.
  - unfold mret, km_ret in H. injection H as <- <-. rewrite Et. split; [reflexivity|]. split; [reflexivity|].
    intros Hp Ht. by eapply tick_enters.
Qed.
End timer.

(** ** execve *)

Section execve.
Context {A : Type} {ops : PageOps A} {vops : VmOps A} {arch : ArchOps A}.
Implicit Types k : kernel A.

(** Everything but the memory, the page allocator and the count of random words. *)
Definition process_state k :=
  (k_sched k, k_tty k, k_sys k, k_pool k, k_fs k,
   (fs_reg (k_cpu k), page_root (k_cpu k), entry_sp (k_cpu k), irqs (k_cpu k), sp_reg (k_cpu k))).
Local Abbreviation calm m := (same (A := A) process_state m).

Lemma calm_user_addr va : calm (user_addr va).
Proof. unfold user_addr. fsolve. Qed.
#[local] Hint Resolve calm_user_addr : frames.
Lemma calm_user_read8 va : calm (user_read8 va).
Proof. unfold user_read8. fsolve. Qed.
#[local] Hint Resolve calm_user_read8 : frames.
Lemma calm_user_read n : forall va, calm (user_read va n).
Proof. induction n as [|n IH]; intros va; cbn [user_read]; fsolve. Qed.
#[local] Hint Resolve calm_user_read : frames.
Lemma calm_user_read_le va n : calm (user_read_le va n).
Proof. unfold user_read_le. fsolve. Qed.
#[local] Hint Resolve calm_user_read_le : frames.
Lemma calm_cstr_loop n : forall va acc, calm (user_cstr_loop va n acc).
Proof. induction n as [|n IH]; intros va acc; cbn [user_cstr_loop]; fsolve. Qed.
#[local] Hint Resolve calm_cstr_loop : frames.
Lemma calm_cstr p n : calm (user_cstr p n).
Proof. unfold user_cstr. fsolve. Qed.
#[local] Hint Resolve calm_cstr : frames.
Lemma calm_cstr_array_loop n : forall p, calm (user_cstr_array_loop p n).
Proof. induction n as [|n IH]; intros p; cbn [user_cstr_array_loop]; fsolve. Qed.
#[local] Hint Resolve calm_cstr_array_loop : frames.
Lemma calm_cstr_array p n : calm (user_cstr_array p n).
Proof. unfold user_cstr_array. fsolve. Qed.
Lemma calm_map_stack pt va phys idxs : calm (map_stack_pages pt va phys idxs).
Proof. induction idxs as [|i idxs IH]; cbn [map_stack_pages]; fsolve. Qed.
#[local] Hint Resolve calm_cstr_array calm_map_stack : frames.
Lemma calm_user_stack pt top : calm (map_user_init_stack pt top).
Proof. unfold map_user_init_stack, k_alloc_pages, on_mem. fsolve. Qed.
Lemma calm_abi_stack a b c d e f g h i : calm (k_setup_abi_stack a b c d e f g h i).
Proof. unfold k_setup_abi_stack, entropy_seed. fsolve. Qed.
#[local] Hint Resolve calm_user_stack calm_abi_stack : frames.
Lemma calm_path_loop n : forall va, calm (read_path_loop va n).
Proof. induction n as [|n IH]; intros va; cbn [read_path_loop]; fsolve. Qed.
#[local] Hint Resolve calm_path_loop : frames.
Lemma calm_read_path p : calm (read_path p).
Proof. unfold read_path. fsolve. Qed.
Lemma calm_current_cwd : calm current_cwd.
Proof. unfold current_cwd, current_field, CURRENT, get_task. fsolve. Qed.
Lemma calm_fs_query {X} (f : RamFs -> outcome X) : calm (fs_query f).
Proof. unfold fs_query. fsolve. Qed.
#[local] Hint Resolve calm_read_path calm_current_cwd calm_fs_query : frames.

(** The task of the running slot replaced, and the processor's FS base cleared. *)
Definition exec_replaced k k' (heap pt : Z) : Prop :=
  exists t, tasks (k_sched k) !! cur (k_sched k) = Some (Some t) /\
    k_sched k' = with_tasks (<[cur (k_sched k) := Some (with_fs_base 0 (with_heap_brk heap (with_page_table pt t)))]> (tasks (k_sched k))) (k_sched k) /\
    k_tty k' = k_tty k /\ k_pool k' = k_pool k /\ k_fs k' = k_fs k /\ page_root (k_cpu k') = page_root (k_cpu k).

Lemma execve_current_inv k dat argv0 argv envp r k' : execve_current dat argv0 argv envp k = Done (r, k') ->
  match r with
  | Some (ip, sp, pt) => exists heap, exec_replaced k k' heap pt /\ k_sys k' = k_sys k
  | None => process_state k' = process_state k
  end.
Proof.
  intros H. unfold execve_current in H. do 2 skip process_state.
  do 4 (skip process_state; match type of H with (match ?o with _ => _ end) _ = _ => destruct o; [|unfold mret, km_ret in H; injection H as <- <-; congruence] end;
    repeat match type of H with (let '(_, _) := ?p in _) _ = _ => destruct p end; cbv zeta in H).
  assert (process_state k5 = process_state k) as E by congruence. injection E as Es Et Ey Ep Ef _ Er _ _ _.
  apply bind_inv in H as (c & k6 & [-> ->]%gets_Done & H). apply bind_inv in H as (o & k6 & [-> Ho]%get_task_Done & H).
  destruct o as [t|]; [|unfold mret, km_ret in H; injection H as <- <-; congruence].
  apply bind_inv in H as (u & k6 & ->%set_task_Done & H). apply bind_inv in H as (u1 & k7 & H1 & H).
  unfold mret, km_ret in H. injection H as <- <-. exists z4. unfold write_fs_base in H1.
  assert (k_sys k7 = k_sys k5 /\ k_sched k7 = with_tasks (<[cur (k_sched k5) := Some (with_fs_base 0 (with_heap_brk z4 (with_page_table z t)))]> (tasks (k_sched k5))) (k_sched k5) /\
    k_tty k7 = k_tty k5 /\ k_pool k7 = k_pool k5 /\ k_fs k7 = k_fs k5 /\ page_root (k_cpu k7) = page_root (k_cpu k5)) as (E1 & E2 & E3 & E4 & E5 & E6).
  { destruct arch_has_fs; [unfold mod_cpu, modify in H1 | unfold mret, km_ret in H1]; injection H1 as _ <-; done. }
  split; [|congruence]. exists t. rewrite Es in Ho, E2. split_and!; congruence.
Qed.

End execve.

(** ** Examples *)

Section demo.
#[local] Existing Instance flat_arch.
#[local] Existing Instance flat_vops.

(** A machine with free pages whose memory holds a path at 0x5000. *)
Definition demo_path (path : bytes) : kernel pages :=
  put_vm (mk_vm (fun a => if (0x5000 <=? a) && (a <? 0x5100) then nth (Z.to_nat (a - 0x5000)) path 0 else 0) demo_pages)
    (demo_system POOL_init (replicate 8 None) [Some (demo_task 1 0 Ready 0x11000)] 1).

(** The tenth tick, two user tasks that never ran. *)
Definition demo_tenth : kernel pages := put_sched (with_ticks 9 (k_sched demo_two)) demo_two.
Lemma timer_switch_before_eoi_witness : exists k', common_dispatch 32 [] 0 0 demo_tenth = Done (EoiLater 0, k') /\
  cur (k_sched k') = 2%nat /\ pic_writes (k_tty k') = [] /\ irqs (k_cpu k') = true.
Proof.
  assert (match common_dispatch 32 [] 0 0 demo_tenth with
    | Done (_, k') => cur (k_sched k') = 2%nat /\ match tasks (k_sched k') !! 2%nat with Some (Some t) => is_user t = true | _ => False end
    | Panic => False end) as Hrun by (vm_compute; split; reflexivity).
  destruct (common_dispatch 32 [] 0 0 demo_tenth) as [[h k']|] eqn:E; [|destruct Hrun]. destruct Hrun as [Hc Ht].
  destruct (timer_switch_before_eoi demo_tenth h k' [] 0 0 E) as (-> & Hw & Hi).
  - rewrite Hc. discriminate.
  - exists k'. split; [reflexivity|]. split; [exact Hc|]. split; [exact Hw|]. apply Hi.
    + rewrite Hc. reflexivity.
    + rewrite Hc. destruct (tasks (k_sched k') !! 2%nat) as [[t|]|]; [|destruct Ht..]. exists t. split; [reflexivity | exact Ht].
Defined.

End demo.
