(* ===== verification/InitShell.v ===== *)
(** The userspace init (src/userspace/init/src/main.rs): the shell that runs as the first process, on the calls
    of the standard library and of libc that it makes.

    Text is a list of Unicode scalar values, as a Rust [str] or [String] holds; what goes to the standard output and to files is
    its UTF-8 encoding.  What the operating system answers is a class; the output and error streams are kept apart. *)
From Stdlib Require Import ZArith Lia Sorted.
From stdpp Require Import base option list numbers.
From S2P Require Import Prelude RamFs ShellLine.
Local Open Scope Z_scope.

Abbreviation text := (list Z).

Module Init.
(** ** Text *)

(** [char::is_whitespace]: the property White_Space of Unicode. *)
Definition char_whitespace (c : Z) : bool :=
  (9 <=? c) && (c <=? 13) || (c =? 32) || (c =? 0x85) || (c =? 0xA0) || (c =? 0x1680) || (0x2000 <=? c) && (c <=? 0x200A) ||
  (c =? 0x2028) || (c =? 0x2029) || (c =? 0x202F) || (c =? 0x205F) || (c =? 0x3000).
Definition str_trim (s : text) : text := reverse (skip_while char_whitespace (reverse (skip_while char_whitespace s))).
(** [s.splitn(2, ' ')]: the first part, and the second if there is one. *)
Fixpoint split_space (s : text) : text * option text :=
  match s with
  | [] => ([], None)
  | c :: s => if c =? 32 then ([], Some s) else let '(a, b) := split_space s in (c :: a, b)
  end.
(** [s.split_whitespace()]; [n] bounds the number of words. *)
Fixpoint split_whitespace (n : nat) (s : text) : list text :=
  match n with
  | O => []
  | S n =>
      let s := skip_while char_whitespace s in
      let w := take_while (fun c => negb (char_whitespace c)) s in
      match w with [] => [] | _ => w :: split_whitespace n (drop (length w) s) end
  end.
Definition words (s : text) : list text := split_whitespace (length s) s.
(** [s.rsplit_once(pat)] *)
Fixpoint rfind (pat s : text) : option nat :=
  match s with
  | [] => if prefixed pat [] then Some O else None
  | _ :: s' => match rfind pat s' with Some n => Some (S n) | None => if prefixed pat s then Some O else None end
  end.
Definition rsplit_once (pat s : text) : option (text * text) :=
  n ← rfind pat s; Some (take n s, drop (n + length pat) s).
Definition utf8_char (c : Z) : bytes :=
  if c <? 0x80 then [c]
  else if c <? 0x800 then [0xC0 + c / 64; 0x80 + c mod 64]
  else if c <? 0x10000 then [0xE0 + c / 4096; 0x80 + c / 64 mod 64; 0x80 + c mod 64]
  else [0xF0 + c / 262144; 0x80 + c / 4096 mod 64; 0x80 + c / 64 mod 64; 0x80 + c mod 64].
Definition utf8 (s : text) : bytes := concat (utf8_char <$> s).
(** The order of [String], and [names.sort()]. *)
Fixpoint text_le (a b : text) : bool :=
  match a, b with
  | [], _ => true
  | _, [] => false
  | x :: a, y :: b => (x <? y) || (x =? y) && text_le a b
  end.
Fixpoint insert_name (x : text) (l : list text) : list text :=
  match l with [] => [x] | y :: l' => if text_le x y then x :: l else y :: insert_name x l' end.
Definition sort_names (l : list text) : list text := foldr insert_name [] l.

(** ** The operating system *)

(** [W]: everything outside of the process; [H]: open files.  An error is what its [Display] prints. *)
Class Os (W H : Type) := {
  os_read_line : W -> option text * W;                  (* [None]: an error; the empty text: the end *)
  os_release : W -> option text;                        (* uname *)
  os_current_dir : W -> text + text;                    (* inl: an error *)
  os_set_current_dir : text -> W -> option text * W;    (* [Some]: an error *)
  os_read_dir : text -> W -> text + list (option text);
  os_create_dir : text -> W -> option text * W;
  os_remove_dir : text -> W -> option text * W;
  os_remove_file : text -> W -> option text * W;
  os_exists : text -> W -> bool;
  os_create : text -> W -> option text * W;
  os_open_read : text -> W -> (text + H) * W;
  os_read_to_end : H -> W -> (option text * bytes) * W;
  os_open_write : bool -> text -> W -> (text + H) * W;  (* create, with append or truncate *)
  os_write_all : H -> bytes -> W -> option text * W;
  os_run : text -> list text -> W -> option text * W;   (* spawn and wait *)
  os_waitpid : W -> Z * W                               (* any child, WNOHANG *)
}.

Record console {W : Type} := mk_console { world : W; stdout : bytes; stderr : bytes }.
Arguments console : clear implicits.
Arguments mk_console {_}.

Section shell.
Context {W H : Type} {os : Os W H}.
Definition SH (A : Type) : Type := console W -> A * console W.
#[global] Instance sh_ret : MRet SH := fun _ a s => (a, s).
#[global] Instance sh_bind : MBind SH := fun _ _ f m s => let '(a, s') := m s in f a s'.

Definition print_bytes (b : bytes) : SH unit := fun s => (tt, mk_console (world s) (stdout s ++ b) (stderr s)).
Definition print (t : text) : SH unit := print_bytes (utf8 t).
Definition println (t : text) : SH unit := print_bytes (utf8 t ++ [10]).
Definition eprintln (t : text) : SH unit := fun s => (tt, mk_console (world s) (stdout s) (stderr s ++ utf8 t ++ [10])).
Definition ask {A} (f : W -> A) : SH A := fun s => (f (world s), s).
Definition call {A} (f : W -> A * W) : SH A := fun s => let '(a, w) := f (world s) in (a, mk_console w (stdout s) (stderr s)).
(** [if let Err(e) = ... { eprintln!("{cmd}: {path}: {e}") }] *)
Definition or_complain (cmd path : text) (e : option text) : SH unit :=
  match e with Some e => eprintln (cmd ++ str ": " ++ path ++ str ": " ++ e) | None => mret tt end.
(** [let Some(path) = path else { ... }] *)
Definition with_operand (cmd : text) (path : option text) (f : text -> SH unit) : SH unit :=
  match path with Some p => f p | None => eprintln (cmd ++ str ": missing operand") end.

Definition banner : SH text := u ← ask os_release; mret (match u with Some release => str "Ferrugem v" ++ release | None => str "Ferrugem" end).
Definition print_prompt : SH unit :=
  d ← ask os_current_dir; print (str "root@ferrugem:" ++ (match d with inr p => p | inl _ => str "/" end) ++ str "# ").

Definition help_text : list text :=
  [str "Ferrugem shell (userspace init)" ++ [10]; str "Navigation:"; str "  cd [path]              change directory (default: /)";
   str "  ls [path]              list directory"; str "  pwd                    print working directory"; [10] ++ str "Files:";
   str "  touch <file>           create empty file"; str "  cat <file>             print file contents"; str "  rm <file>              delete file";
   str "  mkdir <dir>            create directory"; str "  rmdir <dir>            remove empty directory"; [10] ++ str "Redirects:";
   str "  echo <text>            print text"; str "  echo <text> > <file>   overwrite file"; str "  echo <text> >> <file>  append to file"; [10] ++ str "Other:";
   str "  whoami                 print current user"; str "  uname                  kernel name and version"; str "  clear                  clear the screen";
   str "  exit                   halt the system"; [10] ++ str "Anything else is looked up as a program in PATH."].
Fixpoint println_all (l : list text) : SH unit := match l with [] => mret tt | t :: l => println t;; println_all l end.
Definition cmd_help : SH unit := println_all help_text.
Definition cmd_pwd : SH unit := d ← ask os_current_dir; match d with inr p => println p | inl e => eprintln (str "pwd: " ++ e) end.
Definition cmd_cd (path : option text) : SH unit := let path := default (str "/") path in e ← call (os_set_current_dir path); or_complain (str "cd") path e.
Definition cmd_ls (path : option text) : SH unit :=
  let path := default (str ".") path in
  r ← ask (os_read_dir path);
  match r with
  | inl e => or_complain (str "ls") path (Some e)
  | inr entries => println_all (sort_names (omap id entries))
  end.
Definition cmd_mkdir (path : option text) : SH unit := with_operand (str "mkdir") path (fun p => e ← call (os_create_dir p); or_complain (str "mkdir") p e).
Definition cmd_rmdir (path : option text) : SH unit := with_operand (str "rmdir") path (fun p => e ← call (os_remove_dir p); or_complain (str "rmdir") p e).
Definition cmd_rm (path : option text) : SH unit := with_operand (str "rm") path (fun p => e ← call (os_remove_file p); or_complain (str "rm") p e).
Definition cmd_touch (path : option text) : SH unit :=
  with_operand (str "touch") path (fun p =>
    ex ← ask (os_exists p); if ex : bool then mret tt else e ← call (os_create p); or_complain (str "touch") p e).
Definition cmd_cat (path : option text) : SH unit :=
  with_operand (str "cat") path (fun p =>
    f ← call (os_open_read p);
    match f with
    | inl e => or_complain (str "cat") p (Some e)
    | inr h =>
        r ← call (os_read_to_end h);
        match r with (Some e, _) => or_complain (str "cat") p (Some e) | (None, buf) => print_bytes buf end
    end).
(** [writeln!(f, "{text}")]: the text and the end of the line are written one after the other. *)
Definition writeln (h : H) (t : text) : SH (option text) :=
  e ← call (os_write_all h (utf8 t)); match e with Some e => mret (Some e) | None => call (os_write_all h [10]) end.
Definition echo_to_file (t path : text) (append : bool) : SH unit :=
  match path with
  | [] => eprintln (str "echo: missing filename for redirect")
  | _ =>
      f ← call (os_open_write append path);
      e ← (match f with inl e => mret (Some e) | inr h => writeln h t end);
      match e with Some e => eprintln (str "echo: cannot write: " ++ path ++ str ": " ++ e) | None => mret tt end
  end.
Definition cmd_echo (rest : text) : SH unit :=
  match rsplit_once (str ">>") rest with
  | Some (t, path) => echo_to_file (str_trim t) (str_trim path) true
  | None =>
      match rsplit_once (str ">") rest with
      | Some (t, path) => echo_to_file (str_trim t) (str_trim path) false
      | None => println rest
      end
  end.
Definition cmd_exec (cmd : text) (args : list text) : SH unit :=
  match cmd with
  | [] => mret tt
  | _ => e ← call (os_run cmd args); match e with Some e => eprintln (str "[init] " ++ cmd ++ str ": " ++ e) | None => mret tt end
  end.

Definition is_word (cmd : text) (w : text) : bool := bool_decide (cmd = w).
Definition clear_screen : text := [27] ++ str "[2J" ++ [27] ++ str "[H".
Definition run_line (line : text) : SH unit :=
  let '(cmd, rest) := split_space line in
  let rest := str_trim (default [] rest) in
  let args := words rest in
  let arg := args !! O in
  if is_word cmd (str "help") then cmd_help
  else if is_word cmd (str "pwd") then cmd_pwd
  else if is_word cmd (str "cd") then cmd_cd arg
  else if is_word cmd (str "ls") then cmd_ls arg
  else if is_word cmd (str "mkdir") then cmd_mkdir arg
  else if is_word cmd (str "rmdir") then cmd_rmdir arg
  else if is_word cmd (str "rm") then cmd_rm arg
  else if is_word cmd (str "touch") then cmd_touch arg
  else if is_word cmd (str "cat") then cmd_cat arg
  else if is_word cmd (str "echo") then cmd_echo rest
  else if is_word cmd (str "whoami") then println (str "root")
  else if is_word cmd (str "uname") then b ← banner; println b
  else if is_word cmd (str "clear") then print clear_screen
  else cmd_exec cmd args.

Definition is_exit (line : text) : bool := is_word line (str "exit") || is_word line (str "halt") || is_word line (str "poweroff") || is_word line (str "shutdown").
(** The inner loop of [main]; whether it ended within [n] calls. *)
Fixpoint reap (n : nat) : SH bool :=
  match n with
  | O => mret false
  | S n => r ← call os_waitpid; if r <=? 0 then mret true else reap n
  end.
(** The loop of [main], for [n] rounds of [reaps] calls each at most; whether it ended. *)
Fixpoint main_loop (reaps n : nat) : SH bool :=
  match n with
  | O => mret false
  | S n =>
      print_prompt;;
      r ← call os_read_line;
      match r with
      | None | Some [] => println ([10] ++ str "[init] stdin closed " ++ [0x2014] ++ str " halting");; mret true
      | Some line =>
          let line := str_trim line in
          match line with
          | [] => main_loop reaps n
          | _ =>
              if is_exit line then mret true
              else run_line line;; ok ← reap reaps; if ok : bool then main_loop reaps n else mret false
          end
      end
  end.
Definition main (reaps n : nat) : SH bool :=
  print clear_screen;; b ← banner; println b;;
  println (str "Type 'help' for available commands." ++ [10]);;
  ok ← main_loop reaps n; if ok : bool then println (str "[init] done");; mret true else mret false.
End shell.
End Init.
Import Init.

(** ** Text *)

Lemma skip_while_id p (l : text) : (forall c, c ∈ List.firstn 1 l -> p c = false) -> skip_while p l = l.
Proof. destruct l as [|c l]; intros Hc; [done|]. cbn. by rewrite Hc by left. Qed.
(** A text that neither starts nor ends with white space. *)
Definition trimmed (s : text) : Prop := s <> [] /\ (forall c, s !! O = Some c -> char_whitespace c = false) /\ (forall c, reverse s !! O = Some c -> char_whitespace c = false).
Lemma skip_trimmed (a l : text) : Forall (fun c => char_whitespace c = true) a -> (forall c, l !! O = Some c -> char_whitespace c = false) -> skip_while char_whitespace (a ++ l) = l.
Proof.
  intros Ha Hl. induction Ha as [|c a Hc _ IH]; cbn [app]; [|by cbn [skip_while]; rewrite Hc]. destruct l as [|c l]; [done|]. cbn. by rewrite (Hl c).
Qed.
Lemma lookup_app_first (s a : text) : s <> [] -> (s ++ a) !! O = s !! O.
Proof. by destruct s. Qed.
Lemma trim_spaces a s b : Forall (fun c => char_whitespace c = true) a -> Forall (fun c => char_whitespace c = true) b -> trimmed s -> str_trim (a ++ s ++ b) = s.
Proof.
  intros Ha Hb (Hn & Hf & Hl). unfold str_trim. rewrite skip_trimmed by (first [done | by rewrite lookup_app_first]).
  rewrite reverse_app, skip_trimmed by (first [by apply Forall_reverse | done]). apply reverse_involutive.
Qed.
Lemma trim_ends s a t : trimmed s -> trimmed t -> str_trim (s ++ a ++ t) = s ++ a ++ t.
Proof.
  intros (Hn & Hf & _) (Hn' & _ & Hl). pose proof (trim_spaces [] (s ++ a ++ t) [] (Forall_nil_2 _) (Forall_nil_2 _)) as Ht. cbn [app] in Ht. rewrite app_nil_r in Ht. apply Ht.
  split; [by destruct s|]. split; intros c; [rewrite lookup_app_first by done; apply Hf|].
  rewrite !reverse_app, <- app_assoc, lookup_app_first; [apply Hl|]. intros E. apply Hn'. by rewrite <- (reverse_involutive t), E.
Qed.
Lemma split_space_word w r : 32 ∉ w -> split_space (w ++ [32] ++ r) = (w, Some r).
Proof.
  induction w as [|c w IH]; intros Hw; [done|]. cbn [app split_space]. rewrite not_elem_of_cons in Hw. destruct Hw as [Hc Hw].
  rewrite (proj2 (Z.eqb_neq _ _)) by done. cbn [app] in IH. by rewrite IH.
Qed.
Lemma prefixed_ne c pat x s : x <> c -> prefixed (c :: pat) (x :: s) = false.
Proof. intros Hx. unfold prefixed. cbn [length take]. unfold bytes_eqb. apply bool_decide_eq_false. congruence. Qed.
Lemma prefixed_nil c pat : prefixed (c :: pat) [] = false.
Proof. unfold prefixed. rewrite take_nil. by apply bool_decide_eq_false. Qed.
Lemma rfind_none c pat s : c ∉ s -> rfind (c :: pat) s = None.
Proof.
  induction s as [|x s IH]; intros Hc; [cbn [rfind]; by rewrite prefixed_nil|]. cbn [rfind]. rewrite not_elem_of_cons in Hc. destruct Hc as [Hx Hc]. rewrite IH by done.
  by rewrite prefixed_ne by congruence.
Qed.
Lemma rfind_app c pat a s : c ∉ a -> rfind (c :: pat) (a ++ s) = Nat.add (length a) <$> rfind (c :: pat) s.
Proof.
  induction a as [|x a IH]; intros Hc; [cbn [app length]; by destruct (rfind _ s)|]. cbn [app rfind]. rewrite not_elem_of_cons in Hc. destruct Hc as [Hx Hc].
  rewrite IH by done. destruct (rfind _ s); [done|]. cbn. by rewrite prefixed_ne by congruence.
Qed.
(** The last arrow of a line with one arrow. *)
Lemma redirect_at (append : bool) t p : 62 ∉ t -> 62 ∉ p -> let arrow := if append then str ">>" else str ">" in
  rsplit_once arrow (t ++ [32] ++ arrow ++ [32] ++ p) = Some (t ++ [32], 32 :: p) /\ (append = false -> rsplit_once (str ">>") (t ++ [32] ++ arrow ++ [32] ++ p) = None).
Proof.
  intros Ht Hp arrow.
  assert (62 ∉ t ++ [32]) as Ht' by (rewrite elem_of_app, list_elem_of_singleton; intros [?|?]; done).
  assert (62 ∉ 32 :: p) as Hp' by (rewrite not_elem_of_cons; done).
  rewrite (app_assoc t). change ([32] ++ p) with (32 :: p). unfold rsplit_once, arrow. destruct append.
  - change (str ">>") with [62; 62]. rewrite rfind_app by done.
    assert (rfind [62; 62] ([62; 62] ++ 32 :: p) = Some O) as ->.
    { cbn [app rfind]. rewrite !(rfind_none 62 [62]) by done. fold (rfind [62; 62] (32 :: p)). cbn [rfind]. done. }
    cbn [fmap option_fmap option_map mbind option_bind]. rewrite Nat.add_0_r. split; [|done]. rewrite take_app_length. do 2 f_equal.
    rewrite <- drop_drop, drop_app_length. done.
  - change (str ">") with [62]. rewrite rfind_app by done.
    assert (rfind [62] ([62] ++ 32 :: p) = Some O) as ->.
    { cbn [app rfind]. rewrite (rfind_none 62 []) by done. done. }
    cbn [fmap option_fmap option_map mbind option_bind]. rewrite Nat.add_0_r. split.
    + rewrite take_app_length. do 2 f_equal. rewrite <- drop_drop, drop_app_length. done.
    + intros _. change (str ">>") with [62; 62]. rewrite rfind_app by done. cbn [app rfind]. rewrite (rfind_none 62 [62]) by done. done.
Qed.
Lemma skip_while_length f (l : text) : (length (skip_while f l) <= length l)%nat.
Proof. induction l as [|c l IH]; [done|]. cbn. case_match; cbn in *; lia. Qed.
(** The bound on the number of words is enough. *)
Lemma split_enough n : forall m s, (length s <= n)%nat -> (length s <= m)%nat -> split_whitespace n s = split_whitespace m s.
Proof.
  assert (forall k, split_whitespace k [] = []) as Hnil by (by intros []).
  induction n as [|n IH]; intros m s Hn Hm; [destruct s; [by rewrite !Hnil | cbn in Hn; lia]|]. destruct m as [|m]; [destruct s; [by rewrite !Hnil | cbn in Hm; lia]|].
  cbn [split_whitespace]. pose proof (skip_while_length char_whitespace s) as Hs. set (l := skip_while _ s) in *. destruct (take_while _ l) as [|c w] eqn:E; [done|].
  f_equal. destruct l as [|d l]; [done|]. apply IH; rewrite length_drop; cbn [length] in *; lia.
Qed.
Lemma words_enough n s : (length s <= n)%nat -> split_whitespace n s = words s.
Proof. intros Hn. by apply split_enough. Qed.
Lemma take_word (l : text) : Forall (fun c => char_whitespace c = false) l -> take_while (fun c => negb (char_whitespace c)) l = l.
Proof. induction 1 as [|x l Hx _ IH]; [done|]. cbn. rewrite Hx. cbn. by rewrite IH. Qed.
Lemma words_single p : trimmed p -> Forall (fun c => char_whitespace c = false) p -> words p = [p].
Proof.
  intros (Hn & Hf & _) Hp. unfold words. destruct p as [|c p]; [done|]. cbn [length split_whitespace].
  assert (skip_while char_whitespace (c :: p) = c :: p) as -> by (apply (skip_trimmed [] (c :: p)); [constructor | done]).
  rewrite (take_word (c :: p)) by done.
  rewrite drop_all. by destruct p.
Qed.

(** ** Files *)

Section files.
Context {W H : Type} {os : Os W H}.
Lemma run_echo r : run_line (str "echo" ++ [32] ++ r) = cmd_echo (str_trim r).
Proof. unfold run_line. rewrite split_space_word by (by apply (bool_decide_unpack _)). reflexivity. Qed.
Lemma run_cat r : run_line (str "cat" ++ [32] ++ r) = cmd_cat (words (str_trim r) !! O).
Proof. unfold run_line. rewrite split_space_word by (by apply (bool_decide_unpack _)). reflexivity. Qed.
(** What the system promises about the file at a path, for a process that may write it: it opens,
    cut to nothing or at its end; what is written is added; and what is read is what it holds. *)
Class FileLaws (p : text) (may_write : W -> Prop) (content : W -> bytes) (opened : W -> H -> bytes -> Prop) : Prop := {
  fl_open (append : bool) w : may_write w -> exists h w', os_open_write append p w = (inr h, w') /\ opened w' h (if append then content w else []);
  fl_write w h b d : opened w h b -> exists w', os_write_all h d w = (None, w') /\ opened w' h (b ++ d);
  fl_read w h b : opened w h b -> exists g w1 w2, os_open_read p w = (inr g, w1) /\ os_read_to_end g w1 = ((None, b), w2)
}.

End files.

(** A system of files only: a name is its own handle. *)
Definition files : Type := text -> bytes.
Definition put_file (p : text) (b : bytes) (w : files) : files := fun x => if decide (x = p) then b else w x.
Definition files_os : Os files text := {|
  os_read_line w := (Some [], w); os_release _ := None; os_current_dir _ := inr (str "/"); os_set_current_dir _ w := (None, w);
  os_read_dir _ _ := inr []; os_create_dir _ w := (None, w); os_remove_dir _ w := (None, w); os_remove_file p w := (None, put_file p [] w);
  os_exists _ _ := true; os_create p w := (None, put_file p [] w); os_open_read p w := (inr p, w); os_read_to_end h w := ((None, w h), w);
  os_open_write append p w := (inr p, if append : bool then w else put_file p [] w); os_write_all h b w := (None, put_file h (w h ++ b) w);
  os_run _ _ w := (Some (str "not found"), w); os_waitpid w := (-1, w)
|}.
Lemma files_laws p : FileLaws (os := files_os) p (fun _ => True) (fun w => w p) (fun w h b => h = p /\ w p = b).
Proof.
  constructor.
  - intros append w _. do 2 eexists. split; [reflexivity|]. split; [done|]. destruct append; [done|]. unfold put_file. by rewrite decide_True.
  - intros w h b d [-> <-]. eexists. split; [reflexivity|]. split; [done|]. unfold put_file. by rewrite decide_True.
  - intros w h b [-> <-]. do 3 eexists. split; reflexivity.
Qed.
Lemma text_trimmed (s : text) : s <> [] -> default true (char_whitespace <$> s !! O) = false -> default true (char_whitespace <$> reverse s !! O) = false -> trimmed s.
Proof. intros H1 H2 H3. split; [done|]. split; intros c E; rewrite E in *; done. Qed.
(** "olá  mundo", with an accent, appended to a file. *)
Definition demo_text : text := str "ol" ++ [0xE1] ++ str "  mundo".
Definition demo_console : console files := mk_console (put_file (str "notas") (str "a" ++ [10]) (fun _ => [])) (str "# ") [].

(** ** The session ends *)

Section session.
Context {W H : Type} {os : Os W H}.
(** [left w]: what can still be read from the standard input; the children that have ended, [K] at most. *)
Class Progress (left : W -> nat) (dead : W -> nat) (K : nat) : Prop := {
  pg_line w l w' : os_read_line w = (Some l, w') -> l <> [] -> (left w' < left w)%nat;
  pg_line_any w : (left (os_read_line w).2 <= left w)%nat;
  pg_chdir p w : (left (os_set_current_dir p w).2 <= left w)%nat;
  pg_mkdir p w : (left (os_create_dir p w).2 <= left w)%nat;
  pg_rmdir p w : (left (os_remove_dir p w).2 <= left w)%nat;
  pg_rm p w : (left (os_remove_file p w).2 <= left w)%nat;
  pg_create p w : (left (os_create p w).2 <= left w)%nat;
  pg_open_read p w : (left (os_open_read p w).2 <= left w)%nat;
  pg_read h w : (left (os_read_to_end h w).2 <= left w)%nat;
  pg_open_write a p w : (left (os_open_write a p w).2 <= left w)%nat;
  pg_write h b w : (left (os_write_all h b w).2 <= left w)%nat;
  pg_run c l w : (left (os_run c l w).2 <= left w)%nat;
  pg_wait w : (left (os_waitpid w).2 <= left w)%nat;
  pg_dead w : (dead w <= K)%nat;
  pg_reaped w : 0 < (os_waitpid w).1 -> (dead (os_waitpid w).2 < dead w)%nat
}.
Context {left dead : W -> nat} {K : nat} `{!Progress left dead K}.

(** A command that gives no input back. *)
Definition calm {A} (m : SH A) : Prop := forall s : console W, (left (world (m s).2) <= left (world s))%nat.
Lemma calm_ret {A} (a : A) : calm (mret a).
Proof. intros s. done. Qed.
Lemma calm_bind {A B} (m : SH A) (f : A -> SH B) : calm m -> (forall a, calm (f a)) -> calm (m ≫= f).
Proof. intros Hm Hf s. unfold mbind, sh_bind. specialize (Hm s). destruct (m s) as [a s']. specialize (Hf a s'). cbn [snd] in *. lia. Qed.
Lemma calm_print b : calm (print_bytes b).
Proof. intros s. done. Qed.
Lemma calm_eprintln t : calm (eprintln t).
Proof. intros s. done. Qed.
Lemma calm_ask {A} (f : W -> A) : calm (ask f).
Proof. intros s. done. Qed.
Lemma calm_call {A} (f : W -> A * W) : (forall w, (left (f w).2 <= left w)%nat) -> calm (call f).
Proof. intros Hf s. unfold call. specialize (Hf (world s)). by destruct (f (world s)). Qed.
Lemma calm_println_all l : calm (println_all l).
Proof. induction l; [apply calm_ret | apply calm_bind; [apply calm_print | done]]. Qed.
Create HintDb calm.
#[local] Hint Resolve calm_ret calm_print calm_eprintln calm_ask calm_println_all : calm.
#[local] Hint Resolve pg_line_any pg_chdir pg_mkdir pg_rmdir pg_rm pg_create pg_open_read pg_read pg_open_write pg_write pg_run pg_wait : calm.
Ltac calmly :=
  repeat first
    [ progress intros | apply calm_bind | apply calm_call | solve [eauto with calm] | case_match | progress unfold or_complain, with_operand, print, println, writeln ].
Lemma calm_run_line line : calm (run_line line).
Proof.
  unfold run_line. destruct (split_space line) as [cmd rest].
  repeat (case_match; [unfold cmd_help, cmd_pwd, cmd_cd, cmd_ls, cmd_mkdir, cmd_rmdir, cmd_rm, cmd_touch, cmd_cat, cmd_echo, echo_to_file, banner; by calmly|]).
  unfold cmd_exec. calmly.
Qed.
Lemma reap_ends n : forall s : console W, (dead (world s) < n)%nat -> (reap n s).1 = true /\ (left (world (reap n s).2) <= left (world s))%nat.
Proof.
  induction n as [|n IH]; intros s Hn; [lia|]. cbn [reap]. unfold call, mbind, sh_bind. pose proof (pg_wait (world s)) as Hl.
  pose proof (pg_reaped (world s)) as Hr. destruct (os_waitpid (world s)) as [r w]. cbn [fst snd] in *. destruct (Z.leb_spec r 0) as [|Hp]; [done|].
  specialize (Hr Hp). destruct (IH (mk_console w (stdout s) (stderr s))) as [H1 H2]; [cbn [world]; lia|]. split; [done|]. cbn [world] in H2. lia.
Qed.
Lemma main_loop_ends n : forall s : console W, (left (world s) < n)%nat -> (main_loop (S K) n s).1 = true.
Proof.
  induction n as [|n IH]; intros s Hn; [lia|]. cbn [main_loop]. unfold mbind, sh_bind.
  assert (calm print_prompt) as Hp by (unfold print_prompt; calmly). specialize (Hp s). destruct (print_prompt s) as [[] s1]. cbn [snd] in Hp.
  unfold call at 1. pose proof (pg_line (world s1)) as Hl. destruct (os_read_line (world s1)) as [[line|] w]; [|done]. destruct line as [|c line]; [done|].
  specialize (Hl _ _ eq_refl ltac:(discriminate)). set (s2 := mk_console w _ _). assert (world s2 = w) as Ew by done. clearbody s2. destruct (str_trim (c :: line)) as [|d l]; [apply IH; rewrite Ew; lia|].
  destruct (is_exit (d :: l)); [done|]. pose proof (calm_run_line (d :: l) s2) as Hr. destruct (run_line (d :: l) s2) as [[] s3]. cbn [snd] in Hr.
  destruct (reap_ends (S K) s3) as [H1 H2]; [pose proof (pg_dead (world s3)); lia|]. destruct (reap (S K) s3) as [ok s4]. cbn [fst snd] in *. subst ok.
  apply IH. rewrite Ew in Hr. lia.
Qed.
(** The userspace init ends its session, whatever its commands do, once its input is used up: no
    command and no child that ends can keep it in one of its loops. *)
Theorem init_session_ends (s : console W) : (main (S K) (S (left (world s))) s).1 = true.
Proof.
  unfold main, mbind, sh_bind. assert (calm banner) as Hb by (unfold banner; calmly).
  assert (forall t, calm (println t)) as Hp by (intros t; apply calm_print). assert (calm (print clear_screen)) as H1 by apply calm_print. specialize (H1 s).
  destruct (print clear_screen s) as [[] s1]. pose proof (Hb s1) as H2. destruct (banner s1) as [b s2].
  pose proof (Hp b s2) as H3. destruct (println b s2) as [[] s3].
  pose proof (Hp (str "Type 'help' for available commands." ++ [10]) s3) as H4. destruct (println _ s3) as [[] s4]. cbn [snd] in *.
  pose proof (main_loop_ends (S (left (world s))) s4 ltac:(lia)) as E. destruct (main_loop (S K) _ s4) as [ok s5]. cbn [fst] in E. subst ok. done.
Qed.
End session.

(** [names.sort()]: the listing has the names it was given, in order. *)
Lemma text_le_total a : forall b, text_le a b = true \/ text_le b a = true.
Proof. induction a as [|x a IH]; intros [|y b]; cbn; auto. destruct (IH b) as [E|E]; rewrite E; ztest; cbn; auto; lia. Qed.
Lemma insert_name_perm x l : insert_name x l ≡ₚ x :: l.
Proof. induction l as [|y l IH]; [done|]. cbn. case_match; [done|]. rewrite IH. constructor. Qed.
Lemma insert_name_sorted x l : Sorted (fun a b => text_le a b = true) l -> Sorted (fun a b => text_le a b = true) (insert_name x l).
Proof.
  induction 1 as [|y l Hs IH Hy]; cbn; [by repeat constructor|]. destruct (text_le x y) eqn:E; [constructor; by constructor|].
  constructor; [done|]. destruct (text_le_total x y) as [E'|E']; [congruence|].
  destruct l as [|z l]; cbn; [by constructor|]. inversion Hy; subst. case_match; by constructor.
Qed.
Lemma sort_names_exact l : sort_names l ≡ₚ l /\ Sorted (fun a b => text_le a b = true) (sort_names l).
Proof.
  induction l as [|x l [IH1 IH2]]; [split; [done | constructor]|]. change (sort_names (x :: l)) with (insert_name x (sort_names l)).
  split; [rewrite insert_name_perm; by constructor | by apply insert_name_sorted].
Qed.
